(* ===== verification/_CoqProject ===== *)
-Q . S2P
Prelude.v
Monad.v
Unicode.v
Sha256.v
Json.v
Regex.v
Paths.v
StructureModel.v
StructureLines.v
StructureValidate.v
StructureSound.v
StructureParse.v
StructureBuild.v
StructureInvariant.v
StructureTotal.v
StructureHeaders.v
StructureViews.v
StructureViewsProof.v
Retirement.v
RetirementProof.v
CorpusDiff.v
CorpusDiffProof.v
Quota.v
QuotaProof.v
QuotaSpec.v
Rotation.v
RotationProof.v
Ocr.v
OcrProof.v
Controls.v
Gc.v
GcProof.v
GcSafety.v
Bounded.v
BoundedProof.v
Revision.v
RevisionProof.v
Compact.v
CompactProof.v
CompactPage.v
CompactPageProof.v
Store.v
StoreProof.v
StoreSafety.v
StoreRoots.v
StoreRuns.v
Updater.v
UpdaterProof.v
UpdaterPoll.v
UpdaterContract.v
UpdaterRuns.v
Webdav.v
Publish.v
PublishProof.v
BundleProof.v
BundleRead.v
PublishRuns.v
