(* ===== verification/Prelude.v ===== *)
(** * CardRAG verification library

    CardRAG turns the product disclosures of card issuers into an immutable, searchable
    bundle.  A finite worker ([src/apps/cardrag-worker]) collects documents, reads them with
    OCR, parses their structure and publishes generations to a WebDAV store; a read-only
    server ([src/apps/cardrag-mcp]) installs a generation and answers queries from it; both
    share the contracts of [src/packages/cardrag-core].  The code is fail-closed: a step
    that cannot prove its claim raises.  This library models the parts that carry those
    claims and proves them.  Below, [core/], [worker/] and [mcp/] abbreviate the three
    source directories.

    ** Conventions

    A Python call is a value of [res]: a result, or the exception it raises, by class and
    message where the message is a literal.  Loops that thread a state are [foldM], loops
    that only check are [forM], a dictionary is an association list in insertion order
    where the order can be seen and a finite map otherwise, integers are [Z] with the
    bounds the code checks.  A record carries the fields of the dataclass of that name and a
    definition the name of its function.  SHA-256 is executable ([Sha256]); that different
    inputs have different hashes is never assumed: where identity rests on it the theorem
    has the separation of the hashed values as a hypothesis, or concludes with a collision.

    ** Files

    Ground: [Prelude] (error monad, loops, sorting, dictionaries, tactics), [Unicode] (text
    and UTF-8), [Sha256], [Json] (core/canonical.py: [canonical_json_bytes] determines its
    value), [Regex] (the patterns of the source, run by derivatives).

    - [Paths]: core/paths.py and [issuer_code] of core/domain.py.  What
      [validate_relative_path] accepts, and that every built path is accepted.
    - [StructureModel], [StructureLines], [StructureValidate], [StructureParse],
      [StructureViews]: worker/structure.py, its records and identities, the reading of
      lines, the validator, the parser with its lossless fallback, and the derived views.
      [StructureSound] (what the validator accepts), [StructureBuild] (what it needs to
      accept), [StructureInvariant] (the state machine), [StructureTotal] (what the entry
      points return), [StructureHeaders] (when tables keep their headers),
      [StructureViewsProof] (views).  Together: an artifact has exactly the source lines as
      leaves, in order; the fallback accepts every checked document; splitting loses nothing.
    - [Retirement], [RetirementProof]: worker/retirement.py, the pass that decides whether an
      absent document is retired: with complete evidence and grace only, boundedly many.
    - [CorpusDiff], [CorpusDiffProof]: worker/corpus_diff.py, the document identities of
      worker/contracts.py and the resolver of worker/pipeline.py that calls the retirement
      pass.  A passed gate accounts for every document of the prior corpus.
    - [Revision], [RevisionProof]: worker/revision_history_v5.py, the plan of the contract
      revisions a product had, from the rows of worker/state.py.
    - [Quota], [QuotaProof], [QuotaSpec]: mcp/quota.py, storage accounting of the server as
      an abstract account ([QuotaSpec]) that the state root with its record files refines.
    - [Rotation], [RotationProof]: worker/rotation.py, the issuer of the day and its attempts.
    - [Ocr], [OcrProof]: core/ocr.py, verification of OCR bytes and the reuse keys.
    - [Controls]: the control files of the store (core/manifests.py, core/domain.py) behind
      the interface [ControlCodec], since pydantic parses them.
    - [Gc], [GcProof], [GcSafety]: worker/gc.py with its table in worker/state.py, mark and
      sweep of the remote store against publishers that go on meanwhile.
    - [Bounded], [BoundedProof]: worker/bounded.py, the worker pool as a step relation over
      all interleavings: its invariant, its results, its limits, and that it drains.
    - [Compact], [CompactProof]: the clause groups of mcp/compact.py over the nodes of
      mcp/models.py, trees as mcp/schema_v5.py admits them: a group is a least closed set.
    - [CompactPage], [CompactPageProof]: the merge of groups into bundles and the sealing of a
      compact page within its byte budget, with the checks of the page models.

    How they meet: the parser consumes lines the OCR verification accepts and hashes through
    [Json]; the gate of [CorpusDiff] calls the resolver that runs [Retirement]; its documents
    carry the links [Revision] plans; [Gc] walks [Controls] files whose paths are those of
    [Paths].

    ** Theorems

    Each property is marked with its number.  Losslessness and coverage: of the parser, the
    validator, the views, the corpus gate, the revision plan, clause groups and
    compact pages.  Safety over interleavings: the quota, the garbage collection, the pool.
    Round trips: OCR bytes, quota records.  Refinement and equivalence: the quota account,
    tree usage, clause groups.  Termination and liveness: the stack walk over nodes, the
    pool, the fallback, releasing a reservation.  Refusals: what each kind
    of exception says of the input, among them inputs the code refuses or accepts against
    its own comments; these are the findings of the manifest.

    ** Bounds and fuel

    Recursions follow the data, except the rotation over the groups of the pool (one round,
    as in the code), the loops of [Compact] (fuel the number of nodes, enough on a checked
    tree: the theorem on clause groups has a result), the generation chain of [Gc] (one
    step per retained generation, as in the code), the stack walks of [StructureViews]
    (fuel the number of nodes, enough on an accepted artifact by the theorem on its walk)
    and the rounds of SHA-256 (fixed).

    ** Not modelled

    Network, files, SQLite, subprocesses and remote models are arguments (a server, a
    resolver, an operation with its outcomes) or left out; so are pydantic's parsing, log
    lines and metrics.  Float arithmetic occurs only in the retirement ratio, as IEEE
    doubles; the exact search of the server multiplies float32 matrices and would take its
    scores as an argument.  JSON values are without floats.  A time stamp is read in the
    form the worker writes it.  The scraping of issuer sites, the release and evaluation
    tools and the command line are glue.

    ** Plan

    Next: the generation store and the updater of the server (activation, pinning,
    eviction), the ranking of mcp/exact.py with scores as an argument, the publication
    protocol of core/cas.py over a server, the input checks of worker/exporter_v5.py. *)
From Stdlib Require Export Lia Sorting.Sorted.
From stdpp Require Export base strings numbers gmap list.

#[global] Open Scope Z_scope.

(** ** Exceptions and the error monad

    A Python call either returns or raises.  [exn] keeps the exception classes
    the modelled code raises, with the message where the message is a plain
    literal of the source, [Raised] any other class by name.  [OutOfFuel] is no
    exception of the program: it marks a bounded loop of the model that was cut
    short, and a theorem about each such loop shows it does not occur. *)
Inductive exn : Type :=
| ValueError (message : string)
| TypeError (message : string)
| KeyError
| IndexError
| StructureValidationError (message : string)
| CapacityError (message : string)
| Raised (class message : string)
| OutOfFuel.

#[export] Instance exn_eq_dec : EqDecision exn.
Proof. solve_decision. Defined.

Inductive res (A : Type) : Type :=
| Ok (a : A)
| Err (e : exn).
Arguments Ok {A} _.
Arguments Err {A} _.

Definition res_bind {A B} (m : res A) (k : A -> res B) : res B :=
  match m with
  | Ok a => k a
  | Err e => Err e
  end.

Declare Scope res_scope.
Delimit Scope res_scope with res.
Notation "'let!' x ':=' m 'in' k" := (res_bind m (fun x => k))
  (at level 10, x pattern, m at level 100, k at level 200,
   format "'[v' 'let!'  x  ':='  m  'in' '/' k ']'") : res_scope.
#[global] Open Scope res_scope.

(** [raise_if c e] is the source's [if c: raise e]. *)
Definition raise_if (c : bool) (e : exn) : res unit :=
  if c then Err e else Ok tt.

Definition is_ok {A} (m : res A) : bool :=
  match m with Ok _ => true | Err _ => false end.

(** [of_option] is a subscription that raises when the entry is absent. *)
Definition of_option {A} (e : exn) (o : option A) : res A :=
  match o with Some a => Ok a | None => Err e end.

(** A [for] loop that threads a state and stops at the first exception. *)
Fixpoint foldM {A S} (f : S -> A -> res S) (s : S) (l : list A) : res S :=
  match l with
  | [] => Ok s
  | a :: l => let! s' := f s a in foldM f s' l
  end.

(** A comprehension whose element expression can raise. *)
Fixpoint mapM_res {A B} (f : A -> res B) (l : list A) : res (list B) :=
  match l with
  | [] => Ok []
  | a :: l => let! b := f a in let! bs := mapM_res f l in Ok (b :: bs)
  end.

(** A [for] loop whose body only raises. *)
Fixpoint forM {A} (f : A -> res unit) (l : list A) : res unit :=
  match l with
  | [] => Ok tt
  | a :: l => let! _ := f a in forM f l
  end.

(** The [enumerate] of Python. *)
Fixpoint enumerate_from {A} (n : Z) (l : list A) : list (Z * A) :=
  match l with
  | [] => []
  | a :: l => (n, a) :: enumerate_from (n + 1) l
  end.
Definition enumerate {A} (l : list A) : list (Z * A) := enumerate_from 0 l.

(** A dictionary built by assignment, in insertion order: a key keeps its first
    position and its last value. *)
Fixpoint dict_set {K V} `{EqDecision K} (k : K) (v : V) (d : list (K * V)) : list (K * V) :=
  match d with
  | [] => [(k, v)]
  | (k', v') :: d => if decide (k = k') then (k, v) :: d else (k', v') :: dict_set k v d
  end.
Definition dict_of {K V} `{EqDecision K} (l : list (K * V)) : list (K * V) :=
  fold_left (fun d kv => dict_set kv.1 kv.2 d) l [].

Fixpoint dict_get {K V} `{EqDecision K} (k : K) (d : list (K * V)) : option V :=
  match d with
  | [] => None
  | (k', v) :: d => if decide (k = k') then Some v else dict_get k d
  end.

Definition zlen {A} (l : list A) : Z := Z.of_nat (length l).

(** ** Monad lemmas *)
Create HintDb structure.
Create Rewrite HintDb res.
Create Rewrite HintDb zlen.

Lemma bind_ok {A B} (m : res A) (k : A -> res B) b :
  res_bind m k = Ok b <-> exists a, m = Ok a /\ k a = Ok b.
Proof.
  destruct m as [a|e]; simpl; split; intros H.
  - eauto.
  - destruct H as (a' & [= ->] & H). exact H.
  - discriminate.
  - destruct H as (a' & H & _). discriminate.
Qed.

Lemma raise_if_ok c e x : raise_if c e = Ok x <-> c = false.
Proof. destruct x, c; simpl; split; congruence. Qed.

Lemma of_option_ok {A} e (o : option A) a : of_option e o = Ok a <-> o = Some a.
Proof. destruct o; simpl; split; congruence. Qed.

#[export] Hint Rewrite @bind_ok raise_if_ok @of_option_ok : res.

(** [inv_res H] opens a hypothesis [m = Ok _] into the successful steps of [m]. *)
Ltac inv_res_step H :=
  cbv zeta in H;
  lazymatch type of H with
  | res_bind _ _ = Ok _ =>
      let a := fresh "r" in let H1 := fresh "Hr" in
      apply bind_ok in H; destruct H as (a & H1 & H); inv_res_step H1; inv_res_step H
  | raise_if _ _ = Ok _ => apply raise_if_ok in H
  | of_option _ _ = Ok _ => apply of_option_ok in H
  | Ok _ = Ok _ => injection H; clear H; intros; try subst
  | Err _ = Ok _ => discriminate H
  | _ => idtac
  end.
Tactic Notation "inv_res" hyp(H) := inv_res_step H.

Lemma foldM_app {A S} (f : S -> A -> res S) s l1 l2 :
  foldM f s (l1 ++ l2) = (let! s' := foldM f s l1 in foldM f s' l2).
Proof. revert s. induction l1 as [|a l1 IH]; intros s; simpl; [done|]. by destruct (f s a); simpl. Qed.

(** Loop invariant rule for loops that always succeed: the invariant speaks of
    the elements already processed. *)
Lemma foldM_invariant {A S} (f : S -> A -> res S) (I : list A -> S -> Prop) s l :
  I [] s ->
  (forall done a rest st, l = done ++ a :: rest -> I done st ->
     exists st', f st a = Ok st' /\ I (done ++ [a]) st') ->
  exists s', foldM f s l = Ok s' /\ I l s'.
Proof.
  intros H0 Hstep.
  assert (forall rest done st, l = done ++ rest -> I done st ->
            exists s', foldM f st rest = Ok s' /\ I l s') as Hgen.
  { induction rest as [|a rest IH]; intros done st Hl Hst; simpl.
    - rewrite app_nil_r in Hl. subst. eauto.
    - destruct (Hstep done a rest st Hl Hst) as (st' & -> & Hst'). simpl.
      apply (IH (done ++ [a])); [by rewrite <- app_assoc | done]. }
  by apply (Hgen l []).
Qed.

(** Partial form: the invariant holds of whatever the loop returns. *)
Lemma foldM_ok_invariant {A S} (f : S -> A -> res S) (I : list A -> S -> Prop) s l s' :
  I [] s ->
  (forall done a rest st st', l = done ++ a :: rest -> I done st -> f st a = Ok st' -> I (done ++ [a]) st') ->
  foldM f s l = Ok s' -> I l s'.
Proof.
  intros H0 Hstep.
  assert (forall rest done st, l = done ++ rest -> I done st ->
            foldM f st rest = Ok s' -> I l s') as Hgen.
  { induction rest as [|a rest IH]; intros done st Hl Hst; simpl.
    - rewrite app_nil_r in Hl. subst. intros [= <-]. done.
    - intros H. inv_res H. apply (IH (done ++ [a]) r); [by rewrite <- app_assoc | | done].
      by eapply Hstep. }
  by apply (Hgen l []).
Qed.

Lemma forM_ok {A} (f : A -> res unit) l :
  forM f l = Ok tt <-> Forall (fun a => f a = Ok tt) l.
Proof.
  induction l as [|a l IH]; simpl; [by split|].
  split.
  - intros H. inv_res H. destruct r. constructor; [done|]. by apply IH.
  - inversion 1 as [|? ? Ha Hl]; subst. rewrite Ha. simpl. by apply IH.
Qed.

(** A loop whose body can only fail in one way. *)
Lemma forM_first {A} (f : A -> res unit) l (b : bool) e :
  (forall a, a ∈ l -> f a = Ok tt \/ f a = Err e) -> (b = true <-> Forall (fun a => f a = Ok tt) l) ->
  forM f l = raise_if (negb b) e.
Proof.
  intros Hf Hb. destruct b; cbn [negb raise_if]; [by apply forM_ok, Hb|].
  assert (~ Forall (fun a => f a = Ok tt) l) as Hn by (intros H; by apply Hb in H). clear Hb.
  induction l as [|a l IH]; [by destruct Hn|]. cbn [forM].
  destruct (Hf a (list_elem_of_here _ _)) as [Ha|Ha]; rewrite Ha; cbn [res_bind]; [|done].
  apply IH; [intros; apply Hf; by right|]. intros H. apply Hn. by constructor.
Qed.

Lemma mapM_res_ok {A B} (f : A -> res B) l bs :
  mapM_res f l = Ok bs <-> Forall2 (fun a b => f a = Ok b) l bs.
Proof.
  revert bs. induction l as [|a l IH]; intros bs; simpl.
  - split; [intros [= <-]; constructor | by inversion 1].
  - split.
    + intros H. inv_res H. constructor; [done|]. by apply IH.
    + inversion 1 as [|? b ? bs' Hb Hbs]; subst. rewrite Hb. simpl.
      apply IH in Hbs. by rewrite Hbs.
Qed.

Lemma mapM_res_elem {A B} (f : A -> res B) l bs b : mapM_res f l = Ok bs -> b ∈ bs -> exists a, a ∈ l /\ f a = Ok b.
Proof.
  intros H%mapM_res_ok [i Hi]%list_elem_of_lookup. destruct (Forall2_lookup_r _ _ _ _ _ H Hi) as (a & Ha & Hf).
  exists a. split; [by eapply list_elem_of_lookup_2|done].
Qed.

(** ** Which exceptions a computation can raise *)
Definition raises (P : exn -> Prop) {A} (m : res A) : Prop := forall e, m = Err e -> P e.

Lemma raises_ok P {A} (a : A) : raises P (Ok a).
Proof. done. Qed.
Lemma raises_err P {A} e : P e -> raises P (@Err A e).
Proof. by intros H _ [= <-]. Qed.
Lemma raises_raise_if (P : exn -> Prop) b e : P e -> raises P (raise_if b e).
Proof. intros H. by destruct b; [apply raises_err|]. Qed.
Lemma raises_of_option (P : exn -> Prop) {A} (o : option A) e : P e -> raises P (of_option e o).
Proof. intros H. by destruct o; [|apply raises_err]. Qed.
Lemma raises_bind P {A B} (m : res A) (k : A -> res B) :
  raises P m -> (forall a, m = Ok a -> raises P (k a)) -> raises P (let! a := m in k a).
Proof. intros Hm Hk. destruct m as [a|e]; [by apply Hk|]. intros e' [= <-]. by apply Hm. Qed.
Lemma raises_foldM P {A S} (f : S -> A -> res S) s l : (forall s a, raises P (f s a)) -> raises P (foldM f s l).
Proof. intros Hf. revert s. induction l as [|a l IH]; intros s; [done|]. cbn [foldM]. by apply raises_bind. Qed.
Lemma raises_mapM P {A B} (f : A -> res B) l : (forall a, raises P (f a)) -> raises P (mapM_res f l).
Proof. intros Hf. induction l as [|a l IH]; [done|]. cbn [mapM_res]. apply raises_bind; [done|]. intros b _. by apply raises_bind. Qed.
Lemma raises_forM P {A} (f : A -> res unit) l : (forall a, raises P (f a)) -> raises P (forM f l).
Proof. intros Hf. induction l as [|a l IH]; [done|]. cbn [forM]. by apply raises_bind. Qed.

Create HintDb raises.
(** [raises tac] goes through the code, branch by branch; [tac] proves [P] of an exception
    the code names. *)
Ltac raises tac :=
  repeat first
    [ progress cbv zeta beta
    | solve [auto with raises]
    | apply raises_ok
    | apply raises_err; solve [tac]
    | apply raises_raise_if; solve [tac]
    | apply raises_of_option; solve [tac]
    | apply raises_foldM; intros ? ?
    | apply raises_mapM; intros ?
    | apply raises_forM; intros ?
    | apply raises_bind; [|intros ? _]
    | match goal with |- raises _ (match ?x with _ => _ end) => destruct x end ].

Lemma mapM_res_total {A B} (f : A -> res B) (P : B -> Prop) l :
  (forall a, a ∈ l -> exists b, f a = Ok b /\ P b) -> exists bs, mapM_res f l = Ok bs /\ Forall P bs.
Proof.
  induction l as [|a l IH]; intros H; cbn [mapM_res]; [by exists []|].
  destruct (H a (list_elem_of_here _ _)) as (b & -> & Hb). destruct IH as (bs & -> & Hbs); [intros; apply H; by right|].
  exists (b :: bs). split; [done|by constructor].
Qed.

Lemma foldM_total {A S} (f : S -> A -> res S) s l :
  (forall s a, a ∈ l -> exists s', f s a = Ok s') -> exists s', foldM f s l = Ok s'.
Proof.
  revert s. induction l as [|a l IH]; intros s H; cbn [foldM]; [by eexists|].
  destruct (H s a (list_elem_of_here _ _)) as (s' & ->). apply IH. intros s1 a1 Ha. apply H. by right.
Qed.

Lemma mapM_res_map {A B C} (f : A -> res B) (g : B -> C) (k : A -> C) l bs :
  mapM_res f l = Ok bs -> (forall a b, a ∈ l -> f a = Ok b -> g b = k a) -> map g bs = map k l.
Proof.
  intros H%mapM_res_ok. induction H as [|a b l bs Hab _ IH]; intros Hf; [done|]. cbn [map].
  rewrite (Hf a b) by (done || constructor). f_equal. apply IH. intros a' b' Ha'. apply Hf. by right.
Qed.

Lemma enumerate_from_fst {A} n (l : list A) :
  (enumerate_from n l).*1 = seqZ n (zlen l).
Proof.
  revert n. induction l as [|a l IH]; intros n; simpl; [done|].
  unfold zlen in *. simpl. rewrite IH. rewrite (seqZ_cons n) by lia.
  f_equal. f_equal; lia.
Qed.

Lemma enumerate_from_lookup {A} n (l : list A) i :
  enumerate_from n l !! i = (fun a => (n + Z.of_nat i, a)) <$> (l !! i).
Proof.
  revert n i. induction l as [|a l IH]; intros n [|i]; simpl; try done.
  - by rewrite Z.add_0_r.
  - rewrite IH. destruct (l !! i); simpl; [|done]. do 2 f_equal. lia.
Qed.

Lemma enumerate_lookup {A} (l : list A) i :
  enumerate l !! i = (fun a => (Z.of_nat i, a)) <$> (l !! i).
Proof. unfold enumerate. rewrite enumerate_from_lookup. done. Qed.

Lemma zlen_app {A} (l1 l2 : list A) : zlen (l1 ++ l2) = zlen l1 + zlen l2.
Proof. unfold zlen. rewrite length_app. lia. Qed.
Lemma zlen_cons {A} (a : A) l : zlen (a :: l) = 1 + zlen l.
Proof. unfold zlen. simpl. lia. Qed.
Lemma zlen_nil {A} : zlen (@nil A) = 0.
Proof. done. Qed.
Lemma zlen_nonneg {A} (l : list A) : 0 <= zlen l.
Proof. unfold zlen. lia. Qed.
#[export] Hint Rewrite @zlen_app @zlen_cons @zlen_nil : zlen.
#[export] Hint Resolve zlen_nonneg : core.

(** ** Stable insertion sort

    Python's [sorted] is stable; the model sorts by insertion, from the right,
    with the key comparison of the call. *)
Section Sorting.
Context {A : Type} (leb : A -> A -> bool).

Fixpoint insert_by (a : A) (l : list A) : list A :=
  match l with
  | [] => [a]
  | b :: l' => if leb a b then a :: l else b :: insert_by a l'
  end.

Fixpoint sorted_by (l : list A) : list A :=
  match l with
  | [] => []
  | a :: l => insert_by a (sorted_by l)
  end.

Lemma insert_by_Permutation a l : Permutation (insert_by a l) (a :: l).
Proof.
  induction l as [|b l IH]; simpl; [done|].
  destruct (leb a b); [done|]. rewrite IH. apply Permutation_swap.
Qed.

Lemma sorted_by_Permutation l : Permutation (sorted_by l) l.
Proof. induction l as [|a l IH]; simpl; [done|]. by rewrite insert_by_Permutation, IH. Qed.

Hypothesis leb_total : forall a b, leb a b = true \/ leb b a = true.
Hypothesis leb_trans : forall a b c, leb a b = true -> leb b c = true -> leb a c = true.

Lemma insert_by_sorted a l :
  StronglySorted (fun x y => leb x y = true) l ->
  StronglySorted (fun x y => leb x y = true) (insert_by a l).
Proof.
  induction 1 as [|b l Hs IH Hb]; simpl; [by repeat constructor|].
  destruct (leb a b) eqn:E.
  - constructor; [by constructor|]. constructor; [done|].
    eapply Forall_impl; [exact Hb|]. eauto.
  - constructor; [done|].
    rewrite insert_by_Permutation. constructor; [|done].
    destruct (leb_total a b); congruence.
Qed.

Lemma sorted_by_sorted l : StronglySorted (fun x y => leb x y = true) (sorted_by l).
Proof. induction l; simpl; [constructor|]. by apply insert_by_sorted. Qed.
End Sorting.

(** A list already in order is left alone (stability, in its simplest form). *)
Lemma insert_by_head {A} (leb : A -> A -> bool) a l :
  Forall (fun b => leb a b = true) l -> insert_by leb a l = a :: l.
Proof. by destruct 1 as [|b l Hb]; simpl; [|rewrite Hb]. Qed.

Lemma sorted_by_id {A} (leb : A -> A -> bool) l :
  StronglySorted (fun x y => leb x y = true) l -> sorted_by leb l = l.
Proof. induction 1 as [|a l Hs IH Ha]; simpl; [done|]. rewrite IH. by apply insert_by_head. Qed.

(** Two sorted permutations under an antisymmetric order are equal. *)
Lemma sorted_perm_unique {A} (R : A -> A -> Prop) l1 l2 :
  (forall a b, R a b -> R b a -> a = b) ->
  StronglySorted R l1 -> StronglySorted R l2 -> Permutation l1 l2 -> l1 = l2.
Proof.
  intros Hanti Hs1. revert l2. induction Hs1 as [|a l1 Hs1 IH Ha]; intros l2 Hs2 Hp.
  - by apply Permutation_nil_l in Hp.
  - destruct Hs2 as [|b l2 Hs2 Hb]; [by apply Permutation_nil_r in Hp|].
    assert (a = b) as ->.
    { assert (a ∈ b :: l2) as Hin by (rewrite <- Hp; left).
      assert (b ∈ a :: l1) as Hin' by (rewrite Hp; left).
      apply elem_of_cons in Hin as [->|Hin]; [done|].
      apply elem_of_cons in Hin' as [->|Hin']; [done|].
      rewrite Forall_forall in Ha, Hb. apply Hanti; [by apply Ha | by apply Hb]. }
    f_equal. apply IH; [done|]. by eapply Permutation_cons_inv.
Qed.

(** ** Booleans *)
Lemma dict_set_fresh {K V} `{EqDecision K} (k : K) (v : V) d : k ∉ d.*1 -> dict_set k v d = d ++ [(k, v)].
Proof.
  induction d as [|[k' v'] d IH]; cbn; intros Hk; [done|]. apply not_elem_of_cons in Hk as [Hne Hk].
  rewrite decide_False by done. by rewrite IH.
Qed.

Lemma dict_of_NoDup {K V} `{EqDecision K} (l : list (K * V)) : NoDup l.*1 -> dict_of l = l.
Proof.
  unfold dict_of. intros H.
  assert (forall d, NoDup (d ++ l).*1 -> fold_left (fun d kv => dict_set kv.1 kv.2 d) l d = d ++ l) as Hgen;
    [|by apply (Hgen [])].
  clear H. induction l as [|[k v] l IH]; intros d Hnd; cbn; [by rewrite app_nil_r|].
  rewrite fmap_app in Hnd. cbn in Hnd. rewrite dict_set_fresh.
  - rewrite IH; [by rewrite <- app_assoc|]. rewrite <- app_assoc. by rewrite fmap_app.
  - apply NoDup_app in Hnd as (_ & H & _). intros Hk. apply (H k Hk). by left.
Qed.

Lemma dict_get_set {K V} `{EqDecision K} (k k' : K) (v : V) d :
  dict_get k (dict_set k' v d) = if decide (k = k') then Some v else dict_get k d.
Proof.
  induction d as [|[k1 v1] d IH]; cbn; [done|]. destruct (decide (k' = k1)) as [->|Hne]; cbn.
  - by destruct (decide (k = k1)).
  - rewrite IH. destruct (decide (k = k1)) as [->|]; [|done]. by rewrite decide_False.
Qed.

Lemma dict_get_None {K V} `{EqDecision K} (k : K) (d : list (K * V)) : dict_get k d = None <-> k ∉ d.*1.
Proof.
  induction d as [|[k1 v1] d IH]; cbn; [by split; [intros _ ?%not_elem_of_nil|]|].
  rewrite not_elem_of_cons. destruct (decide (k = k1)) as [->|]; [naive_solver|]. rewrite IH. naive_solver.
Qed.

Lemma dict_get_elem {K V} `{EqDecision K} (k : K) (v : V) d : dict_get k d = Some v -> (k, v) ∈ d.
Proof.
  induction d as [|[k1 v1] d IH]; cbn; [done|]. destruct (decide (k = k1)) as [->|]; [intros [= ->]; left|].
  intros H. right. auto.
Qed.

Lemma dict_set_keys {K V} `{EqDecision K} (k : K) (v : V) d x : x ∈ (dict_set k v d).*1 <-> x = k \/ x ∈ d.*1.
Proof.
  induction d as [|[k1 v1] d IH]; cbn; [rewrite list_elem_of_singleton; rewrite elem_of_nil; tauto|].
  destruct (decide (k = k1)) as [->|]; cbn; rewrite !elem_of_cons; [tauto|]. rewrite IH. tauto.
Qed.

Lemma dict_set_NoDup {K V} `{EqDecision K} (k : K) (v : V) d : NoDup d.*1 -> NoDup (dict_set k v d).*1.
Proof.
  induction d as [|[k1 v1] d IH]; cbn; intros H; [apply NoDup_singleton|].
  apply NoDup_cons in H as [H1 H2]. destruct (decide (k = k1)) as [->|Hne]; cbn; apply NoDup_cons; split; auto.
  rewrite dict_set_keys. intros [->|]; done.
Qed.

Lemma dict_of_NoDup_keys {K V} `{EqDecision K} (l : list (K * V)) : NoDup (dict_of l).*1.
Proof.
  unfold dict_of. assert (forall d, NoDup d.*1 -> NoDup (fold_left (fun d kv => dict_set kv.1 kv.2 d) l d).*1) as H;
    [|apply (H []), NoDup_nil_2].
  induction l as [|[k v] l IH]; intros d Hd; cbn; [done|]. by apply IH, dict_set_NoDup.
Qed.

Lemma dict_get_of_elem {K V} `{EqDecision K} (k : K) (v : V) d : NoDup d.*1 -> (k, v) ∈ d -> dict_get k d = Some v.
Proof.
  induction d as [|[k1 v1] d IH]; cbn; intros Hnd Hin; [by apply not_elem_of_nil in Hin|].
  apply NoDup_cons in Hnd as [Hk Hnd]. apply elem_of_cons in Hin as [[= -> ->]|Hin]; [by rewrite decide_True|].
  rewrite decide_False; [by apply IH|]. intros ->. apply Hk. apply list_elem_of_fmap. by exists (k1, v).
Qed.

Lemma map_NoDup_inj {A B} (f : A -> B) l x y : NoDup (map f l) -> x ∈ l -> y ∈ l -> f x = f y -> x = y.
Proof.
  induction l as [|a l IH]; cbn; intros Hnd Hx Hy E; [by apply not_elem_of_nil in Hx|]. apply NoDup_cons in Hnd as [Hn Hnd].
  apply elem_of_cons in Hx as [->|Hx]; apply elem_of_cons in Hy as [->|Hy]; auto; destruct Hn.
  - rewrite E. apply list_elem_of_fmap. by exists y.
  - rewrite <- E. apply list_elem_of_fmap. by exists x.
Qed.

Lemma existsb_elem {A} (f : A -> bool) l :
  existsb f l = true <-> exists a, a ∈ l /\ f a = true.
Proof. rewrite existsb_exists. by setoid_rewrite list_elem_of_In. Qed.

Lemma forallb_Forall {A} (f : A -> bool) l : forallb f l = true <-> Forall (fun a => f a = true) l.
Proof. by rewrite forallb_forall, List.Forall_forall. Qed.

Lemma filter_none {A} (P : A -> Prop) `{!forall x, Decision (P x)} l : Forall (fun x => ~ P x) l -> filter P l = [].
Proof. induction 1 as [|x l Hx _ IH]; [done|]. by rewrite filter_cons_False. Qed.

Lemma filter_all {A} (P : A -> Prop) `{!forall x, Decision (P x)} l : Forall P l -> filter P l = l.
Proof. induction 1 as [|x l Hx _ IH]; [done|]. rewrite filter_cons_True by done. by rewrite IH. Qed.

(** [bsplit] splits the conjunction of boolean tests a guard is made of. *)
Ltac bsplit :=
  repeat match goal with
  | H : (_ && _)%bool = true |- _ => apply andb_true_iff in H; destruct H
  | H : (_ || _)%bool = false |- _ => apply orb_false_iff in H; destruct H
  | H : negb _ = true |- _ => apply negb_true_iff in H
  | H : negb _ = false |- _ => apply negb_false_iff in H
  | H : bool_decide _ = true |- _ => apply bool_decide_eq_true in H
  | H : bool_decide _ = false |- _ => apply bool_decide_eq_false in H
  end.
