(* ===== verification/Monad.v ===== *)
(** A monad of state and exceptions for the components whose operations change what they
    share: an exception keeps the state reached.  [ends] and [runs] are the rules by which
    the properties of such operations are proved. *)
From S2P Require Export Prelude.

Definition ST (S A : Type) : Type := S -> res A * S.

Section Operations.
Context {S : Type}.
Definition ret {A} (a : A) : ST S A := fun s => (Ok a, s).
Definition throw {A} (e : exn) : ST S A := fun s => (Err e, s).
Definition lift {A} (m : res A) : ST S A := fun s => (m, s).
Definition bindM {A B} (m : ST S A) (k : A -> ST S B) : ST S B :=
  fun s => match m s with (Ok a, s') => k a s' | (Err e, s') => (Err e, s') end.
(** [try: m except Exception: handle]. *)
Definition catch {A} (m : ST S A) (handle : exn -> ST S A) : ST S A :=
  fun s => match m s with (Ok a, s') => (Ok a, s') | (Err e, s') => handle e s' end.
End Operations.
Declare Scope store_scope.
Notation "'let*' x ':=' m 'in' k" := (bindM m (fun x => k))
  (at level 10, x pattern, m at level 100, k at level 200,
   format "'[v' 'let*'  x  ':='  m  'in' '/' k ']'") : store_scope.
#[global] Open Scope store_scope.
Fixpoint iterM {S A} (f : A -> ST S unit) (l : list A) : ST S unit :=
  match l with [] => ret tt | a :: l => let* _ := f a in iterM f l end.

(** ** What holds of the state an operation ends in, however it ends

    [ends P m s]: the run of [m] from [s] ends in a state with [P]. *)
Definition ends {S} (P : S -> Prop) {A} (m : ST S A) (s : S) : Prop := forall r s', m s = (r, s') -> P s'.

Section Ends.
Context {S : Type} (P : S -> Prop).
Lemma ends_ret {A} (a : A) s : P s -> ends P (ret a) s.
Proof. by intros H r s' [= <- <-]. Qed.
Lemma ends_throw {A} e s : P s -> ends P (@throw S A e) s.
Proof. by intros H r s' [= <- <-]. Qed.
Lemma ends_lift {A} (m : res A) s : P s -> ends P (lift m) s.
Proof. by intros H r s' [= <- <-]. Qed.
Lemma ends_bind {A B} (m : ST S A) (k : A -> ST S B) s :
  (forall e s1, m s = (Err e, s1) -> P s1) -> (forall a s1, m s = (Ok a, s1) -> ends P (k a) s1) -> ends P (let* a := m in k a) s.
Proof.
  intros He Hk r s' H. unfold bindM in H. destruct (m s) as [[a|e] s1]; [by eapply Hk|]. injection H as _ <-. by eapply He.
Qed.
Lemma ends_bind_lift {A B} (m : res A) (k : A -> ST S B) s :
  P s -> (forall a, m = Ok a -> ends P (k a) s) -> ends P (let* a := lift m in k a) s.
Proof. intros Hs Hk. apply ends_bind; [by intros e s1 [= -> <-]|]. intros a s1 [= -> <-]. by apply Hk. Qed.
Lemma ends_iter {A} (f : A -> ST S unit) l s : P s -> (forall a s, P s -> ends P (f a) s) -> ends P (iterM f l) s.
Proof.
  intros Hs Hf. revert s Hs. induction l as [|a l IH]; intros s Hs; cbn [iterM]; [by apply ends_ret|].
  apply ends_bind; [by intros e s1 H; eapply Hf|]. intros u s1 H. apply IH. by eapply Hf.
Qed.
End Ends.

(** The same with the result: [runs Q m s] is [Q] of how the run of [m] from [s] ends. *)
Definition runs {S A} (Q : res A -> S -> Prop) (m : ST S A) (s : S) : Prop := forall r s', m s = (r, s') -> Q r s'.
Section Runs.
Context {S B : Type} (Q : res B -> S -> Prop).
Lemma runs_ret b s : Q (Ok b) s -> runs Q (ret b) s.
Proof. by intros H r s' [= <- <-]. Qed.
Lemma runs_throw e s : Q (Err e) s -> runs Q (throw e) s.
Proof. by intros H r s' [= <- <-]. Qed.
Lemma runs_lift m s : Q m s -> runs Q (lift m) s.
Proof. by intros H r s' [= <- <-]. Qed.
Lemma runs_bind {A} (m : ST S A) (k : A -> ST S B) s :
  runs (fun r s1 => match r with Ok a => runs Q (k a) s1 | Err e => Q (Err e) s1 end) m s -> runs Q (let* a := m in k a) s.
Proof.
  intros H r s' Hrun. unfold bindM in Hrun. destruct (m s) as [[a|e] s1] eqn:E; [exact (H _ _ E _ _ Hrun)|]. injection Hrun as <- <-. exact (H _ _ E).
Qed.
Lemma runs_bind_lift {A} (m : res A) (k : A -> ST S B) s :
  (forall e, m = Err e -> Q (Err e) s) -> (forall a, m = Ok a -> runs Q (k a) s) -> runs Q (let* a := lift m in k a) s.
Proof. intros He Hk. apply runs_bind. intros r s1 [= <- <-]. destruct m; auto. Qed.
Lemma runs_catch (m : ST S B) handle s :
  runs (fun r s1 => match r with Ok a => Q (Ok a) s1 | Err e => runs Q (handle e) s1 end) m s -> runs Q (catch m handle) s.
Proof.
  intros H r s' Hrun. unfold catch in Hrun. destruct (m s) as [[a|e] s1] eqn:E; [injection Hrun as <- <-; exact (H _ _ E)|exact (H _ _ E _ _ Hrun)].
Qed.
End Runs.
Lemma runs_mono {S A} (Q Q' : res A -> S -> Prop) m s : runs Q m s -> (forall r s', Q r s' -> Q' r s') -> runs Q' m s.
Proof. intros H Hq r s' E. by apply Hq, H. Qed.
Lemma runs_and {S A} (Q Q' : res A -> S -> Prop) m s : runs Q m s -> runs Q' m s -> runs (fun r s' => Q r s' /\ Q' r s') m s.
Proof. intros H H' r s' E. split; [by apply H|by apply H']. Qed.
Lemma ends_runs {S A} (P : S -> Prop) (m : ST S A) s : ends P m s <-> runs (fun _ => P) m s.
Proof. done. Qed.

Lemma bindM_ok {S A B} (m : ST S A) (k : A -> ST S B) s b s' :
  bindM m k s = (Ok b, s') <-> exists a s1, m s = (Ok a, s1) /\ k a s1 = (Ok b, s').
Proof.
  unfold bindM. destruct (m s) as [[a|e] s1]; split; [by eauto 6 | by intros (? & ? & [= <- <-] & ?) | done | by intros (? & ? & ? & ?)].
Qed.
Lemma lift_ok {S A} (m : res A) (s : S) a s' : lift m s = (Ok a, s') <-> m = Ok a /\ s' = s.
Proof. unfold lift. split; [by intros [= -> <-] | by intros [-> ->]]. Qed.
