(* ===== verification/Unicode.v ===== *)
(** Python text.

    A [str] is the list of its code points ([ustr]); literals of the source are
    written [us "..."], which decodes the UTF-8 bytes of the literal.  The
    methods of [str] the modelled code calls are defined here, with the tables
    of the Unicode database they consult (version 15.0, the one of Python 3.12):
    white space, line boundaries, decimal digits, control characters and case
    folding.  Lone surrogates, which cannot be encoded, are out of scope: every
    text the program handles was decoded from UTF-8. *)
From S2P Require Export Prelude.
From Stdlib Require DecimalN Ascii.

Abbreviation ustr := (list N).

(** ** UTF-8 *)
Fixpoint utf8_decode (bs : list N) : ustr :=
  match bs with
  | [] => []
  | b :: bs1 =>
      if (b <? 128)%N then b :: utf8_decode bs1
      else if (b <? 224)%N then
        match bs1 with
        | b1 :: bs2 => ((b - 192) * 64 + (b1 - 128))%N :: utf8_decode bs2
        | [] => []
        end
      else if (b <? 240)%N then
        match bs1 with
        | b1 :: b2 :: bs3 => ((b - 224) * 4096 + (b1 - 128) * 64 + (b2 - 128))%N :: utf8_decode bs3
        | _ => []
        end
      else
        match bs1 with
        | b1 :: b2 :: b3 :: bs4 =>
            ((b - 240) * 262144 + (b1 - 128) * 4096 + (b2 - 128) * 64 + (b3 - 128))%N :: utf8_decode bs4
        | _ => []
        end
  end.

Fixpoint string_bytes (s : string) : list N :=
  match s with
  | EmptyString => []
  | String a s => Ascii.N_of_ascii a :: string_bytes s
  end.

Definition us (s : string) : ustr := utf8_decode (string_bytes s).

(** [str.encode("utf-8")].  No [str] has a code point above 0x10FFFF; such a
    number is left alone, which keeps the encoding injective on all lists. *)
Definition utf8_encode_cp (c : N) : list N :=
  if (c <? 128)%N then [c]
  else if (c <? 2048)%N then [192 + c / 64; 128 + c mod 64]%N
  else if (c <? 65536)%N then [224 + c / 4096; 128 + (c / 64) mod 64; 128 + c mod 64]%N
  else if (c <? 1114112)%N then
    [240 + c / 262144; 128 + (c / 4096) mod 64; 128 + (c / 64) mod 64; 128 + c mod 64]%N
  else [c].

Definition utf8_encode (t : ustr) : list N := t ≫= utf8_encode_cp.

(** ** Tables *)
(** Simple case foldings: [(first, last, stride, delta)] maps every
    [first + k * stride <= last] to itself plus [delta]. *)
Definition casefold_ranges : list (N * N * N * Z) :=
  [
   (65%N, 90%N, 1%N, (32)); (181%N, 181%N, 1%N, (775)); (192%N, 214%N, 1%N, (32)); (216%N, 222%N, 1%N, (32));
   (256%N, 302%N, 2%N, (1)); (306%N, 310%N, 2%N, (1)); (313%N, 327%N, 2%N, (1)); (330%N, 374%N, 2%N, (1));
   (376%N, 376%N, 1%N, (-121)); (377%N, 381%N, 2%N, (1)); (383%N, 383%N, 1%N, (-268)); (385%N, 385%N, 1%N, (210));
   (386%N, 388%N, 2%N, (1)); (390%N, 390%N, 1%N, (206)); (391%N, 391%N, 1%N, (1)); (393%N, 394%N, 1%N, (205));
   (395%N, 395%N, 1%N, (1)); (398%N, 398%N, 1%N, (79)); (399%N, 399%N, 1%N, (202)); (400%N, 400%N, 1%N, (203));
   (401%N, 401%N, 1%N, (1)); (403%N, 403%N, 1%N, (205)); (404%N, 404%N, 1%N, (207)); (406%N, 406%N, 1%N, (211));
   (407%N, 407%N, 1%N, (209)); (408%N, 408%N, 1%N, (1)); (412%N, 412%N, 1%N, (211)); (413%N, 413%N, 1%N, (213));
   (415%N, 415%N, 1%N, (214)); (416%N, 420%N, 2%N, (1)); (422%N, 422%N, 1%N, (218)); (423%N, 423%N, 1%N, (1));
   (425%N, 425%N, 1%N, (218)); (428%N, 428%N, 1%N, (1)); (430%N, 430%N, 1%N, (218)); (431%N, 431%N, 1%N, (1));
   (433%N, 434%N, 1%N, (217)); (435%N, 437%N, 2%N, (1)); (439%N, 439%N, 1%N, (219)); (440%N, 440%N, 1%N, (1));
   (444%N, 444%N, 1%N, (1)); (452%N, 452%N, 1%N, (2)); (453%N, 453%N, 1%N, (1)); (455%N, 455%N, 1%N, (2));
   (456%N, 456%N, 1%N, (1)); (458%N, 458%N, 1%N, (2)); (459%N, 475%N, 2%N, (1)); (478%N, 494%N, 2%N, (1));
   (497%N, 497%N, 1%N, (2)); (498%N, 500%N, 2%N, (1)); (502%N, 502%N, 1%N, (-97)); (503%N, 503%N, 1%N, (-56));
   (504%N, 542%N, 2%N, (1)); (544%N, 544%N, 1%N, (-130)); (546%N, 562%N, 2%N, (1)); (570%N, 570%N, 1%N, (10795));
   (571%N, 571%N, 1%N, (1)); (573%N, 573%N, 1%N, (-163)); (574%N, 574%N, 1%N, (10792)); (577%N, 577%N, 1%N, (1));
   (579%N, 579%N, 1%N, (-195)); (580%N, 580%N, 1%N, (69)); (581%N, 581%N, 1%N, (71)); (582%N, 590%N, 2%N, (1));
   (837%N, 837%N, 1%N, (116)); (880%N, 882%N, 2%N, (1)); (886%N, 886%N, 1%N, (1)); (895%N, 895%N, 1%N, (116));
   (902%N, 902%N, 1%N, (38)); (904%N, 906%N, 1%N, (37)); (908%N, 908%N, 1%N, (64)); (910%N, 911%N, 1%N, (63));
   (913%N, 929%N, 1%N, (32)); (931%N, 939%N, 1%N, (32)); (962%N, 962%N, 1%N, (1)); (975%N, 975%N, 1%N, (8));
   (976%N, 976%N, 1%N, (-30)); (977%N, 977%N, 1%N, (-25)); (981%N, 981%N, 1%N, (-15)); (982%N, 982%N, 1%N, (-22));
   (984%N, 1006%N, 2%N, (1)); (1008%N, 1008%N, 1%N, (-54)); (1009%N, 1009%N, 1%N, (-48)); (1012%N, 1012%N, 1%N, (-60));
   (1013%N, 1013%N, 1%N, (-64)); (1015%N, 1015%N, 1%N, (1)); (1017%N, 1017%N, 1%N, (-7)); (1018%N, 1018%N, 1%N, (1));
   (1021%N, 1023%N, 1%N, (-130)); (1024%N, 1039%N, 1%N, (80)); (1040%N, 1071%N, 1%N, (32)); (1120%N, 1152%N, 2%N, (1));
   (1162%N, 1214%N, 2%N, (1)); (1216%N, 1216%N, 1%N, (15)); (1217%N, 1229%N, 2%N, (1)); (1232%N, 1326%N, 2%N, (1));
   (1329%N, 1366%N, 1%N, (48)); (4256%N, 4293%N, 1%N, (7264)); (4295%N, 4295%N, 1%N, (7264)); (4301%N, 4301%N, 1%N, (7264));
   (5112%N, 5117%N, 1%N, (-8)); (7296%N, 7296%N, 1%N, (-6222)); (7297%N, 7297%N, 1%N, (-6221)); (7298%N, 7298%N, 1%N, (-6212));
   (7299%N, 7300%N, 1%N, (-6210)); (7301%N, 7301%N, 1%N, (-6211)); (7302%N, 7302%N, 1%N, (-6204)); (7303%N, 7303%N, 1%N, (-6180));
   (7304%N, 7304%N, 1%N, (35267)); (7312%N, 7354%N, 1%N, (-3008)); (7357%N, 7359%N, 1%N, (-3008)); (7680%N, 7828%N, 2%N, (1));
   (7835%N, 7835%N, 1%N, (-58)); (7840%N, 7934%N, 2%N, (1)); (7944%N, 7951%N, 1%N, (-8)); (7960%N, 7965%N, 1%N, (-8));
   (7976%N, 7983%N, 1%N, (-8)); (7992%N, 7999%N, 1%N, (-8)); (8008%N, 8013%N, 1%N, (-8)); (8025%N, 8031%N, 2%N, (-8));
   (8040%N, 8047%N, 1%N, (-8)); (8120%N, 8121%N, 1%N, (-8)); (8122%N, 8123%N, 1%N, (-74)); (8126%N, 8126%N, 1%N, (-7173));
   (8136%N, 8139%N, 1%N, (-86)); (8152%N, 8153%N, 1%N, (-8)); (8154%N, 8155%N, 1%N, (-100)); (8168%N, 8169%N, 1%N, (-8));
   (8170%N, 8171%N, 1%N, (-112)); (8172%N, 8172%N, 1%N, (-7)); (8184%N, 8185%N, 1%N, (-128)); (8186%N, 8187%N, 1%N, (-126));
   (8486%N, 8486%N, 1%N, (-7517)); (8490%N, 8490%N, 1%N, (-8383)); (8491%N, 8491%N, 1%N, (-8262)); (8498%N, 8498%N, 1%N, (28));
   (8544%N, 8559%N, 1%N, (16)); (8579%N, 8579%N, 1%N, (1)); (9398%N, 9423%N, 1%N, (26)); (11264%N, 11311%N, 1%N, (48));
   (11360%N, 11360%N, 1%N, (1)); (11362%N, 11362%N, 1%N, (-10743)); (11363%N, 11363%N, 1%N, (-3814)); (11364%N, 11364%N, 1%N, (-10727));
   (11367%N, 11371%N, 2%N, (1)); (11373%N, 11373%N, 1%N, (-10780)); (11374%N, 11374%N, 1%N, (-10749)); (11375%N, 11375%N, 1%N, (-10783));
   (11376%N, 11376%N, 1%N, (-10782)); (11378%N, 11378%N, 1%N, (1)); (11381%N, 11381%N, 1%N, (1)); (11390%N, 11391%N, 1%N, (-10815));
   (11392%N, 11490%N, 2%N, (1)); (11499%N, 11501%N, 2%N, (1)); (11506%N, 11506%N, 1%N, (1)); (42560%N, 42604%N, 2%N, (1));
   (42624%N, 42650%N, 2%N, (1)); (42786%N, 42798%N, 2%N, (1)); (42802%N, 42862%N, 2%N, (1)); (42873%N, 42875%N, 2%N, (1));
   (42877%N, 42877%N, 1%N, (-35332)); (42878%N, 42886%N, 2%N, (1)); (42891%N, 42891%N, 1%N, (1)); (42893%N, 42893%N, 1%N, (-42280));
   (42896%N, 42898%N, 2%N, (1)); (42902%N, 42920%N, 2%N, (1)); (42922%N, 42922%N, 1%N, (-42308)); (42923%N, 42923%N, 1%N, (-42319));
   (42924%N, 42924%N, 1%N, (-42315)); (42925%N, 42925%N, 1%N, (-42305)); (42926%N, 42926%N, 1%N, (-42308)); (42928%N, 42928%N, 1%N, (-42258));
   (42929%N, 42929%N, 1%N, (-42282)); (42930%N, 42930%N, 1%N, (-42261)); (42931%N, 42931%N, 1%N, (928)); (42932%N, 42946%N, 2%N, (1));
   (42948%N, 42948%N, 1%N, (-48)); (42949%N, 42949%N, 1%N, (-42307)); (42950%N, 42950%N, 1%N, (-35384)); (42951%N, 42953%N, 2%N, (1));
   (42960%N, 42960%N, 1%N, (1)); (42966%N, 42968%N, 2%N, (1)); (42997%N, 42997%N, 1%N, (1)); (43888%N, 43967%N, 1%N, (-38864));
   (65313%N, 65338%N, 1%N, (32)); (66560%N, 66599%N, 1%N, (40)); (66736%N, 66771%N, 1%N, (40)); (66928%N, 66964%N, 2%N, (39));
   (66929%N, 66937%N, 2%N, (39)); (66941%N, 66953%N, 2%N, (39)); (66957%N, 66961%N, 2%N, (39)); (66965%N, 66965%N, 1%N, (39));
   (68736%N, 68786%N, 1%N, (64)); (71840%N, 71871%N, 1%N, (32)); (93760%N, 93791%N, 1%N, (32)); (125184%N, 125217%N, 1%N, (34))
  ].

(** Foldings to more than one code point. *)
Definition casefold_special : list (N * list N) :=
  [
   (223, [115; 115]); (304, [105; 775]); (329, [700; 110]); (496, [106; 780]);
   (912, [953; 776; 769]); (944, [965; 776; 769]); (1415, [1381; 1410]); (7830, [104; 817]);
   (7831, [116; 776]); (7832, [119; 778]); (7833, [121; 778]); (7834, [97; 702]);
   (7838, [115; 115]); (8016, [965; 787]); (8018, [965; 787; 768]); (8020, [965; 787; 769]);
   (8022, [965; 787; 834]); (8064, [7936; 953]); (8065, [7937; 953]); (8066, [7938; 953]);
   (8067, [7939; 953]); (8068, [7940; 953]); (8069, [7941; 953]); (8070, [7942; 953]);
   (8071, [7943; 953]); (8072, [7936; 953]); (8073, [7937; 953]); (8074, [7938; 953]);
   (8075, [7939; 953]); (8076, [7940; 953]); (8077, [7941; 953]); (8078, [7942; 953]);
   (8079, [7943; 953]); (8080, [7968; 953]); (8081, [7969; 953]); (8082, [7970; 953]);
   (8083, [7971; 953]); (8084, [7972; 953]); (8085, [7973; 953]); (8086, [7974; 953]);
   (8087, [7975; 953]); (8088, [7968; 953]); (8089, [7969; 953]); (8090, [7970; 953]);
   (8091, [7971; 953]); (8092, [7972; 953]); (8093, [7973; 953]); (8094, [7974; 953]);
   (8095, [7975; 953]); (8096, [8032; 953]); (8097, [8033; 953]); (8098, [8034; 953]);
   (8099, [8035; 953]); (8100, [8036; 953]); (8101, [8037; 953]); (8102, [8038; 953]);
   (8103, [8039; 953]); (8104, [8032; 953]); (8105, [8033; 953]); (8106, [8034; 953]);
   (8107, [8035; 953]); (8108, [8036; 953]); (8109, [8037; 953]); (8110, [8038; 953]);
   (8111, [8039; 953]); (8114, [8048; 953]); (8115, [945; 953]); (8116, [940; 953]);
   (8118, [945; 834]); (8119, [945; 834; 953]); (8124, [945; 953]); (8130, [8052; 953]);
   (8131, [951; 953]); (8132, [942; 953]); (8134, [951; 834]); (8135, [951; 834; 953]);
   (8140, [951; 953]); (8146, [953; 776; 768]); (8147, [953; 776; 769]); (8150, [953; 834]);
   (8151, [953; 776; 834]); (8162, [965; 776; 768]); (8163, [965; 776; 769]); (8164, [961; 787]);
   (8166, [965; 834]); (8167, [965; 776; 834]); (8178, [8060; 953]); (8179, [969; 953]);
   (8180, [974; 953]); (8182, [969; 834]); (8183, [969; 834; 953]); (8188, [969; 953]);
   (64256, [102; 102]); (64257, [102; 105]); (64258, [102; 108]); (64259, [102; 102; 105]);
   (64260, [102; 102; 108]); (64261, [115; 116]); (64262, [115; 116]); (64275, [1396; 1398]);
   (64276, [1396; 1381]); (64277, [1396; 1387]); (64278, [1406; 1398]); (64279, [1396; 1389])
  ]%N.

(** First code points of the runs of ten decimal digits (category Nd). *)
Definition decimal_runs : list N :=
  [
   48; 1632; 1776; 1984; 2406; 2534; 2662; 2790; 2918; 3046;
   3174; 3302; 3430; 3558; 3664; 3792; 3872; 4160; 4240; 6112;
   6160; 6470; 6608; 6784; 6800; 6992; 7088; 7232; 7248; 42528;
   43216; 43264; 43472; 43504; 43600; 44016; 65296; 66720; 68912; 69734;
   69872; 69942; 70096; 70384; 70736; 70864; 71248; 71360; 71472; 71904;
   72016; 72784; 73040; 73120; 73552; 92768; 92864; 93008; 120782; 120792;
   120802; 120812; 120822; 123200; 123632; 124144; 125264; 130032
  ]%N.

Definition in_range (lo hi c : N) : bool := (lo <=? c)%N && (c <=? hi)%N.

Definition isspace_cp (c : N) : bool :=
  in_range 9 13 c || in_range 28 32 c || (c =? 133)%N || (c =? 160)%N || (c =? 5760)%N
  || in_range 8192 8202 c || (c =? 8232)%N || (c =? 8233)%N || (c =? 8239)%N || (c =? 8287)%N
  || (c =? 12288)%N.

Definition is_linebreak (c : N) : bool :=
  in_range 10 13 c || in_range 28 30 c || (c =? 133)%N || (c =? 8232)%N || (c =? 8233)%N.

Definition isdecimal_cp (c : N) : bool := existsb (fun s => in_range s (s + 9) c) decimal_runs.

(** [unicodedata.category(c) == "Cc"] *)
Definition is_control (c : N) : bool := (c <=? 31)%N || in_range 127 159 c.

Definition is_ascii_digit (c : N) : bool := in_range 48 57 c.

Definition casefold_cp (c : N) : ustr :=
  match find (fun p : N * list N => (p.1 =? c)%N) casefold_special with
  | Some p => p.2
  | None =>
      match find (fun r : N * N * N * Z =>
                    let '(lo, hi, st, _) := r in
                    in_range lo hi c && (((c - lo) mod st) =? 0)%N) casefold_ranges with
      | Some (_, _, _, d) => [Z.to_N (Z.of_N c + d)]
      | None => [c]
      end
  end.

(** ** Methods of [str] *)
Definition casefold (t : ustr) : ustr := t ≫= casefold_cp.

Fixpoint lstrip_by (p : N -> bool) (t : ustr) : ustr :=
  match t with
  | [] => []
  | c :: t' => if p c then lstrip_by p t' else t
  end.
Definition rstrip_by (p : N -> bool) (t : ustr) : ustr := rev (lstrip_by p (rev t)).
Definition strip_by (p : N -> bool) (t : ustr) : ustr := rstrip_by p (lstrip_by p t).

(** [str.strip()] *)
Definition strip (t : ustr) : ustr := strip_by isspace_cp t.

(** [str.splitlines(keepends=True)]; a carriage return followed by a line feed
    is one boundary. *)
Fixpoint splitlines (t : ustr) : list ustr :=
  match t with
  | [] => []
  | c :: t' =>
      if is_linebreak c then
        match t' with
        | d :: t'' => if (c =? 13)%N && (d =? 10)%N then [c; d] :: splitlines t'' else [c] :: splitlines t'
        | [] => [[c]]
        end
      else
        match splitlines t' with
        | [] => [[c]]
        | l :: ls => (c :: l) :: ls
        end
  end.

(** [str.split(sep)] for a one-character separator. *)
Fixpoint split_on (sep : N) (t : ustr) : list ustr :=
  match t with
  | [] => [[]]
  | c :: t' =>
      if (c =? sep)%N then [] :: split_on sep t'
      else match split_on sep t' with
           | [] => [[c]]
           | l :: ls => (c :: l) :: ls
           end
  end.

(** [str.split()] *)
Fixpoint words (t : ustr) : list ustr :=
  match t with
  | [] => []
  | c :: t' =>
      if isspace_cp c then words t'
      else match t' with
           | [] => [[c]]
           | d :: _ =>
               if isspace_cp d then [c] :: words t'
               else match words t' with
                    | [] => [[c]]
                    | w :: ws => (c :: w) :: ws
                    end
           end
  end.

(** [sep.join(parts)] *)
Fixpoint join (sep : ustr) (parts : list ustr) : ustr :=
  match parts with
  | [] => []
  | [p] => p
  | p :: ps => p ++ sep ++ join sep ps
  end.

Fixpoint startswith (prefix t : ustr) : bool :=
  match prefix, t with
  | [], _ => true
  | p :: ps, c :: cs => (p =? c)%N && startswith ps cs
  | _ :: _, [] => false
  end.
Definition endswith (suffix t : ustr) : bool := startswith (rev suffix) (rev t).

(** [sub in t] *)
Fixpoint contains (sub t : ustr) : bool :=
  startswith sub t || match t with [] => false | _ :: t' => contains sub t' end.

Definition count_char (c : N) (t : ustr) : Z := zlen (filter (fun d => d = c) t).

(** [t[a:b]], negative bounds counted from the end. *)
Definition slice_bound (n i : Z) : nat := Z.to_nat (Z.min n (if i <? 0 then i + n else i)).
Definition slice {A} (t : list A) (a b : Z) : list A :=
  let n := zlen t in
  take (slice_bound n b - slice_bound n a) (drop (slice_bound n a) t).

(** [str(int)] and [int(str)] on ASCII digits. *)
Fixpoint uint_codes (d : Decimal.uint) : ustr :=
  match d with
  | Decimal.Nil => []
  | Decimal.D0 d => 48%N :: uint_codes d
  | Decimal.D1 d => 49%N :: uint_codes d
  | Decimal.D2 d => 50%N :: uint_codes d
  | Decimal.D3 d => 51%N :: uint_codes d
  | Decimal.D4 d => 52%N :: uint_codes d
  | Decimal.D5 d => 53%N :: uint_codes d
  | Decimal.D6 d => 54%N :: uint_codes d
  | Decimal.D7 d => 55%N :: uint_codes d
  | Decimal.D8 d => 56%N :: uint_codes d
  | Decimal.D9 d => 57%N :: uint_codes d
  end.

Definition str_of_Z (z : Z) : ustr :=
  match z with
  | Z0 => [48%N]
  | Zpos p => uint_codes (Pos.to_uint p)
  | Zneg p => 45%N :: uint_codes (Pos.to_uint p)
  end.

Definition int_of_digits (t : ustr) : Z :=
  fold_left (fun acc c => 10 * acc + (Z.of_N c - 48)) t 0.

(** ** Order of strings: by code point *)
Fixpoint ustr_leb (a b : ustr) : bool :=
  match a, b with
  | [], _ => true
  | _ :: _, [] => false
  | x :: a', y :: b' => (x <? y)%N || ((x =? y)%N && ustr_leb a' b')
  end.

(** ** Lemmas *)
#[export] Hint Unfold in_range : core.

Lemma utf8_encode_cons c t : utf8_encode (c :: t) = utf8_encode_cp c ++ utf8_encode t.
Proof. done. Qed.

(** Reading one code point back from the bytes, which the first byte decides. *)
Definition utf8_decode_cp (bs : list N) : N * list N :=
  match bs with
  | [] => (0%N, [])
  | b :: r =>
      if (b <? 128)%N || (1114112 <=? b)%N then (b, r)
      else if (b <? 224)%N then
        match r with b1 :: r => ((b - 192) * 64 + (b1 - 128), r)%N | _ => (0%N, []) end
      else if (b <? 240)%N then
        match r with
        | b1 :: b2 :: r => ((b - 224) * 4096 + (b1 - 128) * 64 + (b2 - 128), r)%N
        | _ => (0%N, [])
        end
      else
        match r with
        | b1 :: b2 :: b3 :: r =>
            ((b - 240) * 262144 + (b1 - 128) * 4096 + (b2 - 128) * 64 + (b3 - 128), r)%N
        | _ => (0%N, [])
        end
  end.

Lemma N_split64 (c : N) : (c = 64 * (c / 64) + c mod 64 /\ c mod 64 < 64)%N.
Proof. split; [apply N.div_mod'|by apply N.mod_lt]. Qed.

Lemma N_div4096 (c : N) : (c / 4096 = c / 64 / 64)%N.
Proof. by rewrite N.Div0.div_div. Qed.
Lemma N_div262144 (c : N) : (c / 262144 = c / 64 / 64 / 64)%N.
Proof. by rewrite !N.Div0.div_div. Qed.

(** Decoding the bytes of one code point, case by case on their number. *)
Ltac solve_utf8 c :=
  unfold utf8_encode_cp; rewrite N_div262144, N_div4096;
  let E1 := fresh in let B1 := fresh in let E2 := fresh in let B2 := fresh in let E3 := fresh in let B3 := fresh in
  destruct (N_split64 c) as [E1 B1], (N_split64 (c / 64)) as [E2 B2], (N_split64 (c / 64 / 64)) as [E3 B3];
  revert E1 B1 E2 B2 E3 B3;
  generalize (c / 64 / 64 / 64)%N; generalize (c / 64 / 64 mod 64)%N;
  generalize (c / 64 / 64)%N; generalize (c / 64 mod 64)%N;
  generalize (c / 64)%N; generalize (c mod 64)%N; intros;
  repeat case_match; simpl;
    repeat match goal with
    | H : (_ <? _)%N = true |- _ => apply N.ltb_lt in H
    | H : (_ <? _)%N = false |- _ => apply N.ltb_ge in H
    | |- context [(?a <? ?b)%N] => destruct (N.ltb_spec a b); try lia
    | |- context [(?a <=? ?b)%N] => destruct (N.leb_spec a b); try lia
    end; simpl; f_equal; lia.

Lemma utf8_decode_encode_cp c r : utf8_decode_cp (utf8_encode_cp c ++ r) = (c, r).
Proof. solve_utf8 c. Qed.

Lemma utf8_decode_encode_cons c r : (c < 1114112)%N -> utf8_decode (utf8_encode_cp c ++ r) = c :: utf8_decode r.
Proof. intros Hc. solve_utf8 c. Qed.

Lemma utf8_decode_encode t : Forall (fun c => (c < 1114112)%N) t -> utf8_decode (utf8_encode t) = t.
Proof. induction 1 as [|c t Hc _ IH]; [done|]. by rewrite utf8_encode_cons, utf8_decode_encode_cons, IH. Qed.

(** No encoding of a code point is a prefix of another one. *)
Lemma utf8_encode_cp_prefix_free c d r r' :
  utf8_encode_cp c ++ r = utf8_encode_cp d ++ r' -> c = d /\ r = r'.
Proof.
  intros H. apply (f_equal utf8_decode_cp) in H. rewrite !utf8_decode_encode_cp in H.
  by simplify_eq.
Qed.

Lemma utf8_encode_cp_cons c : exists b l, utf8_encode_cp c = b :: l.
Proof. unfold utf8_encode_cp. repeat case_match; eauto. Qed.

(** Encoding is injective: equal bytes come from equal texts. *)
Lemma utf8_encode_inj t1 t2 : utf8_encode t1 = utf8_encode t2 -> t1 = t2.
Proof.
  revert t2. induction t1 as [|c t1 IH]; intros [|d t2]; rewrite ?utf8_encode_cons; try done.
  - destruct (utf8_encode_cp_cons d) as (b & l & ->). done.
  - destruct (utf8_encode_cp_cons c) as (b & l & ->). done.
  - intros [-> H]%utf8_encode_cp_prefix_free. f_equal. auto.
Qed.

(** *** Decimal numerals *)
Lemma uint_codes_digits d : Forall (fun c => is_ascii_digit c = true) (uint_codes d).
Proof. induction d; simpl; constructor; done. Qed.

Lemma uint_codes_inj d1 d2 : uint_codes d1 = uint_codes d2 -> d1 = d2.
Proof. revert d2. induction d1; intros []; simpl; intros [=]; f_equal; auto. Qed.

Lemma pos_to_uint_inj p q : Pos.to_uint p = Pos.to_uint q -> p = q.
Proof.
  intros H. apply (f_equal N.of_uint) in H.
  pose proof (DecimalN.Unsigned.of_to (N.pos p)) as Hp.
  pose proof (DecimalN.Unsigned.of_to (N.pos q)) as Hq. simpl in *. congruence.
Qed.

Lemma pos_to_uint_nonzero p : uint_codes (Pos.to_uint p) <> [48%N].
Proof.
  intros H. assert (Pos.to_uint p = Decimal.D0 Decimal.Nil) as E by by apply uint_codes_inj.
  apply (f_equal N.of_uint) in E. pose proof (DecimalN.Unsigned.of_to (N.pos p)) as Hp.
  simpl in *. congruence.
Qed.

Lemma pos_to_uint_cons p : exists c l, uint_codes (Pos.to_uint p) = c :: l /\ is_ascii_digit c = true.
Proof.
  pose proof (uint_codes_digits (Pos.to_uint p)) as Hd.
  destruct (uint_codes (Pos.to_uint p)) as [|c l] eqn:E.
  - assert (Pos.to_uint p = Decimal.Nil) as E' by by apply uint_codes_inj.
    apply (f_equal N.of_uint) in E'. pose proof (DecimalN.Unsigned.of_to (N.pos p)) as Hp.
    simpl in *. congruence.
  - inversion Hd. eauto.
Qed.

(** A numeral ends at the first character that is not a digit. *)
Definition no_digit_head (r : ustr) : Prop :=
  match r with [] => True | c :: _ => is_ascii_digit c = false end.

Lemma digits_split l1 l2 r1 r2 :
  Forall (fun c => is_ascii_digit c = true) l1 -> Forall (fun c => is_ascii_digit c = true) l2 ->
  no_digit_head r1 -> no_digit_head r2 ->
  l1 ++ r1 = l2 ++ r2 -> l1 = l2 /\ r1 = r2.
Proof.
  intros H1. revert l2. induction H1 as [|c l1 Hc H1 IH]; intros l2 H2 Hr1 Hr2; simpl.
  - destruct H2 as [|d l2 Hd H2]; simpl; [done|]. intros ->. simpl in Hr1. congruence.
  - destruct H2 as [|d l2 Hd H2]; simpl.
    + intros <-. simpl in Hr2. congruence.
    + intros [= -> H]. destruct (IH l2) as [-> ->]; auto.
Qed.

Lemma str_of_Z_split z1 z2 r1 r2 :
  no_digit_head r1 -> no_digit_head r2 ->
  str_of_Z z1 ++ r1 = str_of_Z z2 ++ r2 -> z1 = z2 /\ r1 = r2.
Proof.
  intros Hr1 Hr2 H.
  assert (forall p q, uint_codes (Pos.to_uint p) ++ r1 = uint_codes (Pos.to_uint q) ++ r2 -> p = q /\ r1 = r2) as Hpp.
  { intros p q E. apply digits_split in E as [E ->]; auto using uint_codes_digits.
    split; [|done]. by apply pos_to_uint_inj, uint_codes_inj. }
  destruct z1 as [|p1|p1], z2 as [|p2|p2]; simpl in H;
    try (apply Hpp in H as [-> ->]; done);
    try (injection H as H; apply Hpp in H as [-> ->]; done);
    try (destruct (pos_to_uint_cons p1) as (c1 & l1 & E1 & Hc1); rewrite E1 in H; simplify_eq/=;
         vm_compute in Hc1; discriminate);
    try (destruct (pos_to_uint_cons p2) as (c2 & l2 & E2 & Hc2); rewrite E2 in H; simplify_eq/=;
         vm_compute in Hc2; discriminate);
    try (injection H as H; simplify_eq/=; done).
  - change ([48%N] ++ r1 = uint_codes (Pos.to_uint p2) ++ r2) in H.
    apply digits_split in H as [H _]; auto using uint_codes_digits.
    by destruct (pos_to_uint_nonzero p2).
  - change (uint_codes (Pos.to_uint p1) ++ r1 = [48%N] ++ r2) in H.
    apply digits_split in H as [H _]; auto using uint_codes_digits.
    by destruct (pos_to_uint_nonzero p1).
Qed.

Lemma str_of_Z_inj z1 z2 : str_of_Z z1 = str_of_Z z2 -> z1 = z2.
Proof.
  intros H. apply (str_of_Z_split z1 z2 [] []); rewrite ?app_nil_r; done.
Qed.

(** *** Order of strings *)
Lemma ustr_leb_refl a : ustr_leb a a = true.
Proof. induction a as [|c a IH]; simpl; [done|]. by rewrite IH, N.eqb_refl, orb_true_r. Qed.

Lemma ustr_leb_total a b : ustr_leb a b = true \/ ustr_leb b a = true.
Proof.
  revert b. induction a as [|x a IH]; intros [|y b]; simpl; auto.
  destruct (N.lt_trichotomy x y) as [H|[->|H]].
  - left. by apply N.ltb_lt in H as ->.
  - rewrite N.eqb_refl. destruct (IH b) as [->| ->]; rewrite orb_true_r; auto.
  - right. by apply N.ltb_lt in H as ->.
Qed.

Lemma ustr_leb_cons x a y b :
  ustr_leb (x :: a) (y :: b) = true <-> (x < y)%N \/ (x = y /\ ustr_leb a b = true).
Proof. simpl. rewrite orb_true_iff, andb_true_iff, N.ltb_lt, N.eqb_eq. done. Qed.

Lemma ustr_leb_trans a b c : ustr_leb a b = true -> ustr_leb b c = true -> ustr_leb a c = true.
Proof.
  revert b c. induction a as [|x a IH]; intros [|y b] [|z c]; try done.
  rewrite !ustr_leb_cons. intros [H|[-> H]] [H'|[-> H']]; [left; lia | auto.. | right; eauto].
Qed.

Lemma ustr_leb_antisym a b : ustr_leb a b = true -> ustr_leb b a = true -> a = b.
Proof.
  revert b. induction a as [|x a IH]; intros [|y b]; try done.
  rewrite !ustr_leb_cons. intros [H|[-> H]] [H'|[E H']]; [lia..|]. f_equal. auto.
Qed.
#[export] Hint Resolve ustr_leb_refl ustr_leb_total ustr_leb_trans ustr_leb_antisym : core.

(** *** Slices within bounds *)
Lemma slice_in_range {A} (t : list A) a b :
  0 <= a -> a <= b -> b <= zlen t -> slice t a b = take (Z.to_nat (b - a)) (drop (Z.to_nat a) t).
Proof.
  intros Ha Hab Hb. unfold slice, slice_bound, zlen in *.
  destruct (Z.ltb_spec a 0), (Z.ltb_spec b 0); try lia.
  rewrite !Z.min_r by lia. f_equal. lia.
Qed.

Lemma slice_empty {A} (t : list A) a : 0 <= a -> a <= zlen t -> slice t a a = [].
Proof. intros. rewrite slice_in_range by lia. by rewrite Z.sub_diag. Qed.

Lemma slice_length {A} (t : list A) a b :
  0 <= a -> a <= b -> b <= zlen t -> zlen (slice t a b) = b - a.
Proof.
  intros. rewrite slice_in_range by lia. unfold zlen in *. rewrite length_take, length_drop. lia.
Qed.

Lemma slice_split {A} (t : list A) a b c :
  0 <= a -> a <= b -> b <= c -> c <= zlen t -> slice t a c = slice t a b ++ slice t b c.
Proof.
  intros. rewrite !slice_in_range by lia.
  replace (Z.to_nat (c - a)) with (Z.to_nat (b - a) + Z.to_nat (c - b))%nat by lia.
  rewrite <- take_take_drop, drop_drop. f_equal. f_equal. f_equal. lia.
Qed.

Lemma slice_full {A} (t : list A) : slice t 0 (zlen t) = t.
Proof. rewrite slice_in_range by (unfold zlen; lia). unfold zlen. rewrite Z.sub_0_r, Nat2Z.id. apply take_ge. done. Qed.

Lemma slice_one {A} (t : list A) a x :
  0 <= a -> t !! Z.to_nat a = Some x -> slice t a (a + 1) = [x].
Proof.
  intros Ha Hx. pose proof (lookup_lt_Some _ _ _ Hx).
  rewrite slice_in_range by (unfold zlen; lia).
  replace (Z.to_nat (a + 1 - a)) with 1%nat by lia.
  rewrite (drop_S _ _ _ Hx). done.
Qed.

Lemma slice_app_middle {A} (t1 t2 t3 : list A) :
  slice (t1 ++ t2 ++ t3) (zlen t1) (zlen t1 + zlen t2) = t2.
Proof.
  rewrite slice_in_range by (rewrite ?zlen_app; pose proof (zlen_nonneg t1); pose proof (zlen_nonneg t2); pose proof (zlen_nonneg t3); lia).
  replace (zlen t1 + zlen t2 - zlen t1) with (zlen t2) by lia.
  unfold zlen. rewrite !Nat2Z.id, drop_app_length. by rewrite take_app_length.
Qed.

(** [sorted(set)] *)
Definition sorted_set (s : gset ustr) : list ustr := sorted_by ustr_leb (elements s).

Lemma sorted_set_elem s id : id ∈ sorted_set s <-> id ∈ s.
Proof. unfold sorted_set. rewrite sorted_by_Permutation. apply elem_of_elements. Qed.

Lemma sorted_set_NoDup s : NoDup (sorted_set s).
Proof. unfold sorted_set. rewrite sorted_by_Permutation. apply NoDup_elements. Qed.

Lemma sorted_set_length s : zlen (sorted_set s) = Z.of_nat (size s).
Proof. unfold zlen, sorted_set. by rewrite sorted_by_Permutation. Qed.
