(* ===== verification/Sha256.v ===== *)
(** SHA-256 ([hashlib.sha256]).

    The digest is computed on bytes (numbers below 256) as FIPS 180-4 says, on
    32-bit words kept below 2^32, and printed as [hexdigest] prints it. *)
From S2P Require Export Unicode.

Module Sha256.
Local Open Scope N_scope.

Definition w32 (x : N) : N := N.land x 4294967295.
Definition add32 (x y : N) : N := w32 (x + y).
Definition rotr (n x : N) : N := N.lor (N.shiftr x n) (w32 (N.shiftl x (32 - n))).
Definition not32 (x : N) : N := N.lxor x 4294967295.

Definition ch (x y z : N) : N := N.lxor (N.land x y) (N.land (not32 x) z).
Definition maj (x y z : N) : N := N.lxor (N.lxor (N.land x y) (N.land x z)) (N.land y z).
Definition bsig0 (x : N) : N := N.lxor (N.lxor (rotr 2 x) (rotr 13 x)) (rotr 22 x).
Definition bsig1 (x : N) : N := N.lxor (N.lxor (rotr 6 x) (rotr 11 x)) (rotr 25 x).
Definition ssig0 (x : N) : N := N.lxor (N.lxor (rotr 7 x) (rotr 18 x)) (N.shiftr x 3).
Definition ssig1 (x : N) : N := N.lxor (N.lxor (rotr 17 x) (rotr 19 x)) (N.shiftr x 10).

Definition round_constants : list N :=
  [1116352408; 1899447441; 3049323471; 3921009573; 961987163; 1508970993;
   2453635748; 2870763221; 3624381080; 310598401; 607225278; 1426881987;
   1925078388; 2162078206; 2614888103; 3248222580; 3835390401; 4022224774;
   264347078; 604807628; 770255983; 1249150122; 1555081692; 1996064986;
   2554220882; 2821834349; 2952996808; 3210313671; 3336571891; 3584528711;
   113926993; 338241895; 666307205; 773529912; 1294757372; 1396182291;
   1695183700; 1986661051; 2177026350; 2456956037; 2730485921; 2820302411;
   3259730800; 3345764771; 3516065817; 3600352804; 4094571909; 275423344;
   430227734; 506948616; 659060556; 883997877; 958139571; 1322822218;
   1537002063; 1747873779; 1955562222; 2024104815; 2227730452; 2361852424;
   2428436474; 2756734187; 3204031479; 3329325298].

Record hash_state := HashState {ha : N; hb : N; hc : N; hd : N; he : N; hf : N; hg : N; hh : N}.

Definition initial_state : hash_state :=
  HashState 1779033703 3144134277 1013904242 2773480762 1359893119 2600822924 528734635 1541459225.

(** Message schedule: the last sixteen words, most recent first, are enough to
    extend it. *)
Fixpoint schedule (n : nat) (recent : list N) : list N :=
  match n with
  | O => []
  | S n =>
      let w := add32 (add32 (ssig1 (nth 1 recent 0)) (nth 6 recent 0))
                     (add32 (ssig0 (nth 14 recent 0)) (nth 15 recent 0)) in
      w :: schedule n (w :: take 15 recent)
  end.

Definition round (s : hash_state) (kw : N * N) : hash_state :=
  let t1 := add32 (add32 (add32 (hh s) (bsig1 (he s))) (ch (he s) (hf s) (hg s))) (add32 kw.1 kw.2) in
  let t2 := add32 (bsig0 (ha s)) (maj (ha s) (hb s) (hc s)) in
  HashState (add32 t1 t2) (ha s) (hb s) (hc s) (add32 (hd s) t1) (he s) (hf s) (hg s).

Definition compress (s : hash_state) (block : list N) : hash_state :=
  let ws := block ++ schedule 48 (rev block) in
  let r := fold_left round (zip round_constants ws) s in
  HashState (add32 (ha s) (ha r)) (add32 (hb s) (hb r)) (add32 (hc s) (hc r)) (add32 (hd s) (hd r))
            (add32 (he s) (he r)) (add32 (hf s) (hf r)) (add32 (hg s) (hg r)) (add32 (hh s) (hh r)).

Fixpoint words_of_bytes (bs : list N) : list N :=
  match bs with
  | a :: b :: c :: d :: bs => (a * 16777216 + b * 65536 + c * 256 + d) :: words_of_bytes bs
  | _ => []
  end.

(** Padding: a one bit, zeros, and the length in bits on eight bytes. *)
Definition length_bytes (n : N) : list N :=
  map (fun i => N.land (N.shiftr n (8 * i)) 255) [7; 6; 5; 4; 3; 2; 1; 0].
Definition pad (bs : list N) : list N :=
  let n := N.of_nat (length bs) in
  bs ++ [128] ++ repeat 0 (N.to_nat ((119 - n mod 64) mod 64)) ++ length_bytes (8 * n).

Fixpoint blocks (fuel : nat) (ws : list N) : list (list N) :=
  match fuel, ws with
  | S fuel, _ :: _ => take 16 ws :: blocks fuel (drop 16 ws)
  | _, _ => []
  end.

Definition hex_digit (d : N) : N := if d <? 10 then 48 + d else 87 + d.
Definition hex_word (w : N) : ustr :=
  map (fun i => hex_digit (N.land (N.shiftr w (4 * i)) 15)) [7; 6; 5; 4; 3; 2; 1; 0].

Definition hexdigest (bs : list N) : ustr :=
  let ws := words_of_bytes (pad bs) in
  let s := fold_left compress (blocks (length ws) ws) initial_state in
  hex_word (ha s) ++ hex_word (hb s) ++ hex_word (hc s) ++ hex_word (hd s) ++
  hex_word (he s) ++ hex_word (hf s) ++ hex_word (hg s) ++ hex_word (hh s).
End Sha256.

(** [cardrag_core.canonical.sha256_bytes]. *)
Definition sha256_bytes (payload : list N) : ustr := Sha256.hexdigest payload.
#[global] Arguments sha256_bytes : simpl never.
