(* ===== verification/Json.v ===== *)
(** Canonical JSON and hashing ([cardrag_core/canonical.py]).

    [json] is a value [json.dumps] can print, without floats; [dumps] is
    [json.dumps] with the options of [canonical_json_bytes] (non-ASCII kept,
    keys sorted, compact separators).  The main fact is that the encoding
    determines the value up to the order of object members ([normalize]), so a
    SHA-256 over canonical bytes identifies a value as well as the hash does. *)
From S2P Require Export Sha256.
#[local] Set Warnings "-register-all".

Inductive json : Type :=
| JNull
| JBool (b : bool)
| JInt (z : Z)
| JStr (t : ustr)
| JArr (l : list json)
| JObj (l : list (ustr * json)).

(** Optional strings, as [str | None] members are printed. *)
Definition JOpt (o : option ustr) : json := match o with Some t => JStr t | None => JNull end.

(** ** [json.dumps] *)
Definition hex2 (c : N) : ustr := [Sha256.hex_digit (c / 16); Sha256.hex_digit (c mod 16)]%N.

Definition escape_cp (c : N) : ustr :=
  if (c =? 34)%N then [92; 34]%N
  else if (c =? 92)%N then [92; 92]%N
  else if (c =? 10)%N then [92; 110]%N
  else if (c =? 13)%N then [92; 114]%N
  else if (c =? 9)%N then [92; 116]%N
  else if (c =? 12)%N then [92; 102]%N
  else if (c =? 8)%N then [92; 98]%N
  else if (c <? 32)%N then [92; 117; 48; 48]%N ++ hex2 c
  else [c].

Definition dumps_str (t : ustr) : ustr := 34%N :: flat_map escape_cp t ++ [34%N].

Arguments dumps_str : simpl never.

(** Elements of an array or members of an object, separated by commas and
    closed by [close]. *)
Fixpoint dumps_seq (close : N) (parts : list ustr) : ustr :=
  match parts with
  | [] => [close]
  | [p] => p ++ [close]
  | p :: ps => p ++ 44%N :: dumps_seq close ps
  end.

Definition key_leb {A} (p q : ustr * A) : bool := ustr_leb p.1 q.1.

Fixpoint dumps (v : json) : ustr :=
  match v with
  | JNull => us "null"
  | JBool true => us "true"
  | JBool false => us "false"
  | JInt z => str_of_Z z
  | JStr t => dumps_str t
  | JArr l => 91%N :: dumps_seq 93%N (map dumps l)
  | JObj l =>
      let members := sorted_by key_leb (map (fun kv => (kv.1, dumps kv.2)) l) in
      123%N :: dumps_seq 125%N (map (fun kt => dumps_str kt.1 ++ 58%N :: kt.2) members)
  end.

(** [canonical_json_bytes] and [canonical_sha256]. *)
Definition canonical_json_bytes (value : json) : list N := utf8_encode (dumps value).
Definition canonical_sha256 (value : json) : ustr := sha256_bytes (canonical_json_bytes value).

(** ** Normal form: object members in key order *)
Fixpoint normalize (v : json) : json :=
  match v with
  | JArr l => JArr (map normalize l)
  | JObj l => JObj (sorted_by key_leb (map (fun kv => (kv.1, normalize kv.2)) l))
  | _ => v
  end.

(** ** Induction over values *)
Section json_ind.
Variable P : json -> Prop.
Hypothesis Hnull : P JNull.
Hypothesis Hbool : forall b, P (JBool b).
Hypothesis Hint : forall z, P (JInt z).
Hypothesis Hstr : forall t, P (JStr t).
Hypothesis Harr : forall l, Forall P l -> P (JArr l).
Hypothesis Hobj : forall l, Forall (fun kv => P kv.2) l -> P (JObj l).

Fixpoint json_full_ind (v : json) : P v :=
  match v with
  | JNull => Hnull
  | JBool b => Hbool b
  | JInt z => Hint z
  | JStr t => Hstr t
  | JArr l =>
      Harr l ((fix go l : Forall P l :=
                 match l with
                 | [] => List.Forall_nil P
                 | v :: l => List.Forall_cons P v l (json_full_ind v) (go l)
                 end) l)
  | JObj l =>
      Hobj l ((fix go l : Forall (fun kv => P kv.2) l :=
                 match l with
                 | [] => List.Forall_nil _
                 | kv :: l => List.Forall_cons _ kv l (json_full_ind kv.2) (go l)
                 end) l)
  end.
End json_ind.

(** ** Printing in the order given *)
Fixpoint print (v : json) : ustr :=
  match v with
  | JNull => us "null"
  | JBool true => us "true"
  | JBool false => us "false"
  | JInt z => str_of_Z z
  | JStr t => dumps_str t
  | JArr l => 91%N :: dumps_seq 93%N (map print l)
  | JObj l => 123%N :: dumps_seq 125%N (map (fun kv => dumps_str kv.1 ++ 58%N :: print kv.2) l)
  end.

Lemma insert_by_map {A B} (la : A -> A -> bool) (lb : B -> B -> bool) (f : A -> B) a l :
  (forall x y, lb (f x) (f y) = la x y) ->
  insert_by lb (f a) (map f l) = map f (insert_by la a l).
Proof.
  intros H. induction l as [|b l IH]; simpl; [done|].
  rewrite H. destruct (la a b); simpl; [done|]. by rewrite IH.
Qed.

Lemma sorted_by_map {A B} (la : A -> A -> bool) (lb : B -> B -> bool) (f : A -> B) l :
  (forall x y, lb (f x) (f y) = la x y) ->
  sorted_by lb (map f l) = map f (sorted_by la l).
Proof.
  intros H. induction l as [|a l IH]; simpl; [done|]. rewrite IH. by apply insert_by_map.
Qed.

(** [dumps] prints the normal form. *)
Lemma dumps_normalize v : dumps v = print (normalize v).
Proof.
  induction v as [| | | |l IH|l IH] using json_full_ind; try done; simpl.
  - rewrite map_map. do 2 f_equal. induction IH as [|v l Hv _ IH']; simpl; [done|]. by rewrite Hv, IH'.
  - do 2 f_equal.
    assert (map (fun kv : ustr * json => (kv.1, dumps kv.2)) l =
            map (fun kv => (kv.1, print kv.2)) (map (fun kv => (kv.1, normalize kv.2)) l)) as ->.
    { rewrite map_map. induction IH as [|v l Hv _ IH']; simpl; [done|]. by rewrite Hv, IH'. }
    rewrite (sorted_by_map key_leb key_leb) by done. by rewrite map_map.
Qed.

(** ** The printed form can be read back in one way only *)
Definition unhex (d : N) : N := if (d <? 58)%N then (d - 48)%N else (d - 87)%N.

Definition unescape_cp (t : ustr) : N * ustr :=
  match t with
  | c :: r =>
      if (c =? 92)%N then
        match r with
        | d :: r' =>
            if (d =? 34)%N then (34%N, r')
            else if (d =? 92)%N then (92%N, r')
            else if (d =? 110)%N then (10%N, r')
            else if (d =? 114)%N then (13%N, r')
            else if (d =? 116)%N then (9%N, r')
            else if (d =? 102)%N then (12%N, r')
            else if (d =? 98)%N then (8%N, r')
            else match r' with
                 | _ :: _ :: h :: l :: r'' => ((unhex h * 16 + unhex l)%N, r'')
                 | _ => (0%N, [])
                 end
        | [] => (0%N, [])
        end
      else (c, r)
  | [] => (0%N, [])
  end.

Lemma unescape_escape_cp c r : unescape_cp (escape_cp c ++ r) = (c, r).
Proof.
  destruct (N.ltb_spec c 32) as [Hc|Hc].
  - assert (forall n, (n < 32)%nat -> unescape_cp (escape_cp (N.of_nat n) ++ r) = (N.of_nat n, r)) as H.
    { intros n Hn. do 32 (destruct n as [|n]; [reflexivity|]). lia. }
    rewrite <- (N2Nat.id c). apply H. lia.
  - unfold escape_cp.
    repeat match goal with
    | |- context [if (c =? ?k)%N then _ else _] => destruct (N.eqb_spec c k) as [->|?]; [done|]
    end.
    destruct (N.ltb_spec c 32); [lia|]. simpl.
    destruct (N.eqb_spec c 92); [done|]. done.
Qed.

Lemma escape_cp_head c r : exists d l, escape_cp c ++ r = d :: l /\ d <> 34%N.
Proof.
  unfold escape_cp.
  repeat match goal with
  | |- context [if (c =? ?k)%N then _ else _] => destruct (N.eqb_spec c k) as [->|?]; [by eexists _, _|]
  end.
  destruct (c <? 32)%N; by eexists _, _.
Qed.

Lemma dumps_str_split t1 t2 r1 r2 :
  dumps_str t1 ++ r1 = dumps_str t2 ++ r2 -> t1 = t2 /\ r1 = r2.
Proof.
  unfold dumps_str. simpl. intros [= H]. rewrite <- !app_assoc in H. simpl in H.
  revert t2 H. induction t1 as [|c t1 IH]; intros [|d t2]; simpl; intros H.
  - by simplify_eq.
  - rewrite <- app_assoc in H. destruct (escape_cp_head d (flat_map escape_cp t2 ++ 34%N :: r2)) as (x & l & E & Hx).
    rewrite E in H. congruence.
  - rewrite <- app_assoc in H. destruct (escape_cp_head c (flat_map escape_cp t1 ++ 34%N :: r1)) as (x & l & E & Hx).
    rewrite E in H. congruence.
  - rewrite <- !app_assoc in H. apply (f_equal unescape_cp) in H. rewrite !unescape_escape_cp in H.
    injection H as -> H. by destruct (IH t2 H) as [-> ->].
Qed.

(** A value is printed on a text whose first character gives its kind. *)
Definition head_kind (v : json) (c : N) : Prop :=
  match v with
  | JNull => c = 110%N
  | JBool true => c = 116%N
  | JBool false => c = 102%N
  | JInt _ => c = 45%N \/ is_ascii_digit c = true
  | JStr _ => c = 34%N
  | JArr _ => c = 91%N
  | JObj _ => c = 123%N
  end.

Lemma print_head v : exists c l, print v = c :: l /\ head_kind v c.
Proof.
  destruct v as [|[]|z| | |]; simpl; try by eexists _, _.
  destruct z as [|p|p]; simpl; [by eexists _, _; split; [|right] | | by eexists _, _; split; [|left]].
  destruct (pos_to_uint_cons p) as (c & l & -> & ?). eauto.
Qed.

Definition splits {A} (f : A -> ustr) (a : A) : Prop :=
  forall b r1 r2, no_digit_head r1 -> no_digit_head r2 ->
    f a ++ r1 = f b ++ r2 -> a = b /\ r1 = r2.

(** Sequences of self-delimiting parts. *)
Lemma dumps_seq_split {A} (f : A -> ustr) close l1 :
  close <> 44%N -> is_ascii_digit close = false ->
  (forall a, exists c l, f a = c :: l /\ c <> close) ->
  Forall (splits f) l1 ->
  forall l2 r1 r2, dumps_seq close (map f l1) ++ r1 = dumps_seq close (map f l2) ++ r2 ->
  l1 = l2 /\ r1 = r2.
Proof.
  intros Hc Hd Hhead Hl1.
  assert (forall b l r, exists c tl, dumps_seq close (map f (b :: l)) ++ r = c :: tl /\ c <> close) as Hcons.
  { intros b l r. destruct (Hhead b) as (c & tl & E & ?).
    destruct l; simpl; rewrite E; simpl; by eexists _, _. }
  induction Hl1 as [|a l1 Ha Hl1 IH]; intros [|b l2] r1 r2.
  - by intros [= ->].
  - destruct (Hcons b l2 r2) as (c & tl & -> & ?). simpl. congruence.
  - destruct (Hcons a l1 r1) as (c & tl & -> & ?). simpl. congruence.
  - destruct l1 as [|a' l1], l2 as [|b' l2]; simpl; rewrite <- !app_assoc; simpl; intros H;
      apply Ha in H as [-> H]; try done; simplify_eq; try done.
    destruct (IH (b' :: l2) r1 r2 H) as [[= -> ->] ->]. done.
Qed.

Definition kind (v : json) : nat :=
  match v with
  | JNull => 0 | JBool true => 1 | JBool false => 2 | JInt _ => 3 | JStr _ => 4 | JArr _ => 5 | JObj _ => 6
  end%nat.

Lemma head_kind_unique v w c : head_kind v c -> head_kind w c -> kind v = kind w.
Proof.
  intros Hv Hw. destruct v as [|[]|z| | |], w as [|[]|z'| | |]; simpl in *; try done;
    repeat match goal with H : _ \/ _ |- _ => destruct H end; subst; try done;
    match goal with H : is_ascii_digit _ = true |- _ => vm_compute in H; discriminate end.
Qed.

Lemma print_kind v w r1 r2 : print v ++ r1 = print w ++ r2 -> kind v = kind w.
Proof.
  destruct (print_head v) as (c & l & -> & Hv), (print_head w) as (d & l' & -> & Hw).
  simpl. intros [= -> _]. by eapply head_kind_unique.
Qed.

Lemma print_head_not v c : c = 93%N \/ c = 125%N -> exists d l, print v = d :: l /\ d <> c.
Proof.
  intros Hc. destruct (print_head v) as (d & l & -> & Hk). eexists _, _. split; [done|].
  intros ->. destruct v as [|[]| | | |], Hc; simpl in Hk; subst; naive_solver.
Qed.

Lemma dumps_str_head t r : exists c l, dumps_str t ++ r = c :: l /\ c <> 125%N.
Proof. unfold dumps_str. by eexists _, _. Qed.

#[local] Opaque dumps_str.

Lemma print_splits v : splits print v.
Proof.
  induction v as [|b|z|t|l IH|l IH] using json_full_ind; intros w r1 r2 Hr1 Hr2 H;
    pose proof (print_kind _ _ _ _ H) as Hk.
  - destruct w as [|[]|z'|t'|l'|l']; try discriminate Hk. by simplify_eq/=.
  - destruct b, w as [|[]|z'|t'|l'|l']; try discriminate Hk; by simplify_eq/=.
  - destruct w as [|[]|z'|t'|l'|l']; try discriminate Hk. simpl in H.
    by apply str_of_Z_split in H as [-> ->].
  - destruct w as [|[]|z'|t'|l'|l']; try discriminate Hk. simpl in H.
    by apply dumps_str_split in H as [-> ->].
  - destruct w as [|[]|z'|t'|l'|l']; try discriminate Hk. simpl in H. apply cons_eq_inj in H as [_ H].
    apply dumps_seq_split in H as [-> ->]; [done..| |done].
    intros a. apply print_head_not. by left.
  - destruct w as [|[]|z'|t'|l'|l']; try discriminate Hk. simpl in H. apply cons_eq_inj in H as [_ H].
    apply dumps_seq_split in H as [-> ->]; [done..| |].
    + intros [k a]. apply dumps_str_head.
    + apply Forall_forall. intros [k a] Hin [k' b] s1 s2 Hs1 Hs2. cbn [fst snd]. rewrite <- !app_assoc.
      intros [<- E]%dumps_str_split. injection E as E.
      rewrite Forall_forall in IH. destruct (IH (k, a) Hin b s1 s2) as [Hab ->]; [done..|].
      simpl in Hab. by subst.
Qed.

#[local] Transparent dumps_str.

Lemma print_inj v w : print v = print w -> v = w.
Proof.
  intros H. apply (print_splits v w [] []); rewrite ?app_nil_r; done.
Qed.

(** Equal canonical bytes come from equal values, up to member order. *)
Lemma canonical_json_bytes_normalize v w :
  canonical_json_bytes v = canonical_json_bytes w -> normalize v = normalize w.
Proof. intros H%utf8_encode_inj. rewrite !dumps_normalize in H. by apply print_inj. Qed.

(** ** Members of an object *)
Fixpoint member (k : ustr) (l : list (ustr * json)) : option json :=
  match l with
  | [] => None
  | (k', v) :: l => if bool_decide (k = k') then Some v else member k l
  end.

Lemma member_elem k l v : NoDup l.*1 -> member k l = Some v <-> (k, v) ∈ l.
Proof.
  induction l as [|[k' v'] l IH]; simpl; intros Hnd; [split; [done|by intros ?%not_elem_of_nil]|].
  apply NoDup_cons in Hnd as [Hk Hnd]. rewrite elem_of_cons.
  case_bool_decide as E; subst.
  - split; [intros [= ->]; by left|]. intros [[= ->]|Hin]; [done|].
    destruct Hk. apply list_elem_of_fmap. by exists (k', v).
  - rewrite IH by done. split; [by right|]. intros [[= -> ->]|?]; done.
Qed.

Lemma member_sorted k l : NoDup l.*1 -> member k (sorted_by key_leb l) = member k l.
Proof.
  intros Hnd. apply option_eq. intros v.
  rewrite !member_elem; [by rewrite (sorted_by_Permutation key_leb l)|done|].
  by rewrite (sorted_by_Permutation key_leb l).
Qed.

Lemma normalize_keys l : (map (fun kv : ustr * json => (kv.1, normalize kv.2)) l).*1 = l.*1.
Proof. induction l as [|kv l IH]; [done|]. cbn. by f_equal. Qed.

Lemma normalize_member l k :
  NoDup l.*1 -> member k (sorted_by key_leb (map (fun kv => (kv.1, normalize kv.2)) l)) = normalize <$> member k l.
Proof.
  intros Hnd. rewrite member_sorted by by rewrite normalize_keys.
  clear Hnd. induction l as [|[k' v] l IH]; simpl; [done|]. by case_bool_decide.
Qed.

(** Two objects with the same canonical bytes agree on every member. *)
Lemma canonical_members l1 l2 k :
  NoDup l1.*1 -> NoDup l2.*1 ->
  canonical_json_bytes (JObj l1) = canonical_json_bytes (JObj l2) ->
  normalize <$> member k l1 = normalize <$> member k l2.
Proof.
  intros H1 H2 H%canonical_json_bytes_normalize. simpl in H. injection H as H.
  rewrite <- !normalize_member by done. by rewrite H.
Qed.
