(* ===== verification/Regex.v ===== *)
(** Regular expressions.

    The patterns of the source ([re.compile]) are written as terms of [regex]
    and run by derivatives: [fullmatch], [match_prefix] ([re.match]) and
    [search] are the truth values of the calls of the same name.  None of the
    modelled calls depends on the greediness of a quantifier except where a
    group is read back, which is done by its own function. *)
From S2P Require Export Unicode.

Inductive regex : Type :=
| Void
| Eps
| Chr (p : N -> bool)
| Seq (r s : regex)
| Alt (r s : regex)
| Star (r : regex).

(** Smart constructors keep derivatives small. *)
Definition seq_r (r s : regex) : regex :=
  match r with Void => Void | Eps => s | _ => Seq r s end.
Definition alt_r (r s : regex) : regex :=
  match r, s with Void, _ => s | _, Void => r | _, _ => Alt r s end.

Fixpoint nullable (r : regex) : bool :=
  match r with
  | Void => false
  | Eps => true
  | Chr _ => false
  | Seq r s => nullable r && nullable s
  | Alt r s => nullable r || nullable s
  | Star _ => true
  end.

Fixpoint deriv (c : N) (r : regex) : regex :=
  match r with
  | Void | Eps => Void
  | Chr p => if p c then Eps else Void
  | Seq r s =>
      let d := seq_r (deriv c r) s in
      if nullable r then alt_r d (deriv c s) else d
  | Alt r s => alt_r (deriv c r) (deriv c s)
  | Star r => seq_r (deriv c r) (Star r)
  end.

Fixpoint fullmatch (r : regex) (t : ustr) : bool :=
  match t with
  | [] => nullable r
  | c :: t => fullmatch (deriv c r) t
  end.

Fixpoint match_prefix (r : regex) (t : ustr) : bool :=
  nullable r || match t with [] => false | c :: t => match_prefix (deriv c r) t end.

Fixpoint search (r : regex) (t : ustr) : bool :=
  match_prefix r t || match t with [] => false | _ :: t => search r t end.

(** ** Pattern notation *)
Definition chr (c : N) : regex := Chr (fun d => (d =? c)%N).
Fixpoint lit (t : ustr) : regex := match t with [] => Eps | c :: t => Seq (chr c) (lit t) end.
Definition cls (l : ustr) : regex := Chr (fun d => existsb (N.eqb d) l).
Definition rng (lo hi : N) : regex := Chr (in_range lo hi).
Definition opt (r : regex) : regex := Alt r Eps.
Definition plus (r : regex) : regex := Seq r (Star r).
Fixpoint alts (l : list regex) : regex := match l with [] => Void | [r] => r | r :: l => Alt r (alts l) end.
Fixpoint seqs (l : list regex) : regex := match l with [] => Eps | [r] => r | r :: l => Seq r (seqs l) end.
(** [r{n}] and [r{n,n+m}] *)
Fixpoint times (n : nat) (r : regex) : regex := match n with O => Eps | S n => Seq r (times n r) end.
Fixpoint upto (m : nat) (r : regex) : regex := match m with O => Eps | S m => opt (Seq r (upto m r)) end.
Definition between (n m : nat) (r : regex) : regex := Seq (times n r) (upto (m - n) r).

(** Classes: [\s], [\S], [\d], ASCII letters and digits, [0-9a-f]. *)
Definition re_s : regex := Chr isspace_cp.
Definition re_S : regex := Chr (fun c => negb (isspace_cp c)).
Definition re_d : regex := Chr isdecimal_cp.
Definition is_hex (c : N) : bool := in_range 48 57 c || in_range 97 102 c.
Definition is_alnum (c : N) : bool := in_range 48 57 c || in_range 65 90 c || in_range 97 122 c.
Definition re_hex64 : regex := times 64 (Chr is_hex).

(** ** Language and correctness *)
Inductive lang : regex -> ustr -> Prop :=
| lang_eps : lang Eps []
| lang_chr p c : p c = true -> lang (Chr p) [c]
| lang_seq r s t u : lang r t -> lang s u -> lang (Seq r s) (t ++ u)
| lang_alt_l r s t : lang r t -> lang (Alt r s) t
| lang_alt_r r s t : lang s t -> lang (Alt r s) t
| lang_star_nil r : lang (Star r) []
| lang_star_cons r t u : lang r t -> lang (Star r) u -> lang (Star r) (t ++ u).
Create HintDb regex.
#[export] Hint Constructors lang : regex.

Ltac inv_lang :=
  repeat match goal with
  | H : lang Void _ |- _ => inversion H
  | H : lang Eps _ |- _ => inversion H; subst; clear H
  | H : lang (Chr _) _ |- _ => inversion H; subst; clear H
  | H : lang (Seq _ _) _ |- _ => inversion H; subst; clear H
  | H : lang (Alt _ _) _ |- _ => inversion H; subst; clear H
  end.

Lemma lang_seq_inv r s t : lang (Seq r s) t <-> exists t1 t2, t = t1 ++ t2 /\ lang r t1 /\ lang s t2.
Proof. split; [inversion 1; eauto|]. intros (t1 & t2 & -> & ? & ?). by constructor. Qed.

Lemma lang_seq_r r s t : lang (seq_r r s) t <-> lang (Seq r s) t.
Proof.
  destruct r; simpl; try done; split; intros H; inv_lang; try done.
  by apply (lang_seq Eps s [] t); [constructor|].
Qed.

Lemma lang_alt_r' r s t : lang (alt_r r s) t <-> lang (Alt r s) t.
Proof.
  destruct r, s; simpl; try done; split; intros H; inv_lang; eauto with regex.
Qed.

Lemma nullable_lang r : nullable r = true <-> lang r [].
Proof.
  induction r as [| |p|r IHr s IHs|r IHr s IHs|r IHr]; simpl.
  - split; [done|]. by inversion 1.
  - split; [constructor|done].
  - split; [done|]. by inversion 1.
  - rewrite andb_true_iff, IHr, IHs. split.
    + intros [Hr Hs]. by apply (lang_seq r s [] []).
    + inversion 1 as [| |? ? t u Ht Hu E1 E2| | | |]. by apply app_nil in E2 as [-> ->].
  - rewrite orb_true_iff, IHr, IHs. split; [intros []; [by apply lang_alt_l|by apply lang_alt_r]|].
    intros H. inv_lang; auto.
  - split; [constructor|done].
Qed.

Lemma deriv_lang r c t : lang (deriv c r) t <-> lang r (c :: t).
Proof.
  revert t. induction r as [| |p|r IHr s IHs|r IHr s IHs|r IHr]; intros t; simpl.
  - split; inversion 1.
  - split; inversion 1.
  - destruct (p c) eqn:E; split; intros H; inv_lang; try congruence; by constructor.
  - assert (lang (seq_r (deriv c r) s) t <-> exists t1 t2, t = t1 ++ t2 /\ lang r (c :: t1) /\ lang s t2) as Hd.
    { rewrite lang_seq_r. split.
      - inversion 1; subst. eexists _, _. split; [done|]. by rewrite <- IHr.
      - intros (t1 & t2 & -> & H1 & H2). constructor; [by apply IHr|done]. }
    assert (lang (Seq r s) (c :: t) <->
            (exists t1 t2, t = t1 ++ t2 /\ lang r (c :: t1) /\ lang s t2) \/ (lang r [] /\ lang s (c :: t))) as Hs.
    { split.
      - inversion 1 as [| |? ? t1 t2 H1 H2 E1 E2| | | |]; subst.
        destruct t1 as [|c' t1]; simplify_eq/=; eauto 8.
      - intros [(t1 & t2 & -> & H1 & H2)|[H1 H2]].
        + change (c :: t1 ++ t2) with ((c :: t1) ++ t2). by constructor.
        + by apply (lang_seq r s [] (c :: t)). }
    rewrite Hs. destruct (nullable r) eqn:E.
    + rewrite lang_alt_r'. split.
      * intros H. inv_lang; [left; by apply Hd|right]. rewrite <- IHs. by rewrite <- nullable_lang.
      * intros [H|[_ H]]; [apply lang_alt_l; by apply Hd|apply lang_alt_r; by apply IHs].
    + rewrite Hd. split; [by left|]. intros [H|[H _]]; [done|]. apply nullable_lang in H. congruence.
  - rewrite lang_alt_r'. split; intros H; inversion H; subst; constructor; first [by apply IHr|by apply IHs].
  - rewrite lang_seq_r. split.
    + intros H. apply lang_seq_inv in H as (t1 & t2 & -> & H1 & H2).
      apply (lang_star_cons r (c :: t1) t2); [by apply IHr|done].
    + intros H. remember (Star r) as r' eqn:Er. remember (c :: t) as t' eqn:Et.
      revert Er Et. induction H as [| | | | | |r0 t1 t2 H1 _ H2 IH2]; intros Er Et; try discriminate.
      injection Er as ->. destruct t1 as [|c' t1]; simpl in Et; [by apply IH2|].
      injection Et as -> <-. constructor; [by apply IHr|done].
Qed.

(** The matcher accepts exactly the language of the pattern. *)
Lemma fullmatch_lang r t : fullmatch r t = true <-> lang r t.
Proof.
  revert r. induction t as [|c t IH]; intros r; simpl; [apply nullable_lang|].
  by rewrite IH, deriv_lang.
Qed.

Lemma match_prefix_lang r t : match_prefix r t = true <-> exists p s, t = p ++ s /\ lang r p.
Proof.
  revert r. induction t as [|c t IH]; intros r; simpl.
  - rewrite orb_false_r, nullable_lang. split; [by exists [], []|].
    intros (p & s & E & H). symmetry in E. by apply app_nil in E as [-> ->].
  - rewrite orb_true_iff, nullable_lang, IH. split.
    + intros [H|(p & s & -> & H)]; [by exists [], (c :: t)|]. exists (c :: p), s. by rewrite <- deriv_lang.
    + intros (p & s & E & H). destruct p as [|c' p]; simplify_eq/=; [by left|].
      right. exists p, s. by rewrite deriv_lang.
Qed.

(** Exactly [n] characters of a class. *)
Lemma lang_times_chr n p t : lang (times n (Chr p)) t <-> length t = n /\ Forall (fun c => p c = true) t.
Proof.
  revert t. induction n as [|n IH]; intros t; simpl.
  - split; [inversion 1; subst; done|]. intros [H _]. apply length_zero_iff_nil in H as ->. constructor.
  - split.
    + intros H. inv_lang. match goal with H : lang (times _ _) _ |- _ => apply IH in H as [<- ?] end.
      split; [done|]. by constructor.
    + intros [Hn Ht]. destruct Ht as [|c t Hc Ht]; [done|]. simplify_eq/=.
      change (c :: t) with ([c] ++ t). constructor; [by constructor|]. by apply IH.
Qed.

Lemma fullmatch_hex64 t : fullmatch re_hex64 t = true <-> length t = 64%nat /\ Forall (fun c => is_hex c = true) t.
Proof. unfold re_hex64. by rewrite fullmatch_lang, lang_times_chr. Qed.

(** Up to [n] characters of a class. *)
Lemma lang_upto_chr n p t : lang (upto n (Chr p)) t <-> (length t <= n)%nat /\ Forall (fun c => p c = true) t.
Proof.
  revert t. induction n as [|n IH]; intros t; simpl.
  - split; [inversion 1; subst; done|]. intros [H _]. destruct t; simpl in *; [constructor|lia].
  - unfold opt. split.
    + intros H. inv_lang; [|split; [simpl; lia|done]].
      match goal with H : lang (upto _ _) _ |- _ => apply IH in H as [? ?] end.
      split; [simpl; lia|]. by constructor.
    + intros [Hn Ht]. destruct Ht as [|c t Hc Ht]; [apply lang_alt_r; constructor|]. simpl in Hn.
      apply lang_alt_l. change (c :: t) with ([c] ++ t). constructor; [by constructor|]. apply IH. split; [lia|done].
Qed.

Lemma lang_chr_inv p t : lang (Chr p) t <-> exists c, t = [c] /\ p c = true.
Proof. split; [inversion 1; eauto|]. intros (c & -> & ?). by constructor. Qed.

Lemma lang_lit l t : lang (lit l) t <-> t = l.
Proof.
  revert t. induction l as [|c l IH]; intros t; simpl.
  - split; [by inversion 1|intros ->; constructor].
  - rewrite lang_seq_inv. unfold chr. split.
    + intros (t1 & t2 & -> & H1 & H2). apply lang_chr_inv in H1 as (d & -> & Hd).
      apply N.eqb_eq in Hd as ->. apply IH in H2 as ->. done.
    + intros ->. exists [c], l. split; [done|]. split; [|by apply IH]. constructor. apply N.eqb_refl.
Qed.
