(* ===== verification/Paths.v ===== *)
(** Portable artifact paths ([cardrag_core/paths.py], [issuer_code] of
    [cardrag_core/domain.py]).

    A [PurePosixPath] is the list of its parts.  Every builder validates its
    identifier first, so the interesting facts are that the validator accepts
    exactly the texts made of safe segments, that the paths built are again
    accepted (no traversal can be smuggled in) and that distinct identifiers
    never share a path. *)
From S2P Require Export Regex.

Abbreviation posix_path := (list ustr).

(** [PurePosixPath( *segments )] for relative segments: separators split, empty
    and "." parts vanish. *)
Definition PurePosixPath (segments : list ustr) : posix_path :=
  filter (fun p => p <> [] /\ p <> us ".") (segments ≫= split_on 47).
(** [path / name] *)
Definition path_join (p : posix_path) (name : ustr) : posix_path := p ++ PurePosixPath [name].
Definition as_posix (p : posix_path) : ustr := join (us "/") p.

Definition is_id_char (c : N) : bool := is_alnum c || (c =? 46)%N || (c =? 95)%N || (c =? 45)%N.
Definition re_SAFE_ID : regex := Seq (Chr is_alnum) (upto 127 (Chr is_id_char)).
Definition re_SAFE_SEGMENT : regex :=
  Seq (Chr (fun c => is_alnum c || (c =? 46)%N)) (upto 254 (Chr is_id_char)).

Definition STABLE_POINTER_PATH : posix_path := PurePosixPath [us "v1"; us "channels"; us "stable.json"].

Definition validate_sha256 (value : ustr) : res ustr :=
  let! _ := raise_if (negb (fullmatch re_hex64 value))
              (ValueError "SHA-256 values must be 64 lowercase hexadecimal characters") in
  Ok value.

Definition validate_identifier (value : ustr) (label : string) : res ustr :=
  let! _ := raise_if (negb (fullmatch re_SAFE_ID value) || bool_decide (value ∈ [us "."; us ".."]))
              (ValueError (label ++ " is not a safe portable identifier")%string) in
  Ok value.

Definition channel_pointer_path (channel : ustr) : res posix_path :=
  let! value := validate_identifier channel "channel" in
  Ok (PurePosixPath [us "v1"; us "channels"; value ++ us ".json"]).

Definition is_control_or_del (c : N) : bool := (c <? 32)%N || (c =? 127)%N.

Definition unsafe_segment (segment : ustr) : bool :=
  bool_decide (segment = []) || bool_decide (segment ∈ [us "."; us ".."])
  || negb (fullmatch re_SAFE_SEGMENT segment).

Definition validate_relative_path (raw : ustr) : res posix_path :=
  let! _ := raise_if (bool_decide (raw = []) || startswith (us "/") raw || existsb (N.eqb 92) raw
                      || existsb (N.eqb 37) raw || existsb (N.eqb 0) raw)
              (ValueError "artifact paths must be non-empty, unencoded POSIX-relative paths") in
  let! _ := raise_if (existsb is_control_or_del raw)
              (ValueError "artifact paths must not contain control characters") in
  let segments := split_on 47 raw in
  let! _ := raise_if (existsb unsafe_segment segments)
              (ValueError "artifact path contains an unsafe segment") in
  Ok (PurePosixPath segments).

Definition object_path (digest : ustr) : res posix_path :=
  let! value := validate_sha256 digest in
  Ok (PurePosixPath [us "v1"; us "objects"; us "sha256"; slice value 0 2; value]).

Definition ocr_cache_root_path (reuse_key kind : ustr) : res posix_path :=
  let! value := validate_sha256 reuse_key in
  let! _ := raise_if (negb (bool_decide (kind ∈ [us "native"; us "adopted"; us "content"])))
              (ValueError "OCR cache kind must be native, adopted, or content") in
  Ok (PurePosixPath [us "v1"; us "ocr-cache"; kind; slice value 0 2; value]).

Definition ocr_manifest_path (reuse_key kind : ustr) : res posix_path :=
  let! root := ocr_cache_root_path reuse_key kind in Ok (path_join root (us "manifest.json")).
Definition ocr_ready_path (reuse_key kind : ustr) : res posix_path :=
  let! root := ocr_cache_root_path reuse_key kind in Ok (path_join root (us "READY.json")).

Definition content_ocr_variant_root_path (reuse_key variant_label : ustr) : res posix_path :=
  let! label := validate_identifier variant_label "OCR variant" in
  let! root := ocr_cache_root_path reuse_key (us "content") in
  Ok (path_join (path_join root (us "variants")) label).

Definition ocr_variant_root_path (reuse_key variant_token kind : ustr) : res posix_path :=
  let! label := validate_identifier variant_token "variant_token" in
  let! root := ocr_cache_root_path reuse_key kind in
  Ok (path_join (path_join root (us "variants")) label).
Definition ocr_variant_manifest_path (reuse_key variant_token kind : ustr) : res posix_path :=
  let! root := ocr_variant_root_path reuse_key variant_token kind in
  Ok (path_join root (us "manifest.json")).
Definition ocr_variant_ready_path (reuse_key variant_token kind : ustr) : res posix_path :=
  let! root := ocr_variant_root_path reuse_key variant_token kind in
  Ok (path_join root (us "READY.json")).

Definition generation_root_path (generation_id : ustr) : res posix_path :=
  let! value := validate_identifier generation_id "generation_id" in
  Ok (PurePosixPath [us "v1"; us "generations"; value]).
Definition generation_manifest_path (generation_id : ustr) : res posix_path :=
  let! root := generation_root_path generation_id in Ok (path_join root (us "manifest.json")).
Definition generation_ready_path (generation_id : ustr) : res posix_path :=
  let! root := generation_root_path generation_id in Ok (path_join root (us "READY.json")).
Definition generation_database_path (generation_id : ustr) : res posix_path :=
  let! root := generation_root_path generation_id in Ok (path_join root (us "index.sqlite3")).
Definition generation_vectors_path (generation_id : ustr) : res posix_path :=
  let! root := generation_root_path generation_id in Ok (path_join root (us "vectors.f32")).

(** [token] is the caller's token or the fresh [uuid4().hex]. *)
Definition temporary_object_path (digest token : ustr) : res posix_path :=
  let! value := validate_sha256 digest in
  let! suffix := validate_identifier token "temporary token" in
  Ok (PurePosixPath [us "v1"; us ".incoming"; us "objects"; slice value 0 2;
                     value ++ us "." ++ suffix ++ us ".tmp"]).

Record GenerationPaths := {
  gp_generation_id : ustr;
  gp_root : posix_path;
  gp_manifest : posix_path;
  gp_ready : posix_path;
  gp_serving_database : posix_path;
}.

Definition gp_vectors (g : GenerationPaths) : posix_path := path_join (gp_root g) (us "vectors.f32").

Definition for_generation (generation_id : ustr) : res GenerationPaths :=
  let! root := generation_root_path generation_id in
  let! value := validate_identifier generation_id "generation_id" in
  Ok {| gp_generation_id := value;
        gp_root := root;
        gp_manifest := path_join root (us "manifest.json");
        gp_ready := path_join root (us "READY.json");
        gp_serving_database := path_join root (us "index.sqlite3") |}.

(** [issuer_code] *)
Definition is_issuer_char (c : N) : bool :=
  in_range 97 122 c || in_range 48 57 c || (c =? 95)%N || (c =? 45)%N.
Definition re_issuer : regex := Seq (rng 97 122) (between 1 31 (Chr is_issuer_char)).
Definition issuer_code (value : ustr) : res ustr :=
  let! _ := raise_if (negb (fullmatch re_issuer value))
              (ValueError "issuer code must be a safe lowercase identifier") in
  Ok value.

(** ** Safe segments *)
Definition safe_segment (p : ustr) : Prop := unsafe_segment p = false.

Lemma safe_segment_spec p :
  safe_segment p <->
  p <> us "." /\ p <> us ".." /\ (length p <= 255)%nat /\ Forall (fun c => is_id_char c = true) p /\
  match p with c :: _ => is_alnum c || (c =? 46)%N = true | [] => False end.
Proof.
  unfold safe_segment, unsafe_segment.
  rewrite !orb_false_iff, !bool_decide_eq_false, negb_false_iff, fullmatch_lang.
  unfold re_SAFE_SEGMENT. rewrite lang_seq_inv. split.
  - intros [[Hne Hdots] (t1 & t2 & -> & H1 & H2)].
    apply lang_chr_inv in H1 as (c & -> & Hc). apply lang_upto_chr in H2 as [Hl Hall].
    split; [set_solver|]. split; [set_solver|]. split; [simpl; lia|]. split; [|done].
    constructor; [|done]. unfold is_id_char. apply orb_true_iff in Hc as [->| ->]; [done|].
    by rewrite !orb_true_r.
  - intros (H1 & H2 & Hl & Hall & Hhead). destruct p as [|c p]; [done|].
    split; [split; [done|set_solver]|]. exists [c], p. split; [done|].
    inversion Hall; subst. split; [by constructor|]. apply lang_upto_chr. simpl in Hl. split; [lia|done].
Qed.

Lemma identifier_spec value label v :
  validate_identifier value label = Ok v <->
  v = value /\ (length value <= 128)%nat /\ Forall (fun c => is_id_char c = true) value /\
  match value with c :: _ => is_alnum c = true | [] => False end.
Proof.
  unfold validate_identifier. rewrite bind_ok.
  setoid_rewrite raise_if_ok. rewrite orb_comm. split.
  - intros (? & H & [= <-]). apply orb_false_iff in H as [_ H]. apply negb_false_iff in H.
    apply fullmatch_lang, lang_seq_inv in H as (t1 & t2 & -> & H1 & H2).
    apply lang_chr_inv in H1 as (c & -> & Hc). apply lang_upto_chr in H2 as [Hl Hall].
    split; [done|]. split; [simpl; lia|]. split; [|done]. constructor; [|done]. unfold is_id_char. by rewrite Hc.
  - intros (-> & Hl & Hall & Hhead). exists tt. split; [|done].
    destruct value as [|c value]; [done|]. apply orb_false_iff. split.
    + apply bool_decide_eq_false. intros Hin. assert (c = 46%N) as ->.
      { apply elem_of_cons in Hin as [[= -> _]|Hin]; [done|].
        apply list_elem_of_singleton in Hin. by injection Hin as -> _. }
      done.
    + apply negb_false_iff, fullmatch_lang, lang_seq_inv. exists [c], value. inversion Hall; subst.
      split; [done|]. split; [by constructor|]. apply lang_upto_chr. simpl in Hl. split; [lia|done].
Qed.

Lemma id_char_not_slash t : Forall (fun c => is_id_char c = true) t -> Forall (fun c => c <> 47%N) t.
Proof. intros H. eapply Forall_impl; [exact H|]. intros c Hc ->. discriminate. Qed.

(** ** Splitting and joining *)
Lemma split_on_cons_nosep sep p t :
  Forall (fun c => c <> sep) p -> exists l ls, split_on sep t = l :: ls /\ split_on sep (p ++ t) = (p ++ l) :: ls.
Proof.
  intros Hp. assert (exists l ls, split_on sep t = l :: ls) as (l & ls & E).
  { destruct t as [|c t]; simpl; [eauto|]. case_match; [eauto|]. case_match; eauto. }
  exists l, ls. split; [done|]. induction Hp as [|c p Hc Hp IH]; simpl; [done|].
  apply N.eqb_neq in Hc as ->. by rewrite IH.
Qed.

Lemma split_on_nosep sep p : Forall (fun c => c <> sep) p -> split_on sep p = [p].
Proof.
  intros Hp. destruct (split_on_cons_nosep sep p [] Hp) as (l & ls & E & H).
  rewrite app_nil_r in H. simpl in E. injection E as <- <-. by rewrite app_nil_r in H.
Qed.

Lemma split_join sep parts :
  parts <> [] -> Forall (Forall (fun c => c <> sep)) parts -> split_on sep (join [sep] parts) = parts.
Proof.
  intros Hne. induction 1 as [|p ps Hp Hps IH]; [done|].
  destruct ps as [|q ps]; [by apply split_on_nosep|].
  change (join [sep] (p :: q :: ps)) with (p ++ sep :: join [sep] (q :: ps)).
  destruct (split_on_cons_nosep sep p (sep :: join [sep] (q :: ps)) Hp) as (l & ls & E & ->).
  simpl in E. rewrite N.eqb_refl in E. injection E as <- <-.
  rewrite app_nil_r. f_equal. by apply IH.
Qed.

Lemma split_on_not_nil sep t : split_on sep t <> [].
Proof. destruct t as [|c t]; simpl; [done|]. repeat case_match; done. Qed.

Lemma split_on_app sep a b : split_on sep (a ++ sep :: b) = split_on sep a ++ split_on sep b.
Proof.
  induction a as [|c a IH]; cbn; [by rewrite N.eqb_refl|]. destruct (c =? sep)%N; [by rewrite IH|]. rewrite IH.
  pose proof (split_on_not_nil sep a). by destruct (split_on sep a).
Qed.

Lemma join_split sep t : join [sep] (split_on sep t) = t.
Proof.
  induction t as [|c t IH]; simpl; [done|].
  pose proof (split_on_not_nil sep t) as Hne.
  destruct (N.eqb_spec c sep) as [->|Hc].
  - destruct (split_on sep t) as [|l ls]; [done|]. simpl in *. by rewrite IH.
  - destruct (split_on sep t) as [|l ls]; [done|]. destruct ls; simpl in *; by rewrite <- IH.
Qed.

(** ** The validator *)
Definition safe_path (p : posix_path) : Prop := p <> [] /\ Forall safe_segment p.

Lemma safe_segment_noslash p : safe_segment p -> Forall (fun c => c <> 47%N) p.
Proof. intros (_ & _ & _ & H & _)%safe_segment_spec. by apply id_char_not_slash. Qed.
#[export] Hint Resolve safe_segment_noslash : core.

Lemma safe_segment_nonempty p : safe_segment p -> p <> [] /\ p <> us ".".
Proof. intros (H & _ & _ & _ & Hh)%safe_segment_spec. split; [by destruct p|done]. Qed.

Lemma PurePosixPath_safe segments : Forall safe_segment segments -> PurePosixPath segments = segments.
Proof.
  unfold PurePosixPath. induction 1 as [|p ps Hp Hps IH]; [done|].
  rewrite bind_cons, split_on_nosep by auto. simpl.
  rewrite filter_cons_True by by apply safe_segment_nonempty. by f_equal.
Qed.

Lemma path_join_safe p name : safe_path p -> safe_segment name -> path_join p name = p ++ [name].
Proof. intros _ Hn. unfold path_join. by rewrite PurePosixPath_safe by by constructor. Qed.

Lemma safe_path_split p : safe_path p -> split_on 47 (as_posix p) = p.
Proof.
  intros [Hne Hp]. apply split_join; [done|]. eapply Forall_impl; [exact Hp|]. apply safe_segment_noslash.
Qed.

Lemma as_posix_inj p q : safe_path p -> safe_path q -> as_posix p = as_posix q -> p = q.
Proof. intros Hp Hq E. rewrite <- (safe_path_split p), <- (safe_path_split q) by done. by rewrite E. Qed.

Lemma as_posix_cons p ps : as_posix (p :: ps) = p ++ match ps with [] => [] | _ => us "/" ++ as_posix ps end.
Proof. destruct ps; [by rewrite app_nil_r|done]. Qed.

Lemma as_posix_chars p : Forall safe_segment p -> Forall (fun c => is_id_char c = true \/ c = 47%N) (as_posix p).
Proof.
  induction 1 as [|s ps Hs Hps IH]; [constructor|]. rewrite as_posix_cons.
  apply Forall_app. split.
  - apply safe_segment_spec in Hs as (_ & _ & _ & Hs & _). eapply Forall_impl; [exact Hs|]. by left.
  - destruct ps; [constructor|]. constructor; [by right|done].
Qed.

Lemma existsb_false_chars (f : N -> bool) t :
  Forall (fun c => is_id_char c = true \/ c = 47%N) t -> f 47%N = false ->
  (forall c, is_id_char c = true -> f c = false) -> existsb f t = false.
Proof.
  intros Ht Hs Hf. apply not_true_iff_false. rewrite existsb_elem. intros (c & Hin & Hc).
  rewrite Forall_forall in Ht. destruct (Ht c Hin) as [H| ->]; [apply Hf in H|]; congruence.
Qed.

Lemma id_char_range c : is_id_char c = true -> (45 <= c <= 122 /\ c <> 92)%N.
Proof.
  unfold is_id_char, is_alnum, in_range. intros H.
  rewrite !orb_true_iff, !andb_true_iff, !N.leb_le, !N.eqb_eq in H. lia.
Qed.

(** Decides [f c = false] for a test that no safe character passes. *)
Ltac no_id_char :=
  let Hc := fresh in intros ? Hc%id_char_range; unfold is_control_or_del;
  rewrite ?orb_false_iff, ?N.eqb_neq, ?N.ltb_ge; lia.

Lemma startswith_single a c t : startswith [a] (c :: t) = (a =? c)%N.
Proof. apply andb_true_r. Qed.

Lemma validate_relative_path_ok raw p :
  validate_relative_path raw = Ok p <-> safe_path p /\ raw = as_posix p.
Proof.
  unfold validate_relative_path. split.
  - intros H. inv_res H. subst.
    assert (Forall safe_segment (split_on 47 raw)) as Hs.
    { apply Forall_forall. intros s Hin. unfold safe_segment. apply not_true_iff_false. intros Hs.
      match goal with H : existsb unsafe_segment _ = false |- _ => apply not_true_iff_false in H; apply H end.
      apply existsb_elem. eauto. }
    rewrite PurePosixPath_safe by done. split; [split; [apply split_on_not_nil|done]|].
    unfold as_posix. change (us "/") with [47%N]. by rewrite join_split.
  - intros [Hp ->]. destruct Hp as [Hne Hp]. pose proof (as_posix_chars p Hp) as Hc.
    rewrite safe_path_split by by split.
    assert (bool_decide (as_posix p = []) = false) as ->.
    { apply bool_decide_eq_false. destruct p as [|s p]; [done|]. rewrite as_posix_cons.
      inversion Hp as [|? ? Hs]; subst. apply safe_segment_nonempty in Hs as [Hs _]. by destruct s. }
    assert (startswith (us "/") (as_posix p) = false) as ->.
    { destruct p as [|s p]; [done|]. rewrite as_posix_cons. inversion Hp as [|? ? Hs]; subst.
      apply safe_segment_noslash in Hs as Hns. apply safe_segment_nonempty in Hs as [Hs _].
      destruct s as [|c s]; [done|]. inversion Hns; subst.
      change (us "/") with [47%N]. simpl app. rewrite startswith_single. apply N.eqb_neq. congruence. }
    rewrite !(existsb_false_chars _ _ Hc) by first [reflexivity|no_id_char]. simpl.
    assert (existsb unsafe_segment p = false) as ->.
    { apply not_true_iff_false. rewrite existsb_elem. intros (s & Hin & Hs).
      rewrite Forall_forall in Hp. specialize (Hp s Hin). unfold safe_segment in Hp. congruence. }
    simpl. by rewrite PurePosixPath_safe.
Qed.

(** [validate_relative_path] accepts exactly the texts that are safe
    segments joined by slashes, and returns those segments. *)
Theorem validate_relative_path_spec raw p :
  validate_relative_path raw = Ok p <-> safe_path p /\ raw = as_posix p.
Proof. apply validate_relative_path_ok. Qed.

(** ** The builders *)
Inductive built_path : posix_path -> Prop :=
| built_channel c p : channel_pointer_path c = Ok p -> built_path p
| built_object d p : object_path d = Ok p -> built_path p
| built_ocr_manifest k kind p : ocr_manifest_path k kind = Ok p -> built_path p
| built_ocr_ready k kind p : ocr_ready_path k kind = Ok p -> built_path p
| built_content_variant k v p : content_ocr_variant_root_path k v = Ok p -> built_path p
| built_variant_manifest k v kind p : ocr_variant_manifest_path k v kind = Ok p -> built_path p
| built_variant_ready k v kind p : ocr_variant_ready_path k v kind = Ok p -> built_path p
| built_generation_manifest g p : generation_manifest_path g = Ok p -> built_path p
| built_generation_ready g p : generation_ready_path g = Ok p -> built_path p
| built_generation_database g p : generation_database_path g = Ok p -> built_path p
| built_generation_vectors g p : generation_vectors_path g = Ok p -> built_path p
| built_temporary d t p : temporary_object_path d t = Ok p -> built_path p.

Lemma hex_id_char c : is_hex c = true -> is_alnum c = true.
Proof.
  unfold is_hex, is_alnum, in_range. rewrite !orb_true_iff, !andb_true_iff, !N.leb_le. lia.
Qed.

Lemma alnum_id_char c : is_alnum c = true -> is_id_char c = true.
Proof. unfold is_id_char. by intros ->. Qed.

Lemma validate_sha256_ok value v :
  validate_sha256 value = Ok v <-> v = value /\ length value = 64%nat /\ Forall (fun c => is_hex c = true) value.
Proof.
  unfold validate_sha256. rewrite <- fullmatch_hex64. split.
  - intros H. inv_res H. by bsplit.
  - intros (-> & ->). done.
Qed.

(** A segment that starts like an identifier and goes on with identifier
    characters is safe. *)
Lemma safe_segment_id p :
  (length p <= 255)%nat -> Forall (fun c => is_id_char c = true) p ->
  match p with c :: _ => is_alnum c = true | [] => False end -> safe_segment p.
Proof.
  intros Hl Hall Hh. apply safe_segment_spec. destruct p as [|c p]; [done|].
  assert (c <> 46%N) by (intros ->; discriminate).
  split; [intros [= -> _]; done|]. split; [intros [= -> _]; done|]. split; [done|]. split; [done|]. by rewrite Hh.
Qed.

Lemma safe_segment_hex p :
  (0 < length p <= 255)%nat -> Forall (fun c => is_hex c = true) p -> safe_segment p.
Proof.
  intros Hl Hp. apply safe_segment_id; [lia| |].
  - eapply Forall_impl; [exact Hp|]. eauto using alnum_id_char, hex_id_char.
  - destruct Hp; [simpl in *; lia|]. by apply hex_id_char.
Qed.

Lemma identifier_safe value label v :
  validate_identifier value label = Ok v -> v = value /\ safe_segment v.
Proof.
  intros (-> & Hl & Hall & Hh)%identifier_spec. split; [done|].
  apply safe_segment_id; [lia|done|]. by destruct value.
Qed.

Lemma safe_segment_app p q :
  safe_segment p -> match p with c :: _ => is_alnum c = true | [] => False end ->
  (length p + length q <= 255)%nat ->
  Forall (fun c => is_id_char c = true) q -> safe_segment (p ++ q).
Proof.
  intros (_ & _ & _ & Hp & _)%safe_segment_spec Hh Hl Hq. apply safe_segment_id.
  - rewrite length_app. lia.
  - by apply Forall_app.
  - by destruct p.
Qed.

Ltac safe_const := reflexivity.

Lemma slice_hex2 value :
  length value = 64%nat -> Forall (fun c => is_hex c = true) value -> safe_segment (slice value 0 2).
Proof.
  intros Hl Hh. apply safe_segment_hex; [|by apply Forall_take, Forall_drop].
  unfold slice. rewrite length_take, length_drop. unfold zlen. rewrite Hl. simpl. lia.
Qed.

Lemma sha256_safe value v : validate_sha256 value = Ok v -> v = value /\ safe_segment value /\ safe_segment (slice value 0 2).
Proof.
  intros (-> & Hl & Hh)%validate_sha256_ok. split; [done|]. split; [by apply safe_segment_hex; [lia|]|by apply slice_hex2].
Qed.

Lemma ocr_cache_root_shape k kind p :
  ocr_cache_root_path k kind = Ok p -> safe_path p /\ p = [us "v1"; us "ocr-cache"; kind; slice k 0 2; k].
Proof.
  unfold ocr_cache_root_path. intros H. inv_res H. bsplit.
  match goal with H : validate_sha256 _ = _ |- _ => apply sha256_safe in H as (-> & Hk & Hs) end.
  assert (safe_segment kind) by
    (repeat match goal with
     | H : _ ∈ _ :: _ |- _ => apply elem_of_cons in H as [->|H]; [safe_const|]
     | H : _ ∈ [] |- _ => by apply not_elem_of_nil in H
     end).
  assert (Forall safe_segment [us "v1"; us "ocr-cache"; kind; slice k 0 2; k]) by (repeat constructor; try safe_const; done).
  by rewrite PurePosixPath_safe.
Qed.

Lemma ocr_cache_root_safe k kind p : ocr_cache_root_path k kind = Ok p -> safe_path p.
Proof. by intros [? _]%ocr_cache_root_shape. Qed.

Lemma object_path_shape d p :
  object_path d = Ok p -> safe_path p /\ p = [us "v1"; us "objects"; us "sha256"; slice d 0 2; d].
Proof.
  unfold object_path. intros H. inv_res H.
  match goal with H : validate_sha256 _ = _ |- _ => apply sha256_safe in H as (-> & Hk & Hs) end.
  assert (Forall safe_segment [us "v1"; us "objects"; us "sha256"; slice d 0 2; d]) by (repeat constructor; try safe_const; done).
  by rewrite PurePosixPath_safe.
Qed.

Lemma generation_root_safe g p : generation_root_path g = Ok p -> safe_path p /\ p = [us "v1"; us "generations"; g].
Proof.
  unfold generation_root_path. intros H. inv_res H.
  match goal with H : validate_identifier _ _ = _ |- _ => apply identifier_safe in H as [-> Hs] end.
  assert (Forall safe_segment [us "v1"; us "generations"; g]) by (repeat constructor; try safe_const; done).
  rewrite PurePosixPath_safe by done. done.
Qed.

Lemma safe_path_snoc p name : safe_path p -> safe_segment name -> safe_path (path_join p name).
Proof.
  intros Hp Hn. rewrite path_join_safe by done. destruct Hp as [Hne Hp]. split; [by destruct p|].
  apply Forall_app. by split; [|constructor].
Qed.

Lemma variant_root_safe (root : res posix_path) value label0 p :
  (forall q, root = Ok q -> safe_path q) ->
  (let! label := validate_identifier value label0 in
   let! r := root in Ok (path_join (path_join r (us "variants")) label)) = Ok p -> safe_path p.
Proof.
  intros Hroot H. inv_res H.
  match goal with H : validate_identifier _ _ = _ |- _ => apply identifier_safe in H as [-> Hs] end.
  apply safe_path_snoc; [|done]. apply safe_path_snoc; [by apply Hroot|safe_const].
Qed.

Lemma built_path_safe p : built_path p -> safe_path p.
Proof.
  intros Hb. destruct Hb as [c p H|d p H|k kind p H|k kind p H|k v p H|k v kind p H|k v kind p H|g p H|g p H|g p H|g p H|d t p H].
  - unfold channel_pointer_path in H. inv_res H.
    match goal with H : validate_identifier _ _ = _ |- _ =>
      pose proof H as (_ & ? & _ & ?)%identifier_spec; apply identifier_safe in H as [-> Hs] end.
    assert (safe_segment (c ++ us ".json")).
    { apply safe_segment_app; [done|by destruct c| |by repeat constructor]. simpl. lia. }
    assert (Forall safe_segment [us "v1"; us "channels"; c ++ us ".json"]) by (repeat constructor; try safe_const; done).
    rewrite PurePosixPath_safe by done. done.
  - unfold object_path in H. inv_res H.
    match goal with H : validate_sha256 _ = _ |- _ => apply validate_sha256_ok in H as (-> & Hl & Hh) end.
    assert (Forall safe_segment [us "v1"; us "objects"; us "sha256"; slice d 0 2; d]).
    { repeat constructor; try safe_const; [by apply slice_hex2|]. apply safe_segment_hex; [lia|done]. }
    rewrite PurePosixPath_safe by done. done.
  - unfold ocr_manifest_path in H. inv_res H. apply safe_path_snoc; [by eapply ocr_cache_root_safe|safe_const].
  - unfold ocr_ready_path in H. inv_res H. apply safe_path_snoc; [by eapply ocr_cache_root_safe|safe_const].
  - unfold content_ocr_variant_root_path in H. eapply variant_root_safe; [|exact H]. intros q. apply ocr_cache_root_safe.
  - unfold ocr_variant_manifest_path in H. inv_res H. apply safe_path_snoc; [|safe_const].
    eapply variant_root_safe; [|eassumption]. intros q. apply ocr_cache_root_safe.
  - unfold ocr_variant_ready_path in H. inv_res H. apply safe_path_snoc; [|safe_const].
    eapply variant_root_safe; [|eassumption]. intros q. apply ocr_cache_root_safe.
  - unfold generation_manifest_path in H. inv_res H. apply safe_path_snoc; [by eapply generation_root_safe|safe_const].
  - unfold generation_ready_path in H. inv_res H. apply safe_path_snoc; [by eapply generation_root_safe|safe_const].
  - unfold generation_database_path in H. inv_res H. apply safe_path_snoc; [by eapply generation_root_safe|safe_const].
  - unfold generation_vectors_path in H. inv_res H. apply safe_path_snoc; [by eapply generation_root_safe|safe_const].
  - unfold temporary_object_path in H. inv_res H.
    match goal with H : validate_identifier _ _ = _ |- _ =>
      pose proof H as (_ & ? & ? & _)%identifier_spec; apply identifier_safe in H as [-> Hs] end.
    match goal with H : validate_sha256 _ = _ |- _ => apply validate_sha256_ok in H as (-> & Hl & Hh) end.
    assert (safe_segment (d ++ us "." ++ t ++ us ".tmp")).
    { apply safe_segment_app; [apply safe_segment_hex; [lia|done]| | |].
      - destruct d; [done|]. inversion Hh; subst. by apply hex_id_char.
      - rewrite !length_app. simpl. lia.
      - apply Forall_app. split; [by repeat constructor|]. apply Forall_app. by split; [|repeat constructor]. }
    assert (Forall safe_segment [us "v1"; us ".incoming"; us "objects"; slice d 0 2; d ++ us "." ++ t ++ us ".tmp"]).
    { repeat constructor; try safe_const; [by apply slice_hex2|done]. }
    rewrite PurePosixPath_safe by done. done.
Qed.

(** Whatever identifier a builder accepts, the path it returns passes
    [validate_relative_path] unchanged: no identifier leaves the namespace. *)
Theorem built_paths_validate p :
  built_path p -> validate_relative_path (as_posix p) = Ok p.
Proof. intros Hp. apply validate_relative_path_spec. split; [by apply built_path_safe|done]. Qed.

Lemma built_paths_validate_witness :
  generation_vectors_path (us "gen-1") = Ok [us "v1"; us "generations"; us "gen-1"; us "vectors.f32"] /\
  validate_relative_path (us "v1/generations/gen-1/vectors.f32")
    = Ok [us "v1"; us "generations"; us "gen-1"; us "vectors.f32"].
Proof.
  split; [vm_compute; reflexivity|].
  apply (built_paths_validate [us "v1"; us "generations"; us "gen-1"; us "vectors.f32"]).
  eapply (built_generation_vectors (us "gen-1")). vm_compute. reflexivity.
Defined.

(** The files of a generation. *)
Definition generation_files (g : GenerationPaths) : list posix_path :=
  [gp_manifest g; gp_ready g; gp_serving_database g; gp_vectors g].

Lemma for_generation_files g gp :
  for_generation g = Ok gp ->
  generation_files gp = map (fun n => [us "v1"; us "generations"; g; n])
    [us "manifest.json"; us "READY.json"; us "index.sqlite3"; us "vectors.f32"].
Proof.
  unfold for_generation. intros H. inv_res H.
  match goal with H : generation_root_path _ = _ |- _ => apply generation_root_safe in H as [Hs ->] end.
  unfold generation_files, gp_vectors. simpl.
  rewrite !path_join_safe by first [done|safe_const]. done.
Qed.

(** The files of two generations with different identifiers are disjoint,
    and within one generation the four files are distinct. *)
Theorem generation_files_disjoint a b ga gb :
  for_generation a = Ok ga -> for_generation b = Ok gb ->
  NoDup (generation_files ga) /\ (a <> b -> forall p, p ∈ generation_files ga -> p ∉ generation_files gb).
Proof.
  intros ->%for_generation_files ->%for_generation_files. split.
  - apply NoDup_fmap_2_strong; [by intros x y _ _ [= ->]|].
    repeat (constructor; [rewrite <- (bool_decide_eq_false (_ ∈ _)); vm_compute; reflexivity|]). constructor.
  - intros Hab p (x & -> & _)%list_elem_of_fmap (y & E & _)%list_elem_of_fmap. congruence.
Qed.

Lemma generation_files_disjoint_witness :
  exists ga gb, for_generation (us "g1") = Ok ga /\ for_generation (us "g2") = Ok gb /\
    NoDup (generation_files ga) /\ (us "g1" <> us "g2" -> forall p, p ∈ generation_files ga -> p ∉ generation_files gb).
Proof.
  eexists _, _. split; [vm_compute; reflexivity|]. split; [vm_compute; reflexivity|].
  apply (generation_files_disjoint (us "g1") (us "g2")); vm_compute; reflexivity.
Defined.
