(* ===== verification/StructureModel.v ===== *)
(** Structure artifacts: data, identities and metadata checks
    ([cardrag_worker/structure.py], first part, and [PageRecord] of
    [cardrag_worker/contracts.py]).

    The records carry the fields of the dataclasses of the same name; a
    [payload] is the JSON object that is hashed into an identity.  The closed
    string types of the source ([MajorClass], [NodeType], ...) are inductive
    types with the string each constructor stands for. *)
From S2P Require Export Json Paths.

(** ** Closed vocabularies *)
Inductive MajorClass := BENEFIT | NOTICE | MIXED | UNKNOWN.
Inductive NodeType :=
  ROOT | MAJOR_SECTION | ITEM | PARAGRAPH | LIST_ITEM | TABLE | TABLE_ROW | FOOTNOTE | BOILERPLATE | UNCLASSIFIED.
Inductive LinkType := CONTINUATION_OF | FOOTNOTE_OF | APPLIES_TO | PREVIOUS | NEXT.
Inductive TableRole := HEADER | SEPARATOR | BODY.
Inductive ViewType := V_TITLE | V_RAW_ITEM | V_CONTEXTUAL_ITEM | V_DETAIL | V_MAJOR_SECTION | V_CONTRACT.

#[export] Instance MajorClass_eq_dec : EqDecision MajorClass. Proof. solve_decision. Defined.
#[export] Instance NodeType_eq_dec : EqDecision NodeType. Proof. solve_decision. Defined.
#[export] Instance LinkType_eq_dec : EqDecision LinkType. Proof. solve_decision. Defined.
#[export] Instance TableRole_eq_dec : EqDecision TableRole. Proof. solve_decision. Defined.
#[export] Instance ViewType_eq_dec : EqDecision ViewType. Proof. solve_decision. Defined.

Definition major_class_str (m : MajorClass) : ustr :=
  us match m with BENEFIT => "BENEFIT" | NOTICE => "NOTICE" | MIXED => "MIXED" | UNKNOWN => "UNKNOWN" end.
Definition node_type_str (t : NodeType) : ustr :=
  us match t with
     | ROOT => "ROOT" | MAJOR_SECTION => "MAJOR_SECTION" | ITEM => "ITEM" | PARAGRAPH => "PARAGRAPH"
     | LIST_ITEM => "LIST_ITEM" | TABLE => "TABLE" | TABLE_ROW => "TABLE_ROW" | FOOTNOTE => "FOOTNOTE"
     | BOILERPLATE => "BOILERPLATE" | UNCLASSIFIED => "UNCLASSIFIED"
     end.
Definition link_type_str (t : LinkType) : ustr :=
  us match t with
     | CONTINUATION_OF => "CONTINUATION_OF" | FOOTNOTE_OF => "FOOTNOTE_OF" | APPLIES_TO => "APPLIES_TO"
     | PREVIOUS => "PREVIOUS" | NEXT => "NEXT"
     end.
Definition table_role_str (r : TableRole) : ustr :=
  us match r with HEADER => "HEADER" | SEPARATOR => "SEPARATOR" | BODY => "BODY" end.
Definition view_type_name (t : ViewType) : string :=
  match t with
  | V_TITLE => "TITLE" | V_RAW_ITEM => "RAW_ITEM" | V_CONTEXTUAL_ITEM => "CONTEXTUAL_ITEM"
  | V_DETAIL => "DETAIL" | V_MAJOR_SECTION => "MAJOR_SECTION" | V_CONTRACT => "CONTRACT"
  end.
Definition view_type_str (t : ViewType) : ustr := us (view_type_name t).

(** [CANONICAL_LEAF_TYPES]; every other node type is in [_CONTAINER_TYPES]. *)
Definition is_leaf_type (t : NodeType) : bool :=
  match t with
  | PARAGRAPH | LIST_ITEM | TABLE_ROW | FOOTNOTE | BOILERPLATE | UNCLASSIFIED => true
  | _ => false
  end.
Definition is_container_type (t : NodeType) : bool :=
  match t with ROOT | MAJOR_SECTION | ITEM | TABLE => true | _ => false end.

(** ** Schema constants *)
Definition STRUCTURE_SCHEMA : ustr := us "cardrag.structure.v2".
Definition STRUCTURE_PROFILE_SCHEMA : ustr := us "cardrag.issuer-structure-profile.v1".
Definition STRUCTURE_COVERAGE_SCHEMA : ustr := us "cardrag.structure-coverage.v1".
Definition STRUCTURE_SOURCE_SCHEMA : ustr := us "cardrag.structure-source.v1".
Definition CONTEXTUAL_ITEM_CONTEXT_POLICY : ustr := us "cardrag.contextual-item-context.v1".
Definition UNCLASSIFIED_FALLBACK_POLICY : ustr := us "cardrag.structure-unclassified-fallback.v1".
Definition CONTEXT_FIELD_ORDER : list ustr :=
  map us ["issuer"; "product_name"; "product_code"; "source_version"; "effective_date";
          "contract_revision_id"; "major_class"]%string.
Definition CONTEXT_EFFECTIVE_DATE_NULL : ustr := us "null".
Definition CONTEXT_HEADING_LABEL : ustr := us "heading".

(** ** Issuer profiles *)
Record IssuerParserProfile := {
  ip_issuer : ustr;
  ip_profile_id : ustr;
  ip_issuer_markers : list ustr;
  ip_major_prefixes : list ustr;
  ip_item_prefixes : list ustr;
  ip_benefit_terms : list ustr;
  ip_notice_terms : list ustr;
  ip_edge_line_window : Z;
}.
#[export] Instance IssuerParserProfile_eq_dec : EqDecision IssuerParserProfile.
Proof. solve_decision. Defined.

Definition BENEFIT_TERMS : list ustr :=
  map us ["혜택"; "서비스"; "할인"; "적립"; "캐시백"; "포인트"; "마일리지"; "무료"]%string.
Definition NOTICE_TERMS : list ustr :=
  map us ["이용 전 확인"; "적용 안내"; "제외 대상"; "제외"; "전월 실적"; "공통 확인"; "유의사항";
          "주의사항"; "연회비"; "해외 이용"; "의무표시"; "조건"; "한도"]%string.

Definition JStrs (l : list ustr) : json := JArr (map JStr l).

Definition profile_payload (p : IssuerParserProfile) : json :=
  JObj [(us "benefit_terms", JStrs (ip_benefit_terms p));
        (us "edge_line_window", JInt (ip_edge_line_window p));
        (us "issuer", JStr (ip_issuer p));
        (us "issuer_markers", JStrs (ip_issuer_markers p));
        (us "item_prefixes", JStrs (ip_item_prefixes p));
        (us "major_prefixes", JStrs (ip_major_prefixes p));
        (us "profile_id", JStr (ip_profile_id p));
        (us "schema_version", JStr STRUCTURE_PROFILE_SCHEMA)].
Definition profile_sha256 (p : IssuerParserProfile) : ustr := canonical_sha256 (profile_payload p).

Definition mk_profile (issuer id : ustr) (markers majors items : list ustr) : IssuerParserProfile :=
  {| ip_issuer := issuer; ip_profile_id := id; ip_issuer_markers := markers;
     ip_major_prefixes := majors; ip_item_prefixes := items;
     ip_benefit_terms := BENEFIT_TERMS; ip_notice_terms := NOTICE_TERMS; ip_edge_line_window := 2 |}.

Definition PROFILES : list IssuerParserProfile :=
  [mk_profile (us "kb") (us "cardrag.issuer-profile.kb.v1") (map us ["kb국민카드"; "국민카드"]%string)
     (map us ["■"; "▣"; "◆"]%string) (map us ["□"; "▶"; "◇"; "●"]%string);
   mk_profile (us "samsung") (us "cardrag.issuer-profile.samsung.v1") (map us ["삼성카드"]%string)
     (map us ["■"; "▣"; "◆"]%string) (map us ["혜택 "; "서비스 "; "□"; "▶"]%string);
   mk_profile (us "shinhan") (us "cardrag.issuer-profile.shinhan.v1") (map us ["신한카드"]%string)
     (map us ["■"; "▣"; "◎"]%string) (map us ["□"; "▶"; "○"; "●"]%string);
   mk_profile (us "woori") (us "cardrag.issuer-profile.woori.v1") (map us ["우리카드"]%string)
     (map us ["■"; "▣"; "Ⅰ"; "Ⅱ"; "Ⅲ"; "Ⅳ"]%string)
     (map us ["□"; "▶"; "1."; "2."; "3."; "4."]%string)].

Definition issuer_parser_profile (issuer : ustr) : res IssuerParserProfile :=
  let! _ := issuer_code issuer in
  match find (fun p => bool_decide (ip_issuer p = issuer)) PROFILES with
  | Some p => Ok p
  | None =>
      Ok (mk_profile issuer (us "cardrag.issuer-profile." ++ issuer ++ us ".generic.v1") [issuer]
            (map us ["■"; "▣"; "◆"]%string) (map us ["□"; "▶"; "◇"; "●"]%string))
  end.

(** ** Metadata checks *)
Definition require_trimmed (value : ustr) (label : string) : res unit :=
  raise_if (bool_decide (value = []) || negb (bool_decide (value = strip value)))
    (ValueError (label ++ " must be non-empty and trimmed")%string).

Definition require_context_metadata (value : ustr) (label : string) : res unit :=
  let! _ := raise_if (bool_decide (value = []) || negb (bool_decide (value = strip value)))
              (ValueError (label ++ " must be a non-empty trimmed string")%string) in
  raise_if (existsb is_control value) (ValueError (label ++ " must not contain control characters")%string).

(** [date.fromisoformat] on the extended form YYYY-MM-DD.  The compact and week
    forms Python also reads never equal the [isoformat] of the date they denote,
    so the caller rejects them with the same message; they are not read here. *)
Definition leap_year (y : Z) : bool := (y mod 4 =? 0) && (negb (y mod 100 =? 0) || (y mod 400 =? 0)).
Definition days_in_month (y m : Z) : Z :=
  if m =? 2 then (if leap_year y then 29 else 28)
  else if bool_decide (m ∈ [4; 6; 9; 11]) then 30 else 31.
Definition re_iso_date : regex :=
  seqs [times 4 (rng 48 57); chr 45; times 2 (rng 48 57); chr 45; times 2 (rng 48 57)].
Definition date_fromisoformat (value : ustr) : option (Z * Z * Z) :=
  if fullmatch re_iso_date value then
    let y := int_of_digits (slice value 0 4) in
    let m := int_of_digits (slice value 5 7) in
    let d := int_of_digits (slice value 8 10) in
    if (1 <=? y) && (1 <=? m) && (m <=? 12) && (1 <=? d) && (d <=? days_in_month y m) then Some (y, m, d)
    else None
  else None.
Definition zfill (n : nat) (t : ustr) : ustr := repeat 48%N (n - length t) ++ t.
Definition date_isoformat (d : Z * Z * Z) : ustr :=
  let '(y, m, d) := d in
  zfill 4 (str_of_Z y) ++ us "-" ++ zfill 2 (str_of_Z m) ++ us "-" ++ zfill 2 (str_of_Z d).

Definition bad_effective_date : exn := ValueError "effective_date must be canonical ISO text or null".
Definition require_canonical_effective_date (value : option ustr) : res unit :=
  match value with
  | None => Ok tt
  | Some value =>
      let! _ := raise_if (bool_decide (value = []) || negb (bool_decide (value = strip value))) bad_effective_date in
      let! parsed := of_option bad_effective_date (date_fromisoformat value) in
      raise_if (negb (bool_decide (date_isoformat parsed = value))) bad_effective_date
  end.

(** ** Identities *)
Definition make_product_lineage_id (issuer product_code document_type : ustr) : res ustr :=
  let! _ := issuer_code issuer in
  let! _ := require_trimmed product_code "product_code" in
  let! _ := require_trimmed document_type "document_type" in
  Ok (us "lineage_" ++ canonical_sha256
        (JObj [(us "document_type", JStr document_type); (us "issuer", JStr issuer);
               (us "product_code", JStr product_code)])).

Definition re_SOURCE_ID : regex := Seq (lit (us "source_")) re_hex64.

Definition make_contract_revision_id (product_lineage_id source_id pdf_sha256 : ustr) : res ustr :=
  let! _ := raise_if (negb (startswith (us "lineage_") product_lineage_id) || negb (zlen product_lineage_id =? 72))
              (ValueError "invalid product_lineage_id") in
  let! _ := raise_if (negb (fullmatch re_SOURCE_ID source_id)) (ValueError "invalid source_id") in
  let! _ := raise_if (negb (fullmatch re_hex64 pdf_sha256)) (ValueError "invalid pdf_sha256") in
  Ok (us "revision_" ++ canonical_sha256
        (JObj [(us "pdf_sha256", JStr pdf_sha256); (us "product_lineage_id", JStr product_lineage_id);
               (us "source_id", JStr source_id)])).

(** ** Pages, spans, nodes, links *)
Record PageRecord := { pr_document_id : ustr; pr_page : Z; pr_text : ustr }.
Definition pr_text_sha256 (p : PageRecord) : ustr := sha256_bytes (utf8_encode (pr_text p)).

Record StructurePage := { pg_page : Z; pg_text : ustr; pg_text_sha256 : ustr }.
Definition page_payload (p : StructurePage) : json :=
  JObj [(us "page", JInt (pg_page p)); (us "text", JStr (pg_text p)); (us "text_sha256", JStr (pg_text_sha256 p))].

Record NodeSpan := {
  sp_page : Z;
  sp_source_start : Z;
  sp_source_end : Z;
  sp_text_sha256 : ustr;
  sp_span_ordinal : Z;
  sp_is_canonical : bool;
}.
#[export] Instance NodeSpan_eq_dec : EqDecision NodeSpan. Proof. solve_decision. Defined.
Definition span_payload (s : NodeSpan) : json :=
  JObj [(us "page", JInt (sp_page s)); (us "is_canonical", JBool (sp_is_canonical s));
        (us "source_end", JInt (sp_source_end s)); (us "source_start", JInt (sp_source_start s));
        (us "span_ordinal", JInt (sp_span_ordinal s)); (us "text_sha256", JStr (sp_text_sha256 s))].

Record StructureNode := {
  sn_node_id : ustr;
  sn_contract_revision_id : ustr;
  sn_parent_id : option ustr;
  sn_node_type : NodeType;
  sn_major_class : MajorClass;
  sn_raw_heading : option ustr;
  sn_ordinal : Z;
  sn_display_text : ustr;
  sn_spans : list NodeSpan;
  sn_table_headers : list ustr;
  sn_table_cells : list ustr;
  sn_table_role : option TableRole;
}.

Definition node_identity_members (n : StructureNode) : list (ustr * json) :=
  [(us "contract_revision_id", JStr (sn_contract_revision_id n));
   (us "major_class", JStr (major_class_str (sn_major_class n)));
   (us "ordinal", JInt (sn_ordinal n));
   (us "parent_id", JOpt (sn_parent_id n));
   (us "raw_heading", JOpt (sn_raw_heading n));
   (us "display_text", JStr (sn_display_text n));
   (us "spans", JArr (map span_payload (sn_spans n)));
   (us "table_cells", JStrs (sn_table_cells n));
   (us "table_headers", JStrs (sn_table_headers n));
   (us "table_role", JOpt (table_role_str <$> sn_table_role n));
   (us "node_type", JStr (node_type_str (sn_node_type n)))].
Definition node_identity_payload (n : StructureNode) : json := JObj (node_identity_members n).
Definition node_payload (n : StructureNode) : json :=
  JObj ((us "node_id", JStr (sn_node_id n)) :: node_identity_members n).

Record NodeLink := {
  ln_from_node_id : ustr;
  ln_to_node_id : ustr;
  ln_link_type : LinkType;
  ln_ordinal : Z;
}.
Definition link_payload (l : NodeLink) : json :=
  JObj [(us "from_node_id", JStr (ln_from_node_id l)); (us "link_type", JStr (link_type_str (ln_link_type l)));
        (us "ordinal", JInt (ln_ordinal l)); (us "to_node_id", JStr (ln_to_node_id l))].

Record StructureCoverage := {
  cv_source_characters : Z;
  cv_covered_characters : Z;
  cv_source_non_whitespace_characters : Z;
  cv_covered_non_whitespace_characters : Z;
  cv_source_sha256 : ustr;
  cv_coverage_sha256 : ustr;
}.

Record StructureArtifact := {
  sa_schema_version : ustr;
  sa_document_id : ustr;
  sa_issuer : ustr;
  sa_issuer_profile : IssuerParserProfile;
  sa_product_code : ustr;
  sa_product_name : ustr;
  sa_source_version : ustr;
  sa_effective_date : option ustr;
  sa_document_type : ustr;
  sa_product_lineage_id : ustr;
  sa_contract_revision_id : ustr;
  sa_source_id : ustr;
  sa_pdf_sha256 : ustr;
  sa_source_sha256 : ustr;
  sa_source_non_whitespace_characters : Z;
  sa_source_coverage_sha256 : ustr;
  sa_pages : list StructurePage;
  sa_nodes : list StructureNode;
  sa_links : list NodeLink;
}.

Definition artifact_spans (a : StructureArtifact) : list NodeSpan := sa_nodes a ≫= sn_spans.

Definition artifact_payload (a : StructureArtifact) : json :=
  JObj [(us "contract_revision_id", JStr (sa_contract_revision_id a));
        (us "document_id", JStr (sa_document_id a));
        (us "document_type", JStr (sa_document_type a));
        (us "issuer", JStr (sa_issuer a));
        (us "issuer_profile", profile_payload (sa_issuer_profile a));
        (us "issuer_profile_id", JStr (ip_profile_id (sa_issuer_profile a)));
        (us "issuer_profile_sha256", JStr (profile_sha256 (sa_issuer_profile a)));
        (us "links", JArr (map link_payload (sa_links a)));
        (us "nodes", JArr (map node_payload (sa_nodes a)));
        (us "pages", JArr (map page_payload (sa_pages a)));
        (us "pdf_sha256", JStr (sa_pdf_sha256 a));
        (us "product_code", JStr (sa_product_code a));
        (us "product_name", JStr (sa_product_name a));
        (us "product_lineage_id", JStr (sa_product_lineage_id a));
        (us "schema_version", JStr (sa_schema_version a));
        (us "source_coverage_sha256", JStr (sa_source_coverage_sha256 a));
        (us "source_id", JStr (sa_source_id a));
        (us "source_non_whitespace_characters", JInt (sa_source_non_whitespace_characters a));
        (us "source_sha256", JStr (sa_source_sha256 a));
        (us "source_version", JStr (sa_source_version a));
        (us "effective_date", JOpt (sa_effective_date a))].
Definition artifact_canonical_bytes (a : StructureArtifact) : list N := canonical_json_bytes (artifact_payload a).
Definition artifact_sha256 (a : StructureArtifact) : ustr := sha256_bytes (artifact_canonical_bytes a).

(** [_node_id] hashes the identity payload, which leaves the id itself out. *)
Definition node_id (n : StructureNode) : ustr := us "node_" ++ canonical_sha256 (node_identity_payload n).

(** The node with its id replaced, as the source rebuilds it. *)
Definition with_node_id (id : ustr) (n : StructureNode) : StructureNode :=
  {| sn_node_id := id; sn_contract_revision_id := sn_contract_revision_id n; sn_parent_id := sn_parent_id n;
     sn_node_type := sn_node_type n; sn_major_class := sn_major_class n; sn_raw_heading := sn_raw_heading n;
     sn_ordinal := sn_ordinal n; sn_display_text := sn_display_text n; sn_spans := sn_spans n;
     sn_table_headers := sn_table_headers n; sn_table_cells := sn_table_cells n;
     sn_table_role := sn_table_role n |}.

(** ** Digests of the source pages *)
Definition non_whitespace (t : ustr) : ustr := filter (fun c => isspace_cp c = false) t.

Definition source_digest (pages : list StructurePage) : ustr :=
  canonical_sha256
    (JObj [(us "pages", JArr (map (fun p => JObj [(us "page", JInt (pg_page p));
                                                   (us "text_sha256", JStr (pg_text_sha256 p))]) pages));
           (us "schema_version", JStr STRUCTURE_SOURCE_SCHEMA)]).

Definition coverage_digest (pages : list StructurePage) : ustr :=
  canonical_sha256
    (JObj [(us "pages",
            JArr (map (fun p =>
              JObj [(us "non_whitespace_characters", JInt (zlen (non_whitespace (pg_text p))));
                    (us "non_whitespace_sha256", JStr (sha256_bytes (utf8_encode (non_whitespace (pg_text p)))));
                    (us "page", JInt (pg_page p));
                    (us "text_sha256", JStr (pg_text_sha256 p))]) pages));
           (us "schema_version", JStr STRUCTURE_COVERAGE_SCHEMA)]).

Definition span_with_ordinal (s : NodeSpan) (ordinal : Z) (is_canonical : option bool) : NodeSpan :=
  {| sp_page := sp_page s; sp_source_start := sp_source_start s; sp_source_end := sp_source_end s;
     sp_text_sha256 := sp_text_sha256 s; sp_span_ordinal := ordinal;
     sp_is_canonical := match is_canonical with None => sp_is_canonical s | Some b => b end |}.

(** ** Policies *)
Definition contextual_item_policy_payload : json :=
  JObj [(us "effective_date_null", JStr CONTEXT_EFFECTIVE_DATE_NULL);
        (us "field_order", JStrs CONTEXT_FIELD_ORDER);
        (us "heading_label", JStr CONTEXT_HEADING_LABEL);
        (us "line_format", JStr (us "{label}: {value}"));
        (us "schema_version", JStr CONTEXTUAL_ITEM_CONTEXT_POLICY);
        (us "view_types", JStrs (map us ["CONTEXTUAL_ITEM"; "DETAIL"]%string))].
Definition unclassified_fallback_policy_payload : json :=
  JObj [(us "canonical_leaf_type", JStr (us "UNCLASSIFIED"));
        (us "contract_scope", JStr (us "one-contract-revision"));
        (us "container_type", JStr (us "ITEM"));
        (us "major_class", JStr (us "UNKNOWN"));
        (us "partition_boundary", JStr (us "complete-source-line"));
        (us "schema_version", JStr UNCLASSIFIED_FALLBACK_POLICY)].
