(* ===== verification/StructureLines.v ===== *)
(** Source lines and their classification ([cardrag_worker/structure.py]).

    [source_lines] cuts a page at its line boundaries; everything the parser
    knows about a line (heading, table row, list item, footnote, boilerplate,
    benefit or notice wording) is decided here from its text and the issuer
    profile.  The library facts say that the lines tile the page. *)
From S2P Require Export StructureModel.

Record SourceLine := { sl_page : Z; sl_source_start : Z; sl_source_end : Z; sl_text : ustr }.
#[export] Instance SourceLine_eq_dec : EqDecision SourceLine. Proof. solve_decision. Defined.

(** [line.visible]: [text.rstrip] of carriage returns and line feeds. *)
Definition visible (l : SourceLine) : ustr := rstrip_by (fun c => (c =? 13)%N || (c =? 10)%N) (sl_text l).

Definition line_span (l : SourceLine) : NodeSpan :=
  {| sp_page := sl_page l; sp_source_start := sl_source_start l; sp_source_end := sl_source_end l;
     sp_text_sha256 := sha256_bytes (utf8_encode (sl_text l)); sp_span_ordinal := 0; sp_is_canonical := true |}.

(** [line_key = (line.page, line.source_start, line.source_end)] *)
Definition line_key (l : SourceLine) : Z * Z * Z := (sl_page l, sl_source_start l, sl_source_end l).

Fixpoint lines_from (page offset : Z) (texts : list ustr) : list SourceLine :=
  match texts with
  | [] => []
  | text :: texts =>
      let fin := offset + zlen text in
      {| sl_page := page; sl_source_start := offset; sl_source_end := fin; sl_text := text |}
      :: lines_from page fin texts
  end.
Definition total_length (texts : list ustr) : Z := fold_right (fun t acc => zlen t + acc) 0 texts.

Definition source_lines (page : PageRecord) : list SourceLine :=
  let texts := splitlines (pr_text page) in
  let offset := total_length texts in
  lines_from (pr_page page) 0 texts ++
  if offset <? zlen (pr_text page) then
    [{| sl_page := pr_page page; sl_source_start := offset; sl_source_end := zlen (pr_text page);
        sl_text := slice (pr_text page) offset (zlen (pr_text page)) |}]
  else [].

(** ** Wording *)
Definition mentions (terms : list ustr) (normalized : ustr) : bool :=
  existsb (fun term => contains (casefold term) normalized) terms.

Definition major_class (text : ustr) (profile : IssuerParserProfile) : MajorClass :=
  let normalized := casefold text in
  let benefit := mentions (ip_benefit_terms profile) normalized in
  let notice := mentions (ip_notice_terms profile) normalized in
  if benefit && notice then MIXED
  else if benefit then BENEFIT
  else if notice then NOTICE
  else UNKNOWN.

Definition inherited_class (text : ustr) (profile : IssuerParserProfile) (inherited : MajorClass) : MajorClass :=
  let classified := major_class text profile in
  if bool_decide (classified = UNKNOWN) then inherited else classified.

(** ** Patterns *)
Definition re_dot : regex := Chr (fun c => negb (c =? 10)%N).
Definition re_hangul : regex := rng 44032 55203.

Definition re_PAGE_MARKER : regex :=
  seqs [lit (us "## Page "); rng 49 57; Star (rng 48 57); Star re_s].
Definition re_MARKDOWN_HEADING : regex :=
  seqs [between 1 6 (chr 35); plus (cls [32; 9]%N); plus re_dot; Star re_s].
Definition re_LIST_ITEM : regex :=
  seqs [Star re_s;
        alts [cls (us "-+*"); Seq (plus re_d) (cls (us ".)")); Seq re_hangul (cls (us ".)"))];
        plus re_s; re_S].
(** The look-ahead [(?![\s* ])] after one to three stars is followed by
    [\s*\S], so the character after the stars is neither space nor star. *)
Definition re_FOOTNOTE : regex :=
  Seq (Star re_s)
    (alts [Seq (between 1 3 (chr 42)) (Chr (fun c => negb (isspace_cp c) && negb (c =? 42)%N));
           seqs [alts [lit (us "※"); seqs [chr 91; plus re_d; chr 93];
                       seqs [lit (us "주"); Star re_s; cls (us "):.")]; cls (us "¹²³⁴⁵⁶⁷⁸⁹")];
                 Star re_s; re_S]]).
Definition re_MARKDOWN_BULLET : regex := seqs [Star re_s; cls (us "-+*"); plus re_s; re_S].
Definition re_TABLE_SEPARATOR_CELL : regex :=
  seqs [opt (chr 58); times 3 (chr 45); Star (chr 45); opt (chr 58)].
(** Matched without regard to case; only ASCII letters occur. *)
Fixpoint lit_nocase (t : ustr) : regex :=
  match t with
  | [] => Eps
  | c :: t => Seq (Chr (fun d => (d =? c)%N || (d + 32 =? c)%N)) (lit_nocase t)
  end.
Definition re_PAGE_COUNTER : regex :=
  seqs [Star re_s; opt (chr 45); Star re_s;
        opt (Seq (alts [lit_nocase (us "page"); lit (us "페이지")]) (Star re_s));
        plus re_d; Star re_s;
        opt (seqs [alts [chr 47; lit_nocase (us "of")]; Star re_s; plus re_d]);
        Star re_s; opt (chr 45); Star re_s].
Definition re_NUMBERED_BENEFIT : regex :=
  seqs [alts [lit (us "혜택"); lit (us "서비스")]; Star re_s; plus re_d; Star re_s; opt (cls (us ".)-"))].

(** The leading run of characters of a class (the greedy first group). *)
Fixpoint leading (p : N -> bool) (t : ustr) : ustr :=
  match t with
  | c :: t => if p c then c :: leading p t else []
  | [] => []
  end.

(** [_PAGE_MARKER.fullmatch(stripped)] with [int(marker.group(1))]. *)
Definition page_marker (stripped : ustr) : option Z :=
  if fullmatch re_PAGE_MARKER stripped
  then Some (int_of_digits (leading is_ascii_digit (drop (length (us "## Page ")) stripped)))
  else None.

Inductive HeadingKind := HK_major | HK_item.
#[export] Instance HeadingKind_eq_dec : EqDecision HeadingKind. Proof. solve_decision. Defined.

Definition starts_any (prefixes : list ustr) (t : ustr) : bool := existsb (fun p => startswith p t) prefixes.
Definition ends_any (suffixes : list ustr) (t : ustr) : bool := existsb (fun p => endswith p t) suffixes.

Definition heading_kind (text : ustr) (profile : IssuerParserProfile) : option HeadingKind :=
  let stripped := strip text in
  if fullmatch re_MARKDOWN_HEADING stripped then
    Some (if zlen (leading (N.eqb 35) stripped) <=? 2 then HK_major else HK_item)
  else if bool_decide (stripped = []) || (120 <? zlen stripped) || contains (us "|") stripped then None
  else if match_prefix re_MARKDOWN_BULLET text || match_prefix re_FOOTNOTE text then None
  else if starts_any (ip_major_prefixes profile) stripped then Some HK_major
  else if starts_any (ip_item_prefixes profile) stripped then Some HK_item
  else if match_prefix re_NUMBERED_BENEFIT stripped then Some HK_item
  else if starts_any [us "**"; us "["] stripped && ends_any [us "**"; us "]"] stripped then Some HK_item
  else
    let semantic := major_class stripped profile in
    if negb (bool_decide (semantic = UNKNOWN)) && (zlen stripped <=? 45)
       && negb (ends_any [us "다."; us "요."] stripped)
    then Some HK_major
    else None.

(** ** Tables *)
Definition table_cells (text : ustr) : list ustr :=
  let stripped := strip_by (N.eqb 124) (strip text) in
  map strip (split_on 124 stripped).
Definition is_table_line (text : ustr) : bool :=
  let stripped := strip text in
  negb (bool_decide (stripped = [])) && (2 <=? count_char 124 stripped).
Definition is_table_separator (cells : list ustr) : bool :=
  negb (bool_decide (cells = [])) && forallb (fullmatch re_TABLE_SEPARATOR_CELL) cells.

(** ** Boilerplate at page edges *)
Definition page_counter_key : ustr := us "<page-counter>".
Definition edge_key (text : ustr) : ustr :=
  let stripped := join (us " ") (words (casefold (strip text))) in
  if fullmatch re_PAGE_COUNTER stripped then page_counter_key else stripped.

Definition looks_like_boilerplate (text : ustr) (profile : IssuerParserProfile) : bool :=
  let normalized := edge_key text in
  if bool_decide (normalized = []) || (120 <? zlen normalized) then false
  else if bool_decide (normalized = page_counter_key) || fullmatch re_PAGE_MARKER (strip text) then true
  else if existsb (fun marker => contains (casefold marker) normalized) (ip_issuer_markers profile) then true
  else contains (us "상품설명서") normalized || contains (us "상품 안내") normalized.

Inductive Edge := Eheader | Efooter.
#[export] Instance Edge_eq_dec : EqDecision Edge. Proof. solve_decision. Defined.

(** The header and footer candidates of one page that look like boilerplate,
    with the key their occurrences are grouped by. *)
Definition edge_candidates (profile : IssuerParserProfile) (lines : list SourceLine) : list ((Edge * ustr) * SourceLine) :=
  let non_blank := filter (fun l => strip (visible l) <> []) lines in
  let window := ip_edge_line_window profile in
  let header := slice non_blank 0 window in
  let footer := slice non_blank (- window) (zlen non_blank) in
  let pick edge := fun l =>
    let key := edge_key (visible l) in
    if negb (bool_decide (key = [])) && looks_like_boilerplate (visible l) profile then [((edge, key), l)] else [] in
  (header ≫= pick Eheader) ++ (footer ≫= pick Efooter).

(** Lines of the groups that occur on at least two pages. *)
Definition repeated_edge_lines (page_lines : list (list SourceLine)) (profile : IssuerParserProfile) : list (Z * Z * Z) :=
  let occurrences := page_lines ≫= edge_candidates profile in
  let page_members k := remove_dups (map (fun o => sl_page o.2) (filter (fun o => o.1 = k) occurrences)) in
  map (fun o => line_key o.2) (filter (fun o => (2 <= length (page_members o.1))%nat) occurrences).

(** [_next_table_line_is_separator], on the lines after the current one. *)
Fixpoint next_table_line_is_separator (rest : list SourceLine) (boilerplate_lines : list (Z * Z * Z)) : bool :=
  match rest with
  | [] => false
  | candidate :: rest =>
      let stripped := strip (visible candidate) in
      if bool_decide (stripped = []) || bool_decide (line_key candidate ∈ boilerplate_lines)
         || fullmatch re_PAGE_MARKER stripped
      then next_table_line_is_separator rest boilerplate_lines
      else is_table_line (visible candidate) && is_table_separator (table_cells (visible candidate))
  end.

(** ** The lines tile the page *)
Lemma splitlines_join t : concat (splitlines t) = t.
Proof.
  assert (forall n t, (length t <= n)%nat -> concat (splitlines t) = t) as H; [|by apply (H (length t))].
  clear t. induction n as [|n IH]; intros [|c t] Hl; simpl in *; try done; [lia|].
  destruct (is_linebreak c).
  - destruct t as [|d t]; [done|].
    destruct ((c =? 13)%N && (d =? 10)%N).
    + simpl. rewrite IH by (simpl in Hl; lia). done.
    + cbn [concat]. rewrite IH by (simpl in *; lia). done.
  - specialize (IH t ltac:(lia)). destruct (splitlines t); simpl in *; by rewrite <- IH.
Qed.

Lemma splitlines_nonempty t : Forall (fun l => l <> []) (splitlines t).
Proof.
  assert (forall n t, (length t <= n)%nat -> Forall (fun l : ustr => l <> []) (splitlines t)) as H; [|by apply (H (length t))].
  clear t. induction n as [|n IH]; intros [|c t] Hl; simpl in *; try (by constructor); [lia|].
  destruct (is_linebreak c).
  - destruct t as [|d t]; [by repeat constructor|].
    destruct ((c =? 13)%N && (d =? 10)%N); constructor; try done; apply IH; simpl in Hl |- *; lia.
  - specialize (IH t ltac:(lia)). destruct IH; by repeat constructor.
Qed.

Lemma total_length_concat texts : total_length texts = zlen (concat texts).
Proof. induction texts as [|t texts IH]; simpl; [done|]. by rewrite zlen_app, IH. Qed.

Lemma total_length_splitlines t : total_length (splitlines t) = zlen t.
Proof. by rewrite total_length_concat, splitlines_join. Qed.

(** The tail of [_source_lines] after the loop never runs. *)
Lemma source_lines_eq page : source_lines page = lines_from (pr_page page) 0 (splitlines (pr_text page)).
Proof.
  unfold source_lines. rewrite total_length_splitlines, Z.ltb_irrefl. apply app_nil_r.
Qed.

(** [tiles p a b ls]: the lines [ls] are consecutive, non-empty and cover the
    interval from [a] to [b] of page [p]. *)
Inductive tiles (p : Z) : Z -> Z -> list SourceLine -> Prop :=
| tiles_nil a : tiles p a a []
| tiles_cons a b l ls :
    sl_page l = p -> sl_source_start l = a -> a < sl_source_end l ->
    sl_source_end l = a + zlen (sl_text l) ->
    tiles p (sl_source_end l) b ls -> tiles p a b (l :: ls).

Lemma lines_from_tiles p a texts :
  Forall (fun t => t <> []) texts -> tiles p a (a + total_length texts) (lines_from p a texts).
Proof.
  intros H. revert a. induction H as [|t texts Ht _ IH]; intros a; simpl.
  - rewrite Z.add_0_r. constructor.
  - constructor; simpl; try done.
    + destruct t; [done|]. unfold zlen. simpl. lia.
    + rewrite Z.add_assoc. apply IH.
Qed.

Lemma source_lines_tiles page : tiles (pr_page page) 0 (zlen (pr_text page)) (source_lines page).
Proof.
  rewrite source_lines_eq, <- (total_length_splitlines (pr_text page)).
  apply (lines_from_tiles _ 0), splitlines_nonempty.
Qed.

Lemma source_lines_text page : concat (map sl_text (source_lines page)) = pr_text page.
Proof.
  rewrite source_lines_eq. rewrite <- (splitlines_join (pr_text page)) at 2.
  generalize 0. induction (splitlines (pr_text page)) as [|t ts IH]; intros a; simpl; [done|]. by rewrite IH.
Qed.
