(* ===== verification/StructureValidate.v ===== *)
(** The structure validator ([validate_structure_artifact] of
    [cardrag_worker/structure.py]).

    The checks are made in the source's order, each with its message.  Checks
    on closed vocabularies ([node_type], [major_class]) are enforced by the
    types of the model.  Dictionaries keyed by node id or page number are
    looked up by [find]: the ids and numbers are checked to be unique first. *)
From S2P Require Export StructureLines.

Definition sve (message : string) : exn := StructureValidationError message.

(** ** Shared helpers *)
Definition triple_leb (x y : Z * Z * Z) : bool :=
  let '(a, b, c) := x in
  let '(a', b', c') := y in
  (a <? a') || ((a =? a') && ((b <? b') || ((b =? b') && (c <=? c')))).

(** [numbers == sorted(set(numbers)) and all(n >= 1)] *)
Definition positive_sorted_unique (numbers : list Z) : bool :=
  bool_decide (numbers = sorted_by Z.leb (remove_dups numbers)) && forallb (Z.leb 1) numbers.

Definition count_non_whitespace (pages : list StructurePage) : Z :=
  fold_right (fun p acc => zlen (non_whitespace (pg_text p)) + acc) 0 pages.

Definition find_page (pages : list StructurePage) (n : Z) : option StructurePage :=
  find (fun p => pg_page p =? n) pages.
Definition find_node (nodes : list StructureNode) (id : ustr) : option StructureNode :=
  find (fun n => bool_decide (sn_node_id n = id)) nodes.
Definition children_of (nodes : list StructureNode) (id : ustr) : list StructureNode :=
  filter (fun n => sn_node_type n <> ROOT /\ sn_parent_id n = Some id) nodes.

(** [_line_boundary_sets] *)
Fixpoint boundary_offsets (offset : Z) (texts : list ustr) : list Z :=
  match texts with
  | [] => []
  | t :: texts => (offset + zlen t) :: boundary_offsets (offset + zlen t) texts
  end.
Definition line_boundary_sets (text : ustr) : list Z * list Z :=
  let offsets := boundary_offsets 0 (splitlines text) in
  (0 :: offsets, 0 :: offsets ++ [zlen text]).

Definition validate_span (pages : list StructurePage) (span : NodeSpan) : res ustr :=
  let! page := of_option (sve "node span references a missing source page") (find_page pages (sp_page span)) in
  let! _ := raise_if (negb ((0 <=? sp_source_start span) && (sp_source_start span <? sp_source_end span)
                            && (sp_source_end span <=? zlen (pg_text page))))
              (sve "node span offsets exceed the source page") in
  let '(starts, ends) := line_boundary_sets (pg_text page) in
  let! _ := raise_if (negb (bool_decide (sp_source_start span ∈ starts)) || negb (bool_decide (sp_source_end span ∈ ends)))
              (sve "node span splits an OCR line at an arbitrary boundary") in
  let text := slice (pg_text page) (sp_source_start span) (sp_source_end span) in
  let! _ := raise_if (negb (bool_decide (sha256_bytes (utf8_encode text) = sp_text_sha256 span)))
              (sve "node span hash does not match the exact source text") in
  Ok text.

(** [except ValueError as exc: raise StructureValidationError(str(exc))] *)
Definition as_structure_error {A} (m : res A) : res A :=
  match m with
  | Err (ValueError msg) => Err (StructureValidationError msg)
  | _ => m
  end.

(** ** Identity and source checks *)
Definition validate_metadata (a : StructureArtifact) : res unit :=
  let! _ := raise_if (negb (bool_decide (sa_schema_version a = STRUCTURE_SCHEMA)))
              (sve "unsupported structure artifact schema") in
  let! _ := issuer_code (sa_issuer a) in
  let! _ := as_structure_error
              (let! _ := require_context_metadata (sa_product_name a) "product_name" in
               let! _ := require_context_metadata (sa_source_version a) "source_version" in
               require_canonical_effective_date (sa_effective_date a)) in
  let! _ := raise_if (negb (bool_decide (ip_issuer (sa_issuer_profile a) = sa_issuer a)))
              (sve "issuer profile crosses the document issuer") in
  let! lineage := make_product_lineage_id (sa_issuer a) (sa_product_code a) (sa_document_type a) in
  let! _ := raise_if (negb (bool_decide (sa_product_lineage_id a = lineage)))
              (sve "product lineage identity does not match canonical input") in
  let! revision := make_contract_revision_id (sa_product_lineage_id a) (sa_source_id a) (sa_pdf_sha256 a) in
  raise_if (negb (bool_decide (sa_contract_revision_id a = revision)))
    (sve "contract revision identity does not match canonical input").

Definition validate_pages (a : StructureArtifact) : res unit :=
  let pages := sa_pages a in
  let! _ := raise_if (bool_decide (map pg_page pages = [])) (sve "structure artifact has no source pages") in
  let! _ := raise_if (negb (positive_sorted_unique (map pg_page pages)))
              (sve "source pages are not positive, sorted, and unique") in
  let! _ := forM (fun p => raise_if (negb (bool_decide (sha256_bytes (utf8_encode (pg_text p)) = pg_text_sha256 p)))
                             (sve "source page hash does not match its OCR text")) pages in
  let! _ := raise_if (negb (bool_decide (sa_source_sha256 a = source_digest pages)))
              (sve "structure source hash does not match its pages") in
  let! _ := raise_if (negb (bool_decide (sa_source_coverage_sha256 a = coverage_digest pages)))
              (sve "structure coverage hash does not match its pages") in
  raise_if (negb (sa_source_non_whitespace_characters a =? count_non_whitespace pages))
    (sve "structure source character count is inconsistent").

(** ** Node checks *)
Definition validate_root (a : StructureArtifact) : res unit :=
  let nodes := sa_nodes a in
  let! _ := raise_if (bool_decide (map sn_node_id nodes = [])) (sve "structure artifact has no ROOT node") in
  let! _ := raise_if (negb (bool_decide (NoDup (map sn_node_id nodes)))) (sve "structure node ids are not unique") in
  match filter (fun n => sn_node_type n = ROOT) nodes with
  | [root] =>
      let! _ := raise_if (bool_decide (sn_parent_id root <> None))
                  (sve "structure artifact requires exactly one parentless ROOT") in
      raise_if (negb (sn_ordinal root =? 0)) (sve "ROOT must be the first structure node")
  | _ => Err (sve "structure artifact requires exactly one parentless ROOT")
  end.

Definition validate_parent (a : StructureArtifact) (node : StructureNode) : res unit :=
  if bool_decide (sn_node_type node = ROOT) then Ok tt
  else
    let! parent := of_option (sve "structure node parent is missing")
                     (match sn_parent_id node with None => None | Some id => find_node (sa_nodes a) id end) in
    let! _ := raise_if (negb (bool_decide (sn_contract_revision_id parent = sn_contract_revision_id node)))
                (sve "structure parent crosses a contract revision") in
    raise_if (sn_ordinal node <=? sn_ordinal parent) (sve "structure parent must precede its child").

Definition validate_node_spans (a : StructureArtifact) (node : StructureNode) : res unit :=
  let! _ := raise_if (negb (bool_decide (map sp_span_ordinal (sn_spans node) = seqZ 0 (zlen (sn_spans node)))))
              (sve "node span ordinals are not canonical") in
  let positions := map (fun s => (sp_page s, sp_source_start s, sp_source_end s)) (sn_spans node) in
  let! _ := raise_if (negb (bool_decide (positions = sorted_by triple_leb positions)))
              (sve "node spans do not follow source page order") in
  let! texts := mapM_res (validate_span (sa_pages a)) (sn_spans node) in
  let! _ := raise_if (negb (bool_decide (sn_display_text node = concat texts)))
              (sve "structure node display_text is not its exact source spans") in
  let! _ := raise_if (is_leaf_type (sn_node_type node) && existsb (fun s => negb (sp_is_canonical s)) (sn_spans node))
              (sve "canonical leaf contains a non-canonical source span") in
  raise_if (is_container_type (sn_node_type node) && existsb sp_is_canonical (sn_spans node))
    (sve "container span cannot claim canonical source coverage").

Definition validate_table_fields (a : StructureArtifact) (node : StructureNode) : res unit :=
  match sn_node_type node with
  | TABLE_ROW =>
      let! table := of_option (sve "TABLE_ROW must have a TABLE parent")
                      (match sn_parent_id node with None => None | Some id => find_node (sa_nodes a) id end) in
      let! _ := raise_if (negb (bool_decide (sn_node_type table = TABLE))) (sve "TABLE_ROW must have a TABLE parent") in
      let! _ := raise_if (negb (bool_decide (sn_table_headers node = sn_table_headers table)))
                  (sve "table row lost its original header relationship") in
      raise_if (bool_decide (sn_table_role node = None) || bool_decide (sn_table_cells node = []))
        (sve "table row lacks role or original cells")
  | TABLE =>
      raise_if (negb (bool_decide (sn_table_cells node = [])) || negb (bool_decide (sn_table_role node = None)))
        (sve "TABLE container cannot masquerade as a row")
  | _ =>
      raise_if (negb (bool_decide (sn_table_headers node = [])) || negb (bool_decide (sn_table_cells node = []))
                || negb (bool_decide (sn_table_role node = None)))
        (sve "non-table node contains table metadata")
  end.

Definition validate_node (a : StructureArtifact) (expected : Z * StructureNode) : res unit :=
  let '(expected_ordinal, node) := expected in
  let! _ := raise_if (negb (sn_ordinal node =? expected_ordinal)) (sve "structure node ordinals are not canonical") in
  let! _ := raise_if (negb (bool_decide (sn_contract_revision_id node = sa_contract_revision_id a)))
              (sve "structure node crosses its contract revision") in
  let! _ := validate_parent a node in
  let! _ := validate_node_spans a node in
  validate_table_fields a node.

Definition validate_tables (a : StructureArtifact) : res unit :=
  forM (fun table =>
    let rows := children_of (sa_nodes a) (sn_node_id table) in
    raise_if (bool_decide (map sn_node_type rows = []) || existsb (fun row => negb (bool_decide (sn_node_type row = TABLE_ROW))) rows)
      (sve "TABLE must contain only one or more TABLE_ROW children"))
    (filter (fun n => sn_node_type n = TABLE) (sa_nodes a)).

Definition validate_link (a : StructureArtifact) (expected : Z * NodeLink) : res unit :=
  let '(expected_ordinal, link) := expected in
  let! _ := raise_if (negb (ln_ordinal link =? expected_ordinal)) (sve "node link ordinals are not canonical") in
  let! source := of_option (sve "node link references a node outside this artifact") (find_node (sa_nodes a) (ln_from_node_id link)) in
  let! target := of_option (sve "node link references a node outside this artifact") (find_node (sa_nodes a) (ln_to_node_id link)) in
  let! _ := raise_if (negb (bool_decide (sn_contract_revision_id source = sa_contract_revision_id a))
                      || negb (bool_decide (sn_contract_revision_id target = sa_contract_revision_id a)))
              (sve "node link crosses a contract revision") in
  raise_if (bool_decide (sn_node_id source = sn_node_id target)) (sve "node link cannot target itself").

(** ** Coverage *)
Record cover_state := {
  cs_coverage : gmap Z (list bool);
  cs_covered_characters : Z;
  cs_covered_non_whitespace : Z;
}.

Definition cover_offset (page : StructurePage) (st : cover_state) (offset : Z) : res cover_state :=
  let! marks := of_option KeyError (cs_coverage st !! pg_page page) in
  let! covered := of_option IndexError (marks !! Z.to_nat offset) in
  let! _ := raise_if covered (sve "canonical leaf spans overlap") in
  let! char := of_option IndexError (pg_text page !! Z.to_nat offset) in
  Ok {| cs_coverage := <[pg_page page := <[Z.to_nat offset := true]> marks]> (cs_coverage st);
        cs_covered_characters := cs_covered_characters st + 1;
        cs_covered_non_whitespace := cs_covered_non_whitespace st + (if isspace_cp char then 0 else 1) |}.

Definition cover_span (pages : list StructurePage) (st : cover_state) (span : NodeSpan) : res cover_state :=
  let! page := of_option KeyError (find_page pages (sp_page span)) in
  foldM (cover_offset page) st (seqZ (sp_source_start span) (sp_source_end span - sp_source_start span)).

Definition cover_node (pages : list StructurePage) (st : cover_state) (node : StructureNode) : res cover_state :=
  if is_leaf_type (sn_node_type node) then
    let! _ := raise_if (bool_decide (sn_spans node = [])) (sve "canonical leaf has no exact source span") in
    foldM (cover_span pages) st (sn_spans node)
  else Ok st.

Definition initial_coverage (pages : list StructurePage) : cover_state :=
  {| cs_coverage := list_to_map (map (fun p => (pg_page p, repeat false (length (pg_text p)))) pages);
     cs_covered_characters := 0; cs_covered_non_whitespace := 0 |}.

Definition leaf_spans (a : StructureArtifact) : list NodeSpan :=
  filter (fun n => is_leaf_type (sn_node_type n) = true) (sa_nodes a) ≫= sn_spans.

Definition validate_page_coverage (a : StructureArtifact) (st : cover_state) (page : StructurePage) : res unit :=
  let! marks := of_option KeyError (cs_coverage st !! pg_page page) in
  let! _ := raise_if (existsb negb marks) (sve "canonical leaves do not losslessly reconstruct the OCR page") in
  let ordered := sorted_by (fun s t => sp_source_start s <=? sp_source_start t)
                   (filter (fun s => sp_page s = pg_page page) (leaf_spans a)) in
  let reconstructed := concat (map (fun s => slice (pg_text page) (sp_source_start s) (sp_source_end s)) ordered) in
  raise_if (negb (bool_decide (reconstructed = pg_text page)))
    (sve "canonical leaf reconstruction differs from OCR source").

Definition validate_coverage (a : StructureArtifact) : res cover_state :=
  let! st := foldM (cover_node (sa_pages a)) (initial_coverage (sa_pages a)) (sa_nodes a) in
  let! _ := forM (validate_page_coverage a st) (sa_pages a) in
  let! _ := raise_if (negb (cs_covered_non_whitespace st =? count_non_whitespace (sa_pages a)))
              (sve "non-whitespace OCR source coverage is not 100 percent") in
  Ok st.

Definition validate_node_identity (node : StructureNode) : res unit :=
  raise_if (negb (bool_decide (sn_node_id node = node_id (with_node_id [] node))))
    (sve "structure node id does not match its canonical payload").

Definition validate_structure_artifact (a : StructureArtifact) : res StructureCoverage :=
  let! _ := validate_metadata a in
  let! _ := validate_pages a in
  let! _ := validate_root a in
  let! _ := forM (validate_node a) (enumerate (sa_nodes a)) in
  let! _ := validate_tables a in
  let! _ := forM (validate_link a) (enumerate (sa_links a)) in
  let! st := validate_coverage a in
  let! _ := forM validate_node_identity (sa_nodes a) in
  Ok {| cv_source_characters := fold_right (fun p acc => zlen (pg_text p) + acc) 0 (sa_pages a);
        cv_covered_characters := cs_covered_characters st;
        cv_source_non_whitespace_characters := count_non_whitespace (sa_pages a);
        cv_covered_non_whitespace_characters := cs_covered_non_whitespace st;
        cv_source_sha256 := sa_source_sha256 a;
        cv_coverage_sha256 := sa_source_coverage_sha256 a |}.
