(* ===== verification/StructureSound.v ===== *)
(** What an accepted structure artifact guarantees.

    The validator of [StructureValidate.v] walks the offsets of the leaf spans
    and marks a boolean array per page; here that walk is related to the number
    of leaf spans that contain an offset ([hits]), which gives both directions:
    an accepted artifact covers every offset exactly once, and an artifact whose
    leaf spans tile its pages is accepted. *)
From S2P Require Export StructureValidate.

Definition span_covers (n o : Z) (s : NodeSpan) : Prop :=
  sp_page s = n /\ sp_source_start s <= o < sp_source_end s.
#[export] Instance span_covers_dec n o s : Decision (span_covers n o s).
Proof. unfold span_covers. apply _. Defined.

(** How many of the spans contain the offset [o] of page [n]. *)
Definition hits (spans : list NodeSpan) (n o : Z) : nat := length (filter (span_covers n o) spans).

Lemma hits_app l1 l2 n o : hits (l1 ++ l2) n o = (hits l1 n o + hits l2 n o)%nat.
Proof. unfold hits. by rewrite filter_app, length_app. Qed.

Lemma hits_one s n o : hits [s] n o = if decide (span_covers n o s) then 1%nat else 0%nat.
Proof. unfold hits. rewrite filter_cons. by case_decide. Qed.

(** A span inside its page. *)
Definition span_in_page (pages : list StructurePage) (s : NodeSpan) : Prop :=
  exists p, find_page pages (sp_page s) = Some p /\
    0 <= sp_source_start s /\ sp_source_start s <= sp_source_end s /\ sp_source_end s <= zlen (pg_text p).

Definition span_text (pages : list StructurePage) (s : NodeSpan) : ustr :=
  match find_page pages (sp_page s) with
  | Some p => slice (pg_text p) (sp_source_start s) (sp_source_end s)
  | None => []
  end.

Lemma find_page_number pages n p : find_page pages n = Some p -> pg_page p = n.
Proof. intros [_ H]%find_some. by apply Z.eqb_eq. Qed.

Lemma find_page_elem pages n p : find_page pages n = Some p -> p ∈ pages.
Proof. intros [H _]%find_some. by apply list_elem_of_In. Qed.

(** ** The marking invariant *)
Record cover_inv (pages : list StructurePage) (spans : list NodeSpan) (st : cover_state) : Prop := {
  ci_pages : forall n, fmap (M:=option) (@length bool) (cs_coverage st !! n) =
                         fmap (M:=option) (fun p => length (pg_text p)) (find_page pages n);
  ci_hits : forall n (marks : list bool) (o : nat) (b : bool), cs_coverage st !! n = Some marks -> marks !! o = Some b ->
    hits spans n (Z.of_nat o) = if b then 1%nat else 0%nat;
  ci_chars : cs_covered_characters st = zlen (concat (map (span_text pages) spans));
  ci_nonws : cs_covered_non_whitespace st = zlen (non_whitespace (concat (map (span_text pages) spans)));
}.

Lemma non_whitespace_app t1 t2 : non_whitespace (t1 ++ t2) = non_whitespace t1 ++ non_whitespace t2.
Proof. apply filter_app. Qed.

Definition cut_span (s : NodeSpan) (k : Z) : NodeSpan :=
  {| sp_page := sp_page s; sp_source_start := sp_source_start s; sp_source_end := k;
     sp_text_sha256 := sp_text_sha256 s; sp_span_ordinal := sp_span_ordinal s;
     sp_is_canonical := sp_is_canonical s |}.

Lemma hits_cut_succ s k n o :
  sp_source_start s <= k ->
  hits [cut_span s (k + 1)] n o =
  (hits [cut_span s k] n o + if decide (sp_page s = n /\ o = k) then 1 else 0)%nat.
Proof.
  intros Hk. rewrite !hits_one. unfold span_covers, cut_span. simpl.
  repeat case_decide; try done; lia.
Qed.

Lemma hits_cut_other s k n o :
  sp_page s <> n \/ k <= o -> hits [cut_span s k] n o = 0%nat.
Proof. intros H. rewrite hits_one. case_decide as Hc; [|done]. destruct Hc as [? ?]. simpl in *. lia. Qed.

Lemma span_text_cut_succ pages s p k c :
  find_page pages (sp_page s) = Some p -> 0 <= sp_source_start s -> sp_source_start s <= k ->
  pg_text p !! Z.to_nat k = Some c ->
  span_text pages (cut_span s (k + 1)) = span_text pages (cut_span s k) ++ [c].
Proof.
  intros Hp Hs Hk Hc. unfold span_text. simpl. rewrite Hp.
  pose proof (lookup_lt_Some _ _ _ Hc) as Hlt.
  rewrite (slice_split (pg_text p) _ k (k + 1)) by (unfold zlen; lia).
  f_equal. apply slice_one; [lia|done].
Qed.

(** One marked offset. *)
Lemma cover_offset_step pages done_ s p k st :
  find_page pages (sp_page s) = Some p -> 0 <= sp_source_start s -> sp_source_start s <= k -> k < zlen (pg_text p) ->
  cover_inv pages (done_ ++ [cut_span s k]) st ->
  (forall st', cover_offset p st k = Ok st' -> cover_inv pages (done_ ++ [cut_span s (k + 1)]) st') /\
  (hits done_ (sp_page s) k = 0%nat -> exists st', cover_offset p st k = Ok st').
Proof.
  intros Hp Hs Hk Hlt [Hpages Hhits Hchars Hnonws].
  pose proof (find_page_number _ _ _ Hp) as Hnum.
  pose proof (Hpages (sp_page s)) as Hlen. rewrite Hp in Hlen. simpl in Hlen.
  destruct (cs_coverage st !! sp_page s) as [marks|] eqn:Hm; [|done]. injection Hlen as Hlen.
  assert (is_Some (marks !! Z.to_nat k)) as [b Hb] by (apply lookup_lt_is_Some; unfold zlen in *; lia).
  assert (is_Some (pg_text p !! Z.to_nat k)) as [c Hc] by (apply lookup_lt_is_Some; unfold zlen in *; lia).
  pose proof (Hhits _ _ _ _ Hm Hb) as Hcount. rewrite Z2Nat.id, hits_app in Hcount by lia.
  rewrite (hits_cut_other s k) in Hcount by (right; lia).
  unfold cover_offset. rewrite Hnum, Hm. simpl. rewrite Hb. simpl. rewrite Hc. split.
  - destruct b; simpl; [done|]. intros st' [= <-].
    assert (concat (map (span_text pages) (done_ ++ [cut_span s (k + 1)])) =
            concat (map (span_text pages) (done_ ++ [cut_span s k])) ++ [c]) as Htext.
    { rewrite !map_app, !concat_app. simpl. rewrite !app_nil_r.
      rewrite (span_text_cut_succ pages s p k c) by done. by rewrite app_assoc. }
    split; simpl.
    + intros n. destruct (decide (n = sp_page s)) as [->|Hn].
      * rewrite lookup_insert_eq. simpl. rewrite length_insert, Hlen, Hp. done.
      * rewrite lookup_insert_ne by done. apply Hpages.
    + intros n marks' o b Hm' Hb'. rewrite hits_app, hits_cut_succ by done.
      destruct (decide (n = sp_page s)) as [->|Hn].
      * rewrite lookup_insert_eq in Hm'. injection Hm' as <-.
        destruct (decide (o = Z.to_nat k)) as [->|Ho].
        -- rewrite list_lookup_insert_eq in Hb' by (unfold zlen in *; lia). injection Hb' as <-.
           rewrite Z2Nat.id by lia. rewrite (hits_cut_other s k) by (right; lia).
           rewrite decide_True by done. lia.
        -- rewrite list_lookup_insert_ne in Hb' by done. pose proof (Hhits _ _ _ _ Hm Hb') as H.
           rewrite hits_app in H. rewrite decide_False by lia. lia.
      * rewrite lookup_insert_ne in Hm' by done. pose proof (Hhits _ _ _ _ Hm' Hb') as H.
        rewrite hits_app in H. rewrite decide_False by (intros [? ?]; congruence). lia.
    + rewrite Htext, zlen_app, <- Hchars. done.
    + rewrite Htext, non_whitespace_app, zlen_app, <- Hnonws. f_equal.
      unfold non_whitespace. rewrite filter_cons, filter_nil.
      destruct (isspace_cp c); by case_decide.
  - intros Hz. destruct b; [lia|]. simpl. eauto.
Qed.

Lemma cover_range pages done_ s p st n :
  find_page pages (sp_page s) = Some p -> 0 <= sp_source_start s ->
  forall k, sp_source_start s <= k -> k + Z.of_nat n <= zlen (pg_text p) ->
  cover_inv pages (done_ ++ [cut_span s k]) st ->
  (forall st', foldM (cover_offset p) st (seqZ k (Z.of_nat n)) = Ok st' -> cover_inv pages (done_ ++ [cut_span s (k + Z.of_nat n)]) st') /\
  ((forall o, k <= o < k + Z.of_nat n -> hits done_ (sp_page s) o = 0%nat) ->
   exists st', foldM (cover_offset p) st (seqZ k (Z.of_nat n)) = Ok st').
Proof.
  intros Hp Hs. revert st. induction n as [|n IH]; intros st k Hk Hlen Hinv.
  - rewrite Z.add_0_r. split; simpl; [by intros st' [= <-]|by eauto].
  - rewrite seqZ_cons by lia. replace (Z.pred (Z.of_nat (S n))) with (Z.of_nat n) by lia. simpl.
    destruct (cover_offset_step pages done_ s p k st) as [Hstep Hprog]; try done; [lia|].
    replace (k + Z.of_nat (S n)) with (Z.succ k + Z.of_nat n) by lia.
    destruct (cover_offset p st k) as [st1|e] eqn:E; simpl.
    + destruct (IH st1 (Z.succ k)) as [IH1 IH2]; [lia|lia|by apply Hstep|].
      split; [exact IH1|]. intros H. apply IH2. intros o Ho. apply H. lia.
    + split; [done|]. intros H. destruct Hprog as [st' ?]; [apply H; lia|done].
Qed.

Lemma cut_span_end s : cut_span s (sp_source_end s) = s.
Proof. by destruct s. Qed.

Lemma cover_inv_cut_start pages done_ s st :
  span_in_page pages s -> cover_inv pages done_ st -> cover_inv pages (done_ ++ [cut_span s (sp_source_start s)]) st.
Proof.
  intros (p & Hp & Hs & Hle & Hend) [H1 H2 H3 H4].
  assert (concat (map (span_text pages) (done_ ++ [cut_span s (sp_source_start s)])) =
          concat (map (span_text pages) done_)) as Htext.
  { rewrite map_app, concat_app. simpl. unfold span_text at 2. simpl. rewrite Hp.
    rewrite slice_empty by lia. by rewrite !app_nil_r. }
  split; [done| |by rewrite Htext|by rewrite Htext].
  intros n marks o b Hm Hb. rewrite hits_app.
  assert (hits [cut_span s (sp_source_start s)] n (Z.of_nat o) = 0%nat) as ->.
  { rewrite hits_one. case_decide as Hc; [|done]. unfold span_covers, cut_span in Hc. simpl in Hc. lia. }
  rewrite Nat.add_0_r. by apply (H2 n marks).
Qed.

Lemma cover_span_step pages done_ s st :
  span_in_page pages s -> cover_inv pages done_ st ->
  (forall st', cover_span pages st s = Ok st' -> cover_inv pages (done_ ++ [s]) st') /\
  ((forall n o, (hits (done_ ++ [s]) n o <= 1)%nat) -> exists st', cover_span pages st s = Ok st').
Proof.
  intros Hin Hinv. pose proof Hin as (p & Hp & Hs & Hle & Hend).
  unfold cover_span. rewrite Hp. simpl.
  destruct (cover_range pages done_ s p st (Z.to_nat (sp_source_end s - sp_source_start s)) Hp Hs (sp_source_start s))
    as [H1 H2]; [lia|lia|by apply cover_inv_cut_start|].
  rewrite Z2Nat.id in H1, H2 by lia.
  replace (sp_source_start s + (sp_source_end s - sp_source_start s)) with (sp_source_end s) in H1, H2 by lia.
  rewrite cut_span_end in H1. split; [exact H1|].
  intros Hno. apply H2. intros o Ho. specialize (Hno (sp_page s) o).
  rewrite hits_app, hits_one, decide_True in Hno by done. lia.
Qed.

Lemma hits_prefix_le l1 l2 n o : (hits l1 n o <= hits (l1 ++ l2) n o)%nat.
Proof. rewrite hits_app. lia. Qed.

Lemma cover_spans_ok pages spans : forall done_ st,
  Forall (span_in_page pages) spans -> cover_inv pages done_ st ->
  (forall st', foldM (cover_span pages) st spans = Ok st' -> cover_inv pages (done_ ++ spans) st') /\
  ((forall n o, (hits (done_ ++ spans) n o <= 1)%nat) -> exists st', foldM (cover_span pages) st spans = Ok st').
Proof.
  induction spans as [|s spans IH]; intros done_ st Hin Hinv; simpl.
  - rewrite app_nil_r. split; [by intros st' [= <-]|by eauto].
  - inversion Hin as [|? ? Hs Hrest]; subst.
    destruct (cover_span_step pages done_ s st Hs Hinv) as [H1 H2].
    replace (done_ ++ s :: spans) with ((done_ ++ [s]) ++ spans) by by rewrite <- app_assoc.
    destruct (cover_span pages st s) as [st1|e]; simpl.
    + apply IH; [done|by apply H1].
    + split; [done|]. intros Hno. destruct H2 as [? ?]; [|done].
      intros n o. pose proof (hits_prefix_le (done_ ++ [s]) spans n o). specialize (Hno n o). lia.
Qed.

(** The loop over the nodes is the loop over the leaf spans. *)
Lemma cover_nodes_spans pages nodes : forall st,
  Forall (fun n => is_leaf_type (sn_node_type n) = true -> sn_spans n <> []) nodes ->
  foldM (cover_node pages) st nodes =
  foldM (cover_span pages) st (filter (fun n => is_leaf_type (sn_node_type n) = true) nodes ≫= sn_spans).
Proof.
  induction nodes as [|n nodes IH]; intros st Hne; [done|].
  inversion Hne as [|? ? Hn Hrest]; subst. rewrite filter_cons. simpl. unfold cover_node at 1.
  destruct (is_leaf_type (sn_node_type n)); case_decide; try done; simpl.
  - rewrite (bool_decide_eq_false_2 (sn_spans n = [])) by auto. simpl.
    rewrite foldM_app. destruct (foldM (cover_span pages) st (sn_spans n)); simpl; auto.
  - auto.
Qed.

Lemma cover_nodes_nonempty pages nodes : forall st st',
  foldM (cover_node pages) st nodes = Ok st' ->
  Forall (fun n => is_leaf_type (sn_node_type n) = true -> sn_spans n <> []) nodes.
Proof.
  induction nodes as [|n nodes IH]; intros st st' H; simpl in H; [constructor|].
  inv_res H. constructor; [|by eapply IH]. intros Hl. unfold cover_node in *.
  rewrite Hl in Hr. inv_res Hr. by bsplit.
Qed.

Lemma initial_coverage_inv pages :
  NoDup (map pg_page pages) -> cover_inv pages [] (initial_coverage pages).
Proof.
  intros Hnd.
  assert (forall n, cs_coverage (initial_coverage pages) !! n =
                    (fun p => repeat false (length (pg_text p))) <$> find_page pages n) as Hl.
  { intros n. simpl. clear Hnd. induction pages as [|p pages IH]; [done|]. simpl.
    destruct (Z.eqb_spec (pg_page p) n) as [->|Hn]; simpl.
    - by rewrite lookup_insert_eq.
    - by rewrite lookup_insert_ne. }
  split; try done.
  - intros n. rewrite Hl. destruct (find_page pages n); simpl; [|done]. by rewrite repeat_length.
  - intros n marks o b Hm Hb. rewrite Hl in Hm. destruct (find_page pages n); [|done]. simpl in Hm.
    injection Hm as <-. apply list_elem_of_lookup_2, list_elem_of_In, repeat_spec in Hb. by subst.
Qed.

(** ** The validator, part by part *)
Lemma forM_unit {A} (f : A -> res unit) l u : forM f l = Ok u <-> Forall (fun a => f a = Ok tt) l.
Proof. destruct u. apply forM_ok. Qed.

Lemma validate_parts a cov :
  validate_structure_artifact a = Ok cov <->
  validate_metadata a = Ok tt /\ validate_pages a = Ok tt /\ validate_root a = Ok tt /\
  Forall (fun en => validate_node a en = Ok tt) (enumerate (sa_nodes a)) /\
  validate_tables a = Ok tt /\
  Forall (fun el => validate_link a el = Ok tt) (enumerate (sa_links a)) /\
  (exists st, validate_coverage a = Ok st /\
     cov = {| cv_source_characters := fold_right (fun p acc => zlen (pg_text p) + acc) 0 (sa_pages a);
              cv_covered_characters := cs_covered_characters st;
              cv_source_non_whitespace_characters := count_non_whitespace (sa_pages a);
              cv_covered_non_whitespace_characters := cs_covered_non_whitespace st;
              cv_source_sha256 := sa_source_sha256 a;
              cv_coverage_sha256 := sa_source_coverage_sha256 a |}) /\
  Forall (fun n => validate_node_identity n = Ok tt) (sa_nodes a).
Proof.
  unfold validate_structure_artifact. split.
  - intros H. inv_res H.
    repeat match goal with u : () |- _ => destruct u end.
    repeat match goal with H : forM _ _ = Ok _ |- _ => apply forM_unit in H end. eauto 12.
  - intros (-> & -> & -> & H1 & -> & H2 & (st & -> & ->) & H3). simpl.
    apply forM_ok in H1 as ->, H2 as ->, H3 as ->. done.
Qed.

Lemma strictly_sorted_pages pages p :
  positive_sorted_unique (map pg_page pages) = true -> p ∈ pages -> find_page pages (pg_page p) = Some p.
Proof.
  intros H Hin. unfold positive_sorted_unique in H. bsplit.
  assert (NoDup (map pg_page pages)) as Hnd.
  { match goal with H : _ = sorted_by _ _ |- _ => rewrite H end.
    rewrite (sorted_by_Permutation Z.leb). apply NoDup_remove_dups. }
  clear -Hnd Hin. induction pages as [|q pages IH]; [by apply not_elem_of_nil in Hin|].
  simpl in *. apply NoDup_cons in Hnd as [Hq Hnd]. apply elem_of_cons in Hin as [->|Hin]; [by rewrite Z.eqb_refl|].
  destruct (Z.eqb_spec (pg_page q) (pg_page p)) as [E|_]; [|by apply IH].
  destruct Hq. rewrite E. apply list_elem_of_fmap. eauto.
Qed.

Lemma positive_sorted_unique_NoDup l : positive_sorted_unique l = true -> NoDup l.
Proof.
  intros H. unfold positive_sorted_unique in H. bsplit.
  match goal with H : _ = sorted_by _ _ |- _ => rewrite H end.
  rewrite (sorted_by_Permutation Z.leb). apply NoDup_remove_dups.
Qed.

Lemma validate_span_ok pages s t :
  validate_span pages s = Ok t ->
  span_in_page pages s /\ t = span_text pages s /\ sp_source_start s < sp_source_end s /\
  sha256_bytes (utf8_encode t) = sp_text_sha256 s.
Proof.
  unfold validate_span. intros H. inv_res H.
  match goal with H : find_page _ _ = Some ?q |- _ => rename H into Hp; rename q into p end.
  destruct (line_boundary_sets (pg_text p)) as [starts ends]. inv_res H. subst.
  bsplit. repeat match goal with H : (_ <=? _) = true |- _ => apply Z.leb_le in H
                                | H : (_ <? _) = true |- _ => apply Z.ltb_lt in H end.
  split; [exists p; split; [done|lia]|]. split; [by unfold span_text; rewrite Hp|]. done.
Qed.

Lemma find_node_elem nodes id n : find_node nodes id = Some n -> n ∈ nodes /\ sn_node_id n = id.
Proof.
  intros [H1 H2]%find_some. split; [by apply list_elem_of_In|]. by apply bool_decide_eq_true in H2.
Qed.

(** ** The specification *)

(** [grounded nodes n]: following parents from [n] reaches the ROOT. *)
Inductive grounded (nodes : list StructureNode) : StructureNode -> Prop :=
| grounded_root n : n ∈ nodes -> sn_node_type n = ROOT -> sn_parent_id n = None -> grounded nodes n
| grounded_child n id p :
    n ∈ nodes -> sn_parent_id n = Some id -> find_node nodes id = Some p -> grounded nodes p -> grounded nodes n.

Record lossless_artifact (a : StructureArtifact) : Prop := {
  (** every offset of every page lies in exactly one leaf span *)
  la_partition : forall p o, p ∈ sa_pages a -> 0 <= o < zlen (pg_text p) -> hits (leaf_spans a) (pg_page p) o = 1%nat;
  (** the leaf spans of a page, by start offset, spell the page *)
  la_reconstruct : forall p, p ∈ sa_pages a ->
    concat (map (span_text (sa_pages a))
      (sorted_by (fun s t => sp_source_start s <=? sp_source_start t)
        (filter (fun s => sp_page s = pg_page p) (leaf_spans a)))) = pg_text p;
  (** a node displays the text of its spans and nothing else *)
  la_display : forall n, n ∈ sa_nodes a -> sn_display_text n = concat (map (span_text (sa_pages a)) (sn_spans n));
  (** the nodes form a tree *)
  la_tree : forall n, n ∈ sa_nodes a -> grounded (sa_nodes a) n;
  la_ids : NoDup (map sn_node_id (sa_nodes a));
  la_identity : forall n, n ∈ sa_nodes a -> sn_node_id n = node_id (with_node_id [] n);
  (** links stay inside and never loop *)
  la_links : forall l, l ∈ sa_links a ->
    ln_from_node_id l <> ln_to_node_id l /\
    exists f t, f ∈ sa_nodes a /\ t ∈ sa_nodes a /\ sn_node_id f = ln_from_node_id l /\ sn_node_id t = ln_to_node_id l;
  (** rows sit in tables and carry their header *)
  la_rows : forall n, n ∈ sa_nodes a -> sn_node_type n = TABLE_ROW ->
    exists t, t ∈ sa_nodes a /\ sn_parent_id n = Some (sn_node_id t) /\ sn_node_type t = TABLE /\
              sn_table_headers n = sn_table_headers t;
}.

Lemma validate_coverage_ok a st :
  NoDup (map pg_page (sa_pages a)) -> Forall (span_in_page (sa_pages a)) (leaf_spans a) ->
  validate_coverage a = Ok st ->
  cover_inv (sa_pages a) (leaf_spans a) st /\
  Forall (fun p => validate_page_coverage a st p = Ok tt) (sa_pages a) /\
  cs_covered_non_whitespace st = count_non_whitespace (sa_pages a).
Proof.
  intros Hnd Hin H. unfold validate_coverage in H. inv_res H.
  match goal with H : forM _ _ = Ok _ |- _ => apply forM_unit in H end.
  match goal with H : foldM _ _ _ = Ok _ |- _ => rename H into Hf end. subst.
  split; [|split; [done|]].
  - pose proof (cover_nodes_nonempty _ _ _ _ Hf) as Hne. rewrite cover_nodes_spans in Hf by done.
    destruct (cover_spans_ok (sa_pages a) (leaf_spans a) [] (initial_coverage (sa_pages a)) Hin) as [H1 _];
      [by apply initial_coverage_inv|]. by apply H1.
  - bsplit. by apply Z.eqb_eq.
Qed.

Lemma validate_page_coverage_ok a st p :
  cover_inv (sa_pages a) (leaf_spans a) st -> find_page (sa_pages a) (pg_page p) = Some p ->
  validate_page_coverage a st p = Ok tt ->
  (forall o, 0 <= o < zlen (pg_text p) -> hits (leaf_spans a) (pg_page p) o = 1%nat) /\
  concat (map (span_text (sa_pages a))
      (sorted_by (fun s t => sp_source_start s <=? sp_source_start t)
        (filter (fun s => sp_page s = pg_page p) (leaf_spans a)))) = pg_text p.
Proof.
  intros Hinv Hp H. unfold validate_page_coverage in H. inv_res H.
  match goal with H : cs_coverage _ !! _ = Some ?m |- _ => rename H into Hm; rename m into marks end.
  bsplit. pose proof (ci_pages _ _ _ Hinv (pg_page p)) as Hlen. rewrite Hm, Hp in Hlen. injection Hlen as Hlen.
  split.
  - intros o Ho. assert (is_Some (marks !! Z.to_nat o)) as [b Hb] by (apply lookup_lt_is_Some; unfold zlen in Ho; lia).
    pose proof (ci_hits _ _ _ Hinv _ _ _ _ Hm Hb) as Hh. rewrite Z2Nat.id in Hh by lia.
    destruct b; [done|]. exfalso.
    match goal with H : existsb negb _ = false |- _ => apply not_true_iff_false in H; apply H end.
    apply existsb_elem. exists false. split; [by eapply list_elem_of_lookup_2|done].
  - match goal with H : concat _ = pg_text p |- _ => etransitivity; [|exact H] end. f_equal.
    set (l := sorted_by _ _). assert (Forall (fun s => sp_page s = pg_page p) l) as Hl.
    { unfold l. rewrite (sorted_by_Permutation _ _). apply Forall_forall. intros s [Hs _]%list_elem_of_filter. done. }
    clearbody l. induction Hl as [|s l Hs Hl IH]; simpl; [done|]. f_equal; [|done].
    unfold span_text. by rewrite Hs, Hp.
Qed.

Record node_facts (a : StructureArtifact) (i : Z) (n : StructureNode) : Prop := {
  nf_ordinal : sn_ordinal n = i;
  nf_parent : sn_node_type n = ROOT \/
    exists id p, sn_parent_id n = Some id /\ find_node (sa_nodes a) id = Some p /\ sn_ordinal p < sn_ordinal n;
  nf_spans : Forall (span_in_page (sa_pages a)) (sn_spans n);
  nf_display : sn_display_text n = concat (map (span_text (sa_pages a)) (sn_spans n));
  nf_row : sn_node_type n = TABLE_ROW -> exists id t, sn_parent_id n = Some id /\ find_node (sa_nodes a) id = Some t /\
    sn_node_type t = TABLE /\ sn_table_headers n = sn_table_headers t;
}.

Lemma validate_spans_texts pages spans texts :
  mapM_res (validate_span pages) spans = Ok texts ->
  Forall (span_in_page pages) spans /\ texts = map (span_text pages) spans.
Proof.
  rewrite mapM_res_ok. induction 1 as [|s t spans texts Hs _ [IH1 ->]]; [by split|].
  apply validate_span_ok in Hs as (Hin & -> & _ & _). by split; [constructor|].
Qed.

Lemma validate_node_facts a i n : validate_node a (i, n) = Ok tt -> node_facts a i n.
Proof.
  unfold validate_node. intros H. inv_res H. bsplit.
  match goal with H : validate_parent _ _ = _ |- _ => rename H into Hp end.
  match goal with H : validate_node_spans _ _ = _ |- _ => rename H into Hs end.
  rename H into Ht. unfold validate_node_spans in Hs. inv_res Hs.
  match goal with H : mapM_res _ _ = _ |- _ => apply validate_spans_texts in H as [Hin ->] end. bsplit.
  split; try done.
  - by apply Z.eqb_eq.
  - unfold validate_parent in Hp. case_bool_decide; [by left|]. right. inv_res Hp.
    destruct (sn_parent_id n) as [id|]; [|done]. eexists _, _. split; [done|]. split; [done|].
    match goal with H : (_ <=? _) = false |- _ => apply Z.leb_gt in H; lia end.
  - intros E. unfold validate_table_fields in Ht. rewrite E in Ht. inv_res Ht. bsplit.
    destruct (sn_parent_id n) as [id|]; [|done]. eauto 10.
Qed.

Lemma enumerate_Forall {A} (P : Z * A -> Prop) l :
  Forall P (enumerate l) <-> forall i a, l !! i = Some a -> P (Z.of_nat i, a).
Proof.
  rewrite Forall_lookup. split.
  - intros H i a Hi. apply (H i). by rewrite enumerate_lookup, Hi.
  - intros H i [z a] Hi. rewrite enumerate_lookup in Hi. destruct (l !! i) eqn:E; [|done].
    injection Hi as <- <-. by apply H.
Qed.

Lemma validate_link_facts a i l :
  validate_link a (i, l) = Ok tt ->
  ln_ordinal l = i /\ ln_from_node_id l <> ln_to_node_id l /\
  exists f t, f ∈ sa_nodes a /\ t ∈ sa_nodes a /\ sn_node_id f = ln_from_node_id l /\ sn_node_id t = ln_to_node_id l.
Proof.
  unfold validate_link. intros H. inv_res H. bsplit.
  repeat match goal with H : find_node _ _ = Some _ |- _ => apply find_node_elem in H as [? ?] end.
  split; [by apply Z.eqb_eq|]. split; [congruence|]. eauto 8.
Qed.

(** Facts shared by the soundness theorems: every node of an accepted artifact. *)
Lemma validate_nodes_facts a cov :
  validate_structure_artifact a = Ok cov -> forall i n, sa_nodes a !! i = Some n -> node_facts a (Z.of_nat i) n.
Proof.
  intros (_ & _ & _ & H & _)%validate_parts i n Hi. apply validate_node_facts.
  by apply (proj1 (enumerate_Forall _ _) H).
Qed.

Lemma validate_leaf_spans_in_page a cov :
  validate_structure_artifact a = Ok cov -> Forall (span_in_page (sa_pages a)) (leaf_spans a).
Proof.
  intros H. apply Forall_forall. intros s Hs. unfold leaf_spans in Hs.
  apply list_elem_of_bind in Hs as (n & Hs & [_ Hn]%list_elem_of_filter).
  apply list_elem_of_lookup in Hn as [i Hi]. pose proof (validate_nodes_facts a cov H i n Hi) as Hf.
  apply nf_spans in Hf. rewrite Forall_forall in Hf. auto.
Qed.

Lemma validate_pages_unique a : validate_pages a = Ok tt -> positive_sorted_unique (map pg_page (sa_pages a)) = true.
Proof. unfold validate_pages. intros H. inv_res H. by bsplit. Qed.

(** The one ROOT has no parent. *)
Lemma validate_root_parentless a n :
  validate_root a = Ok tt -> n ∈ sa_nodes a -> sn_node_type n = ROOT -> sn_parent_id n = None.
Proof.
  intros Hroot Hn Er. unfold validate_root in Hroot. inv_res Hroot.
  destruct (filter _ _) as [|rt [|? ?]] eqn:E; try done. inv_res Hroot. bsplit.
  assert (n ∈ filter (fun n => sn_node_type n = ROOT) (sa_nodes a)) as Hin by by apply list_elem_of_filter.
  rewrite E in Hin. apply list_elem_of_singleton in Hin as ->. destruct (sn_parent_id rt); [|done].
  match goal with H : ¬ (Some _ <> None) |- _ => by destruct H end.
Qed.

Lemma grounded_below a :
  validate_root a = Ok tt -> (forall i n, sa_nodes a !! i = Some n -> node_facts a (Z.of_nat i) n) ->
  forall k n, n ∈ sa_nodes a -> sn_ordinal n < Z.of_nat k -> grounded (sa_nodes a) n.
Proof.
  intros Hroot Hf. induction k as [|k IH]; intros n Hn Hk.
  - apply list_elem_of_lookup in Hn as [i Hi]. pose proof (nf_ordinal _ _ _ (Hf i n Hi)). lia.
  - apply list_elem_of_lookup in Hn as [i Hi]. pose proof (Hf i n Hi) as Hfi.
    assert (n ∈ sa_nodes a) as Hn by by eapply list_elem_of_lookup_2.
    destruct (nf_parent _ _ _ Hfi) as [Er|(id & p & Hid & Hp & Hlt)].
    + apply grounded_root; [done|done|]. by eapply validate_root_parentless.
    + eapply grounded_child; [done|done|done|]. apply IH; [by apply find_node_elem in Hp as [? _]|lia].
Qed.

(** An artifact the validator accepts is lossless. *)
Lemma validated_lossless a cov : validate_structure_artifact a = Ok cov -> lossless_artifact a.
Proof.
  intros H. pose proof (validate_nodes_facts a cov H) as Hf. pose proof (validate_leaf_spans_in_page a cov H) as Hin.
  apply validate_parts in H as (_ & Hpages & Hroot & _ & _ & Hlinks & (st & Hcov & _) & Hids).
  apply validate_pages_unique in Hpages.
  destruct (validate_coverage_ok a st) as (Hinv & Hpc & _); [by apply positive_sorted_unique_NoDup|done|done|].
  assert (forall n, n ∈ sa_nodes a -> exists i, node_facts a i n) as Hf'.
  { intros n [i Hi]%list_elem_of_lookup. eauto. }
  rewrite Forall_forall in Hpc.
  assert (forall p, p ∈ sa_pages a -> find_page (sa_pages a) (pg_page p) = Some p) as Hfind
    by (intros; by apply strictly_sorted_pages).
  split.
  - intros p o Hp. destruct (validate_page_coverage_ok a st p Hinv (Hfind p Hp) (Hpc p Hp)) as [H1 _]. auto.
  - intros p Hp. by destruct (validate_page_coverage_ok a st p Hinv (Hfind p Hp) (Hpc p Hp)) as [_ H2].
  - intros n [i Hi]%Hf'. apply nf_display in Hi. done.
  - intros n Hn. apply (grounded_below a Hroot Hf (S (Z.to_nat (sn_ordinal n)))); [done|].
    destruct (Hf' n Hn) as [i Hi]. lia.
  - unfold validate_root in Hroot. inv_res Hroot. by bsplit.
  - intros n Hn. rewrite Forall_forall in Hids. specialize (Hids n Hn). unfold validate_node_identity in Hids.
    inv_res Hids. by bsplit.
  - intros l [i Hi]%list_elem_of_lookup. apply (validate_link_facts a (Z.of_nat i)).
    by apply (proj1 (enumerate_Forall _ _) Hlinks).
  - intros n [i Hi]%Hf' Ht. destruct (nf_row _ _ _ Hi Ht) as (id & t & Hid & Hft & Htt & Hh).
    apply find_node_elem in Hft as [Hin' <-]. eauto 8.
Qed.

(** ** The reported coverage *)
Lemma zlen_concat {A B} (f : A -> list B) l : zlen (concat (map f l)) = fold_right (fun x acc => zlen (f x) + acc) 0 l.
Proof. induction l as [|x l IH]; [done|]. cbn [map concat fold_right]. by rewrite zlen_app, IH. Qed.

Lemma fold_lengths_perm {A B} (f : A -> list B) l1 l2 :
  Permutation l1 l2 -> fold_right (fun x acc => zlen (f x) + acc) 0 l1 = fold_right (fun x acc => zlen (f x) + acc) 0 l2.
Proof. induction 1; cbn [fold_right]; lia. Qed.

(** Characters counted span by span or page by page. *)
Lemma lengths_by_page (f : NodeSpan -> ustr) (pages : list StructurePage) spans :
  NoDup (map pg_page pages) -> Forall (fun s => exists p, p ∈ pages /\ pg_page p = sp_page s) spans ->
  zlen (concat (map f spans)) =
  fold_right (fun p acc => zlen (concat (map f (filter (fun s => sp_page s = pg_page p) spans))) + acc) 0 pages.
Proof.
  intros Hnd. induction 1 as [|s spans (p & Hp & Hs) _ IH].
  - clear Hnd. induction pages as [|q pages IHp]; [done|]. cbn [fold_right]. by rewrite <- IHp.
  - cbn [map concat]. rewrite zlen_app, IH. clear IH. induction pages as [|q pages IHp]; [by apply not_elem_of_nil in Hp|].
    cbn [map] in Hnd. apply NoDup_cons in Hnd as [Hq Hnd]. cbn [fold_right]. rewrite filter_cons.
    apply elem_of_cons in Hp as [<-|Hp].
    + rewrite decide_True by done. cbn [map concat]. rewrite zlen_app.
      assert (forall l, (forall r, r ∈ l -> r ∈ pages) -> fold_right (fun r acc => zlen (concat (map f (filter (fun t => sp_page t = pg_page r) (s :: spans)))) + acc) 0 l =
         fold_right (fun r acc => zlen (concat (map f (filter (fun t => sp_page t = pg_page r) spans))) + acc) 0 l) as ->;
        [|lia|by auto].
      induction l as [|r l IHl]; [done|]. intros Hl. cbn [fold_right]. rewrite IHl by (intros; apply Hl; by right).
      rewrite filter_cons_False; [done|]. intros E. apply Hq. rewrite Hs, E. apply list_elem_of_fmap.
      exists r. split; [done|]. apply Hl. by left.
    + rewrite decide_False; [rewrite <- IHp by done; lia|]. intros E. apply Hq. rewrite <- E, <- Hs.
      apply list_elem_of_fmap. eauto.
Qed.

(** C13: an artifact the validator accepts is lossless: its leaf spans cover
    every offset of every page exactly once and spell the pages, nodes display
    exactly their source text, parents lead to the one ROOT, identities are unique
    content hashes and links stay inside the artifact; the reported coverage is
    all characters. *)
Theorem validate_sound a cov :
  validate_structure_artifact a = Ok cov ->
  lossless_artifact a /\ cv_covered_characters cov = cv_source_characters cov /\
  cv_covered_non_whitespace_characters cov = cv_source_non_whitespace_characters cov /\
  cv_source_characters cov = zlen (concat (map pg_text (sa_pages a))).
Proof.
  intros H. pose proof (validated_lossless a cov H) as Hl. pose proof (validate_leaf_spans_in_page a cov H) as Hin.
  split; [done|]. apply validate_parts in H as (_ & Hpages & _ & _ & _ & _ & (st & Hcov & ->) & _). cbn.
  apply validate_pages_unique, positive_sorted_unique_NoDup in Hpages.
  destruct (validate_coverage_ok a st Hpages Hin Hcov) as (Hinv & _ & Hnw). rewrite zlen_concat.
  split; [|done]. rewrite (ci_chars _ _ _ Hinv). rewrite (lengths_by_page _ (sa_pages a)) by
    (done || (eapply Forall_impl; [exact Hin|]; intros s (p & Hp & _); exists p;
              split; [by eapply find_page_elem|by eapply find_page_number])).
  assert (forall l, (forall p, p ∈ l -> p ∈ sa_pages a) ->
    fold_right (fun p acc => zlen (concat (map (span_text (sa_pages a)) (filter (fun s => sp_page s = pg_page p) (leaf_spans a)))) + acc) 0 l =
    fold_right (fun p acc => zlen (pg_text p) + acc) 0 l) as ->; [|done..].
  induction l as [|p l IH]; [done|]. intros Hsub. cbn [fold_right]. rewrite IH by (intros; apply Hsub; by right). f_equal.
  rewrite <- (la_reconstruct a Hl p) by (apply Hsub; by left). rewrite !zlen_concat.
  set (g := filter _ _). apply fold_lengths_perm. symmetry. apply sorted_by_Permutation.
Qed.

(** A small accepted artifact: one page of one line, a ROOT and one leaf. *)
Definition sample_page : StructurePage :=
  {| pg_page := 1; pg_text := us "a"; pg_text_sha256 := sha256_bytes (us "a") |}.
Definition sample_node (revision : ustr) (parent : option ustr) (t : NodeType) (ordinal : Z) (spans : list NodeSpan)
    : StructureNode :=
  let n := {| sn_node_id := []; sn_contract_revision_id := revision; sn_parent_id := parent; sn_node_type := t;
              sn_major_class := UNKNOWN; sn_raw_heading := None; sn_ordinal := ordinal;
              sn_display_text := concat (map (span_text [sample_page]) spans); sn_spans := spans;
              sn_table_headers := []; sn_table_cells := []; sn_table_role := None |} in
  with_node_id (node_id n) n.
Definition sample_artifact : StructureArtifact := Eval vm_compute in
  let get m := match m with Ok a => a | Err _ => us "" end in
  let lineage := get (make_product_lineage_id (us "kb") (us "p") (us "d")) in
  let source_id := us "source_" ++ pg_text_sha256 sample_page in
  let revision := get (make_contract_revision_id lineage source_id (pg_text_sha256 sample_page)) in
  let root := sample_node revision None ROOT 0 [] in
  let leaf := sample_node revision (Some (sn_node_id root)) UNCLASSIFIED 1
                [{| sp_page := 1; sp_source_start := 0; sp_source_end := 1;
                    sp_text_sha256 := pg_text_sha256 sample_page; sp_span_ordinal := 0; sp_is_canonical := true |}] in
  {| sa_schema_version := STRUCTURE_SCHEMA; sa_document_id := us "doc"; sa_issuer := us "kb";
     sa_issuer_profile := mk_profile (us "kb") (us "x") [] [] []; sa_product_code := us "p"; sa_product_name := us "n";
     sa_source_version := us "v"; sa_effective_date := Some (us "2024-02-29"); sa_document_type := us "d";
     sa_product_lineage_id := lineage; sa_contract_revision_id := revision; sa_source_id := source_id;
     sa_pdf_sha256 := pg_text_sha256 sample_page; sa_source_sha256 := source_digest [sample_page];
     sa_source_non_whitespace_characters := 1; sa_source_coverage_sha256 := coverage_digest [sample_page];
     sa_pages := [sample_page]; sa_nodes := [root; leaf]; sa_links := [] |}.

Lemma validate_sound_witness : lossless_artifact sample_artifact.
Proof.
  eapply (validate_sound _ {| cv_source_characters := 1; cv_covered_characters := 1;
    cv_source_non_whitespace_characters := 1; cv_covered_non_whitespace_characters := 1;
    cv_source_sha256 := sa_source_sha256 sample_artifact;
    cv_coverage_sha256 := sa_source_coverage_sha256 sample_artifact |}).
  vm_compute. reflexivity.
Defined.
