(* ===== verification/StructureParse.v ===== *)
(** The structure parser ([parse_structure_artifact] and
    [build_unclassified_fallback_artifact] of [cardrag_worker/structure.py]).

    The parser is a state machine that reads the lines of the pages in order.
    The lists it appends to (drafts, link drafts, leaf indices) are the
    [builder]; the variables that remember where it stands (current section,
    item and table, last leaf of the previous page, ...) are the [cursor].
    Every branch of the loop body is one [step_*] function; subscripts that
    would raise in Python raise here. *)
From S2P Require Export StructureLines StructureValidate.

Record NodeDraft := {
  nd_parent_index : option nat;
  nd_node_type : NodeType;
  nd_major_class : MajorClass;
  nd_raw_heading : option ustr;
  nd_spans : list NodeSpan;
  nd_table_headers : list ustr;
  nd_table_cells : list ustr;
  nd_table_role : option TableRole;
}.

Record LinkDraft := { ld_from_index : nat; ld_to_index : nat; ld_link_type : LinkType }.
#[export] Instance LinkDraft_eq_dec : EqDecision LinkDraft. Proof. solve_decision. Defined.

Record builder := {
  drafts : list NodeDraft;
  link_drafts : list LinkDraft;
  leaf_indices : list nat;
}.

Record cursor := {
  current_major : option nat;
  current_item : option nat;
  previous_page_last_semantic : option nat;
  previous_page_last_table : option nat;
  previous_reference_leaf : option nat;
  benefit_item_indices : list nat;
  page_first_semantic : bool;
  page_last_semantic : option nat;
  page_last_table : option nat;
  current_table : option nat;
}.

(** ** Appending *)
Definition node_draft (parent : option nat) (t : NodeType) (m : MajorClass) (heading : option ustr)
    (spans : list NodeSpan) : NodeDraft :=
  {| nd_parent_index := parent; nd_node_type := t; nd_major_class := m; nd_raw_heading := heading;
     nd_spans := spans; nd_table_headers := []; nd_table_cells := []; nd_table_role := None |}.

Definition add_node (d : NodeDraft) (b : builder) : builder * nat :=
  let index := length (drafts b) in
  ({| drafts := drafts b ++ [d];
      link_drafts := link_drafts b;
      leaf_indices := if is_leaf_type (nd_node_type d) then leaf_indices b ++ [index] else leaf_indices b |},
   index).

Definition add_links (ls : list LinkDraft) (b : builder) : builder :=
  {| drafts := drafts b; link_drafts := link_drafts b ++ ls; leaf_indices := leaf_indices b |}.

Definition set_draft (i : nat) (d : NodeDraft) (b : builder) : builder :=
  {| drafts := <[i := d]> (drafts b); link_drafts := link_drafts b; leaf_indices := leaf_indices b |}.

Definition get_draft (b : builder) (i : nat) : res NodeDraft := of_option IndexError (drafts b !! i).

Definition mklink (f t : nat) (k : LinkType) : LinkDraft :=
  {| ld_from_index := f; ld_to_index := t; ld_link_type := k |}.

Definition is_benefit (m : MajorClass) : bool := match m with BENEFIT | MIXED => true | _ => false end.
Definition is_notice (m : MajorClass) : bool := match m with NOTICE | MIXED => true | _ => false end.

(** ** Cursor updates *)
Definition set_current_table (t : option nat) (c : cursor) : cursor :=
  {| current_major := current_major c; current_item := current_item c;
     previous_page_last_semantic := previous_page_last_semantic c;
     previous_page_last_table := previous_page_last_table c;
     previous_reference_leaf := previous_reference_leaf c;
     benefit_item_indices := benefit_item_indices c;
     page_first_semantic := page_first_semantic c; page_last_semantic := page_last_semantic c;
     page_last_table := page_last_table c; current_table := t |}.
Definition set_position (major item : option nat) (benefits : list nat) (c : cursor) : cursor :=
  {| current_major := major; current_item := item;
     previous_page_last_semantic := previous_page_last_semantic c;
     previous_page_last_table := previous_page_last_table c;
     previous_reference_leaf := previous_reference_leaf c;
     benefit_item_indices := benefits;
     page_first_semantic := page_first_semantic c; page_last_semantic := page_last_semantic c;
     page_last_table := page_last_table c; current_table := current_table c |}.
(** The assignments after a semantic leaf. *)
Definition set_page_last (leaf : nat) (table reference : option nat) (c : cursor) : cursor :=
  {| current_major := current_major c; current_item := current_item c;
     previous_page_last_semantic := previous_page_last_semantic c;
     previous_page_last_table := previous_page_last_table c;
     previous_reference_leaf := reference;
     benefit_item_indices := benefit_item_indices c;
     page_first_semantic := false; page_last_semantic := Some leaf;
     page_last_table := table; current_table := current_table c |}.
(** The local variables at the top of a page. *)
Definition begin_page (c : cursor) : cursor :=
  {| current_major := current_major c; current_item := current_item c;
     previous_page_last_semantic := previous_page_last_semantic c;
     previous_page_last_table := previous_page_last_table c;
     previous_reference_leaf := previous_reference_leaf c;
     benefit_item_indices := benefit_item_indices c;
     page_first_semantic := true; page_last_semantic := None;
     page_last_table := None; current_table := None |}.
(** The carry-over at the bottom of a page. *)
Definition end_page (c : cursor) : cursor :=
  match page_last_semantic c with
  | None => c
  | Some leaf =>
      {| current_major := current_major c; current_item := current_item c;
         previous_page_last_semantic := Some leaf;
         previous_page_last_table := page_last_table c;
         previous_reference_leaf := previous_reference_leaf c;
         benefit_item_indices := benefit_item_indices c;
         page_first_semantic := page_first_semantic c; page_last_semantic := page_last_semantic c;
         page_last_table := page_last_table c; current_table := current_table c |}
  end.

Definition initial_builder : builder :=
  {| drafts := [node_draft None ROOT UNKNOWN None []]; link_drafts := []; leaf_indices := [] |}.
Definition initial_cursor : cursor :=
  {| current_major := None; current_item := None; previous_page_last_semantic := None;
     previous_page_last_table := None; previous_reference_leaf := None; benefit_item_indices := [];
     page_first_semantic := true; page_last_semantic := None; page_last_table := None; current_table := None |}.

Definition pstate : Type := builder * cursor.

(** ** The loop body *)
Definition major_or_root (c : cursor) : nat := match current_major c with Some m => m | None => 0%nat end.

Definition ensure_item (st : pstate) : res (pstate * nat) :=
  let '(b, c) := st in
  match current_item c with
  | Some i => Ok ((b, c), i)
  | None =>
      let parent := major_or_root c in
      let! p := get_draft b parent in
      let '(b, i) := add_node (node_draft (Some parent) ITEM (nd_major_class p) None []) b in
      let! d := get_draft b i in
      let benefits := if is_benefit (nd_major_class d) then benefit_item_indices c ++ [i] else benefit_item_indices c in
      Ok ((b, set_position (current_major c) (Some i) benefits c), i)
  end.

Definition step_boilerplate (line : SourceLine) (st : pstate) : res pstate :=
  let '(b, c) := st in
  Ok ((add_node (node_draft (Some 0%nat) BOILERPLATE UNKNOWN None [line_span line]) b).1,
      set_current_table None c).

Definition step_blank (line : SourceLine) (st : pstate) : res pstate :=
  let '(b, c) := st in
  let parent := match current_item c with Some i => i | None => major_or_root c end in
  let! p := get_draft b parent in
  Ok ((add_node (node_draft (Some parent) UNCLASSIFIED (nd_major_class p) None [line_span line]) b).1,
      set_current_table None c).

(** The table a row belongs to, opened if there is none; the flag says that it
    continues the table at the end of the previous page. *)
Definition open_table (rest : list SourceLine) (boilerplate_lines : list (Z * Z * Z)) (st : pstate)
    : res (pstate * nat * bool) :=
  match current_table st.2 with
  | Some t => Ok (st, t, false)
  | None =>
      let! (st, parent) := ensure_item st in
      let '(b, c) := st in
      let declares_local_header :=
        page_first_semantic c && next_table_line_is_separator rest boilerplate_lines in
      let! p := get_draft b parent in
      let new_table headers := 
        {| nd_parent_index := Some parent; nd_node_type := TABLE; nd_major_class := nd_major_class p;
           nd_raw_heading := None; nd_spans := []; nd_table_headers := headers; nd_table_cells := [];
           nd_table_role := None |} in
      match previous_page_last_table c with
      | Some prev =>
          if page_first_semantic c && negb declares_local_header then
            let! prev_draft := get_draft b prev in
            let '(b, t) := add_node (new_table (nd_table_headers prev_draft)) b in
            Ok ((add_links [mklink t prev CONTINUATION_OF] b, set_current_table (Some t) c), t, true)
          else
            let '(b, t) := add_node (new_table []) b in
            Ok ((b, set_current_table (Some t) c), t, false)
      | None =>
          let '(b, t) := add_node (new_table []) b in
          Ok ((b, set_current_table (Some t) c), t, false)
      end
  end.

(** [table.spans.append(...)] and the header of the table, with the role of the
    row. *)
Definition with_row (line : SourceLine) (cells : list ustr) (table : NodeDraft) : NodeDraft * TableRole :=
  let separator := is_table_separator cells in
  let unset := bool_decide (nd_table_headers table = []) in
  let headers := if unset && negb separator then cells else nd_table_headers table in
  let role :=
    if unset && negb separator then HEADER
    else if separator then SEPARATOR
    else if bool_decide (cells = nd_table_headers table) then HEADER
    else BODY in
  ({| nd_parent_index := nd_parent_index table; nd_node_type := nd_node_type table;
      nd_major_class := nd_major_class table; nd_raw_heading := nd_raw_heading table;
      nd_spans := nd_spans table ++ [span_with_ordinal (line_span line) (zlen (nd_spans table)) (Some false)];
      nd_table_headers := headers; nd_table_cells := nd_table_cells table;
      nd_table_role := nd_table_role table |}, role).

Definition row_draft (line : SourceLine) (t : nat) (table : NodeDraft) (cells : list ustr) (role : TableRole) : NodeDraft :=
  {| nd_parent_index := Some t; nd_node_type := TABLE_ROW; nd_major_class := nd_major_class table;
     nd_raw_heading := None; nd_spans := [line_span line]; nd_table_headers := nd_table_headers table;
     nd_table_cells := cells; nd_table_role := Some role |}.

Definition step_table (line : SourceLine) (rest : list SourceLine) (boilerplate_lines : list (Z * Z * Z)) (st : pstate)
    : res pstate :=
  let! (st, t, continued_table) := open_table rest boilerplate_lines st in
  let '(b, c) := st in
  let! table := get_draft b t in
  let cells := table_cells (visible line) in
  let '(table, role) := with_row line cells table in
  let b := set_draft t table b in
  let '(b, row) := add_node (row_draft line t table cells role) b in
  let b :=
    match previous_page_last_semantic c with
    | Some prev => if page_first_semantic c && continued_table then add_links [mklink row prev CONTINUATION_OF] b else b
    | None => b
    end in
  Ok (b, set_page_last row (Some t) (Some row) c).

(** A heading opens a section or an item; the result is the parent, type and
    class of the leaf that holds the heading line. *)
Definition step_major (line : SourceLine) (own_class : MajorClass) (st : pstate)
    : res (pstate * (nat * NodeType * MajorClass)) :=
  let '(b, c) := st in
  let '(b, m) := add_node (node_draft (Some 0%nat) MAJOR_SECTION own_class (Some (visible line))
                             [span_with_ordinal (line_span line) 0 (Some false)]) b in
  let c := set_position (Some m) None (benefit_item_indices c) c in
  let b := if is_notice own_class
           then add_links (map (fun i => mklink m i APPLIES_TO) (benefit_item_indices c)) b
           else b in
  Ok ((b, c), (m, PARAGRAPH, own_class)).

Definition step_item (profile : IssuerParserProfile) (line : SourceLine) (st : pstate)
    : res (pstate * (nat * NodeType * MajorClass)) :=
  let '(b, c) := st in
  let parent_for_item := major_or_root c in
  let! p := get_draft b parent_for_item in
  let item_class := inherited_class (visible line) profile (nd_major_class p) in
  let '(b, i) := add_node (node_draft (Some parent_for_item) ITEM item_class (Some (visible line))
                             [span_with_ordinal (line_span line) 0 (Some false)]) b in
  let b :=
    match last (benefit_item_indices c) with
    | Some prior_benefit_item =>
        if is_notice item_class && negb (is_notice (nd_major_class p))
        then add_links [mklink i prior_benefit_item APPLIES_TO] b else b
    | None => b
    end in
  let benefits := if is_benefit item_class then benefit_item_indices c ++ [i] else benefit_item_indices c in
  Ok ((b, set_position (current_major c) (Some i) benefits c), (i, PARAGRAPH, item_class)).

Definition step_plain (profile : IssuerParserProfile) (line : SourceLine) (own_class : MajorClass) (st : pstate)
    : res (pstate * (nat * NodeType * MajorClass)) :=
  let! (st, parent) := ensure_item st in
  let! p := get_draft st.1 parent in
  let inherited := nd_major_class p in
  let node_class := inherited_class (visible line) profile inherited in
  let node_type :=
    if match_prefix re_FOOTNOTE (visible line) then FOOTNOTE
    else if match_prefix re_LIST_ITEM (visible line) then LIST_ITEM
    else if negb (bool_decide (inherited = UNKNOWN)) || negb (bool_decide (own_class = UNKNOWN)) then PARAGRAPH
    else UNCLASSIFIED in
  Ok (st, (parent, node_type, node_class)).

(** The leaf of a text line and the links it starts. *)
Definition step_leaf (line : SourceLine) (is_heading : bool) (where_ : nat * NodeType * MajorClass) (st : pstate)
    : res pstate :=
  let '(b, c) := st in
  let '(parent, node_type, node_class) := where_ in
  let '(b, leaf) := add_node (node_draft (Some parent) node_type node_class None [line_span line]) b in
  let b :=
    match previous_page_last_semantic c with
    | Some prev => if page_first_semantic c && negb is_heading then add_links [mklink leaf prev CONTINUATION_OF] b else b
    | None => b
    end in
  let! b :=
    match previous_reference_leaf c with
    | Some ref =>
        if bool_decide (node_type = FOOTNOTE)
        then Ok (add_links [mklink leaf ref FOOTNOTE_OF; mklink leaf ref APPLIES_TO] b)
        else if negb is_heading && is_notice node_class then
          let! r := get_draft b ref in
          Ok (if is_benefit (nd_major_class r) then add_links [mklink leaf ref APPLIES_TO] b else b)
        else Ok b
    | None => Ok b
    end in
  let reference := if bool_decide (node_type = FOOTNOTE) then previous_reference_leaf c else Some leaf in
  Ok (b, set_page_last leaf None reference c).

Definition step_text (profile : IssuerParserProfile) (line : SourceLine) (st : pstate) : res pstate :=
  let st := (st.1, set_current_table None st.2) in
  let kind := heading_kind (visible line) profile in
  let own_class := major_class (visible line) profile in
  let! (st, where_) :=
    match kind with
    | Some HK_major => step_major line own_class st
    | Some HK_item => step_item profile line st
    | None => step_plain profile line own_class st
    end in
  step_leaf line (bool_decide (kind <> None)) where_ st.

Definition marker_mismatch : exn := StructureValidationError "embedded OCR page marker does not match PageRecord".

Definition step_line (profile : IssuerParserProfile) (boilerplate_lines : list (Z * Z * Z)) (st : pstate)
    (line : SourceLine) (rest : list SourceLine) : res pstate :=
  let stripped := strip (visible line) in
  let marker := page_marker stripped in
  let! _ := raise_if (match marker with Some n => negb (n =? sl_page line) | None => false end) marker_mismatch in
  if bool_decide (line_key line ∈ boilerplate_lines) || bool_decide (marker <> None) then step_boilerplate line st
  else if bool_decide (stripped = []) then step_blank line st
  else if is_table_line (visible line) then step_table line rest boilerplate_lines st
  else step_text profile line st.

Fixpoint step_lines (profile : IssuerParserProfile) (boilerplate_lines : list (Z * Z * Z)) (st : pstate)
    (lines : list SourceLine) : res pstate :=
  match lines with
  | [] => Ok st
  | line :: rest =>
      let! st := step_line profile boilerplate_lines st line rest in
      step_lines profile boilerplate_lines st rest
  end.

Definition step_page (profile : IssuerParserProfile) (boilerplate_lines : list (Z * Z * Z)) (st : pstate)
    (lines : list SourceLine) : res pstate :=
  let! st := step_lines profile boilerplate_lines (st.1, begin_page st.2) lines in
  Ok (st.1, end_page st.2).

(** Neighbouring leaves, in both directions. *)
Fixpoint neighbour_links (leaves : list nat) : list LinkDraft :=
  match leaves with
  | previous :: ((current :: _) as rest) =>
      mklink previous current NEXT :: mklink current previous PREVIOUS :: neighbour_links rest
  | _ => []
  end.

(** The whole loop over the pages. *)
Definition parse_drafts (profile : IssuerParserProfile) (pages_lines : list (list SourceLine)) : res builder :=
  let boilerplate_lines := repeated_edge_lines pages_lines profile in
  let! st := foldM (step_page profile boilerplate_lines) (initial_builder, initial_cursor) pages_lines in
  Ok (add_links (neighbour_links (leaf_indices st.1)) st.1).

(** ** From drafts to nodes and links *)
Definition draft_display (pages : list StructurePage) (spans : list NodeSpan) : res ustr :=
  let! parts := mapM_res (fun s => let! p := of_option KeyError (find_page pages (sp_page s)) in
                                   Ok (slice (pg_text p) (sp_source_start s) (sp_source_end s))) spans in
  Ok (concat parts).

Definition freeze_node (revision_id : ustr) (pages : list StructurePage) (nodes : list StructureNode) (d : NodeDraft)
    : res (list StructureNode) :=
  let! parent_id :=
    match nd_parent_index d with
    | None => Ok None
    | Some i => let! p := of_option IndexError (nodes !! i) in Ok (Some (sn_node_id p))
    end in
  let! display_text := draft_display pages (nd_spans d) in
  let provisional :=
    {| sn_node_id := []; sn_contract_revision_id := revision_id; sn_parent_id := parent_id;
       sn_node_type := nd_node_type d; sn_major_class := nd_major_class d; sn_raw_heading := nd_raw_heading d;
       sn_ordinal := zlen nodes; sn_display_text := display_text; sn_spans := nd_spans d;
       sn_table_headers := nd_table_headers d; sn_table_cells := nd_table_cells d;
       sn_table_role := nd_table_role d |} in
  Ok (nodes ++ [with_node_id (node_id provisional) provisional]).

Definition freeze_nodes (revision_id : ustr) (pages : list StructurePage) (ds : list NodeDraft) : res (list StructureNode) :=
  foldM (freeze_node revision_id pages) [] ds.

Definition link_order (t : LinkType) : Z :=
  match t with CONTINUATION_OF => 0 | FOOTNOTE_OF => 1 | APPLIES_TO => 2 | PREVIOUS => 3 | NEXT => 4 end.

(** Keys of a dictionary built in order: the first occurrences. *)
Definition dict_unique {A} `{EqDecision A} (l : list A) : list A := rev (remove_dups (rev l)).

Definition freeze_links (nodes : list StructureNode) (ls : list LinkDraft) : res (list NodeLink) :=
  let! keyed :=
    mapM_res (fun l =>
      let! f := of_option IndexError (nodes !! ld_from_index l) in
      let! t := of_option IndexError (nodes !! ld_to_index l) in
      Ok ((sn_ordinal f, link_order (ld_link_type l), sn_ordinal t), (sn_node_id f, sn_node_id t, ld_link_type l)))
      (dict_unique ls) in
  let ordered := sorted_by (fun x y => triple_leb x.1 y.1) keyed in
  Ok (map (fun ox => let '(f, t, k) := ox.2.2 in
                     {| ln_from_node_id := f; ln_to_node_id := t; ln_link_type := k; ln_ordinal := ox.1 |})
          (enumerate ordered)).

(** ** Entry points *)
Record structure_inputs := {
  in_issuer : ustr;
  in_product_code : ustr;
  in_product_name : ustr;
  in_source_version : ustr;
  in_effective_date : option ustr;
  in_document_type : ustr;
  in_source_id : ustr;
  in_pdf_sha256 : ustr;
  in_profile : option IssuerParserProfile;
}.

Record checked_inputs := {
  ck_document_id : ustr;
  ck_profile : IssuerParserProfile;
  ck_lineage_id : ustr;
  ck_revision_id : ustr;
  ck_pages : list StructurePage;
}.

(** The checks both entry points start with, in their order. *)
Definition check_inputs (pages : list PageRecord) (i : structure_inputs) : res checked_inputs :=
  let! _ := raise_if (bool_decide (pages = [])) (ValueError "structure input requires at least one page") in
  let! _ := issuer_code (in_issuer i) in
  let! _ := require_trimmed (in_product_code i) "product_code" in
  let! _ := require_context_metadata (in_product_name i) "product_name" in
  let! _ := require_context_metadata (in_source_version i) "source_version" in
  let! _ := require_canonical_effective_date (in_effective_date i) in
  let! _ := require_trimmed (in_document_type i) "document_type" in
  let! _ := raise_if (negb (fullmatch re_SOURCE_ID (in_source_id i))) (ValueError "invalid source_id") in
  let! _ := raise_if (negb (fullmatch re_hex64 (in_pdf_sha256 i))) (ValueError "invalid pdf_sha256") in
  let document_ids := remove_dups (map pr_document_id pages) in
  let! document_id :=
    match document_ids with
    | [d] => if bool_decide (d = []) then Err (ValueError "structure pages must belong to one non-empty document_id") else Ok d
    | _ => Err (ValueError "structure pages must belong to one non-empty document_id")
    end in
  let page_numbers := map pr_page pages in
  let! _ := raise_if (negb (positive_sorted_unique page_numbers))
              (ValueError "structure pages must be positive, sorted, and unique") in
  let! selected := match in_profile i with Some p => Ok p | None => issuer_parser_profile (in_issuer i) end in
  let! _ := raise_if (negb (bool_decide (ip_issuer selected = in_issuer i)))
              (ValueError "issuer parser profile does not match the document issuer") in
  let! lineage := make_product_lineage_id (in_issuer i) (in_product_code i) (in_document_type i) in
  let! revision := make_contract_revision_id lineage (in_source_id i) (in_pdf_sha256 i) in
  Ok {| ck_document_id := document_id; ck_profile := selected; ck_lineage_id := lineage; ck_revision_id := revision;
        ck_pages := map (fun p => {| pg_page := pr_page p; pg_text := pr_text p; pg_text_sha256 := pr_text_sha256 p |}) pages |}.

Definition make_artifact (i : structure_inputs) (k : checked_inputs) (nodes : list StructureNode) (links : list NodeLink)
    : StructureArtifact :=
  {| sa_schema_version := STRUCTURE_SCHEMA; sa_document_id := ck_document_id k; sa_issuer := in_issuer i;
     sa_issuer_profile := ck_profile k; sa_product_code := in_product_code i; sa_product_name := in_product_name i;
     sa_source_version := in_source_version i; sa_effective_date := in_effective_date i;
     sa_document_type := in_document_type i; sa_product_lineage_id := ck_lineage_id k;
     sa_contract_revision_id := ck_revision_id k; sa_source_id := in_source_id i; sa_pdf_sha256 := in_pdf_sha256 i;
     sa_source_sha256 := source_digest (ck_pages k);
     sa_source_non_whitespace_characters := count_non_whitespace (ck_pages k);
     sa_source_coverage_sha256 := coverage_digest (ck_pages k);
     sa_pages := ck_pages k; sa_nodes := nodes; sa_links := links |}.

Definition build_from_drafts (i : structure_inputs) (k : checked_inputs) (b : builder) : res StructureArtifact :=
  let! nodes := freeze_nodes (ck_revision_id k) (ck_pages k) (drafts b) in
  let! links := freeze_links nodes (link_drafts b) in
  Ok (make_artifact i k nodes links).

Definition parse_structure_artifact (pages : list PageRecord) (i : structure_inputs) : res StructureArtifact :=
  let! k := check_inputs pages i in
  let! b := parse_drafts (ck_profile k) (map source_lines pages) in
  let! artifact := build_from_drafts i k b in
  let! _ := validate_structure_artifact artifact in
  Ok artifact.

(** ** The lossless fallback *)
Definition append_node (revision_id : ustr) (pages : list StructurePage) (parent_id : option ustr) (t : NodeType)
    (spans : list NodeSpan) (nodes : list StructureNode) : list StructureNode * StructureNode :=
  let display_text :=
    spans ≫= (fun s => pages ≫= (fun p =>
      if pg_page p =? sp_page s then slice (pg_text p) (sp_source_start s) (sp_source_end s) else [])) in
  let provisional :=
    {| sn_node_id := []; sn_contract_revision_id := revision_id; sn_parent_id := parent_id;
       sn_node_type := t; sn_major_class := UNKNOWN; sn_raw_heading := None;
       sn_ordinal := zlen nodes; sn_display_text := display_text; sn_spans := spans;
       sn_table_headers := []; sn_table_cells := []; sn_table_role := None |} in
  let node := with_node_id (node_id provisional) provisional in
  (nodes ++ [node], node).

Definition fallback_leaf (revision_id : ustr) (pages : list StructurePage) (item : StructureNode)
    (acc : list StructureNode * list StructureNode) (line : SourceLine) : list StructureNode * list StructureNode :=
  let '(nodes, leaf) := append_node revision_id pages (Some (sn_node_id item)) UNCLASSIFIED [line_span line] acc.1 in
  (nodes, acc.2 ++ [leaf]).

(** Links between consecutive leaves, numbered as they are appended. *)
Fixpoint fallback_links (n : Z) (leaves : list StructureNode) : list NodeLink :=
  match leaves with
  | previous :: ((current :: _) as rest) =>
      {| ln_from_node_id := sn_node_id previous; ln_to_node_id := sn_node_id current;
         ln_link_type := NEXT; ln_ordinal := n |} ::
      {| ln_from_node_id := sn_node_id current; ln_to_node_id := sn_node_id previous;
         ln_link_type := PREVIOUS; ln_ordinal := n + 1 |} ::
      fallback_links (n + 2) rest
  | _ => []
  end.

(** All nodes and, among them, the leaves. *)
Definition fallback_nodes (k : checked_inputs) (pages : list PageRecord) : list StructureNode * list StructureNode :=
  let add := append_node (ck_revision_id k) (ck_pages k) in
  let '(nodes, root) := add None ROOT [] [] in
  let '(nodes, item) := add (Some (sn_node_id root)) ITEM [] nodes in
  fold_left (fallback_leaf (ck_revision_id k) (ck_pages k) item) (pages ≫= source_lines) (nodes, []).

Definition build_unclassified_fallback_artifact (pages : list PageRecord) (i : structure_inputs) : res StructureArtifact :=
  let! k := check_inputs pages i in
  let '(nodes, leaves) := fallback_nodes k pages in
  let artifact := make_artifact i k nodes (fallback_links 0 leaves) in
  let! _ := validate_structure_artifact artifact in
  Ok artifact.
