(* ===== verification/StructureBuild.v ===== *)
(** From drafts to an accepted artifact.

    Both entry points of [cardrag_worker/structure.py] end in the validator.
    This file shows what they have to establish for it to accept: drafts whose
    leaves are the source lines, whose parents come earlier and whose tables
    hold exactly rows ([drafts_wf]), and node identities that the hash tells
    apart.  [validate_built] is the completeness half of the validator. *)
From S2P Require Export StructureSound StructureParse.

(** ** Lines as spans *)
Lemma tiles_bounds p a b ls : tiles p a b ls -> a <= b.
Proof. induction 1 as [|a b l ls ? ? ? ? _ IH]; lia. Qed.

Lemma tiles_lines p a b ls l :
  tiles p a b ls -> l ∈ ls -> sl_page l = p /\ a <= sl_source_start l /\ sl_source_start l < sl_source_end l /\ sl_source_end l <= b.
Proof.
  induction 1 as [|a b l' ls Hp Hs Hlt He Ht IH]; [by intros ?%not_elem_of_nil|].
  pose proof (tiles_bounds _ _ _ _ Ht). intros [->|Hl]%elem_of_cons; [lia|].
  destruct (IH Hl) as (? & ? & ? & ?). lia.
Qed.

Lemma tiles_hits p a b ls n o :
  tiles p a b ls -> hits (map line_span ls) n o = if decide (n = p /\ a <= o < b) then 1%nat else 0%nat.
Proof.
  induction 1 as [a|a b l ls Hp Hs Hlt He Ht IH]; simpl.
  - rewrite decide_False by lia. done.
  - change (line_span l :: map line_span ls) with ([line_span l] ++ map line_span ls).
    rewrite hits_app, hits_one, IH. unfold span_covers, line_span. simpl. pose proof (tiles_bounds _ _ _ _ Ht).
    repeat case_decide; lia.
Qed.

(** The text of a line is the slice of its page, and its ends are line boundaries. *)
Lemma lines_from_slices p pre texts l :
  l ∈ lines_from p (zlen pre) texts ->
  forall post, slice (pre ++ concat texts ++ post) (sl_source_start l) (sl_source_end l) = sl_text l.
Proof.
  revert pre. induction texts as [|t texts IH]; intros pre Hl post; simpl in *; [by apply not_elem_of_nil in Hl|].
  apply elem_of_cons in Hl as [->|Hl]; simpl.
  - rewrite <- app_assoc. apply slice_app_middle.
  - rewrite <- zlen_app in Hl. specialize (IH _ Hl post). by rewrite <- !app_assoc in *.
Qed.

Lemma source_line_slice page l :
  l ∈ source_lines page -> slice (pr_text page) (sl_source_start l) (sl_source_end l) = sl_text l.
Proof.
  rewrite source_lines_eq. intros Hl. pose proof (lines_from_slices _ [] _ l Hl []) as H.
  by rewrite app_nil_r, splitlines_join in H.
Qed.

Lemma lines_from_boundaries p a texts l :
  l ∈ lines_from p a texts ->
  sl_source_start l ∈ a :: boundary_offsets a texts /\ sl_source_end l ∈ boundary_offsets a texts.
Proof.
  revert a. induction texts as [|t texts IH]; intros a Hl; simpl in *; [by apply not_elem_of_nil in Hl|].
  apply elem_of_cons in Hl as [->|Hl]; simpl; [split; left|].
  destruct (IH _ Hl). split; by right.
Qed.

(** Pages of the records an artifact is built from. *)
Definition structure_page (p : PageRecord) : StructurePage :=
  {| pg_page := pr_page p; pg_text := pr_text p; pg_text_sha256 := pr_text_sha256 p |}.

Lemma find_structure_page pages p :
  NoDup (map pr_page pages) -> p ∈ pages -> find_page (map structure_page pages) (pr_page p) = Some (structure_page p).
Proof.
  induction pages as [|q pages IH]; simpl; intros Hnd Hp; [by apply not_elem_of_nil in Hp|].
  apply NoDup_cons in Hnd as [Hq Hnd]. apply elem_of_cons in Hp as [->|Hp]; [by rewrite Z.eqb_refl|].
  destruct (Z.eqb_spec (pr_page q) (pr_page p)) as [E|_]; [|by apply IH].
  destruct Hq. rewrite E. apply list_elem_of_fmap. eauto.
Qed.

Lemma line_page pages l :
  l ∈ pages ≫= source_lines -> exists p, p ∈ pages /\ l ∈ source_lines p /\ sl_page l = pr_page p.
Proof.
  intros (p & Hl & Hp)%list_elem_of_bind. exists p. split; [done|]. split; [done|].
  by destruct (tiles_lines _ _ _ _ l (source_lines_tiles p) Hl).
Qed.

(** A span of the parser: a line with any ordinal and canonical flag. *)
Definition line_like (lines : list SourceLine) (s : NodeSpan) : Prop :=
  exists l k c, l ∈ lines /\ s = span_with_ordinal (line_span l) k c.

Lemma line_span_like lines l : l ∈ lines -> line_like lines (line_span l).
Proof. intros Hl. exists l, 0, None. by split. Qed.

Lemma line_like_valid pages s :
  NoDup (map pr_page pages) -> line_like (pages ≫= source_lines) s ->
  validate_span (map structure_page pages) s = Ok (span_text (map structure_page pages) s) /\
  span_in_page (map structure_page pages) s.
Proof.
  intros Hnd (l & k & c & Hl & ->). apply line_page in Hl as (p & Hp & Hl & Hpage).
  pose proof (find_structure_page pages p Hnd Hp) as Hfind.
  destruct (tiles_lines _ _ _ _ l (source_lines_tiles p) Hl) as (_ & Hs & Hlt & He).
  pose proof (source_line_slice p l Hl) as Htext.
  rewrite source_lines_eq in Hl. apply lines_from_boundaries in Hl as [Hb1 Hb2].
  split.
  - unfold validate_span, span_text, span_with_ordinal, line_span.
    cbn [sp_page sp_source_start sp_source_end sp_text_sha256]. rewrite Hpage, Hfind. cbn [of_option res_bind].
    unfold line_boundary_sets, structure_page. cbn [pg_text]. rewrite Htext.
    rewrite (proj2 (Z.leb_le _ _)), (proj2 (Z.ltb_lt _ _)), (proj2 (Z.leb_le _ _)) by lia. cbn [andb negb raise_if res_bind].
    rewrite (bool_decide_eq_true_2 _ Hb1).
    rewrite bool_decide_eq_true_2; [|right; apply elem_of_app; left; exact Hb2].
    by rewrite bool_decide_eq_true_2 by reflexivity.
  - exists (structure_page p). simpl. rewrite Hpage. split; [done|lia].
Qed.

(** ** Order of the lines *)
Definition span_key (s : NodeSpan) : Z * Z * Z := (sp_page s, sp_source_start s, sp_source_end s).
Definition key_le (x y : Z * Z * Z) : Prop := triple_leb x y = true.

Lemma triple_leb_before a b c a' b' c' : a < a' \/ (a = a' /\ b < b') -> triple_leb (a, b, c) (a', b', c') = true.
Proof.
  intros H. unfold triple_leb. destruct H as [H|[<- H]].
  - by rewrite (proj2 (Z.ltb_lt _ _) H).
  - rewrite Z.ltb_irrefl, Z.eqb_refl, (proj2 (Z.ltb_lt _ _) H). done.
Qed.

Lemma tiles_sorted p a b ls : tiles p a b ls -> StronglySorted key_le (map line_key ls).
Proof.
  induction 1 as [|a b l ls Hp Hs Hlt He Ht IH]; simpl; constructor; [done|].
  apply Forall_forall. intros k (l' & -> & Hl')%list_elem_of_fmap.
  destruct (tiles_lines _ _ _ _ _ Ht Hl') as (Hp' & Hs' & _). apply triple_leb_before. lia.
Qed.

Lemma StronglySorted_app_2 {A} (R : A -> A -> Prop) l1 l2 :
  StronglySorted R l1 -> StronglySorted R l2 -> (forall x y, x ∈ l1 -> y ∈ l2 -> R x y) -> StronglySorted R (l1 ++ l2).
Proof.
  induction 1 as [|x l1 H1 IH Hx]; intros H2 H; simpl; [done|].
  constructor; [apply IH; [done|]; intros; apply H; [by right|done]|].
  apply Forall_app. split; [done|]. apply Forall_forall. intros y Hy. apply H; [by left|done].
Qed.

Lemma lines_sorted pages :
  StronglySorted Z.lt (map pr_page pages) -> StronglySorted key_le (map line_key (pages ≫= source_lines)).
Proof.
  induction pages as [|p pages IH]; simpl; intros H; [constructor|].
  inversion H as [|? ? Hs Hp]; subst. rewrite map_app. apply StronglySorted_app_2.
  - eapply tiles_sorted, source_lines_tiles.
  - by apply IH.
  - intros k k' (l & -> & Hl)%list_elem_of_fmap (l' & -> & Hl')%list_elem_of_fmap.
    apply line_page in Hl' as (q & Hq & _ & Hpage).
    destruct (tiles_lines _ _ _ _ _ (source_lines_tiles p) Hl) as (Hpl & _).
    rewrite Forall_forall in Hp. apply triple_leb_before. left. rewrite Hpl, Hpage. apply Hp.
    apply list_elem_of_fmap. eauto.
Qed.

Lemma StronglySorted_sublist {A} (R : A -> A -> Prop) l k :
  sublist k l -> StronglySorted R l -> StronglySorted R k.
Proof.
  induction 1 as [|x k l Hkl IH|x k l Hkl IH]; intros Hs; [constructor| |]; inversion Hs as [|? ? Hl Hx]; subst.
  - constructor; [by apply IH|]. rewrite Forall_forall in *. intros y Hy. apply Hx. eapply elem_of_sublist; done.
  - by apply IH.
Qed.

(** [positive_sorted_unique] is strict order and positivity. *)
Lemma positive_sorted_unique_spec l :
  positive_sorted_unique l = true <-> StronglySorted Z.lt l /\ Forall (fun n => 1 <= n) l.
Proof.
  unfold positive_sorted_unique. rewrite andb_true_iff, bool_decide_eq_true, forallb_Forall.
  setoid_rewrite Z.leb_le. split; intros [H1 H2]; (split; [|done]).
  - assert (NoDup l) as Hnd by (rewrite H1, (sorted_by_Permutation Z.leb); apply NoDup_remove_dups).
    pose proof (sorted_by_sorted Z.leb ltac:(intros; rewrite !Z.leb_le; lia)
                  ltac:(intros a b c; rewrite !Z.leb_le; lia) (remove_dups l)) as Hs.
    rewrite <- H1 in Hs. clear H1 H2. induction Hs as [|n l Hs IH Hn]; constructor.
    + apply NoDup_cons in Hnd as [_ Hnd]. by apply IH.
    + apply NoDup_cons in Hnd as [Hn' _]. rewrite Forall_forall in *. intros m Hm.
      specialize (Hn m Hm). apply Z.leb_le in Hn. destruct (decide (n = m)) as [->|]; [done|lia].
  - assert (NoDup l) as Hnd.
    { clear H2. induction H1 as [|n l Hs IH Hn]; constructor; [|done].
      intros Hin. rewrite Forall_forall in Hn. specialize (Hn n Hin). lia. }
    assert (remove_dups l = l) as ->.
    { clear -Hnd. induction Hnd as [|n l Hn Hnd IH]; simpl; [done|]. case_match; [done|]. by rewrite IH. }
    symmetry. apply sorted_by_id. clear -H1. induction H1 as [|n l Hs IH Hn]; constructor; [done|].
    eapply Forall_impl; [done|]. intros m Hm. apply Z.leb_le. lia.
Qed.

(** ** Well-formed drafts *)
Definition container_span (k : nat) (l : SourceLine) : NodeSpan := span_with_ordinal (line_span l) (Z.of_nat k) (Some false).
Definition container_spans (ls : list SourceLine) : list NodeSpan := imap container_span ls.

Definition no_table_data (d : NodeDraft) : Prop :=
  nd_table_headers d = [] /\ nd_table_cells d = [] /\ nd_table_role d = None.

(** What a draft of each type carries. *)
Definition draft_shape (lines : list SourceLine) (d : NodeDraft) : Prop :=
  if is_container_type (nd_node_type d) then
    (exists ls, sublist ls lines /\ nd_spans d = container_spans ls) /\
    (if bool_decide (nd_node_type d = TABLE) then nd_table_cells d = [] /\ nd_table_role d = None else no_table_data d)
  else
    (exists l, l ∈ lines /\ nd_spans d = [line_span l]) /\
    (if bool_decide (nd_node_type d = TABLE_ROW) then nd_table_cells d <> [] /\ nd_table_role d <> None else no_table_data d).

Definition type_at (ds : list NodeDraft) (i : nat) : option NodeType := nd_node_type <$> (ds !! i).

(** The ROOT is draft 0; every other draft has an earlier parent, which is a
    TABLE exactly when the draft is a row. *)
Definition parent_shape (ds : list NodeDraft) (i : nat) (d : NodeDraft) : Prop :=
  match nd_parent_index d with
  | None => i = 0%nat /\ nd_node_type d = ROOT
  | Some p => (p < i)%nat /\ nd_node_type d <> ROOT /\
      exists t, type_at ds p = Some t /\ (t = TABLE <-> nd_node_type d = TABLE_ROW)
  end.

Definition leaf_draft (d : NodeDraft) : Prop := is_leaf_type (nd_node_type d) = true.
#[export] Instance leaf_draft_dec d : Decision (leaf_draft d). Proof. unfold leaf_draft. apply _. Defined.

Record drafts_wf (lines : list SourceLine) (ds : list NodeDraft) : Prop := {
  dw_nonempty : ds <> [];
  dw_shape : Forall (draft_shape lines) ds;
  dw_parent : forall i d, ds !! i = Some d -> parent_shape ds i d;
  dw_leaves : filter leaf_draft ds ≫= nd_spans = map line_span lines;
  dw_tables : forall t, type_at ds t = Some TABLE ->
    exists j r, ds !! j = Some r /\ nd_parent_index r = Some t /\ nd_node_type r = TABLE_ROW;
}.

Definition link_ok (n : nat) (l : LinkDraft) : Prop :=
  (ld_from_index l < n)%nat /\ (ld_to_index l < n)%nat /\ ld_from_index l <> ld_to_index l.

Definition lost_header : exn := sve "table row lost its original header relationship".

(** Every row carries the header of its table. *)
Definition row_shares_headers (ds : list NodeDraft) (d : NodeDraft) : bool :=
  match nd_node_type d, nd_parent_index d with
  | TABLE_ROW, Some t =>
      match ds !! t with
      | Some table => bool_decide (nd_table_headers d = nd_table_headers table)
      | None => false
      end
  | _, _ => true
  end.
Definition rows_share_headers (ds : list NodeDraft) : bool := forallb (row_shares_headers ds) ds.

Lemma container_or_leaf t : is_container_type t = negb (is_leaf_type t).
Proof. by destruct t. Qed.

Lemma draft_shape_like lines d : draft_shape lines d -> Forall (line_like lines) (nd_spans d).
Proof.
  unfold draft_shape. destruct (is_container_type _); intros [(x & Hx & ->) _].
  - apply Forall_lookup. intros k s. unfold container_spans. rewrite list_lookup_imap.
    intros (l & Hl & ->)%fmap_Some. exists l, (Z.of_nat k), (Some false). split; [|done].
    eapply elem_of_sublist; [by eapply list_elem_of_lookup_2|done].
  - constructor; [by apply line_span_like|done].
Qed.

Lemma draft_shape_keys lines d :
  StronglySorted key_le (map line_key lines) -> draft_shape lines d -> StronglySorted key_le (map span_key (nd_spans d)).
Proof.
  intros Hs. unfold draft_shape. destruct (is_container_type _); intros [(x & Hx & ->) _]; [|by repeat constructor].
  assert (map span_key (container_spans x) = map line_key x) as ->.
  { apply list_eq. intros i. unfold container_spans. rewrite !list_lookup_fmap, list_lookup_imap.
    by destruct (x !! i). }
  eapply StronglySorted_sublist; [|done]. clear -Hx. induction Hx; simpl; by constructor.
Qed.

Lemma draft_shape_ordinals lines d :
  draft_shape lines d -> map sp_span_ordinal (nd_spans d) = seqZ 0 (zlen (nd_spans d)).
Proof.
  unfold draft_shape. destruct (is_container_type _); intros [(x & Hx & ->) _]; [|done].
  apply list_eq. intros i. unfold container_spans, zlen. rewrite list_lookup_fmap, list_lookup_imap, length_imap.
  destruct (x !! i) eqn:E; simpl.
  - apply lookup_lt_Some in E. rewrite lookup_seqZ_lt by lia. by f_equal.
  - apply lookup_ge_None in E. rewrite lookup_seqZ_ge by lia. done.
Qed.

Lemma draft_shape_canonical lines d :
  draft_shape lines d ->
  (is_leaf_type (nd_node_type d) && existsb (fun s => negb (sp_is_canonical s)) (nd_spans d))
  || (is_container_type (nd_node_type d) && existsb sp_is_canonical (nd_spans d)) = false.
Proof.
  unfold draft_shape. rewrite container_or_leaf. destruct (is_leaf_type _); simpl; intros [(x & Hx & ->) _]; [done|].
  apply not_true_iff_false. intros (s & Hs & Hc)%existsb_elem.
  apply list_elem_of_lookup in Hs as [k Hk]. unfold container_spans in Hk. rewrite list_lookup_imap in Hk.
  apply fmap_Some in Hk as (l & _ & ->). done.
Qed.

(** ** Freezing drafts into nodes *)
Section Freeze.
Context (revision_id : ustr) (pages : list StructurePage).

(** The node draft [d] becomes at index [i], given all nodes. *)
Record node_of (nodes : list StructureNode) (i : nat) (d : NodeDraft) (n : StructureNode) : Prop := {
  no_id : sn_node_id n = node_id n;
  no_revision : sn_contract_revision_id n = revision_id;
  no_parent : match nd_parent_index d with
              | None => sn_parent_id n = None
              | Some p => exists pn, nodes !! p = Some pn /\ sn_parent_id n = Some (sn_node_id pn)
              end;
  no_type : sn_node_type n = nd_node_type d;
  no_ordinal : sn_ordinal n = Z.of_nat i;
  no_display : sn_display_text n = concat (map (span_text pages) (nd_spans d));
  no_spans : sn_spans n = nd_spans d;
  no_headers : sn_table_headers n = nd_table_headers d;
  no_cells : sn_table_cells n = nd_table_cells d;
  no_role : sn_table_role n = nd_table_role d;
  no_class : sn_major_class n = nd_major_class d;
  no_heading : sn_raw_heading n = nd_raw_heading d;
}.

Lemma node_of_app nodes nodes' i d n : node_of nodes i d n -> node_of (nodes ++ nodes') i d n.
Proof.
  intros []. split; try done. destruct (nd_parent_index d) as [p|]; [|done].
  destruct no_parent0 as (pn & Hp & ?). exists pn. split; [by apply lookup_app_l_Some|done].
Qed.

Lemma draft_display_ok spans :
  Forall (span_in_page pages) spans -> draft_display pages spans = Ok (concat (map (span_text pages) spans)).
Proof.
  intros H. unfold draft_display.
  assert (mapM_res (fun s => let! p := of_option KeyError (find_page pages (sp_page s)) in
                             Ok (slice (pg_text p) (sp_source_start s) (sp_source_end s))) spans
          = Ok (map (span_text pages) spans)) as ->; [|done].
  apply mapM_res_ok. induction H as [|s spans (p & Hp & _) _ IH]; simpl; constructor; [|done].
  unfold span_text. by rewrite Hp.
Qed.

(** One frozen node is appended and no earlier one changes. *)
Lemma freeze_node_ok nodes d :
  Forall (span_in_page pages) (nd_spans d) ->
  (forall p, nd_parent_index d = Some p -> (p < length nodes)%nat) ->
  exists n, freeze_node revision_id pages nodes d = Ok (nodes ++ [n]) /\ node_of nodes (length nodes) d n.
Proof.
  intros Hspans Hparent. unfold freeze_node.
  destruct (nd_parent_index d) as [p|] eqn:Ep.
  - destruct (nodes !! p) as [pn|] eqn:Hp; [|by apply lookup_ge_None in Hp; specialize (Hparent p eq_refl); lia].
    cbn [of_option res_bind]. rewrite draft_display_ok by done. cbn [res_bind].
    eexists. split; [reflexivity|]. split; try done. rewrite Ep. eauto.
  - cbn [res_bind]. rewrite draft_display_ok by done. cbn [res_bind].
    eexists. split; [reflexivity|]. split; try done. by rewrite Ep.
Qed.

Definition frozen (ds : list NodeDraft) (nodes : list StructureNode) : Prop :=
  length nodes = length ds /\
  forall i d n, ds !! i = Some d -> nodes !! i = Some n -> node_of nodes i d n.

Lemma frozen_snoc ds nodes d n :
  frozen ds nodes -> node_of nodes (length nodes) d n -> frozen (ds ++ [d]) (nodes ++ [n]).
Proof.
  intros [Hlen H] Hn. split; [rewrite !length_app; simpl; lia|]. intros i d' n' Hd' Hn'.
  apply node_of_app. apply lookup_app_Some in Hd' as [Hd'|[Hi Hd']].
  - apply lookup_app_Some in Hn' as [Hn'|[Hi' _]]; [by apply H|]. apply lookup_lt_Some in Hd'. lia.
  - apply lookup_app_Some in Hn' as [Hn'|[_ Hn']]; [apply lookup_lt_Some in Hn'; lia|].
    apply list_lookup_singleton_Some in Hd' as [Hi0 <-], Hn' as [_ <-]. by replace i with (length nodes) by lia.
Qed.

Lemma freeze_nodes_ok ds :
  Forall (fun d => Forall (span_in_page pages) (nd_spans d)) ds ->
  (forall i d p, ds !! i = Some d -> nd_parent_index d = Some p -> (p < i)%nat) ->
  exists nodes, freeze_nodes revision_id pages ds = Ok nodes /\ frozen ds nodes.
Proof.
  intros Hspans Hparent. unfold freeze_nodes.
  apply (foldM_invariant _ (fun done_ nodes => frozen done_ nodes)); [by split|].
  intros done_ d rest nodes -> Hf. destruct (freeze_node_ok nodes d) as (n & -> & Hn).
  - rewrite Forall_app, Forall_cons in Hspans. by destruct Hspans as (_ & ? & _).
  - intros p Hp. destruct Hf as [-> _]. eapply Hparent; [|done].
    rewrite lookup_app_r, Nat.sub_diag by done. done.
  - eexists. split; [done|]. by apply frozen_snoc.
Qed.

Lemma frozen_lookup ds nodes i d : frozen ds nodes -> ds !! i = Some d -> exists n, nodes !! i = Some n /\ node_of nodes i d n.
Proof.
  intros [Hlen H] Hd. destruct (nodes !! i) as [n|] eqn:Hn; [eauto|].
  apply lookup_ge_None in Hn. apply lookup_lt_Some in Hd. lia.
Qed.

Lemma frozen_lookup_node ds nodes i n : frozen ds nodes -> nodes !! i = Some n -> exists d, ds !! i = Some d /\ node_of nodes i d n.
Proof.
  intros [Hlen H] Hn. destruct (ds !! i) as [d|] eqn:Hd; [eauto|].
  apply lookup_ge_None in Hd. apply lookup_lt_Some in Hn. lia.
Qed.
End Freeze.

(** ** Node identities *)

(** The hash tells the byte strings of [l] apart. *)
Definition sha_separates (l : list (list N)) : Prop :=
  forall x y, x ∈ l -> y ∈ l -> sha256_bytes x = sha256_bytes y -> x = y.
Definition node_bytes (n : StructureNode) : list N := canonical_json_bytes (node_identity_payload n).

Lemma node_identity_keys n : NoDup (node_identity_members n).*1.
Proof. apply (bool_decide_unpack _). vm_compute. exact I. Qed.

Lemma node_bytes_ordinal n m : node_bytes n = node_bytes m -> sn_ordinal n = sn_ordinal m.
Proof.
  intros H. unfold node_bytes, node_identity_payload in H.
  apply (canonical_members _ _ (us "ordinal")) in H; [|apply node_identity_keys..].
  vm_compute in H. injection H as H. exact H.
Qed.

Lemma separated_ids revision pages ds nodes :
  frozen revision pages ds nodes -> sha_separates (map node_bytes nodes) -> NoDup (map sn_node_id nodes).
Proof.
  intros Hf Hsep. apply NoDup_alt. intros i j id Hi Hj. rewrite list_lookup_fmap in Hi, Hj.
  apply fmap_Some in Hi as (n & Hn & ->), Hj as (m & Hm & Heq).
  destruct (frozen_lookup_node _ _ _ _ i n Hf Hn) as (dn & _ & Hdn).
  destruct (frozen_lookup_node _ _ _ _ j m Hf Hm) as (dm & _ & Hdm).
  rewrite (no_id _ _ _ _ _ _ Hdn), (no_id _ _ _ _ _ _ Hdm) in Heq. unfold node_id in Heq. apply app_inv_head in Heq.
  assert (sn_ordinal n = sn_ordinal m) as Ho.
  { apply node_bytes_ordinal, Hsep; [..|exact Heq]; apply list_elem_of_fmap; eexists; (split; [done|]);
      by eapply list_elem_of_lookup_2. }
  rewrite (no_ordinal _ _ _ _ _ _ Hdn), (no_ordinal _ _ _ _ _ _ Hdm) in Ho. lia.
Qed.

Lemma find_node_unique nodes n :
  NoDup (map sn_node_id nodes) -> n ∈ nodes -> find_node nodes (sn_node_id n) = Some n.
Proof.
  unfold find_node. induction nodes as [|m nodes IH]; simpl; intros Hnd Hn; [by apply not_elem_of_nil in Hn|].
  apply NoDup_cons in Hnd as [Hm Hnd]. apply elem_of_cons in Hn as [->|Hn]; [by rewrite bool_decide_eq_true_2|].
  case_bool_decide as E; [|by apply IH]. destruct Hm. rewrite E. apply list_elem_of_fmap. eauto.
Qed.

(** ** Checked inputs *)
Lemma check_inputs_facts pages i k :
  check_inputs pages i = Ok k ->
  pages <> [] /\ positive_sorted_unique (map pr_page pages) = true /\ ck_pages k = map structure_page pages /\
  is_ok (issuer_code (in_issuer i)) = true /\
  require_context_metadata (in_product_name i) "product_name" = Ok tt /\
  require_context_metadata (in_source_version i) "source_version" = Ok tt /\
  require_canonical_effective_date (in_effective_date i) = Ok tt /\
  ip_issuer (ck_profile k) = in_issuer i /\
  make_product_lineage_id (in_issuer i) (in_product_code i) (in_document_type i) = Ok (ck_lineage_id k) /\
  make_contract_revision_id (ck_lineage_id k) (in_source_id i) (in_pdf_sha256 i) = Ok (ck_revision_id k).
Proof.
  unfold check_inputs. intros H. inv_res H. bsplit. cbn [ck_pages ck_profile ck_lineage_id ck_revision_id].
  repeat match goal with u : () |- _ => destruct u end.
  split; [done|]. split; [done|]. split; [done|]. split; [by match goal with H : issuer_code _ = Ok _ |- _ => rewrite H end|].
  repeat (split; [done|]). done.
Qed.

Lemma map_structure_page_numbers pages : map pg_page (map structure_page pages) = map pr_page pages.
Proof. rewrite map_map. done. Qed.

Lemma checked_metadata pages i k nodes links :
  check_inputs pages i = Ok k -> validate_metadata (make_artifact i k nodes links) = Ok tt.
Proof.
  intros (_ & _ & _ & Hi & Hn & Hv & Hd & Hp & Hl & Hr)%check_inputs_facts.
  unfold validate_metadata. cbn [make_artifact sa_schema_version sa_issuer sa_product_name sa_source_version
    sa_effective_date sa_issuer_profile sa_product_code sa_document_type sa_product_lineage_id sa_source_id
    sa_pdf_sha256 sa_contract_revision_id].
  destruct (issuer_code (in_issuer i)) as [c|]; [|discriminate Hi].
  rewrite Hn, Hv, Hd, Hp, Hl. cbn [res_bind as_structure_error]. rewrite Hr. cbn [res_bind].
  rewrite !bool_decide_eq_true_2 by reflexivity. reflexivity.
Qed.

Lemma checked_pages pages i k nodes links :
  check_inputs pages i = Ok k -> validate_pages (make_artifact i k nodes links) = Ok tt.
Proof.
  intros (Hne & Hsorted & Hk & _)%check_inputs_facts. unfold validate_pages. cbn [make_artifact sa_pages sa_source_sha256
    sa_source_coverage_sha256 sa_source_non_whitespace_characters]. rewrite Hk, map_structure_page_numbers.
  rewrite bool_decide_eq_false_2 by (by destruct pages). rewrite Hsorted. cbn [raise_if res_bind negb].
  assert (forM (fun p => raise_if (negb (bool_decide (sha256_bytes (utf8_encode (pg_text p)) = pg_text_sha256 p)))
            (sve "source page hash does not match its OCR text")) (map structure_page pages) = Ok tt) as ->.
  { apply forM_ok, Forall_forall. intros p (q & -> & _)%list_elem_of_fmap. by rewrite bool_decide_eq_true_2. }
  cbn [res_bind]. rewrite !bool_decide_eq_true_2, Z.eqb_refl by done. done.
Qed.

(** ** The lines of all pages *)
(** The lines of several pages, seen from one page. *)
Lemma pages_hits pages n o :
  NoDup (map pr_page pages) ->
  hits (map line_span (pages ≫= source_lines)) n o =
  match find_page (map structure_page pages) n with
  | Some p => if decide (0 <= o < zlen (pg_text p)) then 1%nat else 0%nat
  | None => 0%nat
  end.
Proof.
  induction pages as [|p pages IH]; cbn [map]; intros Hnd; [done|]. apply NoDup_cons in Hnd as [Hp Hnd].
  unfold find_page. cbn [find structure_page pg_page]. fold (find_page (map structure_page pages) n).
  rewrite bind_cons, map_app, hits_app, (tiles_hits _ _ _ _ n o (source_lines_tiles p)), IH by done.
  destruct (Z.eqb_spec (pr_page p) n) as [<-|Hne].
  - assert (find_page (map structure_page pages) (pr_page p) = None) as ->.
    { destruct (find_page _ _) as [q|] eqn:E; [|done]. exfalso. apply Hp.
      pose proof (find_page_number _ _ _ E) as Hq. apply find_page_elem in E.
      apply list_elem_of_fmap in E as (r & -> & Hr). apply list_elem_of_fmap. exists r. by rewrite <- Hq. }
    simpl. repeat case_decide; lia.
  - rewrite decide_False by (intros [? ?]; congruence). done.
Qed.

Lemma pages_filter_lines pages p :
  NoDup (map pr_page pages) -> p ∈ pages ->
  filter (fun s => sp_page s = pr_page p) (map line_span (pages ≫= source_lines)) = map line_span (source_lines p).
Proof.
  induction pages as [|q pages IH]; cbn [map]; intros Hnd Hp; [by apply not_elem_of_nil in Hp|].
  apply NoDup_cons in Hnd as [Hq Hnd]. rewrite bind_cons, map_app, filter_app.
  assert (forall r, Forall (fun s => sp_page s = pr_page r) (map line_span (source_lines r))) as Hall.
  { intros r. apply Forall_forall. intros s (l & -> & Hl)%list_elem_of_fmap.
    by destruct (tiles_lines _ _ _ _ _ (source_lines_tiles r) Hl). }
  assert (forall r, pr_page r <> pr_page p -> filter (fun s => sp_page s = pr_page p) (map line_span (source_lines r)) = []) as Hother.
  { intros r Hr. apply filter_none. eapply Forall_impl; [apply (Hall r)|]. intros s -> E. done. }
  apply elem_of_cons in Hp as [->|Hp].
  - rewrite filter_all by apply Hall.
    rewrite filter_none; [apply app_nil_r|]. apply Forall_forall. intros s (l & -> & Hl)%list_elem_of_fmap E.
    apply line_page in Hl as (r & Hr & _ & Hpage). apply Hq. cbn in E. rewrite <- E, Hpage. apply list_elem_of_fmap. eauto.
  - rewrite Hother; [by apply IH|]. intros E. apply Hq. rewrite E. apply list_elem_of_fmap. eauto.
Qed.

Lemma page_lines_sorted p :
  sorted_by (fun s t => sp_source_start s <=? sp_source_start t) (map line_span (source_lines p)) = map line_span (source_lines p).
Proof.
  apply sorted_by_id. generalize (source_lines_tiles p). generalize 0. generalize (source_lines p).
  intros ls a H. induction H as [|a b l ls Hp Hs Hlt He Ht IH]; simpl; constructor; [done|].
  apply Forall_forall. intros s (l' & -> & Hl')%list_elem_of_fmap.
  destruct (tiles_lines _ _ _ _ _ Ht Hl') as (_ & ? & _). cbn. apply Z.leb_le. lia.
Qed.

Lemma page_lines_text p :
  concat (map (fun s => slice (pr_text p) (sp_source_start s) (sp_source_end s)) (map line_span (source_lines p))) = pr_text p.
Proof.
  rewrite map_map. etransitivity; [|apply source_lines_text]. f_equal. apply map_ext_in.
  intros l Hl. apply source_line_slice, list_elem_of_In, Hl.
Qed.

Lemma line_span_text pages l :
  NoDup (map pr_page pages) -> l ∈ pages ≫= source_lines -> span_text (map structure_page pages) (line_span l) = sl_text l.
Proof.
  intros Hnd Hl. apply line_page in Hl as (p & Hp & Hl & Hpage). unfold span_text. cbn [line_span sp_page].
  rewrite Hpage, find_structure_page by done. by apply source_line_slice.
Qed.

Lemma concat_pages_text pages :
  NoDup (map pr_page pages) ->
  concat (map (span_text (map structure_page pages)) (map line_span (pages ≫= source_lines))) = concat (map pr_text pages).
Proof.
  intros Hnd. rewrite map_map.
  transitivity (concat (map sl_text (pages ≫= source_lines))).
  - f_equal. apply map_ext_in. intros l Hl. apply line_span_text; [done|by apply list_elem_of_In].
  - clear Hnd. induction pages as [|p pages IH]; [done|]. cbn [map concat].
    by rewrite bind_cons, map_app, concat_app, source_lines_text, IH.
Qed.

Lemma total_characters pages :
  fold_right (fun p acc => zlen (pg_text p) + acc) 0 (map structure_page pages) = zlen (concat (map pr_text pages)) /\
  count_non_whitespace (map structure_page pages) = zlen (non_whitespace (concat (map pr_text pages))).
Proof.
  unfold count_non_whitespace. induction pages as [|p pages [IH1 IH2]]; simpl; [done|].
  rewrite non_whitespace_app, !zlen_app, IH1, IH2. done.
Qed.

(** ** Completeness of the validator *)
Section Complete.
Context (records : list PageRecord) (i : structure_inputs) (k : checked_inputs).
Context (ds : list NodeDraft) (nodes : list StructureNode) (links : list NodeLink).
Hypothesis Hk : check_inputs records i = Ok k.
Hypothesis Hwf : drafts_wf (records ≫= source_lines) ds.
Hypothesis Hfrozen : frozen (ck_revision_id k) (ck_pages k) ds nodes.
Hypothesis Hids : NoDup (map sn_node_id nodes).
Hypothesis Hlinks : forall j l, links !! j = Some l ->
  ln_ordinal l = Z.of_nat j /\ exists f t, f ∈ nodes /\ t ∈ nodes /\
    ln_from_node_id l = sn_node_id f /\ ln_to_node_id l = sn_node_id t /\ f <> t.
Local Notation A := (make_artifact i k nodes links).

Lemma checked_sorted : StronglySorted Z.lt (map pr_page records).
Proof. apply check_inputs_facts in Hk as (_ & H & _). by apply positive_sorted_unique_spec in H as [? _]. Qed.

Lemma StronglySorted_lt_NoDup (l : list Z) : StronglySorted Z.lt l -> NoDup l.
Proof.
  induction 1 as [|n l Hs IH Hn]; constructor; [|done].
  intros Hin. rewrite Forall_forall in Hn. specialize (Hn n Hin). lia.
Qed.

Lemma checked_NoDup : NoDup (map pr_page records).
Proof. apply StronglySorted_lt_NoDup, checked_sorted. Qed.

Lemma checked_pages_eq : ck_pages k = map structure_page records.
Proof. by apply check_inputs_facts in Hk as (_ & _ & ? & _). Qed.

Lemma draft_spans_like d : d ∈ ds -> Forall (line_like (records ≫= source_lines)) (nd_spans d).
Proof.
  intros Hd. apply draft_shape_like. pose proof (dw_shape _ _ Hwf) as H. rewrite Forall_forall in H. auto.
Qed.

Lemma draft_spans_valid d :
  d ∈ ds -> Forall (fun s => validate_span (ck_pages k) s = Ok (span_text (ck_pages k) s) /\ span_in_page (ck_pages k) s)
              (nd_spans d).
Proof.
  intros Hd. rewrite checked_pages_eq. eapply Forall_impl; [by apply draft_spans_like|].
  intros s Hs. apply line_like_valid; [apply checked_NoDup|done].
Qed.

Lemma node_draft_lookup n : n ∈ nodes -> exists j d, nodes !! j = Some n /\ ds !! j = Some d /\
  node_of (ck_revision_id k) (ck_pages k) nodes j d n.
Proof.
  intros [j Hj]%list_elem_of_lookup. destruct (frozen_lookup_node _ _ _ _ _ _ Hfrozen Hj) as (d & Hd & Hn). eauto 6.
Qed.

Lemma node_same_id n m : n ∈ nodes -> m ∈ nodes -> sn_node_id n = sn_node_id m -> n = m.
Proof.
  intros Hn Hm E. pose proof (find_node_unique nodes n Hids Hn) as H1.
  pose proof (find_node_unique nodes m Hids Hm) as H2. rewrite E, H2 in H1. by injection H1.
Qed.

(** The parent of a frozen node, as the validator finds it. *)
Lemma frozen_parent j d n p :
  node_of (ck_revision_id k) (ck_pages k) nodes j d n -> ds !! j = Some d -> nd_parent_index d = Some p ->
  exists pn pd, sn_parent_id n = Some (sn_node_id pn) /\ find_node nodes (sn_node_id pn) = Some pn /\
    nodes !! p = Some pn /\ ds !! p = Some pd /\ node_of (ck_revision_id k) (ck_pages k) nodes p pd pn.
Proof.
  intros Hn Hd Hp. pose proof (no_parent _ _ _ _ _ _ Hn) as Hpar. rewrite Hp in Hpar.
  destruct Hpar as (pn & Hpn & Hid). destruct (frozen_lookup_node _ _ _ _ _ _ Hfrozen Hpn) as (pd & Hpd & Hof).
  exists pn, pd. split; [done|]. split; [|done]. apply find_node_unique; [done|]. by eapply list_elem_of_lookup_2.
Qed.

Lemma draft_root j d : ds !! j = Some d -> nd_node_type d = ROOT <-> j = 0%nat.
Proof.
  intros Hd. pose proof (dw_parent _ _ Hwf j d Hd) as H. unfold parent_shape in H.
  destruct (nd_parent_index d) as [p|]; [|by destruct H]. destruct H as (Hlt & Hne & _).
  split; [done|]. intros ->. lia.
Qed.

Lemma built_root : validate_root A = Ok tt.
Proof.
  assert (exists d, ds !! 0%nat = Some d) as [d Hd].
  { pose proof (dw_nonempty _ _ Hwf). destruct ds; [done|by eexists]. }
  destruct (frozen_lookup _ _ _ _ 0%nat d Hfrozen Hd) as (n & Hn & Hof).
  assert (exists nodes', nodes = n :: nodes') as [nodes' E] by (destruct nodes; simplify_eq/=; eauto).
  unfold validate_root. cbn [make_artifact sa_nodes].
  rewrite (bool_decide_eq_false_2 (map _ _ = [])) by (by rewrite E). rewrite (bool_decide_eq_true_2 _ Hids).
  cbn [negb raise_if res_bind].
  assert (nd_node_type d = ROOT) as Hroot by by apply (draft_root 0 d).
  assert (filter (fun m => sn_node_type m = ROOT) nodes' = []) as Hrest.
  { apply filter_none, Forall_lookup. intros j m Hm Ht.
    destruct (frozen_lookup_node _ _ _ _ (S j) m Hfrozen) as (dm & Hdm & Hofm); [by rewrite E|].
    rewrite (no_type _ _ _ _ _ _ Hofm) in Ht. by apply (draft_root (S j) dm Hdm) in Ht. }
  rewrite E. clear E.
  rewrite filter_cons_True by (rewrite (no_type _ _ _ _ _ _ Hof); done). rewrite Hrest.
  pose proof (dw_parent _ _ Hwf 0%nat d Hd) as Hpar. unfold parent_shape in Hpar.
  pose proof (no_parent _ _ _ _ _ _ Hof) as Hp. destruct (nd_parent_index d) as [p|]; [lia|].
  rewrite Hp, (no_ordinal _ _ _ _ _ _ Hof). done.
Qed.

Lemma built_parent j d n : nodes !! j = Some n -> ds !! j = Some d ->
  node_of (ck_revision_id k) (ck_pages k) nodes j d n -> validate_parent A n = Ok tt.
Proof.
  intros Hn Hd Hof. unfold validate_parent. cbn [make_artifact sa_nodes].
  pose proof (dw_parent _ _ Hwf j d Hd) as Hpar. unfold parent_shape in Hpar.
  rewrite (no_type _ _ _ _ _ _ Hof).
  destruct (nd_parent_index d) as [p|] eqn:Ep.
  - destruct Hpar as (Hlt & Hne & _). rewrite bool_decide_eq_false_2 by done.
    destruct (frozen_parent j d n p Hof Hd Ep) as (pn & pd & -> & Hfind & Hpn & Hpd & Hofp). rewrite Hfind.
    cbn [of_option res_bind].
    rewrite (no_revision _ _ _ _ _ _ Hof), (no_revision _ _ _ _ _ _ Hofp), bool_decide_eq_true_2 by done.
    cbn [negb raise_if res_bind].
    rewrite (no_ordinal _ _ _ _ _ _ Hof), (no_ordinal _ _ _ _ _ _ Hofp).
    by rewrite (proj2 (Z.leb_gt _ _)) by lia.
  - destruct Hpar as [_ ->]. by rewrite bool_decide_eq_true_2.
Qed.

Lemma built_spans j d n : nodes !! j = Some n -> ds !! j = Some d ->
  node_of (ck_revision_id k) (ck_pages k) nodes j d n -> validate_node_spans A n = Ok tt.
Proof.
  intros Hn Hd Hof. assert (d ∈ ds) as Hin by by eapply list_elem_of_lookup_2.
  pose proof (dw_shape _ _ Hwf) as Hshape. rewrite Forall_forall in Hshape. specialize (Hshape d Hin).
  unfold validate_node_spans. cbn [make_artifact sa_pages].
  rewrite (no_spans _ _ _ _ _ _ Hof), (no_type _ _ _ _ _ _ Hof), (no_display _ _ _ _ _ _ Hof).
  rewrite (bool_decide_eq_true_2 (map sp_span_ordinal _ = _)) by by eapply draft_shape_ordinals.
  cbn [negb raise_if res_bind].
  assert (map (fun s => (sp_page s, sp_source_start s, sp_source_end s)) (nd_spans d) =
          sorted_by triple_leb (map (fun s => (sp_page s, sp_source_start s, sp_source_end s)) (nd_spans d))) as Hsort.
  { symmetry. apply sorted_by_id. eapply draft_shape_keys; [|done]. apply lines_sorted, checked_sorted. }
  rewrite (bool_decide_eq_true_2 _ Hsort). cbn [negb raise_if res_bind].
  assert (mapM_res (validate_span (ck_pages k)) (nd_spans d) = Ok (map (span_text (ck_pages k)) (nd_spans d))) as ->.
  { apply mapM_res_ok, Forall2_fmap_r, Forall_Forall2_diag.
    eapply Forall_impl; [by apply draft_spans_valid|]. intros s [Hs _]. exact Hs. }
  cbn [res_bind]. rewrite bool_decide_eq_true_2 by done. cbn [negb raise_if res_bind].
  apply draft_shape_canonical in Hshape. apply orb_false_iff in Hshape as [-> ->]. done.
Qed.

Lemma built_table_fields j d n : nodes !! j = Some n -> ds !! j = Some d ->
  node_of (ck_revision_id k) (ck_pages k) nodes j d n ->
  validate_table_fields A n = raise_if (negb (row_shares_headers ds d)) lost_header.
Proof.
  intros Hn Hd Hof. assert (d ∈ ds) as Hin by by eapply list_elem_of_lookup_2.
  pose proof (dw_shape _ _ Hwf) as Hshape. rewrite Forall_forall in Hshape. specialize (Hshape d Hin).
  unfold validate_table_fields, row_shares_headers. unfold draft_shape, no_table_data in Hshape.
  pose proof (dw_parent _ _ Hwf j d Hd) as Hpar. unfold parent_shape in Hpar.
  rewrite (no_headers _ _ _ _ _ _ Hof), (no_cells _ _ _ _ _ _ Hof), (no_role _ _ _ _ _ _ Hof), (no_type _ _ _ _ _ _ Hof).
  destruct (nd_node_type d) eqn:Et; cbn [is_container_type] in Hshape; destruct Hshape as [_ Hs];
    try (rewrite bool_decide_eq_false_2 in Hs by done; destruct Hs as (-> & -> & ->); reflexivity).
  - destruct Hs as [-> ->]. reflexivity.
  - rewrite bool_decide_eq_true_2 in Hs by done. destruct Hs as [Hc Hr].
    destruct (nd_parent_index d) as [p|] eqn:Ep; [|by destruct Hpar].
    destruct Hpar as (_ & _ & t & Hty & Ht).
    destruct (frozen_parent j d n p Hof Hd Ep) as (pn & pd & -> & Hfind & Hpn & Hpd & Hofp).
    cbn [make_artifact sa_nodes]. rewrite Hfind. cbn [of_option res_bind]. rewrite Hpd.
    unfold type_at in Hty. rewrite Hpd in Hty. injection Hty as <-.
    rewrite (no_type _ _ _ _ _ _ Hofp), (no_headers _ _ _ _ _ _ Hofp).
    rewrite (bool_decide_eq_true_2 (nd_node_type pd = TABLE)) by by apply Ht.
    cbn [negb raise_if res_bind]. rewrite (bool_decide_eq_false_2 _ Hc), (bool_decide_eq_false_2 _ Hr).
    by case_bool_decide.
Qed.

Lemma built_node j d n : nodes !! j = Some n -> ds !! j = Some d ->
  validate_node A (Z.of_nat j, n) = raise_if (negb (row_shares_headers ds d)) lost_header.
Proof.
  intros Hn Hd. destruct (frozen_lookup_node _ _ _ _ _ _ Hfrozen Hn) as (d' & Hd' & Hof).
  rewrite Hd in Hd'. injection Hd' as <-.
  unfold validate_node. rewrite (no_ordinal _ _ _ _ _ _ Hof), Z.eqb_refl, (no_revision _ _ _ _ _ _ Hof).
  rewrite (bool_decide_eq_true_2 (ck_revision_id k = _)) by done. cbn [negb raise_if res_bind].
  rewrite (built_parent j d n), (built_spans j d n) by done. cbn [res_bind]. by apply (built_table_fields j d n).
Qed.

(** The loop over the nodes fails exactly on a row that lost its header. *)
Lemma built_nodes : forM (validate_node A) (enumerate nodes) = raise_if (negb (rows_share_headers ds)) lost_header.
Proof.
  apply forM_first.
  - intros [z n] Hin. apply list_elem_of_lookup in Hin as [j Hj]. rewrite enumerate_lookup in Hj.
    destruct (nodes !! j) as [n'|] eqn:Hn; [|done]. injection Hj as <- <-.
    destruct (frozen_lookup_node _ _ _ _ _ _ Hfrozen Hn) as (d & Hd & _). rewrite (built_node j d n') by done.
    destruct (row_shares_headers ds d); [by left|by right].
  - unfold rows_share_headers. rewrite forallb_Forall, enumerate_Forall, Forall_lookup. split.
    + intros H j n Hn. destruct (frozen_lookup_node _ _ _ _ _ _ Hfrozen Hn) as (d & Hd & _).
      rewrite (built_node j d n) by done. by rewrite (H j d Hd).
    + intros H j d Hd. destruct (frozen_lookup _ _ _ _ _ _ Hfrozen Hd) as (n & Hn & _).
      specialize (H j n Hn). rewrite (built_node j d n) in H by done. by destruct (row_shares_headers ds d).
Qed.

Lemma built_tables : validate_tables A = Ok tt.
Proof.
  unfold validate_tables. cbn [make_artifact sa_nodes]. apply forM_ok, Forall_forall.
  intros tn [Htt Htn]%list_elem_of_filter.
  destruct (node_draft_lookup tn Htn) as (t & td & Ht & Htd & Hoft).
  rewrite (no_type _ _ _ _ _ _ Hoft) in Htt.
  destruct (dw_tables _ _ Hwf t) as (j & r & Hr & Hrp & Hrt); [unfold type_at; rewrite Htd; cbn; by rewrite Htt|].
  destruct (frozen_lookup _ _ _ _ j r Hfrozen Hr) as (rn & Hrn & Hofr).
  destruct (frozen_parent j r rn t Hofr Hr Hrp) as (tn' & _ & Hid & _ & Htn' & _). rewrite Ht in Htn'. injection Htn' as <-.
  assert (rn ∈ children_of nodes (sn_node_id tn)) as Hrow.
  { apply list_elem_of_filter. rewrite (no_type _ _ _ _ _ _ Hofr), Hrt. split; [done|]. by eapply list_elem_of_lookup_2. }
  rewrite bool_decide_eq_false_2; [|by destruct (children_of nodes (sn_node_id tn)); [apply not_elem_of_nil in Hrow|]].
  cbn [orb]. replace (existsb _ _) with false; [done|]. symmetry. apply not_true_iff_false.
  intros (cn & Hc & Hnr)%existsb_elem. apply negb_true_iff, bool_decide_eq_false in Hnr. apply Hnr.
  apply list_elem_of_filter in Hc as [[_ Hcid] Hcn].
  destruct (node_draft_lookup cn Hcn) as (jc & cd & Hjc & Hcd & Hofc). rewrite (no_type _ _ _ _ _ _ Hofc).
  pose proof (dw_parent _ _ Hwf jc cd Hcd) as Hpar. unfold parent_shape in Hpar.
  pose proof (no_parent _ _ _ _ _ _ Hofc) as Hcp.
  destruct (nd_parent_index cd) as [p|] eqn:Ep; [|congruence].
  destruct (frozen_parent jc cd cn p Hofc Hcd Ep) as (pn & pd & Hid' & _ & Hpn & Hpd & Hofp).
  assert (pn = tn) as -> by (apply node_same_id; [by eapply list_elem_of_lookup_2|done|congruence]).
  destruct Hpar as (_ & _ & ty & Hty & Hiff). unfold type_at in Hty. rewrite Hpd in Hty. injection Hty as <-.
  apply Hiff. by rewrite <- (no_type _ _ _ _ _ _ Hofp), (no_type _ _ _ _ _ _ Hoft).
Qed.

Lemma built_links : Forall (fun el => validate_link A el = Ok tt) (enumerate links).
Proof.
  apply enumerate_Forall. intros j l Hl. destruct (Hlinks j l Hl) as (Ho & f & t & Hf & Ht & Hfid & Htid & Hne).
  unfold validate_link. rewrite Ho, Z.eqb_refl. cbn [make_artifact sa_nodes sa_contract_revision_id negb raise_if res_bind].
  rewrite Hfid, Htid, !find_node_unique by done. cbn [of_option res_bind].
  destruct (node_draft_lookup f Hf) as (? & ? & _ & _ & Hof), (node_draft_lookup t Ht) as (? & ? & _ & _ & Hot).
  rewrite (no_revision _ _ _ _ _ _ Hof), (no_revision _ _ _ _ _ _ Hot), bool_decide_eq_true_2 by done.
  cbn [negb orb raise_if res_bind]. rewrite bool_decide_eq_false_2; [done|].
  intros E. apply Hne. by apply node_same_id.
Qed.

Lemma built_identities : Forall (fun n => validate_node_identity n = Ok tt) nodes.
Proof.
  apply Forall_forall. intros n Hn. destruct (node_draft_lookup n Hn) as (? & ? & _ & _ & Hof).
  unfold validate_node_identity. rewrite bool_decide_eq_true_2; [done|]. exact (no_id _ _ _ _ _ _ Hof).
Qed.

Lemma built_leaf_spans : leaf_spans A = map line_span (records ≫= source_lines).
Proof.
  rewrite <- (dw_leaves _ _ Hwf). unfold leaf_spans. cbn [make_artifact sa_nodes].
  destruct Hfrozen as [Hlen H]. clear Hfrozen Hids Hlinks Hwf.
  assert (forall j d n, ds !! j = Some d -> nodes !! j = Some n -> sn_node_type n = nd_node_type d /\ sn_spans n = nd_spans d) as H'.
  { intros j d n Hd Hn. pose proof (H j d n Hd Hn) as []. by split. }
  clear H. revert ds Hlen H'. induction nodes as [|n nodes' IH]; intros [|d ds'] Hlen H'; try done.
  destruct (H' 0%nat d n eq_refl eq_refl) as [Ht Hs].
  specialize (IH ds' ltac:(simpl in Hlen; lia) (fun j => H' (S j))).
  rewrite !filter_cons. unfold leaf_draft at 1. rewrite Ht.
  repeat case_decide; try done. by rewrite !bind_cons, Hs, IH.
Qed.

Lemma built_page_coverage st p :
  cover_inv (ck_pages k) (leaf_spans A) st -> p ∈ records -> validate_page_coverage A st (structure_page p) = Ok tt.
Proof.
  intros Hinv Hp. rewrite built_leaf_spans, checked_pages_eq in Hinv. unfold validate_page_coverage.
  pose proof (find_structure_page records p checked_NoDup Hp) as Hfind.
  pose proof (ci_pages _ _ _ Hinv (pr_page p)) as Hlen. rewrite Hfind in Hlen. cbn [structure_page pg_page].
  destruct (cs_coverage st !! pr_page p) as [marks|] eqn:Hm; [|done]. cbn in Hlen. injection Hlen as Hlen.
  cbn [of_option res_bind].
  assert (existsb negb marks = false) as ->.
  { apply not_true_iff_false. intros (b & [o Hb]%list_elem_of_lookup & Hneg)%existsb_elem. destruct b; [done|].
    pose proof (ci_hits _ _ _ Hinv _ _ _ _ Hm Hb) as Hh. rewrite pages_hits, Hfind in Hh by apply checked_NoDup.
    rewrite decide_True in Hh; [done|]. apply lookup_lt_Some in Hb. cbn. unfold zlen. lia. }
  cbn [raise_if res_bind structure_page pg_text]. rewrite built_leaf_spans, pages_filter_lines by (done || apply checked_NoDup).
  rewrite page_lines_sorted, page_lines_text, bool_decide_eq_true_2; done.
Qed.

Lemma built_coverage : exists st, validate_coverage A = Ok st /\
  cs_covered_characters st = zlen (concat (map pr_text records)) /\
  cs_covered_non_whitespace st = zlen (non_whitespace (concat (map pr_text records))).
Proof.
  unfold validate_coverage. cbn [make_artifact sa_pages sa_nodes].
  assert (Forall (span_in_page (ck_pages k)) (leaf_spans A)) as Hin.
  { rewrite built_leaf_spans, checked_pages_eq. apply Forall_forall. intros s (l & -> & Hl)%list_elem_of_fmap.
    apply line_like_valid; [apply checked_NoDup|by apply line_span_like]. }
  assert (Forall (fun n => is_leaf_type (sn_node_type n) = true -> sn_spans n <> []) nodes) as Hne.
  { apply Forall_forall. intros n Hn Hleaf. destruct (node_draft_lookup n Hn) as (j & d & _ & Hd & Hof).
    rewrite (no_type _ _ _ _ _ _ Hof) in Hleaf. rewrite (no_spans _ _ _ _ _ _ Hof).
    pose proof (dw_shape _ _ Hwf) as Hs. rewrite Forall_forall in Hs.
    specialize (Hs d ltac:(by eapply list_elem_of_lookup_2)). unfold draft_shape in Hs.
    rewrite container_or_leaf, Hleaf in Hs. by destruct Hs as [(l & _ & ->) _]. }
  rewrite cover_nodes_spans by done. change (filter _ nodes ≫= sn_spans) with (leaf_spans A).
  assert (NoDup (map pg_page (ck_pages k))) as Hnd.
  { rewrite checked_pages_eq, map_structure_page_numbers. apply checked_NoDup. }
  destruct (cover_spans_ok (ck_pages k) (leaf_spans A) [] (initial_coverage (ck_pages k)) Hin) as [Hsound Hcomplete];
    [by apply initial_coverage_inv|].
  destruct Hcomplete as [st Hst].
  { intros n o. cbn [app]. rewrite built_leaf_spans, pages_hits by apply checked_NoDup.
    destruct (find_page _ _); [case_decide|]; lia. }
  rewrite Hst. cbn [res_bind]. apply Hsound in Hst. cbn [app] in Hst.
  assert (forM (validate_page_coverage A st) (ck_pages k) = Ok tt) as ->.
  { apply forM_ok. rewrite checked_pages_eq. apply Forall_forall. intros q (p & -> & Hp)%list_elem_of_fmap.
    by apply built_page_coverage. }
  cbn [res_bind]. pose proof (ci_nonws _ _ _ Hst) as Hw. pose proof (ci_chars _ _ _ Hst) as Hc.
  rewrite built_leaf_spans, checked_pages_eq, concat_pages_text in Hw, Hc by apply checked_NoDup.
  rewrite Hw, checked_pages_eq, (proj2 (total_characters records)), Z.eqb_refl. cbn [negb raise_if res_bind]. eauto.
Qed.

(** The coverage of a built artifact: everything. *)
Definition full_coverage : StructureCoverage :=
  {| cv_source_characters := zlen (concat (map pr_text records));
     cv_covered_characters := zlen (concat (map pr_text records));
     cv_source_non_whitespace_characters := zlen (non_whitespace (concat (map pr_text records)));
     cv_covered_non_whitespace_characters := zlen (non_whitespace (concat (map pr_text records)));
     cv_source_sha256 := source_digest (ck_pages k);
     cv_coverage_sha256 := coverage_digest (ck_pages k) |}.

(** The outcome of the validator on a built artifact. *)
Lemma validate_built :
  validate_structure_artifact A = if rows_share_headers ds then Ok full_coverage else Err lost_header.
Proof.
  unfold validate_structure_artifact.
  rewrite (checked_metadata _ _ _ _ _ Hk), (checked_pages _ _ _ _ _ Hk), built_root. cbn [res_bind].
  cbn [make_artifact sa_nodes sa_links sa_pages sa_source_sha256 sa_source_coverage_sha256]. rewrite built_nodes.
  destruct (rows_share_headers ds); cbn [negb raise_if res_bind]; [|done].
  rewrite built_tables. cbn [res_bind]. rewrite (proj2 (forM_ok _ _) built_links). cbn [res_bind].
  destruct built_coverage as (st & -> & Hc & Hw). cbn [res_bind].
  rewrite (proj2 (forM_ok _ _) built_identities). cbn [res_bind].
  rewrite Hc, Hw. unfold full_coverage.
  by rewrite checked_pages_eq, (proj1 (total_characters records)), (proj2 (total_characters records)).
Qed.
End Complete.
