(* ===== verification/StructureInvariant.v ===== *)
(** The parser's state machine keeps its drafts well formed.

    [parse_inv all seen pending st] is the invariant of the loop of
    [parse_structure_artifact]: the leaves are the lines [seen] so far, container
    spans quote lines of [all], and every table has a row except the one
    ([pending]) that has just been opened.  Each function of the loop body keeps
    it, and none of the subscriptions raises. *)
From S2P Require Export StructureBuild.

Definition at_type (ds : list NodeDraft) (t : NodeType) (o : option nat) : Prop :=
  forall i, o = Some i -> type_at ds i = Some t.
Definition in_range (ds : list NodeDraft) (o : option nat) : Prop :=
  forall i, o = Some i -> (i < length ds)%nat.

(** The variables of the loop point at drafts of the right type. *)
Record cursor_ok (ds : list NodeDraft) (c : cursor) : Prop := {
  co_major : at_type ds MAJOR_SECTION (current_major c);
  co_item : at_type ds ITEM (current_item c);
  co_previous : in_range ds (previous_page_last_semantic c);
  co_previous_table : at_type ds TABLE (previous_page_last_table c);
  co_reference : in_range ds (previous_reference_leaf c);
  co_benefits : Forall (fun i => (i < length ds)%nat) (benefit_item_indices c);
  co_last : in_range ds (page_last_semantic c);
  co_last_table : at_type ds TABLE (page_last_table c);
  co_table : at_type ds TABLE (current_table c);
}.

Record parse_inv (all seen : list SourceLine) (pending : option nat) (st : pstate) : Prop := {
  pi_nonempty : drafts st.1 <> [];
  pi_shape : Forall (draft_shape all) (drafts st.1);
  pi_parent : forall i d, drafts st.1 !! i = Some d -> parent_shape (drafts st.1) i d;
  pi_leaves : filter leaf_draft (drafts st.1) ≫= nd_spans = map line_span seen;
  pi_tables : forall t, type_at (drafts st.1) t = Some TABLE -> Some t <> pending ->
    exists j r, drafts st.1 !! j = Some r /\ nd_parent_index r = Some t /\ nd_node_type r = TABLE_ROW;
  pi_links : Forall (link_ok (length (drafts st.1))) (link_drafts st.1);
  pi_leaf_indices : StronglySorted lt (leaf_indices st.1);
  pi_leaf_range : Forall (fun i => (i < length (drafts st.1))%nat) (leaf_indices st.1);
  pi_cursor : cursor_ok (drafts st.1) st.2;
}.

(** ** Types and positions of drafts *)
Lemma type_at_lookup ds i t : type_at ds i = Some t <-> exists d, ds !! i = Some d /\ nd_node_type d = t.
Proof. unfold type_at. rewrite fmap_Some. split; intros (d & ? & ?); eauto. Qed.

Lemma type_at_lt ds i t : type_at ds i = Some t -> (i < length ds)%nat.
Proof. intros (d & Hd & _)%type_at_lookup. by apply lookup_lt_Some in Hd. Qed.

Lemma type_at_app ds ds' i t : type_at ds i = Some t -> type_at (ds ++ ds') i = Some t.
Proof. rewrite !type_at_lookup. intros (d & Hd & Ht). exists d. split; [by apply lookup_app_l_Some|done]. Qed.

Lemma type_at_new ds d : type_at (ds ++ [d]) (length ds) = Some (nd_node_type d).
Proof. apply type_at_lookup. exists d. by rewrite lookup_app_r, Nat.sub_diag. Qed.

Lemma type_at_snoc_inv ds d i t :
  type_at (ds ++ [d]) i = Some t -> type_at ds i = Some t \/ (i = length ds /\ nd_node_type d = t).
Proof.
  rewrite !type_at_lookup. intros (d' & Hd & Ht). apply lookup_app_Some in Hd as [Hd|[Hi Hd]]; [by eauto|].
  apply list_lookup_singleton_Some in Hd as [Hi0 <-]. right. split; [lia|done].
Qed.

Lemma type_at_insert ds t d d' i :
  ds !! t = Some d -> nd_node_type d' = nd_node_type d -> type_at (<[t:=d']> ds) i = type_at ds i.
Proof.
  intros Hd Ht. unfold type_at. destruct (decide (i = t)) as [->|Hne].
  - rewrite list_lookup_insert_eq by by apply lookup_lt_Some in Hd. rewrite Hd. cbn. by rewrite Ht.
  - by rewrite list_lookup_insert_ne.
Qed.

Lemma cursor_ok_mono ds ds' c :
  (forall i t, type_at ds i = Some t -> type_at ds' i = Some t) -> (length ds <= length ds')%nat ->
  cursor_ok ds c -> cursor_ok ds' c.
Proof.
  intros Ht Hl []. split; try (intros i Hi; by eauto using Nat.lt_le_trans).
  eapply Forall_impl; [done|]. simpl. lia.
Qed.

Lemma link_ok_mono n m ls : (n <= m)%nat -> Forall (link_ok n) ls -> Forall (link_ok m) ls.
Proof. intros H Hf. eapply Forall_impl; [exact Hf|]. unfold link_ok. simpl. lia. Qed.

Lemma draft_shape_app lines nl d : draft_shape lines d -> draft_shape (lines ++ nl) d.
Proof.
  unfold draft_shape. destruct (is_container_type _); intros [(x & Hx & ?) ?]; (split; [|done]); exists x; (split; [|done]).
  - by apply sublist_inserts_r.
  - apply elem_of_app. by left.
Qed.

(** ** The operations of the builder *)
Section Operations.
Context (all seen : list SourceLine) (pending : option nat) (b : builder) (c : cursor).
Hypothesis Hinv : parse_inv all seen pending (b, c).

Lemma inv_cursor c' : cursor_ok (drafts b) c' -> parse_inv all seen pending (b, c').
Proof. destruct Hinv. by split. Qed.

Lemma inv_links ls : Forall (link_ok (length (drafts b))) ls -> parse_inv all seen pending (add_links ls b, c).
Proof. destruct Hinv. split; try done. cbn. by apply Forall_app. Qed.

Lemma inv_line line : parse_inv (all ++ [line]) seen pending (b, c).
Proof.
  destruct Hinv. split; try done. eapply Forall_impl; [done|]. intros d. apply draft_shape_app.
Qed.

(** Appending a draft: [nl] are the lines it is the leaf of, and [p'] the table
    that is left without a row. *)
Lemma inv_add d nl p' :
  draft_shape all d -> parent_shape (drafts b) (length (drafts b)) d ->
  (if is_leaf_type (nd_node_type d) then nd_spans d = map line_span nl else nl = []) ->
  (forall t, type_at (drafts b ++ [d]) t = Some TABLE -> Some t <> p' ->
     (t < length (drafts b))%nat /\ (Some t <> pending \/ (nd_parent_index d = Some t /\ nd_node_type d = TABLE_ROW))) ->
  parse_inv all (seen ++ nl) p' ((add_node d b).1, c).
Proof.
  intros Hshape Hpar Hleaf Hpend. destruct Hinv. cbn [fst snd] in *.
  assert (forall i dd, parent_shape (drafts b) i dd -> parent_shape (drafts b ++ [d]) i dd) as Hmono.
  { intros i dd. unfold parent_shape. destruct (nd_parent_index dd); [|done].
    intros (? & ? & t & ? & ?). split; [done|]. split; [done|]. exists t. split; [by apply type_at_app|done]. }
  split; cbn [add_node fst snd drafts link_drafts leaf_indices].
  - by destruct (drafts b).
  - apply Forall_app. by repeat constructor.
  - intros i dd Hi. apply Hmono. apply lookup_app_Some in Hi as [Hi|[Hi Hi']]; [by apply pi_parent0|].
    apply list_lookup_singleton_Some in Hi' as [Hi0 <-]. by replace i with (length (drafts b)) by lia.
  - rewrite filter_app, bind_app, pi_leaves0, map_app. f_equal. rewrite filter_cons, filter_nil.
    case_decide as Hl; unfold leaf_draft in Hl.
    + rewrite Hl in Hleaf. by rewrite bind_cons, app_nil_r.
    + apply not_true_is_false in Hl. rewrite Hl in Hleaf. by rewrite Hleaf.
  - intros t Ht Hne. destruct (Hpend t Ht Hne) as [Hlt [Hnp|[Hp Hr]]].
    + destruct (pi_tables0 t) as (j & r & Hj & Hr); [|done|].
      * apply type_at_snoc_inv in Ht as [Ht|[-> _]]; [done|lia].
      * exists j, r. split; [by apply lookup_app_l_Some|done].
    + exists (length (drafts b)), d. by rewrite lookup_app_r, Nat.sub_diag.
  - rewrite length_app. eapply link_ok_mono; [|done]. lia.
  - destruct (is_leaf_type _); [|done]. apply StronglySorted_app_2; [done|by repeat constructor|].
    intros x y Hx ->%list_elem_of_singleton. rewrite Forall_forall in pi_leaf_range0. auto.
  - rewrite length_app. cbn [length]. assert (Forall (fun i => (i < length (drafts b) + 1)%nat) (leaf_indices b)).
    { eapply Forall_impl; [done|]. simpl. lia. }
    destruct (is_leaf_type _); [|done]. apply Forall_app. split; [done|]. repeat constructor. lia.
  - eapply cursor_ok_mono; [|..|done]; [intros; by apply type_at_app|]. rewrite length_app. lia.
Qed.

(** Replacing a container draft by one of the same type and parent. *)
Lemma inv_set t d d' :
  drafts b !! t = Some d -> nd_node_type d' = nd_node_type d -> nd_parent_index d' = nd_parent_index d ->
  is_leaf_type (nd_node_type d) = false -> draft_shape all d' ->
  parse_inv all seen pending (set_draft t d' b, c).
Proof.
  intros Hd Hty Hpar Hleaf Hshape. destruct Hinv. cbn [fst snd] in *.
  assert (forall i, type_at (<[t:=d']> (drafts b)) i = type_at (drafts b) i) as Htype by (intros; by eapply type_at_insert).
  assert ((t < length (drafts b))%nat) as Hlt by by apply lookup_lt_Some in Hd.
  split; cbn [set_draft fst snd drafts link_drafts leaf_indices]; rewrite ?length_insert.
  - intros E. apply (f_equal length) in E. rewrite length_insert in E. by destruct (drafts b).
  - by apply Forall_insert.
  - intros i dd Hi. assert (exists d0, drafts b !! i = Some d0 /\ nd_node_type dd = nd_node_type d0 /\
                              nd_parent_index dd = nd_parent_index d0) as (d0 & Hd0 & E1 & E2).
    { destruct (decide (i = t)) as [->|Hne].
      - rewrite list_lookup_insert_eq in Hi by done. injection Hi as <-. eauto.
      - rewrite list_lookup_insert_ne in Hi by done. eauto. }
    pose proof (pi_parent0 i d0 Hd0) as H. unfold parent_shape in *. rewrite E1, E2.
    destruct (nd_parent_index d0); [|done]. by rewrite Htype.
  - rewrite <- pi_leaves0. rewrite <- (take_drop_middle (drafts b) t d Hd) at 2.
    rewrite insert_take_drop by done. rewrite !filter_app.
    rewrite !filter_cons_False by (unfold leaf_draft; congruence). done.
  - intros i Hi Hne. rewrite Htype in Hi. destruct (pi_tables0 i Hi Hne) as (j & r & Hj & Hp & Hr).
    destruct (decide (j = t)) as [->|Hjt].
    + rewrite Hd in Hj. injection Hj as <-. by rewrite Hr in Hleaf.
    + exists j, r. by rewrite list_lookup_insert_ne.
  - done.
  - done.
  - done.
  - eapply cursor_ok_mono; [|..|done]; [|by rewrite length_insert]. intros i ty. by rewrite Htype.
Qed.
End Operations.

(** ** Cursor updates *)
Lemma at_type_none ds t : at_type ds t None.
Proof. by intros i. Qed.
Lemma in_range_none ds : in_range ds None.
Proof. by intros i. Qed.
Lemma at_type_some ds t i : type_at ds i = Some t -> at_type ds t (Some i).
Proof. by intros H j [= <-]. Qed.
Lemma in_range_some ds i : (i < length ds)%nat -> in_range ds (Some i).
Proof. by intros H j [= <-]. Qed.
Lemma at_type_range ds t o : at_type ds t o -> in_range ds o.
Proof. intros H i Hi. eapply type_at_lt. eauto. Qed.
#[export] Hint Resolve at_type_none in_range_none at_type_some in_range_some type_at_lt : structure.

Lemma cursor_set_table ds c t : cursor_ok ds c -> at_type ds TABLE t -> cursor_ok ds (set_current_table t c).
Proof. by intros []; split. Qed.
Lemma cursor_set_position ds c m i bs :
  cursor_ok ds c -> at_type ds MAJOR_SECTION m -> at_type ds ITEM i -> Forall (fun x => (x < length ds)%nat) bs ->
  cursor_ok ds (set_position m i bs c).
Proof. by intros []; split. Qed.
Lemma cursor_set_page_last ds c leaf table reference :
  cursor_ok ds c -> (leaf < length ds)%nat -> at_type ds TABLE table -> in_range ds reference ->
  cursor_ok ds (set_page_last leaf table reference c).
Proof. intros []; split; cbn; auto with structure. Qed.
Lemma cursor_begin_page ds c : cursor_ok ds c -> cursor_ok ds (begin_page c).
Proof. intros []; split; cbn; auto with structure. Qed.
Lemma cursor_end_page ds c : cursor_ok ds c -> cursor_ok ds (end_page c).
Proof.
  intros H. unfold end_page. destruct (page_last_semantic c) eqn:E; [|done]. destruct H. split; cbn; auto with structure.
  all: by rewrite <- E.
Qed.
#[export] Hint Resolve cursor_set_table cursor_set_position cursor_set_page_last cursor_begin_page cursor_end_page : structure.

(** ** Appending without tables *)
Section Adding.
Context (all seen : list SourceLine) (b : builder) (c : cursor).
Hypothesis Hinv : parse_inv all seen None (b, c).

Lemma root_type : type_at (drafts b) 0 = Some ROOT.
Proof.
  destruct Hinv. cbn [fst] in *. destruct (drafts b) as [|d ds] eqn:E; [done|].
  pose proof (pi_parent0 0%nat d eq_refl) as H. unfold parent_shape in H.
  destruct (nd_parent_index d); [lia|]. destruct H as [_ H]. unfold type_at. cbn. by rewrite H.
Qed.

(** A draft under a parent that is not a table. *)
Lemma under_parent ds p pt t m h spans :
  type_at ds p = Some pt -> pt <> TABLE -> t <> ROOT -> t <> TABLE_ROW ->
  parent_shape ds (length ds) (node_draft (Some p) t m h spans).
Proof.
  intros Hp Hpt Hroot Hrow. unfold parent_shape. cbn. split; [by eapply type_at_lt|]. split; [done|].
  exists pt. split; [done|]. split; by intros.
Qed.

Lemma inv_leaf line p pt t m h :
  line ∈ all -> type_at (drafts b) p = Some pt -> pt <> TABLE -> is_leaf_type t = true -> t <> TABLE_ROW ->
  parse_inv all (seen ++ [line]) None ((add_node (node_draft (Some p) t m h [line_span line]) b).1, c).
Proof.
  intros Hline Hp Hpt Hleaf Hrow. eapply inv_add; [exact Hinv|..].
  - unfold draft_shape. cbn [node_draft nd_node_type nd_spans]. rewrite container_or_leaf, Hleaf. cbn [negb]. rewrite bool_decide_eq_false_2 by done.
    split; [by eauto|by repeat split].
  - eapply under_parent; try done. by intros ->.
  - cbn. by rewrite Hleaf.
  - intros i Hi _. apply type_at_snoc_inv in Hi as [Hi|[_ Hi]]; [split; [by eapply type_at_lt|by left]|].
    cbn in Hi. by rewrite Hi in Hleaf.
Qed.

Lemma inv_container p pt t m h ls :
  sublist ls all -> type_at (drafts b) p = Some pt -> pt <> TABLE -> t = MAJOR_SECTION \/ t = ITEM ->
  parse_inv all seen None ((add_node (node_draft (Some p) t m h (container_spans ls)) b).1, c).
Proof.
  intros Hls Hp Hpt Ht. rewrite <- (app_nil_r seen). eapply inv_add; [exact Hinv|..].
  - unfold draft_shape. destruct Ht as [->| ->]; (split; [by exists ls|by repeat split]).
  - eapply under_parent; try done; by destruct Ht as [->| ->].
  - by destruct Ht as [->| ->].
  - intros i Hi _. apply type_at_snoc_inv in Hi as [Hi|[_ Hi]]; [split; [by eapply type_at_lt|by left]|].
    cbn in Hi. by destruct Ht as [->| ->].
Qed.

Lemma major_or_root_type : exists t, type_at (drafts b) (major_or_root c) = Some t /\ t <> TABLE.
Proof.
  unfold major_or_root. destruct (current_major c) as [m|] eqn:E.
  - exists MAJOR_SECTION. split; [|done]. by apply (co_major _ _ (pi_cursor _ _ _ _ Hinv)).
  - exists ROOT. split; [apply root_type|done].
Qed.

Lemma get_draft_ok i t : type_at (drafts b) i = Some t -> exists d, get_draft b i = Ok d /\ drafts b !! i = Some d /\ nd_node_type d = t.
Proof. intros (d & Hd & Ht)%type_at_lookup. exists d. unfold get_draft. by rewrite Hd. Qed.

Lemma get_draft_range i : (i < length (drafts b))%nat -> exists d, get_draft b i = Ok d.
Proof. intros [d Hd]%lookup_lt_is_Some. exists d. unfold get_draft. by rewrite Hd. Qed.
End Adding.

(** ** The steps *)
Lemma ensure_item_ok all seen st :
  parse_inv all seen None st ->
  exists st' i, ensure_item st = Ok (st', i) /\ parse_inv all seen None st' /\ type_at (drafts st'.1) i = Some ITEM /\
    page_first_semantic st'.2 = page_first_semantic st.2 /\ current_table st'.2 = current_table st.2.
Proof.
  destruct st as [b c]. intros H. unfold ensure_item. destruct (current_item c) as [i|] eqn:E.
  - eexists _, _. split; [done|]. split; [done|]. split; [|done]. by apply (co_item _ _ (pi_cursor _ _ _ _ H)).
  - destruct (major_or_root_type all seen b c H) as (pt & Hpt & Hne).
    destruct (get_draft_ok b _ _ Hpt) as (p & -> & Hp & _). cbn [res_bind].
    pose proof (inv_container all seen b c H _ pt ITEM (nd_major_class p) None [] (sublist_nil_l _) Hpt Hne (or_intror eq_refl)) as H1.
    change (container_spans []) with (@nil NodeSpan) in H1.
    set (d := node_draft _ _ _ _ _) in *. set (b1 := (add_node d b).1) in *.
    assert (type_at (drafts b1) (length (drafts b)) = Some ITEM) as Hnew by apply (type_at_new (drafts b) d).
    change (add_node d b) with (b1, length (drafts b)). cbn [res_bind].
    destruct (get_draft_ok b1 _ _ Hnew) as (d' & -> & _). cbn [res_bind].
    eexists _, _. split; [done|]. split; [|done].
    pose proof (pi_cursor _ _ _ _ H1) as Hc. eapply inv_cursor; [done|]. destruct Hc.
    apply cursor_set_position; auto with structure; [by split|].
    destruct (is_benefit _); [|done]. apply Forall_app. split; [done|]. repeat constructor. by eapply type_at_lt.
Qed.

Lemma step_boilerplate_ok seen line st :
  parse_inv seen seen None st ->
  exists st', step_boilerplate line st = Ok st' /\ parse_inv (seen ++ [line]) (seen ++ [line]) None st'.
Proof.
  destruct st as [b c]. intros H. eexists. split; [reflexivity|].
  assert (line ∈ seen ++ [line]) as Hin by (apply elem_of_app; right; by left).
  apply inv_line with (line := line) in H.
  pose proof (inv_leaf _ _ _ _ H line 0%nat ROOT BOILERPLATE UNKNOWN None Hin (root_type _ _ _ _ H)
                ltac:(done) eq_refl ltac:(done)) as H1.
  eapply inv_cursor; [exact H1|]. apply pi_cursor in H1. auto with structure.
Qed.

Lemma step_blank_ok seen line st :
  parse_inv seen seen None st ->
  exists st', step_blank line st = Ok st' /\ parse_inv (seen ++ [line]) (seen ++ [line]) None st'.
Proof.
  destruct st as [b c]. intros H. unfold step_blank.
  assert (line ∈ seen ++ [line]) as Hin by (apply elem_of_app; right; by left).
  apply inv_line with (line := line) in H.
  assert (exists t, type_at (drafts b) (match current_item c with Some i => i | None => major_or_root c end) = Some t /\ t <> TABLE)
    as (t & Ht & Hne).
  { destruct (current_item c) as [i|] eqn:E; [|by eapply major_or_root_type].
    exists ITEM. split; [|done]. by apply (co_item _ _ (pi_cursor _ _ _ _ H)). }
  destruct (get_draft_ok b _ _ Ht) as (p & -> & _). cbn [res_bind]. eexists. split; [reflexivity|].
  pose proof (inv_leaf _ _ _ _ H line _ t UNCLASSIFIED (nd_major_class p) None Hin Ht Hne eq_refl ltac:(done)) as H1.
  eapply inv_cursor; [exact H1|]. apply pi_cursor in H1. auto with structure.
Qed.

(** ** Text lines *)

(** Where the leaf of a text line goes. *)
Definition leaf_place (b : builder) (where_ : nat * NodeType * MajorClass) : Prop :=
  let '(parent, t, _) := where_ in
  is_leaf_type t = true /\ t <> TABLE_ROW /\ exists pt, type_at (drafts b) parent = Some pt /\ pt <> TABLE.

Lemma heading_span line : [span_with_ordinal (line_span line) 0 (Some false)] = container_spans [line].
Proof. reflexivity. Qed.

Lemma step_major_ok seen line m b c :
  parse_inv (seen ++ [line]) seen None (b, c) ->
  exists st' w, step_major line m (b, c) = Ok (st', w) /\ parse_inv (seen ++ [line]) seen None st' /\ leaf_place st'.1 w.
Proof.
  intros H. unfold step_major. rewrite heading_span.
  pose proof (inv_container _ _ _ _ H 0%nat ROOT MAJOR_SECTION m (Some (visible line)) [line]
                (sublist_inserts_l seen _ _ (reflexivity _)) (root_type _ _ _ _ H) ltac:(done) (or_introl eq_refl)) as H1.
  set (d := node_draft _ _ _ _ _) in *. change (add_node d b) with ((add_node d b).1, length (drafts b)).
  set (b1 := (add_node d b).1) in *. cbv zeta iota.
  assert (type_at (drafts b1) (length (drafts b)) = Some MAJOR_SECTION) as Hnew by apply (type_at_new (drafts b) d).
  pose proof (co_benefits _ _ (pi_cursor _ _ _ _ H)) as Hben.
  set (c' := set_position _ _ _ _).
  assert (parse_inv (seen ++ [line]) seen None (b1, c')) as H2.
  { eapply inv_cursor; [exact H1|]. apply pi_cursor in H1. cbn [fst snd] in *. unfold c'. pose proof H1 as []. auto with structure. }
  eexists _, _. split; [reflexivity|]. split.
  - destruct (is_notice m); [|done]. apply inv_links; [done|].
    apply Forall_forall. intros l (i & -> & Hi)%list_elem_of_fmap.
    rewrite Forall_forall in Hben. specialize (Hben i Hi). apply type_at_lt in Hnew. unfold link_ok. cbn in *. lia.
  - split; [done|]. split; [done|]. exists MAJOR_SECTION. by destruct (is_notice m).
Qed.

Lemma step_item_ok profile seen line b c :
  parse_inv (seen ++ [line]) seen None (b, c) ->
  exists st' w, step_item profile line (b, c) = Ok (st', w) /\ parse_inv (seen ++ [line]) seen None st' /\ leaf_place st'.1 w.
Proof.
  intros H. unfold step_item. rewrite heading_span.
  destruct (major_or_root_type _ _ b c H) as (pt & Hpt & Hne).
  destruct (get_draft_ok b _ _ Hpt) as (p & -> & _). cbn [res_bind].
  set (m := inherited_class _ _ _).
  pose proof (inv_container _ _ _ _ H _ pt ITEM m (Some (visible line)) [line]
                (sublist_inserts_l seen _ _ (reflexivity _)) Hpt Hne (or_intror eq_refl)) as H1.
  set (d := node_draft _ _ _ _ _) in *. change (add_node d b) with ((add_node d b).1, length (drafts b)).
  set (b1 := (add_node d b).1) in *. cbv zeta iota.
  assert (type_at (drafts b1) (length (drafts b)) = Some ITEM) as Hnew by apply (type_at_new (drafts b) d).
  pose proof (co_benefits _ _ (pi_cursor _ _ _ _ H)) as Hben. pose proof (type_at_lt _ _ _ Hnew) as Hlt.
  set (b2 := match last _ with Some _ => _ | None => _ end).
  assert (parse_inv (seen ++ [line]) seen None (b2, c) /\ drafts b2 = drafts b1) as [H2 Hd].
  { unfold b2. destruct (last (benefit_item_indices c)) as [i|] eqn:E; [|done]. destruct (_ && _); [|done].
    split; [|done]. apply inv_links; [done|]. constructor; [|done].
    rewrite Forall_forall in Hben. apply last_Some_elem_of in E. specialize (Hben i E). cbn [fst] in Hben.
    unfold link_ok. cbn [mklink ld_from_index ld_to_index]. lia. }
  eexists _, _. split; [reflexivity|]. split.
  - eapply inv_cursor; [exact H2|]. apply pi_cursor in H2. pose proof H2 as []. cbn [fst snd] in *. rewrite Hd in *.
    apply cursor_set_position; auto with structure.
    destruct (is_benefit m); [|done]. apply Forall_app. split; [done|]. by repeat constructor.
  - split; [done|]. split; [done|]. exists ITEM. cbn [fst]. by rewrite Hd.
Qed.

Lemma step_plain_ok profile seen line m st :
  parse_inv (seen ++ [line]) seen None st ->
  exists st' w, step_plain profile line m st = Ok (st', w) /\ parse_inv (seen ++ [line]) seen None st' /\ leaf_place st'.1 w.
Proof.
  intros H. unfold step_plain. destruct (ensure_item_ok _ _ _ H) as (st' & i & -> & H' & Hi & _). cbn [res_bind].
  destruct (get_draft_ok _ _ _ Hi) as (p & -> & _). cbn [res_bind]. eexists _, _. split; [reflexivity|]. split; [done|].
  unfold leaf_place. set (t := if match_prefix re_FOOTNOTE _ then _ else _).
  assert (is_leaf_type t = true /\ t <> TABLE_ROW) as [Ht1 Ht2] by (unfold t; by repeat case_match).
  split; [done|]. split; [done|]. exists ITEM. by split.
Qed.

Lemma step_leaf_ok seen line h w st :
  parse_inv (seen ++ [line]) seen None st -> leaf_place st.1 w ->
  exists st', step_leaf line h w st = Ok st' /\ parse_inv (seen ++ [line]) (seen ++ [line]) None st'.
Proof.
  destruct st as [b c], w as [[parent t] m]. intros H (Hleaf & Hrow & pt & Hpt & Hne). cbn [fst] in Hpt.
  assert (line ∈ seen ++ [line]) as Hin by (apply elem_of_app; right; by left).
  unfold step_leaf. pose proof (inv_leaf _ _ _ _ H line _ pt t m None Hin Hpt Hne Hleaf Hrow) as H1.
  set (d := node_draft _ _ _ _ _) in *. change (add_node d b) with ((add_node d b).1, length (drafts b)).
  set (b1 := (add_node d b).1) in *. cbv zeta iota.
  assert (length (drafts b1) = S (length (drafts b))) as Hlen by (unfold b1; cbn; rewrite length_app; cbn; lia).
  pose proof (co_previous _ _ (pi_cursor _ _ _ _ H)) as Hprev. pose proof (co_reference _ _ (pi_cursor _ _ _ _ H)) as Href.
  cbn [fst snd] in Hprev, Href.
  assert (forall x k, (x < length (drafts b))%nat -> link_ok (length (drafts b1)) (mklink (length (drafts b)) x k)) as Hlink
    by (intros; unfold link_ok; cbn [mklink ld_from_index ld_to_index]; lia).
  set (b2 := match previous_page_last_semantic c with Some _ => _ | None => b1 end).
  assert (parse_inv (seen ++ [line]) (seen ++ [line]) None (b2, c) /\ drafts b2 = drafts b1) as [H2 Hd2].
  { unfold b2. destruct (previous_page_last_semantic c) as [x|]; [|done]. destruct (_ && _); [|done].
    split; [|done]. apply inv_links; [done|]. constructor; [by apply Hlink, Hprev|done]. }
  clearbody b2.
  match goal with |- exists st', res_bind ?x _ = Ok st' /\ _ => assert (exists b3, x = Ok b3 /\
    parse_inv (seen ++ [line]) (seen ++ [line]) None (b3, c) /\ drafts b3 = drafts b1) as (b3 & -> & H3 & Hd3) end.
  { destruct (previous_reference_leaf c) as [ref|] eqn:Er; [|by exists b2].
    specialize (Href ref eq_refl). case_bool_decide; [|destruct (negb h && is_notice m); [|by exists b2]].
    - eexists. split; [done|]. split; [|done]. apply inv_links; [done|]. rewrite Hd2. repeat constructor; by apply Hlink.
    - destruct (get_draft_range b2 ref) as [r ->]; [rewrite Hd2; lia|]. cbn [res_bind].
      eexists. split; [done|]. destruct (is_benefit _); [|done]. split; [|done].
      apply inv_links; [done|]. rewrite Hd2. repeat constructor; by apply Hlink. }
  cbn [res_bind]. eexists. split; [reflexivity|]. eapply inv_cursor; [exact H3|].
  apply pi_cursor in H3. cbn [fst snd] in H3. rewrite Hd3 in *. apply cursor_set_page_last; auto with structure; [lia|].
  case_bool_decide; [apply (co_reference _ _ H3)|apply in_range_some; lia].
Qed.

Lemma step_text_ok profile seen line st :
  parse_inv seen seen None st ->
  exists st', step_text profile line st = Ok st' /\ parse_inv (seen ++ [line]) (seen ++ [line]) None st'.
Proof.
  destruct st as [b c]. intros H. unfold step_text. cbn [fst snd].
  assert (parse_inv (seen ++ [line]) seen None (b, set_current_table None c)) as H1.
  { apply inv_line. eapply inv_cursor; [exact H|]. apply pi_cursor in H. auto with structure. }
  match goal with |- exists st', res_bind ?x _ = Ok st' /\ _ => assert (exists st1 w, x = Ok (st1, w) /\
    parse_inv (seen ++ [line]) seen None st1 /\ leaf_place st1.1 w) as (st1 & w & -> & H2 & Hw) end.
  { destruct (heading_kind _ _) as [[]|]; [by apply step_major_ok|by apply step_item_ok|by apply step_plain_ok]. }
  cbn [res_bind]. by apply step_leaf_ok.
Qed.

(** ** Table lines *)
Lemma split_on_nonempty sep t : split_on sep t <> [].
Proof. destruct t as [|x t]; simpl; [done|]. destruct (x =? sep)%N; [done|]. by destruct (split_on sep t). Qed.

Lemma table_cells_nonempty text : table_cells text <> [].
Proof.
  unfold table_cells. pose proof (split_on_nonempty 124 (strip_by (N.eqb 124) (strip text))) as H.
  by destruct (split_on _ _).
Qed.

(** A new table is the pending one. *)
Lemma inv_new_table all seen b c parent t d :
  parse_inv all seen None (b, c) -> type_at (drafts b) parent = Some t -> t <> TABLE ->
  nd_node_type d = TABLE -> nd_parent_index d = Some parent -> nd_spans d = [] -> nd_table_cells d = [] ->
  nd_table_role d = None ->
  parse_inv all seen (Some (length (drafts b))) ((add_node d b).1, set_current_table (Some (length (drafts b))) c).
Proof.
  intros H Ht Hne Hd Hp Hs Hc Hr.
  assert (parse_inv all seen (Some (length (drafts b))) ((add_node d b).1, c)) as H1.
  { rewrite <- (app_nil_r seen). eapply inv_add; [exact H|..].
    - unfold draft_shape. rewrite Hd. split; [exists []; split; [apply sublist_nil_l|done]|done].
    - unfold parent_shape. rewrite Hp, Hd. split; [by eapply type_at_lt|]. split; [done|]. exists t. split; [done|].
      split; intros; congruence.
    - by rewrite Hd.
    - intros i Hi Hni. apply type_at_snoc_inv in Hi as [Hi|[-> _]]; [|done]. split; [by eapply type_at_lt|by left]. }
  eapply inv_cursor; [exact H1|]. apply pi_cursor in H1. cbn [fst snd] in *.
  apply cursor_set_table; [done|]. apply at_type_some. cbn. rewrite type_at_new. by rewrite Hd.
Qed.

Lemma open_table_ok all seen rest boilerplate st :
  parse_inv all seen None st ->
  exists st' t cont pending, open_table rest boilerplate st = Ok (st', t, cont) /\
    parse_inv all seen pending st' /\ (pending = None \/ pending = Some t) /\ type_at (drafts st'.1) t = Some TABLE.
Proof.
  intros H. unfold open_table. destruct (current_table st.2) as [t|] eqn:Et.
  - exists st, t, false, None. split; [done|]. split; [done|]. split; [by left|]. by apply (co_table _ _ (pi_cursor _ _ _ _ H)).
  - destruct (ensure_item_ok _ _ _ H) as ([b c] & i & -> & H1 & Hi & _). cbn [res_bind fst] in *.
    destruct (get_draft_ok _ _ _ Hi) as (p & -> & Hp & _). cbn [res_bind].
    assert (forall headers, let d := {| nd_parent_index := Some i; nd_node_type := TABLE; nd_major_class := nd_major_class p;
           nd_raw_heading := None; nd_spans := []; nd_table_headers := headers; nd_table_cells := [];
           nd_table_role := None |} in
      parse_inv all seen (Some (length (drafts b))) ((add_node d b).1, set_current_table (Some (length (drafts b))) c) /\
      type_at (drafts (add_node d b).1) (length (drafts b)) = Some TABLE) as Hnew.
    { intros headers d. split; [by eapply inv_new_table|]. cbn. by rewrite type_at_new. }
    destruct (previous_page_last_table c) as [prev|] eqn:Eprev; [destruct (_ && _)|].
    + assert (type_at (drafts b) prev = Some TABLE) as Hprev by by apply (co_previous_table _ _ (pi_cursor _ _ _ _ H1)).
      destruct (get_draft_ok _ _ _ Hprev) as (pd & -> & _). cbn [res_bind].
      destruct (Hnew (nd_table_headers pd)) as [H2 H3]. eexists _, _, _, _. split; [reflexivity|].
      split; [|split; [by right|done]]. apply inv_links; [done|]. constructor; [|done].
      apply type_at_lt in Hprev. unfold link_ok. cbn. rewrite length_app. cbn. lia.
    + destruct (Hnew []) as [H2 H3]. eexists _, _, _, _. split; [reflexivity|]. split; [exact H2|]. split; [by right|done].
    + destruct (Hnew []) as [H2 H3]. eexists _, _, _, _. split; [reflexivity|]. split; [exact H2|]. split; [by right|done].
Qed.

Lemma with_row_shape seen line cells table :
  nd_node_type table = TABLE -> draft_shape seen table -> draft_shape (seen ++ [line]) (with_row line cells table).1.
Proof.
  unfold draft_shape. intros Ht. cbn [with_row fst nd_node_type nd_spans nd_table_cells nd_table_role]. rewrite Ht.
  intros [(ls & Hls & ->) Hdata]. split; [|done]. exists (ls ++ [line]). split; [by apply sublist_app|].
  unfold container_spans. rewrite imap_app. cbn. unfold zlen, container_span, compose. by rewrite length_imap, Nat.add_0_r.
Qed.

Lemma step_table_ok seen line rest boilerplate st :
  parse_inv seen seen None st ->
  exists st', step_table line rest boilerplate st = Ok st' /\ parse_inv (seen ++ [line]) (seen ++ [line]) None st'.
Proof.
  intros H. unfold step_table.
  destruct (open_table_ok _ _ rest boilerplate _ H) as ([b c] & t & cont & pending & -> & H1 & Hpend & Ht).
  cbn [res_bind fst] in *. destruct (get_draft_ok _ _ _ Ht) as (table & -> & Htab & Htype). cbn [res_bind].
  assert (draft_shape seen table) as Hshape.
  { pose proof (pi_shape _ _ _ _ H1) as Hs. rewrite Forall_forall in Hs. apply Hs. by eapply list_elem_of_lookup_2. }
  set (cells := table_cells (visible line)). pose proof (with_row_shape seen line cells table Htype Hshape) as Hshape'.
  destruct (with_row line cells table) as [table' role] eqn:Erow. cbn [fst] in Hshape'.
  assert (nd_node_type table' = TABLE /\ nd_parent_index table' = nd_parent_index table) as [Ht' Hp'].
  { unfold with_row in Erow. injection Erow as <- _. done. }
  apply inv_line with (line := line) in H1.
  apply (inv_set _ _ _ _ _ H1 t table table' Htab) in Hshape' as H2; [|congruence|done|by rewrite Htype].
  set (b2 := set_draft t table' b) in *. set (d := row_draft line t table' cells role).
  assert (type_at (drafts b2) t = Some TABLE) as Ht2.
  { cbn. rewrite (type_at_insert _ _ table table') by (done || congruence). done. }
  assert (parse_inv (seen ++ [line]) (seen ++ [line]) None ((add_node d b2).1, c)) as H3.
  { eapply inv_add; [exact H2|..].
    - unfold draft_shape. cbn. split; [|by split; [apply table_cells_nonempty|]].
      exists line. split; [apply elem_of_app; right; by left|done].
    - unfold parent_shape. cbn. split; [by eapply type_at_lt|]. split; [done|]. exists TABLE. by split.
    - done.
    - intros i Hi _. apply type_at_snoc_inv in Hi as [Hi|[_ Hi]]; [|done]. split; [by eapply type_at_lt|].
      destruct Hpend as [->| ->]; [by left|]. destruct (decide (i = t)) as [->|Hne]; [by right|left; congruence]. }
  change (add_node d b2) with ((add_node d b2).1, length (drafts b2)). set (b3 := (add_node d b2).1) in *. cbv zeta iota.
  assert (length (drafts b3) = S (length (drafts b2))) as Hlen by (unfold b3; cbn; rewrite length_app; cbn; lia).
  set (b4 := match previous_page_last_semantic c with Some _ => _ | None => b3 end).
  assert (parse_inv (seen ++ [line]) (seen ++ [line]) None (b4, c) /\ drafts b4 = drafts b3) as [H4 Hd4].
  { unfold b4. destruct (previous_page_last_semantic c) as [x|] eqn:Ex; [|done]. destruct (_ && _); [|done].
    split; [|done]. apply inv_links; [done|]. constructor; [|done].
    apply (co_previous _ _ (pi_cursor _ _ _ _ H2)) in Ex. cbn [fst] in Ex. unfold link_ok. cbn [mklink ld_from_index ld_to_index]. lia. }
  eexists. split; [reflexivity|]. eapply inv_cursor; [exact H4|]. apply pi_cursor in H4. cbn [fst snd] in H4.
  rewrite Hd4 in *. apply cursor_set_page_last; [done|lia| |apply in_range_some; lia].
  apply at_type_some. unfold b3. cbn [add_node fst drafts]. by apply type_at_app.
Qed.

(** ** Lines and pages *)

(** A page marker inside the text names the page it stands on. *)
Definition marker_ok (line : SourceLine) : bool :=
  match page_marker (strip (visible line)) with Some n => n =? sl_page line | None => true end.

Lemma step_line_ok profile boilerplate seen line rest st :
  parse_inv seen seen None st -> marker_ok line = true ->
  exists st', step_line profile boilerplate st line rest = Ok st' /\ parse_inv (seen ++ [line]) (seen ++ [line]) None st'.
Proof.
  intros H Hm. unfold step_line. unfold marker_ok in Hm. rewrite bool_decide_decide.
  destruct (page_marker _) as [n|]; [rewrite Hm|]; cbn [negb raise_if res_bind];
    (destruct (_ || _); [by apply step_boilerplate_ok|]; case_bool_decide; [by apply step_blank_ok|];
     destruct (is_table_line _); [by apply step_table_ok|by apply step_text_ok]).
Qed.

Lemma step_line_mismatch profile boilerplate line rest st :
  marker_ok line = false -> step_line profile boilerplate st line rest = Err marker_mismatch.
Proof. unfold step_line, marker_ok. destruct (page_marker _); [intros ->|]; done. Qed.

Lemma step_lines_ok profile boilerplate lines : forall seen st,
  parse_inv seen seen None st ->
  if forallb marker_ok lines
  then exists st', step_lines profile boilerplate st lines = Ok st' /\ parse_inv (seen ++ lines) (seen ++ lines) None st'
  else step_lines profile boilerplate st lines = Err marker_mismatch.
Proof.
  induction lines as [|line lines IH]; intros seen st H; cbn [forallb step_lines].
  - rewrite app_nil_r. eauto.
  - destruct (marker_ok line) eqn:Hm; cbn [andb].
    + destruct (step_line_ok profile boilerplate seen line lines st H Hm) as (st1 & -> & H1). cbn [res_bind].
      specialize (IH _ _ H1). by rewrite <- app_assoc in IH.
    + by rewrite step_line_mismatch.
Qed.

Lemma step_page_ok profile boilerplate lines seen st :
  parse_inv seen seen None st ->
  if forallb marker_ok lines
  then exists st', step_page profile boilerplate st lines = Ok st' /\ parse_inv (seen ++ lines) (seen ++ lines) None st'
  else step_page profile boilerplate st lines = Err marker_mismatch.
Proof.
  destruct st as [b c]. intros H. unfold step_page. cbn [fst snd].
  assert (parse_inv seen seen None (b, begin_page c)) as H1.
  { eapply inv_cursor; [exact H|]. apply pi_cursor in H. auto with structure. }
  pose proof (step_lines_ok profile boilerplate lines seen _ H1) as H2. destruct (forallb marker_ok lines); [|by rewrite H2].
  destruct H2 as ([b2 c2] & -> & H2). cbn [res_bind fst snd]. eexists. split; [reflexivity|].
  eapply inv_cursor; [exact H2|]. apply pi_cursor in H2. auto with structure.
Qed.

Lemma pages_steps_ok profile boilerplate pages_lines : forall seen st,
  parse_inv seen seen None st ->
  if forallb (forallb marker_ok) pages_lines
  then exists st', foldM (step_page profile boilerplate) st pages_lines = Ok st' /\
       parse_inv (seen ++ concat pages_lines) (seen ++ concat pages_lines) None st'
  else foldM (step_page profile boilerplate) st pages_lines = Err marker_mismatch.
Proof.
  induction pages_lines as [|lines pages_lines IH]; intros seen st H; cbn [forallb foldM concat].
  - rewrite app_nil_r. eauto.
  - pose proof (step_page_ok profile boilerplate lines seen st H) as H1.
    destruct (forallb marker_ok lines); cbn [andb]; [|by rewrite H1].
    destruct H1 as (st1 & -> & H1). cbn [res_bind]. specialize (IH _ _ H1). by rewrite <- app_assoc in IH.
Qed.

Lemma neighbour_links_ok n leaves :
  StronglySorted lt leaves -> Forall (fun i => (i < n)%nat) leaves -> Forall (link_ok n) (neighbour_links leaves).
Proof.
  induction 1 as [|i leaves Hs IH Hi]; intros Hr; [constructor|]. inversion Hr as [|? ? Hn Hr']; subst.
  destruct leaves as [|j leaves]; [constructor|]. inversion Hi; subst. inversion Hr'; subst.
  cbn [neighbour_links]. repeat constructor; cbn; try lia. by apply IH.
Qed.

Lemma initial_inv : parse_inv [] [] None (initial_builder, initial_cursor).
Proof.
  split; cbn; try done; try constructor; cbn; auto with structure; try done.
  - unfold draft_shape. cbn. split; [exists []; by split|by repeat split].
  - intros [|i] d; [|done]. by intros [= <-].
  - intros [|t]; done.
Qed.

(** The loop over the pages is total: it fails on a page marker that names
    another page and on nothing else. *)
Lemma parse_drafts_total profile pages_lines :
  if forallb (forallb marker_ok) pages_lines
  then exists b, parse_drafts profile pages_lines = Ok b /\ drafts_wf (concat pages_lines) (drafts b) /\
       Forall (link_ok (length (drafts b))) (link_drafts b)
  else parse_drafts profile pages_lines = Err marker_mismatch.
Proof.
  unfold parse_drafts.
  pose proof (pages_steps_ok profile (repeated_edge_lines pages_lines profile) pages_lines [] _ initial_inv) as H.
  destruct (forallb _ _); [|by rewrite H]. destruct H as (st & -> & H). cbn [res_bind].
  eexists. split; [reflexivity|]. destruct H. split; [split; try done|].
  - intros t Ht. by apply pi_tables0.
  - apply Forall_app. split; [done|]. by apply neighbour_links_ok.
Qed.

(** ** Freezing links *)
Lemma dict_unique_elem {A} `{EqDecision A} (l : list A) x : x ∈ dict_unique l <-> x ∈ l.
Proof.
  unfold dict_unique. rewrite list_elem_of_In, <- in_rev, <- list_elem_of_In, elem_of_remove_dups.
  by rewrite list_elem_of_In, <- in_rev, <- list_elem_of_In.
Qed.

Lemma freeze_links_ok revision pages ds nodes ls :
  frozen revision pages ds nodes -> Forall (link_ok (length ds)) ls ->
  exists links, freeze_links nodes ls = Ok links /\
    forall j l, links !! j = Some l -> ln_ordinal l = Z.of_nat j /\ exists f t, f ∈ nodes /\ t ∈ nodes /\
      ln_from_node_id l = sn_node_id f /\ ln_to_node_id l = sn_node_id t /\ f <> t.
Proof.
  intros Hf Hls. unfold freeze_links.
  assert (Forall (link_ok (length ds)) (dict_unique ls)) as Hu.
  { apply Forall_forall. intros l Hl. rewrite Forall_forall in Hls. by apply Hls, dict_unique_elem. }
  pose (good := fun kd : (Z * Z * Z) * (ustr * ustr * LinkType) => exists f t, f ∈ nodes /\ t ∈ nodes /\
      kd.2.1.1 = sn_node_id f /\ kd.2.1.2 = sn_node_id t /\ f <> t).
  match goal with |- exists links, res_bind (mapM_res ?g _) _ = Ok links /\ _ =>
    assert (exists keyed, mapM_res g (dict_unique ls) = Ok keyed /\ Forall good keyed) as (keyed & -> & Hgood) end.
  { induction Hu as [|l u (Hl1 & Hl2 & Hne) _ (keyed & IH1 & IH2)]; [by exists []|]. cbn [mapM_res].
    apply lookup_lt_is_Some in Hl1 as [df Hdf], Hl2 as [dt Hdt].
    destruct (frozen_lookup _ _ _ _ _ _ Hf Hdf) as (f & Hnf & Hof), (frozen_lookup _ _ _ _ _ _ Hf Hdt) as (t & Hnt & Hot).
    rewrite Hnf, Hnt. cbn [of_option res_bind]. rewrite IH1. cbn [res_bind]. eexists. split; [reflexivity|].
    constructor; [|done]. exists f, t. split; [by eapply list_elem_of_lookup_2|]. split; [by eapply list_elem_of_lookup_2|].
    split; [done|]. split; [done|]. intros ->. apply Hne.
    pose proof (no_ordinal _ _ _ _ _ _ Hof). pose proof (no_ordinal _ _ _ _ _ _ Hot). lia. }
  cbn [res_bind]. eexists. split; [reflexivity|]. intros j l Hl. rewrite list_lookup_fmap, enumerate_lookup in Hl.
  destruct (sorted_by _ keyed !! j) as [kd|] eqn:E; [|done]. cbn in Hl. destruct kd as [key [[fid tid] lt_]].
  injection Hl as <-. cbn. split; [done|]. apply list_elem_of_lookup_2 in E. rewrite (sorted_by_Permutation _ _) in E.
  rewrite Forall_forall in Hgood. apply (Hgood _ E).
Qed.
