(* ===== verification/StructureTotal.v ===== *)
(** The entry points of [cardrag_worker/structure.py]: what they return.

    With the state machine total ([StructureInvariant.v]) and the validator
    complete ([StructureBuild.v]), the outcome of both entry points on checked
    inputs is known: the parser refuses a foreign page marker and a table whose
    rows lost their header, the fallback refuses nothing. *)
From S2P Require Export StructureInvariant.

Lemma concat_map_bind {A B} (f : A -> list B) l : concat (map f l) = l ≫= f.
Proof. induction l as [|a l IH]; [done|]. cbn [map concat]. by rewrite bind_cons, IH. Qed.

(** [build_from_drafts] never raises on drafts of the parser. *)
Lemma build_total records i k b :
  check_inputs records i = Ok k -> drafts_wf (records ≫= source_lines) (drafts b) ->
  Forall (link_ok (length (drafts b))) (link_drafts b) ->
  exists nodes links, build_from_drafts i k b = Ok (make_artifact i k nodes links) /\
    frozen (ck_revision_id k) (ck_pages k) (drafts b) nodes /\
    (forall j l, links !! j = Some l -> ln_ordinal l = Z.of_nat j /\ exists f t, f ∈ nodes /\ t ∈ nodes /\
      ln_from_node_id l = sn_node_id f /\ ln_to_node_id l = sn_node_id t /\ f <> t).
Proof.
  intros Hk Hwf Hlinks. unfold build_from_drafts.
  destruct (freeze_nodes_ok (ck_revision_id k) (ck_pages k) (drafts b)) as (nodes & -> & Hf).
  - apply Forall_forall. intros d Hd. eapply Forall_impl; [by eapply draft_spans_valid|]. intros s [_ Hs]. exact Hs.
  - intros j d p Hd Hp. pose proof (dw_parent _ _ Hwf j d Hd) as H. unfold parent_shape in H. rewrite Hp in H. by destruct H.
  - cbn [res_bind]. destruct (freeze_links_ok _ _ _ _ _ Hf Hlinks) as (links & -> & Hl). cbn [res_bind]. eauto.
Qed.

(** ** The parser *)
Definition markers_ok (records : list PageRecord) : bool := forallb (forallb marker_ok) (map source_lines records).

Lemma parse_outcome records i k :
  check_inputs records i = Ok k -> markers_ok records = true ->
  exists b nodes links,
    parse_drafts (ck_profile k) (map source_lines records) = Ok b /\
    build_from_drafts i k b = Ok (make_artifact i k nodes links) /\
    (sha_separates (map node_bytes nodes) ->
     validate_structure_artifact (make_artifact i k nodes links) =
       (if rows_share_headers (drafts b) then Ok (full_coverage records k) else Err lost_header) /\
     parse_structure_artifact records i =
       (if rows_share_headers (drafts b) then Ok (make_artifact i k nodes links) else Err lost_header)).
Proof.
  intros Hk Hm. pose proof (parse_drafts_total (ck_profile k) (map source_lines records)) as H.
  unfold markers_ok in Hm. rewrite Hm in H. destruct H as (b & Hb & Hwf & Hl). rewrite concat_map_bind in Hwf.
  destruct (build_total records i k b Hk Hwf Hl) as (nodes & links & Hbuild & Hf & Hlinks).
  exists b, nodes, links. split; [done|]. split; [done|]. intros Hsep.
  pose proof (separated_ids _ _ _ _ Hf Hsep) as Hids.
  pose proof (validate_built records i k (drafts b) nodes links Hk Hwf Hf Hids Hlinks) as Hv. split; [exact Hv|].
  unfold parse_structure_artifact. rewrite Hk. cbn [res_bind]. rewrite Hb. cbn [res_bind]. rewrite Hbuild.
  cbn [res_bind]. rewrite Hv. by destruct (rows_share_headers (drafts b)).
Qed.

(** C28: on checked inputs without foreign page markers the parser accepts the
    document unless a table row lost its header, and then says so; the artifact
    covers every character.  The hash has to tell the node payloads apart. *)
Theorem parse_total records i k :
  check_inputs records i = Ok k -> markers_ok records = true ->
  exists b nodes links,
    parse_drafts (ck_profile k) (map source_lines records) = Ok b /\
    build_from_drafts i k b = Ok (make_artifact i k nodes links) /\
    (sha_separates (map node_bytes nodes) ->
     validate_structure_artifact (make_artifact i k nodes links) =
       (if rows_share_headers (drafts b) then Ok (full_coverage records k) else Err lost_header) /\
     parse_structure_artifact records i =
       (if rows_share_headers (drafts b) then Ok (make_artifact i k nodes links) else Err lost_header)).
Proof. apply parse_outcome. Qed.

(** A page marker in the text that names another page stops the parser with
    that error, whatever else the document holds. *)
Theorem parse_marker_mismatch records i k :
  check_inputs records i = Ok k -> markers_ok records = false -> parse_structure_artifact records i = Err marker_mismatch.
Proof.
  intros Hk Hm. unfold parse_structure_artifact. rewrite Hk. cbn [res_bind].
  pose proof (parse_drafts_total (ck_profile k) (map source_lines records)) as H. unfold markers_ok in Hm. rewrite Hm in H.
  by rewrite H.
Qed.

Lemma parse_result records i a :
  parse_structure_artifact records i = Ok a ->
  exists k b, check_inputs records i = Ok k /\ parse_drafts (ck_profile k) (map source_lines records) = Ok b /\
    build_from_drafts i k b = Ok a /\ is_ok (validate_structure_artifact a) = true.
Proof.
  unfold parse_structure_artifact. intros H. inv_res H. subst.
  match goal with H : validate_structure_artifact _ = Ok _ |- _ => rename H into Hv end.
  eexists _, _. split; [done|]. split; [done|]. split; [done|]. by rewrite Hv.
Qed.

(** ** A concrete document *)
Definition sample_inputs : structure_inputs :=
  {| in_issuer := us "kb"; in_product_code := us "p"; in_product_name := us "n"; in_source_version := us "v";
     in_effective_date := None; in_document_type := us "d";
     in_source_id := us "source_" ++ pg_text_sha256 sample_page; in_pdf_sha256 := pg_text_sha256 sample_page;
     in_profile := None |}.
Definition record (page : Z) (text : ustr) : PageRecord := {| pr_document_id := us "doc"; pr_page := page; pr_text := text |}.
Definition newline : ustr := [10%N].
Definition sample_records : list PageRecord :=
  [record 1 (us "■ 혜택 안내" ++ newline ++ us "|구분|한도|" ++ newline ++ us "|---|---|" ++ newline ++ us "|할인|10|" ++ newline ++ us "* 주의")].
Definition checked_of (records : list PageRecord) : checked_inputs :=
  match check_inputs records sample_inputs with
  | Ok k => k
  | Err _ => {| ck_document_id := []; ck_profile := mk_profile [] [] [] [] []; ck_lineage_id := []; ck_revision_id := []; ck_pages := [] |}
  end.
Definition sample_checked : checked_inputs := Eval vm_compute in checked_of sample_records.
Definition short_records : list PageRecord := [record 1 (us "a")].
Definition short_checked : checked_inputs := Eval vm_compute in checked_of short_records.

(** ** The fallback *)
Definition fallback_leaf_draft (l : SourceLine) : NodeDraft := node_draft (Some 1%nat) UNCLASSIFIED UNKNOWN None [line_span l].
Definition fallback_drafts (lines : list SourceLine) : list NodeDraft :=
  node_draft None ROOT UNKNOWN None [] :: node_draft (Some 0%nat) ITEM UNKNOWN None [] :: map fallback_leaf_draft lines.

Lemma fallback_drafts_leaves lines : filter leaf_draft (map fallback_leaf_draft lines) ≫= nd_spans = map line_span lines.
Proof.
  rewrite filter_all; [|apply Forall_forall; by intros d (l & -> & _)%list_elem_of_fmap].
  induction lines as [|l lines IH]; [done|]. cbn [map]. by rewrite bind_cons, IH.
Qed.

Lemma fallback_drafts_wf lines : drafts_wf lines (fallback_drafts lines).
Proof.
  split.
  - done.
  - unfold fallback_drafts. repeat constructor; try (exists []; split; [apply sublist_nil_l|done]).
    apply Forall_forall. intros d (l & -> & Hl)%list_elem_of_fmap. split; [by exists l|by repeat split].
  - intros [|[|j]] d Hd.
    + by injection Hd as <-.
    + injection Hd as <-. split; [lia|]. split; [done|]. exists ROOT. by split.
    + change (map fallback_leaf_draft lines !! j = Some d) in Hd.
      rewrite list_lookup_fmap in Hd. apply fmap_Some in Hd as (l & _ & ->).
      split; [lia|]. split; [done|]. exists ITEM. by split.
  - unfold fallback_drafts. rewrite !filter_cons_False by done. apply fallback_drafts_leaves.
  - intros [|[|t]]; try done. change (type_at (fallback_drafts lines) (S (S t))) with (type_at (map fallback_leaf_draft lines) t).
    unfold type_at. rewrite list_lookup_fmap. by destruct (lines !! t).
Qed.

Lemma fallback_rows lines : rows_share_headers (fallback_drafts lines) = true.
Proof.
  unfold rows_share_headers. apply forallb_Forall. repeat constructor.
  apply Forall_forall. by intros d (l & -> & _)%list_elem_of_fmap.
Qed.

Section Fallback.
Context (revision : ustr) (pages : list StructurePage).
Hypothesis Hpages : NoDup (map pg_page pages).

Lemma page_slices s : 
  (pages ≫= fun p => if pg_page p =? sp_page s then slice (pg_text p) (sp_source_start s) (sp_source_end s) else []) =
  span_text pages s.
Proof.
  unfold span_text. clear revision. induction pages as [|p ps IH]; [done|]. cbn [map] in Hpages.
  apply NoDup_cons in Hpages as [Hp Hnd]. rewrite bind_cons. unfold find_page. cbn [find].
  fold (find_page ps (sp_page s)). destruct (Z.eqb_spec (pg_page p) (sp_page s)) as [E|_]; [|by apply IH].
  assert (ps ≫= (fun p => if pg_page p =? sp_page s then slice (pg_text p) (sp_source_start s) (sp_source_end s) else []) = [])
    as ->; [|by rewrite app_nil_r].
  rewrite E in Hp. clear -Hp. induction ps as [|q ps IH]; [done|]. cbn [map] in Hp.
  apply not_elem_of_cons in Hp as [Hq Hp]. rewrite bind_cons, IH by done.
  by rewrite (proj2 (Z.eqb_neq _ _)) by congruence.
Qed.

(** [append_node] is one step of [freeze_nodes]. *)
Lemma append_node_freeze nodes p parent_id t spans :
  Forall (span_in_page pages) spans ->
  match p with None => parent_id = None | Some j => exists pn, nodes !! j = Some pn /\ parent_id = Some (sn_node_id pn) end ->
  let '(nodes', n) := append_node revision pages parent_id t spans nodes in
  freeze_node revision pages nodes (node_draft p t UNKNOWN None spans) = Ok nodes' /\ nodes' = nodes ++ [n] /\
  sn_ordinal n = zlen nodes /\ sn_display_text n = concat (map (span_text pages) spans).
Proof.
  intros Hspans Hp. unfold append_node, freeze_node. cbn [node_draft nd_parent_index nd_spans].
  assert ((spans ≫= fun s => pages ≫= fun p => if pg_page p =? sp_page s then slice (pg_text p) (sp_source_start s) (sp_source_end s) else [])
          = concat (map (span_text pages) spans)) as ->.
  { clear Hspans. induction spans as [|s spans IH]; [done|]. rewrite bind_cons, IH, page_slices. done. }
  destruct p as [j|].
  - destruct Hp as (pn & Hpn & ->). rewrite Hpn. cbn [of_option res_bind]. rewrite draft_display_ok by done. by cbn [res_bind].
  - subst parent_id. cbn [res_bind]. rewrite draft_display_ok by done. by cbn [res_bind].
Qed.

Lemma fallback_leaves_freeze item lines : forall nodes leaves,
  Forall (fun l => span_in_page pages (line_span l)) lines -> nodes !! 1%nat = Some item ->
  let '(nodes', leaves') := fold_left (fallback_leaf revision pages item) lines (nodes, leaves) in
  foldM (freeze_node revision pages) nodes (map fallback_leaf_draft lines) = Ok nodes' /\
  exists ext, nodes' = nodes ++ ext /\ leaves' = leaves ++ ext /\
    map sn_display_text ext = map (fun l => span_text pages (line_span l)) lines.
Proof.
  induction lines as [|l lines IH]; intros nodes leaves Hl Hitem; cbn [fold_left map foldM].
  - split; [done|]. exists []. by rewrite !app_nil_r.
  - inversion Hl as [|? ? Hs Hrest]; subst. unfold fallback_leaf at 2. cbn [fst snd].
    pose proof (append_node_freeze nodes (Some 1%nat) (Some (sn_node_id item)) UNCLASSIFIED [line_span l]) as H.
    destruct (append_node _ _ _ _ _ _) as [nodes1 n]. destruct H as (H1 & -> & _ & Hd); [by constructor|by eexists|].
    unfold fallback_leaf_draft at 1. rewrite H1. cbn [res_bind].
    specialize (IH (nodes ++ [n]) (leaves ++ [n]) Hrest (lookup_app_l_Some _ _ _ _ Hitem)).
    destruct (fold_left _ _ _) as [nodes' leaves']. destruct IH as (IH1 & ext & -> & -> & IH2). split; [done|].
    exists (n :: ext). rewrite <- !app_assoc. split; [done|]. split; [done|]. cbn [map]. rewrite IH2, Hd. cbn. by rewrite app_nil_r.
Qed.

Lemma fallback_links_ok n leaves j l :
  fallback_links n leaves !! j = Some l ->
  ln_ordinal l = n + Z.of_nat j /\
  exists x f t, leaves !! x = Some f /\ leaves !! S x = Some t /\
    ((ln_from_node_id l = sn_node_id f /\ ln_to_node_id l = sn_node_id t /\ ln_link_type l = NEXT) \/
     (ln_from_node_id l = sn_node_id t /\ ln_to_node_id l = sn_node_id f /\ ln_link_type l = PREVIOUS)).
Proof.
  revert n j. induction leaves as [|f leaves IH]; intros n j; [done|]. destruct leaves as [|t leaves]; [done|].
  cbn [fallback_links]. destruct j as [|[|j]]; cbn.
  - intros [= <-]. cbn. split; [lia|]. exists 0%nat, f, t. split; [done|]. split; [done|]. by left.
  - intros [= <-]. cbn. split; [lia|]. exists 0%nat, f, t. split; [done|]. split; [done|]. by right.
  - intros Hl. apply IH in Hl as (Ho & x & f' & t' & Hf & Ht & H). split; [lia|]. by exists (S x), f', t'.
Qed.
End Fallback.

(** The fallback's nodes are the frozen [fallback_drafts]. *)
Lemma fallback_nodes_frozen records i k :
  check_inputs records i = Ok k ->
  let '(nodes, leaves) := fallback_nodes k records in
  frozen (ck_revision_id k) (ck_pages k) (fallback_drafts (records ≫= source_lines)) nodes /\
  leaves = drop 2 nodes /\ map sn_display_text leaves = map sl_text (records ≫= source_lines).
Proof.
  intros Hk. unfold fallback_nodes.
  pose proof (checked_NoDup _ _ _ Hk) as Hnd. pose proof (checked_pages_eq _ _ _ Hk) as Hpages.
  assert (NoDup (map pg_page (ck_pages k))) as Hnd' by by rewrite Hpages, map_structure_page_numbers.
  set (lines := records ≫= source_lines).
  assert (Forall (fun l => span_in_page (ck_pages k) (line_span l)) lines) as Hlines.
  { apply Forall_forall. intros l Hl. rewrite Hpages. apply line_like_valid; [done|by apply line_span_like]. }
  pose proof (append_node_freeze (ck_revision_id k) (ck_pages k) Hnd' [] None None ROOT [] ltac:(constructor) eq_refl) as H0.
  destruct (append_node _ _ None ROOT [] []) as [nodes0 root]. destruct H0 as (H0 & -> & _).
  pose proof (append_node_freeze (ck_revision_id k) (ck_pages k) Hnd' [root] (Some 0%nat) (Some (sn_node_id root)) ITEM []
                ltac:(constructor) ltac:(by exists root)) as H1.
  cbn [app] in *. destruct (append_node _ _ _ ITEM [] [root]) as [nodes1 item]. destruct H1 as (H1 & -> & _).
  pose proof (fallback_leaves_freeze (ck_revision_id k) (ck_pages k) Hnd' item lines ([root] ++ [item]) [] Hlines eq_refl) as H2.
  destruct (fold_left _ lines _) as [nodes leaves]. destruct H2 as (H2 & ext & -> & -> & Htext). split; [|split; [done|]].
  - assert (freeze_nodes (ck_revision_id k) (ck_pages k) (fallback_drafts lines) = Ok (([root] ++ [item]) ++ ext)) as Hfreeze.
    { unfold freeze_nodes, fallback_drafts. cbn [foldM]. rewrite H0. cbn [res_bind]. rewrite H1. by cbn [res_bind]. }
    pose proof (fallback_drafts_wf lines) as Hwf.
    destruct (freeze_nodes_ok (ck_revision_id k) (ck_pages k) (fallback_drafts lines)) as (nodes & Hn & Hf).
    + apply Forall_forall. intros d Hd. eapply Forall_impl; [by eapply (draft_spans_valid records i k)|]. by intros s [_ ?].
    + intros j d p Hd Hp. pose proof (dw_parent _ _ Hwf j d Hd) as H. unfold parent_shape in H. rewrite Hp in H. by destruct H.
    + rewrite Hfreeze in Hn. injection Hn as <-. exact Hf.
  - cbn [app]. rewrite Htext. apply map_ext_in. intros l Hl. rewrite Hpages. apply line_span_text; [done|].
    by apply list_elem_of_In.
Qed.

Lemma frozen_fallback_links revision pages ds nodes :
  frozen revision pages ds nodes ->
  forall j l, fallback_links 0 (drop 2 nodes) !! j = Some l ->
  ln_ordinal l = Z.of_nat j /\ exists f t, f ∈ nodes /\ t ∈ nodes /\
    ln_from_node_id l = sn_node_id f /\ ln_to_node_id l = sn_node_id t /\ f <> t.
Proof.
  intros Hf j l Hl. apply fallback_links_ok in Hl as (Ho & x & f & t & Hx & Hy & H). split; [lia|].
  rewrite lookup_drop in Hx, Hy.
  assert (f <> t) as Hne.
  { intros ->. destruct (frozen_lookup_node _ _ _ _ _ _ Hf Hx) as (d1 & _ & H1), (frozen_lookup_node _ _ _ _ _ _ Hf Hy) as (d2 & _ & H2).
    pose proof (no_ordinal _ _ _ _ _ _ H1). pose proof (no_ordinal _ _ _ _ _ _ H2). lia. }
  apply list_elem_of_lookup_2 in Hx, Hy.
  destruct H as [(-> & -> & _)|(-> & -> & _)]; [exists f, t|exists t, f]; repeat split; congruence.
Qed.

(** C29: the fallback refuses no document: whatever the OCR text, checked inputs
    give a valid artifact whose leaves are the source lines in order and whose
    coverage is complete. *)
Theorem fallback_total records i k :
  check_inputs records i = Ok k ->
  sha_separates (map node_bytes (fallback_nodes k records).1) ->
  exists a, build_unclassified_fallback_artifact records i = Ok a /\
    validate_structure_artifact a = Ok (full_coverage records k) /\
    map sn_display_text (filter (fun n => sn_node_type n = UNCLASSIFIED) (sa_nodes a)) = map sl_text (records ≫= source_lines).
Proof.
  intros Hk Hsep. pose proof (fallback_nodes_frozen records i k Hk) as H. unfold build_unclassified_fallback_artifact.
  rewrite Hk. cbn [res_bind]. destruct (fallback_nodes k records) as [nodes leaves] eqn:E. destruct H as (Hf & -> & Htext).
  pose proof (validate_built records i k _ nodes (fallback_links 0 (drop 2 nodes)) Hk (fallback_drafts_wf _) Hf
                (separated_ids _ _ _ _ Hf Hsep) (frozen_fallback_links _ _ _ _ Hf)) as Hv.
  rewrite fallback_rows in Hv. rewrite Hv. cbn [res_bind]. eexists. split; [done|]. split; [done|].
  cbn [make_artifact sa_nodes]. rewrite <- Htext. f_equal.
  destruct (frozen_lookup _ _ _ _ 0%nat _ Hf eq_refl) as (root & H0 & Hroot).
  destruct (frozen_lookup _ _ _ _ 1%nat _ Hf eq_refl) as (item & H1 & Hitem).
  destruct nodes as [|root' [|item' ext]]; try done. injection H0 as ->. injection H1 as ->. cbn [drop].
  rewrite filter_cons_False by by rewrite (no_type _ _ _ _ _ _ Hroot).
  rewrite filter_cons_False by by rewrite (no_type _ _ _ _ _ _ Hitem).
  apply filter_all, Forall_lookup. intros j n Hn.
  destruct (frozen_lookup_node _ _ _ _ (S (S j)) n Hf) as (d & Hd & Hof); [done|].
  rewrite (no_type _ _ _ _ _ _ Hof). change (map fallback_leaf_draft (records ≫= source_lines) !! j = Some d) in Hd.
  rewrite list_lookup_fmap in Hd. by apply fmap_Some in Hd as (l & _ & ->).
Qed.

(** C1: an artifact the parser returns has the source lines, in order, as its
    leaves, is lossless, and reports complete coverage of the pages. *)
Theorem parse_lossless records i a :
  parse_structure_artifact records i = Ok a ->
  leaf_spans a = map line_span (records ≫= source_lines) /\
  map sl_text (records ≫= source_lines) = map (span_text (sa_pages a)) (leaf_spans a) /\
  lossless_artifact a.
Proof.
  intros (k & b & Hk & Hb & Hbuild & Hv)%parse_result.
  destruct (validate_structure_artifact a) as [cov|] eqn:Ev; [|done]. apply validated_lossless in Ev.
  pose proof (parse_drafts_total (ck_profile k) (map source_lines records)) as H. rewrite Hb in H.
  destruct (forallb _ _); [|done]. destruct H as (b' & [= <-] & Hwf & Hl). rewrite concat_map_bind in Hwf.
  destruct (build_total records i k b Hk Hwf Hl) as (nodes & links & Hbuild' & Hf & _).
  rewrite Hbuild in Hbuild'. injection Hbuild' as ->.
  pose proof (built_leaf_spans records i k (drafts b) nodes links Hwf Hf) as Hleaf.
  split; [done|]. split; [|done]. rewrite Hleaf. cbn [make_artifact sa_pages]. rewrite (checked_pages_eq _ _ _ Hk), map_map.
  apply map_ext_in. intros l Hl'. symmetry. apply line_span_text; [by eapply checked_NoDup|by apply list_elem_of_In].
Qed.

Lemma parse_total_witness :
  exists b nodes links,
    parse_drafts (ck_profile sample_checked) (map source_lines sample_records) = Ok b /\
    build_from_drafts sample_inputs sample_checked b = Ok (make_artifact sample_inputs sample_checked nodes links) /\
    (sha_separates (map node_bytes nodes) ->
     validate_structure_artifact (make_artifact sample_inputs sample_checked nodes links) =
       (if rows_share_headers (drafts b) then Ok (full_coverage sample_records sample_checked) else Err lost_header) /\
     parse_structure_artifact sample_records sample_inputs =
       (if rows_share_headers (drafts b) then Ok (make_artifact sample_inputs sample_checked nodes links) else Err lost_header)).
Proof. apply parse_total; vm_compute; reflexivity. Defined.

Definition foreign_marker_records : list PageRecord := [record 1 (us "## Page 2")].
Lemma parse_marker_mismatch_witness :
  parse_structure_artifact foreign_marker_records sample_inputs = Err marker_mismatch.
Proof. apply (parse_marker_mismatch _ _ (checked_of foreign_marker_records)); vm_compute; reflexivity. Defined.

Lemma sha_separates_distinct l : NoDup (map sha256_bytes l) -> sha_separates l.
Proof.
  induction l as [|a l IH]; cbn [map]; intros Hnd x y Hx Hy E; [by apply not_elem_of_nil in Hx|].
  apply NoDup_cons in Hnd as [Ha Hnd]. apply elem_of_cons in Hx as [->|Hx], Hy as [->|Hy]; [done|..|by apply IH].
  - destruct Ha. rewrite E. apply list_elem_of_fmap. eauto.
  - destruct Ha. rewrite <- E. apply list_elem_of_fmap. eauto.
Qed.

Lemma fallback_total_witness : exists a, build_unclassified_fallback_artifact short_records sample_inputs = Ok a.
Proof.
  destruct (fallback_total short_records sample_inputs short_checked) as (a & Ha & _).
  - vm_compute. reflexivity.
  - apply sha_separates_distinct, (bool_decide_unpack _). vm_compute. exact I.
  - exists a. exact Ha.
Defined.

Lemma parse_lossless_witness : exists a,
  parse_structure_artifact short_records sample_inputs = Ok a /\ lossless_artifact a.
Proof.
  assert (is_ok (parse_structure_artifact short_records sample_inputs) = true) as H by (vm_compute; reflexivity).
  destruct (parse_structure_artifact short_records sample_inputs) as [a|e] eqn:E; [|discriminate H].
  exists a. split; [reflexivity|]. apply (parse_lossless short_records sample_inputs a E).
Defined.
