(* ===== verification/StructureHeaders.v ===== *)
(** When the parser keeps every table row under its header.

    [parse_total] leaves one way to refuse a document: a row that does not carry
    the header of its table.  Here the text condition that excludes it: a Markdown
    separator row always directly follows another row of its table.  A table that
    opens with a separator is the counterexample at the end. *)
From S2P Require Export StructureTotal.

Definition plain (d : NodeDraft) : Prop := nd_node_type d <> TABLE /\ nd_node_type d <> TABLE_ROW.

(** Tables have a header and rows carry it. *)
Record headed (ds : list NodeDraft) : Prop := {
  hd_tables : forall i d, ds !! i = Some d -> nd_node_type d = TABLE -> nd_table_headers d <> [];
  hd_rows : forall i d t, ds !! i = Some d -> nd_node_type d = TABLE_ROW -> nd_parent_index d = Some t ->
    exists tb, ds !! t = Some tb /\ nd_table_headers d = nd_table_headers tb;
}.

Lemma headed_share ds : headed ds -> rows_share_headers ds = true.
Proof.
  intros [_ H]. apply forallb_Forall, Forall_lookup. intros i d Hd. unfold row_shares_headers.
  destruct (nd_node_type d) eqn:Et; try done. destruct (nd_parent_index d) as [t|] eqn:Ep; [|done].
  destruct (H i d t Hd Et Ep) as (tb & -> & ->). by apply bool_decide_eq_true.
Qed.

Lemma headed_plain ds new : headed ds -> Forall plain new -> headed (ds ++ new).
Proof.
  intros [H1 H2] Hnew. rewrite Forall_lookup in Hnew. split.
  - intros i d [Hd|[_ Hd]]%lookup_app_Some Ht; [by eauto|]. by destruct (Hnew _ _ Hd).
  - intros i d t [Hd|[_ Hd]]%lookup_app_Some Ht Hp; [|by destruct (Hnew _ _ Hd)].
    destruct (H2 i d t Hd Ht Hp) as (tb & Htb & E). exists tb. split; [by apply lookup_app_l_Some|done].
Qed.

(** The drafts a step that is not about tables adds. *)
Definition grows (st st' : pstate) : Prop := exists new, drafts st'.1 = drafts st.1 ++ new /\ Forall plain new.

Lemma grows_refl st : grows st st.
Proof. exists []. by rewrite app_nil_r. Qed.
Lemma grows_trans st1 st2 st3 : grows st1 st2 -> grows st2 st3 -> grows st1 st3.
Proof.
  intros (n1 & E1 & H1) (n2 & E2 & H2). exists (n1 ++ n2). rewrite E2, E1, app_assoc. split; [done|]. by apply Forall_app.
Qed.
Lemma grows_one st st' p t m h spans :
  drafts st'.1 = drafts st.1 ++ [node_draft p t m h spans] -> t <> TABLE -> t <> TABLE_ROW -> grows st st'.
Proof. intros E H1 H2. eexists. split; [exact E|]. by repeat constructor. Qed.

(** [add_node] in a hypothesis, as the pair it is. *)
Ltac pair_add H :=
  match type of H with
  | context [add_node ?d ?b] => change (add_node d b) with ((add_node d b).1, length (drafts b)) in H; cbv beta iota in H
  end.

Lemma ensure_item_grows st st' i : ensure_item st = Ok (st', i) -> grows st st' /\ page_first_semantic st'.2 = page_first_semantic st.2.
Proof.
  destruct st as [b c]. unfold ensure_item. destruct (current_item c).
  - intros [= <- <-]. split; [apply grows_refl|done].
  - intros H. inv_res H. pair_add H. inv_res H. subst. split; [by eapply grows_one|done].
Qed.

Lemma step_leaf_grows line h parent t m st st' :
  step_leaf line h (parent, t, m) st = Ok st' -> t <> TABLE -> t <> TABLE_ROW -> grows st st'.
Proof.
  destruct st as [b c]. unfold step_leaf. intros H Ht1 Ht2.
  pair_add H. inv_res H. subst.
  eapply grows_one; [|done|done]. cbn [fst].
  assert (forall (x : bool) ls b, drafts (if x then add_links ls b else b) = drafts b) as Hif by by intros [].
  destruct (previous_reference_leaf c); [case_bool_decide; [|destruct (_ && is_notice m)]|];
    try (inv_res Hr); repeat match goal with H : Ok _ = Ok _ |- _ => injection H as H end; subst;
    rewrite ?Hif; cbn [add_links drafts]; destruct (previous_page_last_semantic c); by rewrite ?Hif.
Qed.

Lemma drafts_if_links (x : bool) ls b : drafts (if x then add_links ls b else b) = drafts b.
Proof. by destruct x. Qed.

(** The leaf of a text line is of a leaf type other than a row. *)
Definition plain_place (w : nat * NodeType * MajorClass) : Prop := w.1.2 <> TABLE /\ w.1.2 <> TABLE_ROW.

Lemma step_major_grows line m st st' w : step_major line m st = Ok (st', w) -> grows st st' /\ plain_place w.
Proof.
  destruct st as [b c]. unfold step_major. intros H. pair_add H. cbv zeta in H. injection H as <- <-.
  split; [|done]. eapply grows_one; cbn [fst]; [rewrite drafts_if_links; reflexivity|done|done].
Qed.

Lemma step_item_grows profile line st st' w : step_item profile line st = Ok (st', w) -> grows st st' /\ plain_place w.
Proof.
  destruct st as [b c]. unfold step_item. intros H. inv_res H. pair_add H. cbv zeta in H. injection H as <- <-.
  split; [|done]. eapply grows_one; cbn [fst]; [destruct (last _); rewrite ?drafts_if_links; reflexivity|done|done].
Qed.

Lemma step_plain_grows profile line m st st' w : step_plain profile line m st = Ok (st', w) -> grows st st' /\ plain_place w.
Proof.
  unfold step_plain. intros H. inv_res H. destruct r as [st1 parent]. inv_res H. subst.
  apply ensure_item_grows in Hr as [Hg _]. split; [done|]. unfold plain_place. cbn [fst snd].
  repeat case_match; done.
Qed.

Lemma step_text_grows profile line st st' : step_text profile line st = Ok st' -> grows st st'.
Proof.
  unfold step_text. intros H. inv_res H. destruct r as [st1 [[parent t] m]].
  assert (grows st st1 /\ plain_place (parent, t, m)) as [Hg [Ht1 Ht2]].
  { destruct (heading_kind _ _) as [[]|]; [apply step_major_grows in Hr|apply step_item_grows in Hr|apply step_plain_grows in Hr];
      destruct Hr as [Hg Hp]; (split; [|exact Hp]); exact Hg. }
  eapply grows_trans; [exact Hg|]. by eapply step_leaf_grows.
Qed.

Lemma step_boilerplate_grows line st st' : step_boilerplate line st = Ok st' -> grows st st'.
Proof. destruct st as [b c]. intros [= <-]. by eapply grows_one. Qed.

Lemma step_blank_grows line st st' : step_blank line st = Ok st' -> grows st st'.
Proof. destruct st as [b c]. unfold step_blank. intros H. inv_res H. subst. by eapply grows_one. Qed.

(** ** Tables *)
Definition new_table (parent : nat) (m : MajorClass) (headers : list ustr) : NodeDraft :=
  {| nd_parent_index := Some parent; nd_node_type := TABLE; nd_major_class := m; nd_raw_heading := None; nd_spans := [];
     nd_table_headers := headers; nd_table_cells := []; nd_table_role := None |}.

Lemma open_table_shape rest boilerplate st st' t cont :
  open_table rest boilerplate st = Ok (st', t, cont) ->
  current_table st'.2 = Some t /\
  ((st' = st /\ current_table st.2 = Some t) \/
   (current_table st.2 = None /\ exists st1 parent m headers, grows st st1 /\ t = length (drafts st1.1) /\
     drafts st'.1 = drafts st1.1 ++ [new_table parent m headers])).
Proof.
  unfold open_table. destruct (current_table st.2) as [t0|] eqn:Et.
  - intros [= <- <- <-]. split; [done|]. by left.
  - intros H. inv_res H. destruct r as [[b c] parent]. apply ensure_item_grows in Hr as [Hg _]. inv_res H.
    destruct (previous_page_last_table c) as [prev|]; [destruct (_ && _)|]; inv_res H; pair_add H; injection H as <- <- <-;
      (split; [done|]; right; split; [done|]; exists (b, c); do 3 eexists; split; [done|]; split; reflexivity).
Qed.

Lemma headed_set_row ds t tb tb' row :
  headed ds -> ds !! t = Some tb -> nd_node_type tb = TABLE -> nd_node_type tb' = TABLE ->
  nd_table_headers tb' = nd_table_headers tb -> nd_node_type row = TABLE_ROW -> nd_parent_index row = Some t ->
  nd_table_headers row = nd_table_headers tb' -> headed (<[t:=tb']> ds ++ [row]).
Proof.
  intros [H1 H2] Htb Ht Ht' Hh Hr Hp Hrh.
  assert (forall i d, <[t:=tb']> ds !! i = Some d -> exists d0, ds !! i = Some d0 /\ (d = d0 \/ (i = t /\ d = tb'))) as Hins.
  { intros i d Hd. destruct (decide (i = t)) as [->|Hne].
    - rewrite list_lookup_insert_eq in Hd by by apply lookup_lt_Some in Htb. injection Hd as <-. eauto.
    - rewrite list_lookup_insert_ne in Hd by done. eauto. }
  assert (forall j tb0, ds !! j = Some tb0 -> exists tb1, (<[t:=tb']> ds ++ [row]) !! j = Some tb1 /\
            nd_table_headers tb1 = nd_table_headers tb0) as Hlook.
  { intros j tb0 Hj. destruct (decide (j = t)) as [->|Hne].
    - exists tb'. rewrite lookup_app_l_Some with (x := tb'); [split; congruence|].
      rewrite list_lookup_insert_eq; [done|by apply lookup_lt_Some in Htb].
    - exists tb0. rewrite lookup_app_l_Some with (x := tb0); [done|]. by rewrite list_lookup_insert_ne. }
  split.
  - intros i d [Hd|[_ Hd]]%lookup_app_Some Hty.
    + apply Hins in Hd as (d0 & Hd0 & [->|[-> ->]]); [by eauto|]. rewrite Hh. by eauto.
    + apply list_lookup_singleton_Some in Hd as [_ <-]. congruence.
  - intros i d j [Hd|[_ Hd]]%lookup_app_Some Hty Hpar.
    + apply Hins in Hd as (d0 & Hd0 & [->|[-> ->]]); [|congruence].
      destruct (H2 i d0 j Hd0 Hty Hpar) as (tb0 & Htb0 & E). apply Hlook in Htb0 as (tb1 & Htb1 & E1).
      exists tb1. split; [done|congruence].
    + apply list_lookup_singleton_Some in Hd as [_ <-]. rewrite Hp in Hpar. injection Hpar as <-.
      exists tb'. split; [|done]. apply lookup_app_l_Some. rewrite list_lookup_insert_eq; [done|by apply lookup_lt_Some in Htb].
Qed.

Lemma headed_new_table ds t tb tb' row :
  headed ds -> t = length ds -> nd_node_type tb' = TABLE -> nd_table_headers tb' <> [] ->
  nd_node_type row = TABLE_ROW -> nd_parent_index row = Some t ->
  nd_table_headers row = nd_table_headers tb' -> headed (<[t:=tb']> (ds ++ [tb]) ++ [row]).
Proof.
  intros [H1 H2] -> Ht' Hne Hr Hp Hrh.
  assert (<[length ds:=tb']> (ds ++ [tb]) = ds ++ [tb']) as ->.
  { replace (length ds) with (length ds + 0)%nat by lia. by rewrite insert_app_r. }
  split.
  - intros i d [[Hd|[_ Hd]]%lookup_app_Some|[_ Hd]]%lookup_app_Some Hty; [by eauto|..];
      apply list_lookup_singleton_Some in Hd as [_ <-]; congruence.
  - intros i d j [[Hd|[_ Hd]]%lookup_app_Some|[_ Hd]]%lookup_app_Some Hty Hpar.
    + destruct (H2 i d j Hd Hty Hpar) as (tb0 & Htb0 & E). exists tb0. split; [|done]. by do 2 apply lookup_app_l_Some.
    + apply list_lookup_singleton_Some in Hd as [_ <-]. congruence.
    + apply list_lookup_singleton_Some in Hd as [_ <-]. rewrite Hp in Hpar. injection Hpar as <-.
      exists tb'. split; [|done]. apply lookup_app_l_Some. by rewrite lookup_app_r, Nat.sub_diag.
Qed.

Lemma with_row_headers line cells tb :
  cells <> [] -> (nd_table_headers tb <> [] \/ is_table_separator cells = false) ->
  nd_table_headers (with_row line cells tb).1 <> [] /\
  (nd_table_headers tb <> [] -> nd_table_headers (with_row line cells tb).1 = nd_table_headers tb).
Proof.
  intros Hc H. cbn [with_row fst nd_table_headers]. case_bool_decide as E.
  - destruct H as [H| ->]; [done|]. by rewrite E.
  - cbn [andb]. by split.
Qed.

Lemma step_table_headed seen line rest boilerplate st st' :
  parse_inv seen seen None st -> headed (drafts st.1) ->
  (is_table_separator (table_cells (visible line)) = true -> current_table st.2 <> None) ->
  step_table line rest boilerplate st = Ok st' ->
  headed (drafts st'.1) /\ current_table st'.2 <> None.
Proof.
  intros Hinv Hh Hsep. unfold step_table. intros H. inv_res H. destruct r as [[[b c] t] cont]. inv_res H.
  match goal with H : open_table _ _ _ = _ |- _ => apply open_table_shape in H as [Hcur Hshape] end.
  match goal with H : get_draft _ _ = Ok _ |- _ => apply of_option_ok in H as Htb; rename r into tb end.
  cbn [fst snd] in *. pose proof (table_cells_nonempty (visible line)) as Hcells.
  set (cells := table_cells (visible line)) in *.
  pose proof (with_row_headers line cells tb Hcells) as Hwr.
  destruct (with_row line cells tb) as [tb' role] eqn:Erow. cbn [fst] in Hwr.
  assert (nd_node_type tb' = nd_node_type tb) as Hty' by by (unfold with_row in Erow; injection Erow as <- _).
  pair_add H. injection H as <-. cbn [fst snd].
  split; [|cbn; by rewrite Hcur].
  assert (forall x, drafts (match previous_page_last_semantic c with
            | Some prev => if page_first_semantic c && cont then add_links [mklink (length (drafts (set_draft t tb' b))) prev CONTINUATION_OF] x else x
            | None => x end) = drafts x) as ->
    by (intros; destruct (previous_page_last_semantic c); by rewrite ?drafts_if_links).
  cbn [add_node fst drafts set_draft]. destruct Hshape as [[<- Hcur0]|(Hnone & st1 & parent & m & headers & (new & Enew & Hnew) & -> & E)].
  - cbn [fst snd] in *.
    assert (nd_node_type tb = TABLE) as Hty.
    { apply (co_table _ _ (pi_cursor _ _ _ _ Hinv)) in Hcur0. cbn [fst] in Hcur0. unfold type_at in Hcur0.
      rewrite Htb in Hcur0. by injection Hcur0. }
    assert (nd_table_headers tb <> []) as Hne by by eapply (hd_tables _ Hh).
    destruct Hwr as [_ Hsame]; [by left|]. eapply headed_set_row; try done; [congruence|by apply Hsame].
  - rewrite E in Htb |- *. rewrite lookup_app_r, Nat.sub_diag in Htb by done. injection Htb as <-.
    assert (is_table_separator cells = false) as Hns.
    { destruct (is_table_separator cells); [|done]. by destruct (Hsep eq_refl). }
    destruct Hwr as [Hne _]; [by right|]. eapply headed_new_table; try done. rewrite Enew. by apply headed_plain.
Qed.

(** ** The text condition *)

(** A line the parser reads as a table row. *)
Definition row_line (boilerplate : list (Z * Z * Z)) (l : SourceLine) : bool :=
  let stripped := strip (visible l) in
  negb (bool_decide (line_key l ∈ boilerplate) || bool_decide (page_marker stripped <> None))
  && negb (bool_decide (stripped = [])) && is_table_line (visible l).

(** Every separator row of a page directly follows a row ([after_row]: the line
    before was one). *)
Fixpoint separators_follow (boilerplate : list (Z * Z * Z)) (after_row : bool) (lines : list SourceLine) : bool :=
  match lines with
  | [] => true
  | l :: lines =>
      (negb (row_line boilerplate l && is_table_separator (table_cells (visible l))) || after_row)
      && separators_follow boilerplate (row_line boilerplate l) lines
  end.

Definition separators_ok (profile : IssuerParserProfile) (pages_lines : list (list SourceLine)) : bool :=
  let boilerplate := repeated_edge_lines pages_lines profile in
  forallb (separators_follow boilerplate false) pages_lines.

Lemma step_line_headed profile boilerplate seen line rest st st' :
  parse_inv seen seen None st -> headed (drafts st.1) ->
  (row_line boilerplate line && is_table_separator (table_cells (visible line)) = true -> current_table st.2 <> None) ->
  step_line profile boilerplate st line rest = Ok st' ->
  headed (drafts st'.1) /\ (row_line boilerplate line = true -> current_table st'.2 <> None).
Proof.
  intros Hinv Hh Hsep. unfold step_line. unfold row_line in *. intros H. inv_res H.
  assert (grows st st' -> headed (drafts st'.1)) as Hgrow by (intros (new & -> & Hn); by apply headed_plain).
  destruct (_ || _); cbn [negb andb] in *; [split; [by eapply Hgrow, step_boilerplate_grows|done]|].
  case_bool_decide; cbn [negb andb] in *; [split; [by eapply Hgrow, step_blank_grows|done]|].
  destruct (is_table_line _); cbn [andb] in *; [|split; [by eapply Hgrow, step_text_grows|done]].
  destruct (step_table_headed _ _ _ _ _ _ Hinv Hh Hsep H). by split.
Qed.

Lemma step_lines_headed profile boilerplate lines : forall seen after st st',
  parse_inv seen seen None st -> headed (drafts st.1) -> (after = true -> current_table st.2 <> None) ->
  separators_follow boilerplate after lines = true -> forallb marker_ok lines = true ->
  step_lines profile boilerplate st lines = Ok st' -> headed (drafts st'.1).
Proof.
  induction lines as [|line lines IH]; intros seen after st st' Hinv Hh Hafter Hsep Hm H; cbn [step_lines] in H.
  - by injection H as <-.
  - cbn [separators_follow forallb] in Hsep, Hm. bsplit.
    destruct (step_line_ok profile boilerplate seen line lines st Hinv) as (st1 & E & Hinv1); [done|].
    rewrite E in H. cbn [res_bind] in H.
    destruct (step_line_headed profile boilerplate seen line lines st st1 Hinv Hh) as [Hh1 Ha1]; [|done|].
    { intros Hr. apply Hafter. match goal with H : negb _ || after = true |- _ => rewrite Hr in H; exact H end. }
    by eapply (IH _ _ _ _ Hinv1 Hh1 Ha1).
Qed.

Lemma pages_headed profile boilerplate pages_lines : forall seen st st',
  parse_inv seen seen None st -> headed (drafts st.1) ->
  forallb (separators_follow boilerplate false) pages_lines = true -> forallb (forallb marker_ok) pages_lines = true ->
  foldM (step_page profile boilerplate) st pages_lines = Ok st' -> headed (drafts st'.1).
Proof.
  induction pages_lines as [|lines pages_lines IH]; intros seen st st' Hinv Hh Hsep Hm H; cbn [foldM] in H.
  - by injection H as <-.
  - cbn [forallb] in Hsep, Hm. bsplit. pose proof (step_page_ok profile boilerplate lines seen st Hinv) as Hp.
    match goal with H : forallb marker_ok lines = true |- _ => rewrite H in Hp; rename H into Hml end.
    destruct Hp as (st1 & E & Hinv1). rewrite E in H. cbn [res_bind] in H.
    eapply (IH _ _ _ Hinv1); [|done..]. unfold step_page in E. inv_res E. subst. cbn [fst].
    destruct st as [b c]. cbn [fst snd] in *.
    eapply (step_lines_headed profile boilerplate lines seen false (b, begin_page c)); [|done..].
    eapply inv_cursor; [exact Hinv|]. apply pi_cursor in Hinv. auto with structure.
Qed.

(** C35: a document whose Markdown separator rows all follow another table row is
    never refused: inputs that pass the checks, with no foreign page marker, give
    an artifact. *)
Theorem parse_accepts records i k :
  check_inputs records i = Ok k -> markers_ok records = true ->
  separators_ok (ck_profile k) (map source_lines records) = true ->
  exists a, (let! b := parse_drafts (ck_profile k) (map source_lines records) in build_from_drafts i k b) = Ok a /\
    (sha_separates (map node_bytes (sa_nodes a)) -> parse_structure_artifact records i = Ok a).
Proof.
  intros Hk Hm Hsep. destruct (parse_outcome records i k Hk Hm) as (b & nodes & links & Hb & Hbuild & Hout).
  exists (make_artifact i k nodes links). rewrite Hb. cbn [res_bind]. split; [done|]. intros Hs.
  destruct (Hout Hs) as [_ ->]. rewrite headed_share; [done|].
  unfold parse_drafts in Hb. inv_res Hb. subst. cbn [add_links drafts].
  eapply (pages_headed _ _ _ [] _ _ initial_inv); [|done..].
  split; [intros [|?] d Hd; [|done]|intros [|?] d t Hd; [|done]]; by injection Hd as <-.
Qed.

Lemma parse_accepts_witness :
  exists a, (let! b := parse_drafts (ck_profile sample_checked) (map source_lines sample_records) in
             build_from_drafts sample_inputs sample_checked b) = Ok a /\
    (sha_separates (map node_bytes (sa_nodes a)) -> parse_structure_artifact sample_records sample_inputs = Ok a).
Proof. apply parse_accepts; vm_compute; reflexivity. Defined.

(** ** A table that opens with a separator *)
Definition separator_first_records : list PageRecord := [record 1 (us "|---|---|" ++ newline ++ us "|1|2|")].

