(* ===== verification/StructureViews.v ===== *)
(** Derived views of a structure artifact (the last part of
    [cardrag_worker/structure.py]).

    A view quotes spans of one node for the embedding model.  [build_derived_views]
    makes titles, item texts with and without context, sections and the whole
    contract where they fit the limits, and splits an item that does not fit at
    leaf boundaries; [validate_derived_views] checks the result.  The token counter
    is the caller's: an argument that may itself raise. *)
From S2P Require Export StructureSound StructureParse.

Definition STRUCTURE_VIEW_SCHEMA : ustr := us "cardrag.structure-views.v1".

Record DerivedView := {
  vw_view_id : ustr;
  vw_contract_revision_id : ustr;
  vw_node_id : ustr;
  vw_parent_item_id : option ustr;
  vw_view_type : ViewType;
  vw_ordinal : Z;
  vw_display_text : ustr;
  vw_embedding_input : ustr;
  vw_spans : list NodeSpan;
  vw_context : list ustr;
  vw_input_sha256 : ustr;
}.

Definition view_identity_members (v : DerivedView) : list (ustr * json) :=
  [(us "context", JStrs (vw_context v));
   (us "contract_revision_id", JStr (vw_contract_revision_id v));
   (us "display_text", JStr (vw_display_text v));
   (us "embedding_input", JStr (vw_embedding_input v));
   (us "input_sha256", JStr (vw_input_sha256 v));
   (us "node_id", JStr (vw_node_id v));
   (us "ordinal", JInt (vw_ordinal v));
   (us "parent_item_id", JOpt (vw_parent_item_id v));
   (us "spans", JArr (map span_payload (vw_spans v)));
   (us "view_type", JStr (view_type_str (vw_view_type v)))].
Definition view_identity_payload (v : DerivedView) : json := JObj (view_identity_members v).
Definition view_payload (v : DerivedView) : json := JObj ((us "view_id", JStr (vw_view_id v)) :: view_identity_members v).
Definition view_id (v : DerivedView) : ustr := us "view_" ++ canonical_sha256 (view_identity_payload v).
Definition with_view_id (id : ustr) (v : DerivedView) : DerivedView :=
  {| vw_view_id := id; vw_contract_revision_id := vw_contract_revision_id v; vw_node_id := vw_node_id v;
     vw_parent_item_id := vw_parent_item_id v; vw_view_type := vw_view_type v; vw_ordinal := vw_ordinal v;
     vw_display_text := vw_display_text v; vw_embedding_input := vw_embedding_input v; vw_spans := vw_spans v;
     vw_context := vw_context v; vw_input_sha256 := vw_input_sha256 v |}.

(** ** Spans and limits *)
Definition span_dict_key (s : NodeSpan) : Z * Z * Z * ustr := (sp_page s, sp_source_start s, sp_source_end s, sp_text_sha256 s).
Definition span_leb (s t : NodeSpan) : bool :=
  triple_leb (sp_page s, sp_source_start s, sp_source_end s) (sp_page t, sp_source_start t, sp_source_end t).
Definition renumber (spans : list NodeSpan) : list NodeSpan :=
  map (fun os => span_with_ordinal os.2 os.1 None) (enumerate spans).
Definition ordered_unique_spans (spans : list NodeSpan) : list NodeSpan :=
  renumber (sorted_by span_leb (dict_of (map (fun s => (span_dict_key s, s)) spans)).*2).

Definition spans_text (a : StructureArtifact) (spans : list NodeSpan) : res ustr := draft_display (sa_pages a) spans.

Record view_limits := {
  maximum_chars : Z;
  maximum_tokens : option Z;
  token_counter : option (ustr -> res Z);
}.

Definition within_limits (lim : view_limits) (text : ustr) : res bool :=
  if maximum_chars lim <? zlen text then Ok false
  else
    match maximum_tokens lim with
    | None => Ok true
    | Some tokens =>
        let! counter := of_option (ValueError "maximum_tokens requires an exact token_counter") (token_counter lim) in
        let! count := counter text in
        let! _ := raise_if (count <? 0) (ValueError "token_counter returned a negative count") in
        Ok (count <=? tokens)
    end.

Definition contextual (t : ViewType) : bool := match t with V_CONTEXTUAL_ITEM | V_DETAIL => true | _ => false end.
Definition embedding_input (t : ViewType) (display_text : ustr) (context : list ustr) : ustr :=
  if negb (contextual t) || bool_decide (context = []) then display_text
  else join [10%N] (context ++ [display_text]).

(** ** Ancestors and descendants *)

(** The walk from a node to the root, keeping the nodes with a heading; the
    number of nodes bounds it. *)
Fixpoint heading_lineage (fuel : nat) (nodes : list StructureNode) (node : StructureNode) : option (list StructureNode) :=
  match fuel with
  | O => None
  | S fuel =>
      let headed := if bool_decide (sn_raw_heading node = None) then [] else [node] in
      match (match sn_parent_id node with None => None | Some id => find_node nodes id end) with
      | None => Some headed
      | Some parent => (fun l => headed ++ l) <$> heading_lineage fuel nodes parent
      end
  end.
Definition ancestor_headings (a : StructureArtifact) (node : StructureNode) : res (list StructureNode) :=
  let! lineage := of_option OutOfFuel (heading_lineage (S (length (sa_nodes a))) (sa_nodes a) node) in
  Ok (rev lineage).
Definition heading_spans (a : StructureArtifact) (node : StructureNode) : res (list NodeSpan) :=
  let! headings := ancestor_headings a node in
  Ok (ordered_unique_spans (headings ≫= sn_spans)).

Definition child_nodes (nodes : list StructureNode) (node : StructureNode) : list StructureNode :=
  filter (fun n => sn_parent_id n = Some (sn_node_id node)) nodes.
(** The stack loop of [descendants]; the head of the list is the top. *)
Fixpoint descend (fuel : nat) (nodes stack result : list StructureNode) : option (list StructureNode) :=
  match stack with
  | [] => Some result
  | child :: stack =>
      match fuel with
      | O => None
      | S fuel => descend fuel nodes (child_nodes nodes child ++ stack) (result ++ [child])
      end
  end.
Definition descendants (a : StructureArtifact) (node : StructureNode) : res (list StructureNode) :=
  of_option OutOfFuel (descend (length (sa_nodes a)) (sa_nodes a) (child_nodes (sa_nodes a) node) []).
Definition leaf_nodes (a : StructureArtifact) (node : StructureNode) : res (list StructureNode) :=
  let! below := descendants a node in
  Ok (filter (fun n => is_leaf_type (sn_node_type n) = true) below).

Definition context_line (label value : ustr) : ustr := label ++ us ": " ++ value.
Definition canonical_item_context (a : StructureArtifact) (item : StructureNode) : res (list ustr) :=
  let effective_date :=
    match sa_effective_date a with
    | Some d => if bool_decide (d = []) then CONTEXT_EFFECTIVE_DATE_NULL else d
    | None => CONTEXT_EFFECTIVE_DATE_NULL
    end in
  let values := [sa_issuer a; sa_product_name a; sa_product_code a; sa_source_version a; effective_date;
                 sa_contract_revision_id a; major_class_str (sn_major_class item)] in
  let context := zip_with context_line CONTEXT_FIELD_ORDER values in
  let! headings := ancestor_headings a item in
  Ok (context ++ (headings ≫= fun n => match sn_raw_heading n with
                                        | Some h => [context_line CONTEXT_HEADING_LABEL h]
                                        | None => []
                                        end)).

(** ** Splitting an item *)
Definition leaf_too_long : exn := sve "one structural leaf exceeds the view limit; automatic truncation is forbidden".

Definition partition_unit (a : StructureArtifact) (lim : view_limits) (context : list ustr)
    (st : list (list NodeSpan) * list NodeSpan) (unit_spans : list NodeSpan) : res (list (list NodeSpan) * list NodeSpan) :=
  let '(groups, pending) := st in
  let normalized_unit := ordered_unique_spans unit_spans in
  let! text := spans_text a normalized_unit in
  let! fits := within_limits lim (embedding_input V_DETAIL text context) in
  let! _ := raise_if (negb fits) leaf_too_long in
  let candidate := ordered_unique_spans (pending ++ normalized_unit) in
  let! candidate_text := spans_text a candidate in
  let! full :=
    if bool_decide (pending = []) then Ok false
    else let! fits := within_limits lim (embedding_input V_DETAIL candidate_text context) in Ok (negb fits) in
  if full then Ok (groups ++ [ordered_unique_spans pending], normalized_unit)
  else Ok (groups, pending ++ normalized_unit).

Definition partition_spans (a : StructureArtifact) (lim : view_limits) (context : list ustr) (span_units : list (list NodeSpan))
    : res (list (list NodeSpan)) :=
  let! st := foldM (partition_unit a lim context) ([], []) span_units in
  Ok (if bool_decide (st.2 = []) then st.1 else st.1 ++ [ordered_unique_spans st.2]).

(** ** Validation *)
Definition validate_view_source (a : StructureArtifact) (lim : view_limits) (v : DerivedView) : res unit :=
  let! _ := raise_if (bool_decide (vw_spans v = [])) (sve "derived view has no source spans") in
  let! _ := mapM_res (validate_span (sa_pages a)) (vw_spans v) in
  let! source_text := spans_text a (vw_spans v) in
  let! _ := raise_if (negb (bool_decide (source_text = vw_display_text v)))
              (sve "derived display_text is not the exact source spans") in
  let! _ := raise_if (negb (bool_decide (vw_embedding_input v = embedding_input (vw_view_type v) (vw_display_text v) (vw_context v))))
              (sve "derived embedding_input does not match its view policy") in
  let! _ := raise_if (negb (bool_decide (sha256_bytes (utf8_encode (vw_embedding_input v)) = vw_input_sha256 v)))
              (sve "derived view input hash does not match embedding_input") in
  let! fits := within_limits lim (vw_embedding_input v) in
  let! _ := raise_if (negb fits) (sve "derived view exceeds its sealed limit") in
  raise_if (negb (bool_decide (vw_view_id v = view_id (with_view_id [] v))))
    (sve "derived view id does not match its canonical payload").

Definition validate_view_context (a : StructureArtifact) (node : StructureNode) (v : DerivedView) : res unit :=
  if contextual (vw_view_type v) then
    let! _ := raise_if (negb (bool_decide (sn_node_type node = ITEM))) (sve "contextual derived view must reference an ITEM") in
    let! expected := canonical_item_context a node in
    raise_if (negb (bool_decide (vw_context v = expected)))
      (sve "derived contextual metadata does not match its structure artifact")
  else raise_if (negb (bool_decide (vw_context v = []))) (sve "non-contextual derived view contains metadata context").

Definition validate_view_parent (a : StructureArtifact) (v : DerivedView) : res unit :=
  let! _ :=
    match vw_parent_item_id v with
    | None => Ok tt
    | Some id =>
        match find_node (sa_nodes a) id with
        | Some parent_item =>
            let! _ := raise_if (negb (bool_decide (sn_node_type parent_item = ITEM))) (sve "DETAIL view lost its parent ITEM") in
            raise_if (negb (bool_decide (sn_contract_revision_id parent_item = vw_contract_revision_id v)))
              (sve "derived parent item crosses a contract revision")
        | None => Err (sve "DETAIL view lost its parent ITEM")
        end
    end in
  let! _ := raise_if (bool_decide (vw_view_type v = V_DETAIL) && negb (bool_decide (vw_parent_item_id v = Some (vw_node_id v))))
              (sve "DETAIL view lost its canonical parent ITEM") in
  raise_if (negb (bool_decide (vw_view_type v = V_DETAIL)) && negb (bool_decide (vw_parent_item_id v = None)))
    (sve "non-DETAIL view cannot reference a parent ITEM").

Definition validate_view (a : StructureArtifact) (lim : view_limits) (expected : Z * DerivedView) : res unit :=
  let '(expected_ordinal, v) := expected in
  let! _ := raise_if (negb (vw_ordinal v =? expected_ordinal)) (sve "derived view ordinals are not canonical") in
  let! node := of_option (sve "derived view references a node outside its artifact") (find_node (sa_nodes a) (vw_node_id v)) in
  let! _ := raise_if (negb (bool_decide (vw_contract_revision_id v = sa_contract_revision_id a))
                      || negb (bool_decide (sn_contract_revision_id node = vw_contract_revision_id v)))
              (sve "derived view crosses a contract revision") in
  let! _ := validate_view_context a node v in
  let! _ := validate_view_parent a v in
  validate_view_source a lim v.

Definition validate_derived_views (a : StructureArtifact) (views : list DerivedView) (lim : view_limits) : res unit :=
  let! _ := validate_structure_artifact a in
  let! _ := raise_if (negb (bool_decide (NoDup (map vw_view_id views)))) (sve "derived view ids are not unique") in
  forM (validate_view a lim) (enumerate views).

(** ** Building *)
Definition append_view (a : StructureArtifact) (lim : view_limits) (node : StructureNode) (t : ViewType)
    (spans : list NodeSpan) (context : list ustr) (parent_item_id : option ustr) (views : list DerivedView)
    : res (list DerivedView) :=
  let normalized_spans := ordered_unique_spans spans in
  let! display_text := spans_text a normalized_spans in
  if bool_decide (display_text = []) then Ok views
  else
    let input := embedding_input t display_text context in
    let! fits := within_limits lim input in
    let! _ := raise_if (negb fits) (sve (view_type_name t ++ " exceeds its sealed limit; automatic truncation is forbidden")%string) in
    let provisional :=
      {| vw_view_id := []; vw_contract_revision_id := sa_contract_revision_id a; vw_node_id := sn_node_id node;
         vw_parent_item_id := parent_item_id; vw_view_type := t; vw_ordinal := zlen views;
         vw_display_text := display_text; vw_embedding_input := input; vw_spans := normalized_spans;
         vw_context := context; vw_input_sha256 := sha256_bytes (utf8_encode input) |} in
    Ok (views ++ [with_view_id (view_id provisional) provisional]).

Definition title_view (a : StructureArtifact) (lim : view_limits) (views : list DerivedView) (node : StructureNode)
    : res (list DerivedView) :=
  let! spans := heading_spans a node in
  let! text := spans_text a spans in
  let! fits := within_limits lim text in
  let! _ := raise_if (negb fits) (sve "TITLE exceeds its sealed limit; headings cannot be truncated") in
  append_view a lim node V_TITLE spans [] None views.

Definition item_views (a : StructureArtifact) (lim : view_limits) (views : list DerivedView) (item : StructureNode)
    : res (list DerivedView) :=
  let! leaves := leaf_nodes a item in
  let raw_spans := ordered_unique_spans (leaves ≫= sn_spans) in
  if bool_decide (raw_spans = []) then Ok views
  else
    let! raw_text := spans_text a raw_spans in
    let! context := canonical_item_context a item in
    let! headings := heading_spans a item in
    let contextual_spans := ordered_unique_spans (headings ++ raw_spans) in
    let! raw_fits := within_limits lim raw_text in
    let! contextual_display := spans_text a contextual_spans in
    let! contextual_fits := within_limits lim (embedding_input V_CONTEXTUAL_ITEM contextual_display context) in
    let! views := if raw_fits then append_view a lim item V_RAW_ITEM raw_spans [] None views else Ok views in
    let! views := if contextual_fits then append_view a lim item V_CONTEXTUAL_ITEM contextual_spans context None views else Ok views in
    if negb raw_fits || negb contextual_fits then
      let! groups := partition_spans a lim context (map sn_spans leaves) in
      foldM (fun views group => append_view a lim item V_DETAIL group context (Some (sn_node_id item)) views) views groups
    else Ok views.

Definition section_view (a : StructureArtifact) (lim : view_limits) (views : list DerivedView) (section : StructureNode)
    : res (list DerivedView) :=
  let! leaves := leaf_nodes a section in
  let spans := ordered_unique_spans (leaves ≫= sn_spans) in
  let! text := spans_text a spans in
  if bool_decide (spans = []) then Ok views
  else
    let! fits := within_limits lim text in
    if fits then append_view a lim section V_MAJOR_SECTION spans [] None views else Ok views.

Definition contract_view (a : StructureArtifact) (lim : view_limits) (views : list DerivedView) : res (list DerivedView) :=
  let! root := of_option (Raised "StopIteration" "") (find (fun n => bool_decide (sn_node_type n = ROOT)) (sa_nodes a)) in
  let spans := ordered_unique_spans (leaf_spans a) in
  let! text := spans_text a spans in
  let! fits := within_limits lim text in
  if fits then append_view a lim root V_CONTRACT spans [] None views else Ok views.

Definition check_limits (lim : view_limits) : res unit :=
  let! _ := raise_if ((maximum_chars lim <? 1) || match maximum_tokens lim with Some t => t <? 1 | None => false end)
              (ValueError "derived view limits must be positive") in
  raise_if (bool_decide (is_Some (maximum_tokens lim)) && match token_counter lim with None => true | Some _ => false end)
    (ValueError "maximum_tokens requires an exact token_counter").

Definition is_title_node (n : StructureNode) : bool :=
  match sn_node_type n with MAJOR_SECTION | ITEM => true | _ => false end && negb (bool_decide (sn_raw_heading n = None)).
Definition is_view_section (n : StructureNode) : bool :=
  bool_decide (sn_node_type n = MAJOR_SECTION) && match sn_major_class n with BENEFIT | NOTICE => true | _ => false end.

Definition build_derived_views (a : StructureArtifact) (lim : view_limits) : res (list DerivedView) :=
  let! _ := check_limits lim in
  let! _ := validate_structure_artifact a in
  let! views := foldM (title_view a lim) [] (filter (fun n => is_title_node n = true) (sa_nodes a)) in
  let! views := foldM (item_views a lim) views (filter (fun n => sn_node_type n = ITEM) (sa_nodes a)) in
  let! views := foldM (section_view a lim) views (filter (fun n => is_view_section n = true) (sa_nodes a)) in
  let! views := contract_view a lim views in
  let! _ := validate_derived_views a views lim in
  Ok views.
