(* ===== verification/StructureViewsProof.v ===== *)
(** What the derived views guarantee. *)
From S2P Require Export StructureViews StructureTotal.

(** ** Renumbering and ordering *)
Definition unordered (s : NodeSpan) : NodeSpan := span_with_ordinal s 0 None.

Lemma renumber_from_unordered n l l' :
  map unordered l = map unordered l' ->
  map (fun os => span_with_ordinal os.2 os.1 None) (enumerate_from n l) =
  map (fun os => span_with_ordinal os.2 os.1 None) (enumerate_from n l').
Proof.
  revert n l'. induction l as [|s l IH]; intros n [|s' l'] H; try done. cbn in *.
  injection H as H1 H2 H3 H4 H5 H. rewrite (IH _ l') by done. f_equal. unfold span_with_ordinal. congruence.
Qed.

Lemma renumber_unordered l l' : map unordered l = map unordered l' -> renumber l = renumber l'.
Proof. apply renumber_from_unordered. Qed.

Lemma unordered_renumber l : map unordered (renumber l) = map unordered l.
Proof.
  unfold renumber, enumerate. generalize 0. induction l as [|s l IH]; intros n; [done|]. cbn. by rewrite IH.
Qed.

Lemma renumber_idem l : renumber (renumber l) = renumber l.
Proof. apply renumber_unordered, unordered_renumber. Qed.

Lemma renumber_app_r l1 l2 : renumber (l1 ++ renumber l2) = renumber (l1 ++ l2).
Proof. apply renumber_unordered. by rewrite !map_app, unordered_renumber. Qed.

Lemma renumber_nil l : renumber l = [] <-> l = [].
Proof. destruct l; cbn; split; done. Qed.

Lemma span_key_unordered l l' : map unordered l = map unordered l' -> map span_key l = map span_key l'.
Proof.
  revert l'. induction l as [|s l IH]; intros [|s' l'] H; try done. cbn in *. injection H as H1 H2 H3 H4 H5 H.
  unfold span_key at 1 3. rewrite (IH l') by done. congruence.
Qed.

Definition key_lt (x y : Z * Z * Z) : Prop := key_le x y /\ x <> y.

Lemma strict_le l : StronglySorted key_lt (map span_key l) -> StronglySorted (fun s t => span_leb s t = true) l.
Proof.
  induction l as [|s l IH]; intros H; [constructor|]. inversion H as [|? ? Hs Hx]; subst. constructor; [by apply IH|].
  rewrite Forall_forall in Hx. apply Forall_forall. intros t Ht. apply (Hx (span_key t)). apply list_elem_of_fmap. eauto.
Qed.

Lemma strict_NoDup l : StronglySorted key_lt (map span_key l) -> NoDup (map span_dict_key l).
Proof.
  induction l as [|s l IH]; intros H; [constructor|]. inversion H as [|? ? Hs Hx]; subst. constructor; [|by apply IH].
  intros (t & Ht & Hin)%list_elem_of_fmap. rewrite Forall_forall in Hx.
  destruct (Hx (span_key t)) as [_ Hne]; [apply list_elem_of_fmap; eauto|]. apply Hne.
  unfold span_dict_key in Ht. unfold span_key. congruence.
Qed.

(** On spans in strict source order nothing is dropped or moved. *)
Lemma ordered_unique_sorted l : StronglySorted key_lt (map span_key l) -> ordered_unique_spans l = renumber l.
Proof.
  intros H. unfold ordered_unique_spans. f_equal.
  assert ((map (fun s => (span_dict_key s, s)) l).*1 = map span_dict_key l) as E1 by (by rewrite <- list_fmap_compose).
  rewrite dict_of_NoDup by (rewrite E1; by apply strict_NoDup).
  assert ((map (fun s => (span_dict_key s, s)) l).*2 = l) as -> by (rewrite <- list_fmap_compose; apply list_fmap_id).
  apply sorted_by_id. by apply strict_le.
Qed.

Lemma ordered_unique_spans_nil l : ordered_unique_spans l = [] -> l = [].
Proof.
  unfold ordered_unique_spans. rewrite renumber_nil. intros H. destruct l as [|s l]; [done|exfalso].
  apply (f_equal length) in H. rewrite (Permutation_length (sorted_by_Permutation _ _)), length_fmap in H.
  assert (forall d : list (Z * Z * Z * ustr * NodeSpan), d <> [] -> forall l, fold_left (fun d kv => dict_set kv.1 kv.2 d) l d <> []) as Hne.
  { intros d Hd m. revert d Hd. induction m as [|[k v] m IH]; intros d Hd; [done|]. cbn. apply IH.
    destruct d as [|[k' v'] d]; [done|]. cbn. by destruct (decide _). }
  cbn [map dict_of] in H. unfold dict_of in H. cbn [fold_left] in H.
  apply nil_length_inv in H. revert H. apply Hne. done.
Qed.

(** ** Splitting an item *)
Lemma draft_display_keys pages l l' : map span_key l = map span_key l' -> draft_display pages l = draft_display pages l'.
Proof.
  intros H. unfold draft_display. f_equal. revert l' H.
  induction l as [|s l IH]; intros [|s' l'] H; try done. cbn in H. injection H as H1 H2 H3 H.
  cbn [mapM_res]. rewrite H1, H2, H3, (IH l') by done. done.
Qed.

Lemma spans_text_renumber a l : spans_text a (renumber l) = spans_text a l.
Proof. apply draft_display_keys, span_key_unordered, unordered_renumber. Qed.

Lemma sorted_app_l {A} (R : A -> A -> Prop) l1 l2 : StronglySorted R (l1 ++ l2) -> StronglySorted R l1.
Proof. apply StronglySorted_sublist. by apply sublist_inserts_r. Qed.
Lemma sorted_app_r {A} (R : A -> A -> Prop) l1 l2 : StronglySorted R (l1 ++ l2) -> StronglySorted R l2.
Proof. apply StronglySorted_sublist. by apply sublist_inserts_l. Qed.

Section Partition.
Context (a : StructureArtifact) (lim : view_limits) (context : list ustr).

Definition detail_fits (spans : list NodeSpan) : Prop :=
  exists t, spans_text a spans = Ok t /\ within_limits lim (embedding_input V_DETAIL t context) = Ok true.

(** The groups so far and the pending spans are runs of whole units. *)
Record partition_inv (seen : list (list NodeSpan)) (st : list (list NodeSpan) * list NodeSpan) : Prop := {
  pv_runs : exists runs last_run, concat runs ++ last_run = seen /\
    st.1 = map (fun run => renumber (concat run)) runs /\ map unordered st.2 = map unordered (concat last_run);
  pv_groups : Forall (fun g => g <> [] /\ detail_fits g) st.1;
  pv_pending : st.2 <> [] -> detail_fits (renumber st.2);
}.

Lemma partition_unit_inv seen u st st' :
  StronglySorted key_lt (map span_key (concat (seen ++ [u]))) -> partition_inv seen st ->
  partition_unit a lim context st u = Ok st' -> partition_inv (seen ++ [u]) st'.
Proof.
  destruct st as [groups pending]. intros Hsort [(runs & last_run & Hseen & Hg & Hp) Hgroups Hpend] H. cbn [fst snd] in *.
  assert (StronglySorted key_lt (map span_key u)) as Hu.
  { rewrite concat_app, map_app in Hsort. apply sorted_app_r in Hsort. cbn in Hsort. by rewrite app_nil_r in Hsort. }
  assert (StronglySorted key_lt (map span_key (pending ++ renumber u))) as Hpu.
  { rewrite <- Hseen, concat_app, concat_app, <- app_assoc, map_app in Hsort. apply sorted_app_r in Hsort.
    cbn in Hsort. rewrite app_nil_r, map_app in Hsort. rewrite map_app.
    rewrite (span_key_unordered pending (concat last_run)) by done.
    by rewrite (span_key_unordered (renumber u) u) by apply unordered_renumber. }
  assert (StronglySorted key_lt (map span_key pending)) as Hpp by (rewrite map_app in Hpu; by apply sorted_app_l in Hpu).
  unfold partition_unit in H. rewrite (ordered_unique_sorted u Hu), (ordered_unique_sorted _ Hpu), (ordered_unique_sorted _ Hpp) in H.
  inv_res H. apply negb_false_iff in Hr1. subst r0.
  assert (detail_fits (renumber u)) as Hfit by by exists r.
  case_bool_decide as Ep.
  - injection Hr3 as <-. injection H as <-. subst pending. cbn [app] in *. split; cbn [fst snd]; [|done|].
    + exists runs, (last_run ++ [u]). split; [by rewrite app_assoc, ?Hseen|]. split; [done|].
      rewrite unordered_renumber, concat_app, map_app. cbn. rewrite app_nil_r. cbn in Hp.
      symmetry in Hp. by rewrite Hp.
    + intros _. by rewrite renumber_idem.
  - inv_res Hr3. match goal with H : within_limits _ _ = Ok ?x |- _ => rename x into fits; destruct fits end; cbn [negb] in *.
    + injection H as <-. split; cbn [fst snd]; [|done|].
      * exists runs, (last_run ++ [u]). split; [by rewrite app_assoc, ?Hseen|]. split; [done|].
        rewrite map_app, unordered_renumber, concat_app, map_app, Hp. cbn. by rewrite app_nil_r.
      * intros _. eexists. split; [exact Hr2|done].
    + injection H as <-. split; cbn [fst snd].
      * exists (runs ++ [last_run]), [u]. split; [rewrite concat_app; cbn; by rewrite app_nil_r, ?Hseen|].
        split; [|rewrite unordered_renumber; cbn; by rewrite app_nil_r].
        rewrite map_app. cbn. f_equal. f_equal. by apply renumber_unordered.
      * apply Forall_app. split; [done|]. constructor; [|done]. split; [by rewrite renumber_nil|by apply Hpend].
      * intros _. by rewrite renumber_idem.
Qed.

(** An item that is split keeps every span: the groups are runs of whole leaves,
    in order, and each fits the limits with its context. *)
Lemma partition_ok units groups :
  StronglySorted key_lt (map span_key (concat units)) ->
  partition_spans a lim context units = Ok groups ->
  (exists runs tail, concat runs ++ tail = units /\ concat tail = [] /\
     groups = map (fun run => renumber (concat run)) runs) /\
  Forall (fun g => g <> [] /\ detail_fits g) groups.
Proof.
  intros Hsort H. unfold partition_spans in H. inv_res H.
  match goal with H : foldM _ _ _ = Ok ?s |- _ => rename H into Hf; rename s into st end.
  assert (partition_inv units st) as [(runs & last_run & Hseen & Hg & Hp) Hgroups Hpend].
  { refine (foldM_ok_invariant _ partition_inv _ _ _ _ _ Hf).
    - split; cbn; [by exists [], []|done|done].
    - intros done_ u rest s s' -> Hs Hstep. eapply partition_unit_inv; [|exact Hs|exact Hstep].
      rewrite cons_middle, app_assoc in Hsort. rewrite concat_app, map_app in Hsort. by apply sorted_app_l in Hsort. }
  assert (map span_key st.2 = map span_key (concat last_run)) as Hkeys by by apply span_key_unordered.
  case_bool_decide as E.
  - split; [|done]. exists runs, last_run. split; [done|]. split; [|done]. rewrite E in Hkeys.
    destruct (concat last_run); [done|discriminate Hkeys].
  - rewrite <- Hseen, concat_app, map_app in Hsort. apply sorted_app_r in Hsort. rewrite <- Hkeys in Hsort.
    rewrite ordered_unique_sorted by done. split.
    + exists (runs ++ [last_run]), []. split; [rewrite concat_app; cbn; by rewrite !app_nil_r|]. split; [done|].
      rewrite map_app, Hg. cbn. f_equal. f_equal. by apply renumber_unordered.
    + apply Forall_app. split; [done|]. constructor; [|done]. split; [by rewrite renumber_nil|by apply Hpend].
Qed.
End Partition.

(** ** The walks over the tree *)
Section Tree.
Context (nodes : list StructureNode).
Hypothesis Hids : NoDup (map sn_node_id nodes).
Hypothesis Htree : forall n, n ∈ nodes -> sn_parent_id n = None \/
  exists p, p ∈ nodes /\ sn_parent_id n = Some (sn_node_id p) /\ sn_ordinal p < sn_ordinal n.

Lemma id_inj n m : n ∈ nodes -> m ∈ nodes -> sn_node_id n = sn_node_id m -> n = m.
Proof.
  intros Hn Hm E. pose proof (find_node_unique nodes n Hids Hn) as H1.
  pose proof (find_node_unique nodes m Hids Hm) as H2. rewrite E, H2 in H1. by injection H1.
Qed.

(** The walk to the root ends: ordinals decrease. *)
Lemma heading_lineage_total fuel n :
  n ∈ nodes -> (forall m, m ∈ nodes -> 0 <= sn_ordinal m) -> sn_ordinal n < Z.of_nat fuel ->
  exists l, heading_lineage fuel nodes n = Some l /\ Forall (fun m => m ∈ nodes /\ sn_raw_heading m <> None) l.
Proof.
  intros Hn Hpos. revert n Hn. induction fuel as [|fuel IH]; intros n Hn Hlt; [specialize (Hpos n Hn); lia|].
  cbn [heading_lineage].
  assert (Forall (fun m => m ∈ nodes /\ sn_raw_heading m <> None) (if bool_decide (sn_raw_heading n = None) then [] else [n])) as Hh.
  { case_bool_decide; by repeat constructor. }
  destruct (Htree n Hn) as [->|(p & Hp & -> & Hord)]; [eauto|]. rewrite find_node_unique by done.
  destruct (IH p Hp) as (l & -> & Hl); [lia|]. eexists. split; [reflexivity|]. by apply Forall_app.
Qed.

(** [below n x]: [x] is a proper descendant of [n]. *)
Inductive below (n : StructureNode) : StructureNode -> Prop :=
| below_child c : c ∈ nodes -> sn_parent_id c = Some (sn_node_id n) -> below n c
| below_step p c : below n p -> c ∈ nodes -> sn_parent_id c = Some (sn_node_id p) -> below n c.

Lemma child_ordinal p c : p ∈ nodes -> c ∈ nodes -> sn_parent_id c = Some (sn_node_id p) -> sn_ordinal p < sn_ordinal c.
Proof.
  intros Hp Hc E. destruct (Htree c Hc) as [E'|(q & Hq & E' & Hlt)]; [congruence|].
  rewrite E in E'. injection E' as E'. by rewrite (id_inj p q).
Qed.

Lemma below_in n x : below n x -> x ∈ nodes.
Proof. by destruct 1. Qed.

Lemma below_ordinal n x : n ∈ nodes -> below n x -> sn_ordinal n < sn_ordinal x.
Proof.
  intros Hn. induction 1 as [c Hc E|p c Hp IH Hc E]; [by apply child_ordinal|].
  pose proof (child_ordinal p c (below_in _ _ Hp) Hc E). lia.
Qed.

Lemma child_nodes_elem p c : c ∈ child_nodes nodes p <-> c ∈ nodes /\ sn_parent_id c = Some (sn_node_id p).
Proof. unfold child_nodes. rewrite list_elem_of_filter. naive_solver. Qed.

Record descend_inv (n : StructureNode) (stack result : list StructureNode) : Prop := {
  di_nodup : NoDup (n :: result ++ stack);
  di_parent : forall x, x ∈ result ++ stack -> exists p, p ∈ n :: result /\ sn_parent_id x = Some (sn_node_id p);
  di_closed : forall p c, p ∈ n :: result -> c ∈ nodes -> sn_parent_id c = Some (sn_node_id p) -> c ∈ result ++ stack;
  di_below : forall x, x ∈ result ++ stack -> below n x;
}.

Lemma nodes_NoDup : NoDup nodes.
Proof. eapply NoDup_fmap_1. exact Hids. Qed.

Lemma descend_inv_start n : n ∈ nodes -> descend_inv n (child_nodes nodes n) [].
Proof.
  intros Hn. split; cbn [app].
  - apply NoDup_cons. split; [|apply NoDup_filter, nodes_NoDup].
    intros [_ E]%child_nodes_elem. pose proof (child_ordinal n n Hn Hn E). lia.
  - intros x [_ E]%child_nodes_elem. exists n. split; [by left|done].
  - intros p c ->%list_elem_of_singleton Hc E. by apply child_nodes_elem.
  - intros x [Hx E]%child_nodes_elem. by apply below_child.
Qed.

Lemma descend_inv_step n child stack result :
  n ∈ nodes -> descend_inv n (child :: stack) result ->
  descend_inv n (child_nodes nodes child ++ stack) (result ++ [child]).
Proof.
  intros Hn [Hnd Hpar Hclosed Hbelow].
  assert (below n child) as Hb by (apply Hbelow, elem_of_app; right; by left).
  pose proof (below_in _ _ Hb) as Hc. pose proof (below_ordinal _ _ Hn Hb) as Hord.
  assert (child ∉ n :: result) as Hnew.
  { intros Hin. change (n :: result ++ child :: stack) with ((n :: result) ++ child :: stack) in Hnd.
    apply NoDup_app in Hnd as (_ & H & _). apply (H child Hin). by left. }
  assert (forall x, x ∈ (result ++ [child]) ++ child_nodes nodes child ++ stack <->
                    x ∈ result ++ child :: stack \/ x ∈ child_nodes nodes child) as Helem.
  { intros x. rewrite !elem_of_app, list_elem_of_singleton, elem_of_cons. tauto. }
  split.
  - assert (n :: (result ++ [child]) ++ child_nodes nodes child ++ stack ≡ₚ (n :: result ++ child :: stack) ++ child_nodes nodes child) as ->.
    { cbn. rewrite <- !app_assoc. cbn. by rewrite (Permutation_app_comm (child_nodes nodes child)). }
    apply NoDup_app. split; [done|]. split; [|apply NoDup_filter, nodes_NoDup].
    intros x Hx [Hxn E]%child_nodes_elem. apply elem_of_cons in Hx as [->|Hx].
    + pose proof (child_ordinal child n Hc Hn E). lia.
    + destruct (Hpar x Hx) as (p & Hp & E'). rewrite E in E'. injection E' as E'.
      assert (p ∈ nodes) as Hpn.
      { apply elem_of_cons in Hp as [->|Hp]; [done|]. apply (below_in n), Hbelow, elem_of_app. by left. }
      rewrite (id_inj child p) in Hnew by done. done.
  - intros x [Hx|[Hx E]%child_nodes_elem]%Helem.
    + destruct (Hpar x Hx) as (p & Hp & E). exists p. split; [|done].
      apply elem_of_cons in Hp as [->|Hp]; [by left|]. right. apply elem_of_app. by left.
    + exists child. split; [right; apply elem_of_app; right; by left|done].
  - intros p c Hp Hcn E. apply Helem. apply elem_of_cons in Hp as [->|Hp]; [left; apply (Hclosed n); [by left|done..]|].
    apply elem_of_app in Hp as [Hp| ->%list_elem_of_singleton].
    + left. apply (Hclosed p); [by right|done..].
    + right. by apply child_nodes_elem.
  - intros x [Hx|[Hx E]%child_nodes_elem]%Helem; [by apply Hbelow|]. by eapply below_step.
Qed.

Lemma descend_total fuel n : forall stack result,
  n ∈ nodes -> descend_inv n stack result -> (length nodes <= fuel + length result)%nat ->
  exists l, descend fuel nodes stack result = Some l /\ descend_inv n [] l.
Proof.
  induction fuel as [|fuel IH]; intros [|child stack] result Hn Hinv Hfuel; cbn [descend]; [by eauto| |by eauto|].
  - exfalso. pose proof (di_nodup _ _ _ Hinv) as Hnd. apply NoDup_cons in Hnd as [_ Hnd].
    assert (length (result ++ child :: stack) <= length nodes)%nat as Hlen.
    { apply submseteq_length, NoDup_submseteq; [done|]. intros x Hx. by eapply below_in, di_below. }
    rewrite length_app in Hlen. cbn in Hlen. lia.
  - apply IH; [done|by apply descend_inv_step|]. rewrite length_app. cbn. lia.
Qed.

Lemma descendants_exact n :
  n ∈ nodes -> exists l, descend (length nodes) nodes (child_nodes nodes n) [] = Some l /\ NoDup l /\ forall x, x ∈ l <-> below n x.
Proof.
  intros Hn. destruct (descend_total (length nodes) n _ _ Hn (descend_inv_start n Hn)) as (l & Hl & [Hnd _ Hclosed Hb]); [lia|].
  rewrite app_nil_r in *. exists l. split; [done|]. apply NoDup_cons in Hnd as [_ Hnd]. split; [done|].
  intros x. split; [apply Hb|]. induction 1 as [c Hc E|p c Hp IH Hc E].
  - apply (Hclosed n c); [by left|done..].
  - apply (Hclosed p c); [by right|done..].
Qed.
End Tree.

(** Accepted artifacts are trees in this sense. *)
Lemma validated_tree a cov :
  validate_structure_artifact a = Ok cov ->
  NoDup (map sn_node_id (sa_nodes a)) /\ (forall n, n ∈ sa_nodes a -> 0 <= sn_ordinal n < Z.of_nat (length (sa_nodes a))) /\
  forall n, n ∈ sa_nodes a -> sn_parent_id n = None \/
    exists p, p ∈ sa_nodes a /\ sn_parent_id n = Some (sn_node_id p) /\ sn_ordinal p < sn_ordinal n.
Proof.
  intros H. pose proof (validate_nodes_facts a cov H) as Hf. pose proof (validated_lossless a cov H) as Hl.
  split; [by apply la_ids|]. split.
  - intros n Hn. apply list_elem_of_lookup in Hn as [i Hi]. pose proof (nf_ordinal _ _ _ (Hf i n Hi)).
    apply lookup_lt_Some in Hi. lia.
  - intros n Hn. pose proof Hn as [i Hi]%list_elem_of_lookup.
    destruct (nf_parent _ _ _ (Hf i n Hi)) as [Hroot|(id & p & Hid & Hp & Hlt)].
    + left. destruct (la_tree a Hl n Hn) as [? _ _ Hnone|? id' p' _ Hid' Hp' _]; [done|].
      apply validate_parts in H as (_ & _ & Hr & _). by eapply validate_root_parentless.
    + right. exists p. apply find_node_elem in Hp as [Hin <-]. done.
Qed.

(** ** The properties *)

(** On an accepted artifact the stack walk ends and yields exactly the leaves
    below the node, each once. *)
Theorem leaf_nodes_exact a cov n :
  validate_structure_artifact a = Ok cov -> n ∈ sa_nodes a ->
  exists l, leaf_nodes a n = Ok l /\ NoDup l /\
    forall x, x ∈ l <-> below (sa_nodes a) n x /\ is_leaf_type (sn_node_type x) = true.
Proof.
  intros H Hn. apply validated_tree in H as (Hids & _ & Htree).
  destruct (descendants_exact (sa_nodes a) Hids Htree n Hn) as (l & Hl & Hnd & Hb).
  unfold leaf_nodes, descendants. rewrite Hl. cbn [of_option res_bind]. eexists. split; [reflexivity|].
  split; [by apply NoDup_filter|]. intros x. rewrite list_elem_of_filter, Hb. tauto.
Qed.

Lemma ancestor_headings_total a cov n :
  validate_structure_artifact a = Ok cov -> n ∈ sa_nodes a -> exists l, ancestor_headings a n = Ok l.
Proof.
  intros H Hn. apply validated_tree in H as (Hids & Hpos & Htree).
  destruct (heading_lineage_total (sa_nodes a) Hids Htree (S (length (sa_nodes a))) n Hn) as (l & Hl & _).
  - intros m Hm. by apply Hpos.
  - specialize (Hpos n Hn). lia.
  - unfold ancestor_headings. rewrite Hl. cbn [of_option res_bind]. eauto.
Qed.

(** C33: splitting an item loses nothing: for spans in source order the groups are
    runs of whole leaves, in order, each within the limits together with its
    context. *)
Theorem partition_lossless a lim context units groups :
  StronglySorted key_lt (map span_key (concat units)) ->
  partition_spans a lim context units = Ok groups ->
  (exists runs tail, concat runs ++ tail = units /\ concat tail = [] /\
     groups = map (fun run => renumber (concat run)) runs) /\
  Forall (fun g => g <> [] /\ exists t, spans_text a g = Ok t /\
    within_limits lim (embedding_input V_DETAIL t context) = Ok true) groups.
Proof. intros Hs Hp. by apply partition_ok. Qed.

(** What a validated view promises. *)
Record sealed_view (a : StructureArtifact) (lim : view_limits) (v : DerivedView) : Prop := {
  sv_spans : vw_spans v <> [] /\ Forall (span_in_page (sa_pages a)) (vw_spans v);
  sv_display : vw_display_text v = concat (map (span_text (sa_pages a)) (vw_spans v));
  sv_input : vw_embedding_input v = embedding_input (vw_view_type v) (vw_display_text v) (vw_context v);
  sv_hash : vw_input_sha256 v = sha256_bytes (utf8_encode (vw_embedding_input v));
  sv_limits : within_limits lim (vw_embedding_input v) = Ok true;
  sv_node : exists n, n ∈ sa_nodes a /\ sn_node_id n = vw_node_id v /\
    (if contextual (vw_view_type v) then sn_node_type n = ITEM /\ canonical_item_context a n = Ok (vw_context v)
     else vw_context v = []);
  sv_parent : vw_parent_item_id v = if bool_decide (vw_view_type v = V_DETAIL) then Some (vw_node_id v) else None;
  sv_revision : vw_contract_revision_id v = sa_contract_revision_id a;
  sv_identity : vw_view_id v = view_id (with_view_id [] v);
}.

Lemma validate_view_parent_ok a v :
  validate_view_parent a v = Ok tt ->
  vw_parent_item_id v = if bool_decide (vw_view_type v = V_DETAIL) then Some (vw_node_id v) else None.
Proof.
  unfold validate_view_parent. intros H. inv_res H. case_bool_decide as E; cbn [negb andb] in *.
  - bsplit. done.
  - apply negb_false_iff, bool_decide_eq_true in H. done.
Qed.

Lemma validate_view_source_ok a lim v :
  validate_view_source a lim v = Ok tt ->
  vw_spans v <> [] /\ Forall (span_in_page (sa_pages a)) (vw_spans v) /\
  vw_display_text v = concat (map (span_text (sa_pages a)) (vw_spans v)) /\
  vw_embedding_input v = embedding_input (vw_view_type v) (vw_display_text v) (vw_context v) /\
  vw_input_sha256 v = sha256_bytes (utf8_encode (vw_embedding_input v)) /\
  within_limits lim (vw_embedding_input v) = Ok true /\ vw_view_id v = view_id (with_view_id [] v).
Proof.
  unfold validate_view_source. intros H. inv_res H.
  match goal with H : mapM_res _ _ = _ |- _ => apply validate_spans_texts in H as [Hin _] end.
  bsplit. unfold spans_text in *. rewrite draft_display_ok in * by done.
  match goal with H : Ok _ = Ok ?t |- _ => injection H as <- end. subst. by repeat split.
Qed.

Lemma validate_view_sealed a lim i v : validate_view a lim (i, v) = Ok tt -> sealed_view a lim v.
Proof.
  unfold validate_view. intros H. inv_res H. apply validate_view_source_ok in H as (H1 & H2 & H3 & H4 & H5 & H6 & H7).
  match goal with H : validate_view_parent _ _ = Ok ?u |- _ => destruct u; apply validate_view_parent_ok in H end.
  match goal with H : validate_view_context _ _ _ = Ok ?u |- _ => destruct u; rename H into Hctx end.
  match goal with H : find_node _ _ = Some ?n |- _ => apply find_node_elem in H as [Hn Hid]; rename n into node end.
  bsplit. split; try done. exists node. split; [done|]. split; [done|].
  unfold validate_view_context in Hctx. destruct (contextual _); inv_res Hctx; bsplit; [subst|done].
  split; [done|]. congruence.
Qed.

(** C34: views that pass the validator quote exact spans of one accepted artifact,
    within the limits, with the artifact's own context, and are content-addressed. *)
Theorem derived_views_sealed a views lim :
  validate_derived_views a views lim = Ok tt ->
  lossless_artifact a /\ NoDup (map vw_view_id views) /\ Forall (sealed_view a lim) views /\
  map vw_ordinal views = seqZ 0 (zlen views).
Proof.
  unfold validate_derived_views. intros H. inv_res H. bsplit.
  match goal with H : validate_structure_artifact _ = Ok _ |- _ => apply validated_lossless in H end.
  apply forM_unit in H. pose proof (proj1 (enumerate_Forall (fun en => validate_view a lim en = Ok tt) views) H) as Hv. split; [done|]. split; [done|]. split.
  - apply Forall_lookup. intros i v Hi. by eapply validate_view_sealed, Hv.
  - apply list_eq. intros i. rewrite list_lookup_fmap. destruct (views !! i) as [v|] eqn:E; cbn.
    + pose proof (Hv i v E) as Hvi. unfold validate_view in Hvi. inv_res Hvi.
      match goal with H : negb (_ =? _) = false |- _ => apply negb_false_iff, Z.eqb_eq in H as -> end.
      apply lookup_lt_Some in E. by rewrite lookup_seqZ_lt by (unfold zlen; lia).
    + apply lookup_ge_None in E. rewrite lookup_seqZ_ge; [done|unfold zlen; lia].
Qed.

(** ** Concrete views *)
Definition sample_limits : view_limits := {| maximum_chars := 100; maximum_tokens := None; token_counter := None |}.

Lemma leaf_nodes_exact_witness :
  exists root l, leaf_nodes sample_artifact root = Ok l /\ map sn_node_type l = [UNCLASSIFIED].
Proof.
  assert (exists cov, validate_structure_artifact sample_artifact = Ok cov) as [cov Hcov] by (eexists; vm_compute; reflexivity).
  assert (exists root, sa_nodes sample_artifact !! 0%nat = Some root) as [root Hroot] by (eexists; reflexivity).
  destruct (leaf_nodes_exact sample_artifact cov root Hcov (list_elem_of_lookup_2 _ _ _ Hroot)) as (l & Hl & _).
  exists root, l. split; [exact Hl|]. injection Hroot as <-. vm_compute in Hl. injection Hl as <-. reflexivity.
Defined.

(** Two one-character leaves against a limit of one character: two groups. *)
Definition two_lines : list NodeSpan := map line_span (source_lines (record 1 (us "a" ++ newline ++ us "b"))).
Definition two_line_artifact : StructureArtifact :=
  make_artifact sample_inputs
    {| ck_document_id := us "doc"; ck_profile := mk_profile [] [] [] [] []; ck_lineage_id := []; ck_revision_id := [];
       ck_pages := [structure_page (record 1 (us "a" ++ newline ++ us "b"))] |} [] [].
Definition tight_limits : view_limits := {| maximum_chars := 2; maximum_tokens := None; token_counter := None |}.

Lemma partition_lossless_witness : exists groups,
  partition_spans two_line_artifact tight_limits [] (map (fun s => [s]) two_lines) = Ok groups /\ length groups = 2%nat /\
  exists runs tail, concat runs ++ tail = map (fun s => [s]) two_lines /\ concat tail = [] /\
     groups = map (fun run => renumber (concat run)) runs.
Proof.
  eexists. split; [vm_compute; reflexivity|]. split; [reflexivity|].
  eapply (partition_lossless two_line_artifact tight_limits []).
  - repeat constructor; done.
  - vm_compute. reflexivity.
Defined.

Lemma derived_views_sealed_witness : exists views,
  length views = 1%nat /\ Forall (sealed_view sample_artifact sample_limits) views.
Proof.
  assert (match build_derived_views sample_artifact sample_limits with
          | Ok views => length views = 1%nat /\ validate_derived_views sample_artifact views sample_limits = Ok tt
          | Err _ => False end) as H by (vm_compute; split; reflexivity).
  destruct (build_derived_views sample_artifact sample_limits) as [views|e]; [|destruct H].
  destruct H as [Hlen Hv]. exists views. split; [exact Hlen|]. apply (derived_views_sealed _ _ _ Hv).
Defined.
