(* ===== verification/Retirement.v ===== *)
(** Retirement of delisted documents ([cardrag_worker/retirement.py]).

    [evaluate_retirements] classifies the documents that left the corpus and
    makes the new ledger.  The evidence verdicts come from the caller, as in the
    source.  [max_ratio] is an IEEE double, modelled with [SpecFloat]; time stamps
    are the ISO strings the ledger stores.  The ledger's file format is not
    modelled. *)
From Stdlib Require Floats.SpecFloat.
From S2P Require Export StructureModel.
Import Stdlib.Floats.SpecFloat.

Definition RetirementError (code : string) : exn := Raised "RetirementError" code.

(** ** Doubles *)
Definition float_of_int (z : Z) : spec_float := binary_normalize 53 1024 z 0 false.
Definition float_mul (x y : spec_float) : spec_float := SFmul 53 1024 x y.
(** [int(x)]: truncation; infinities and NaN raise. *)
Definition int_of_float (x : spec_float) : res Z :=
  match x with
  | S754_zero _ => Ok 0
  | S754_finite s m e =>
      let magnitude := if 0 <=? e then Z.pos m * 2 ^ e else Z.pos m / 2 ^ (- e) in
      Ok (if s then - magnitude else magnitude)
  | S754_infinity _ => Err (Raised "OverflowError" "cannot convert float infinity to integer")
  | S754_nan => Err (ValueError "cannot convert float NaN to integer")
  end.
Definition float_0_05 : spec_float := S754_finite false 7205759403792794 (-57).
Definition RETIREMENT_MAX_RATIO : spec_float := S754_finite false 5764607523034235 (-60).

(** ** Time stamps *)
Record utc_datetime := {
  dt_year : Z; dt_month : Z; dt_day : Z; dt_hour : Z; dt_minute : Z; dt_second : Z; dt_microsecond : Z;
}.
Definition datetime_isoformat (t : utc_datetime) : ustr :=
  date_isoformat (dt_year t, dt_month t, dt_day t) ++ us "T" ++ zfill 2 (str_of_Z (dt_hour t)) ++ us ":" ++
  zfill 2 (str_of_Z (dt_minute t)) ++ us ":" ++ zfill 2 (str_of_Z (dt_second t)) ++
  (if dt_microsecond t =? 0 then [] else us "." ++ zfill 6 (str_of_Z (dt_microsecond t))) ++ us "+00:00".

(** [datetime.fromisoformat] on the forms [isoformat] prints for UTC, the only
    ones the ledger is written with. *)
Definition re_iso_time : regex :=
  seqs [chr 84; times 2 (rng 48 57); chr 58; times 2 (rng 48 57); chr 58; times 2 (rng 48 57);
        opt (Seq (chr 46) (times 6 (rng 48 57))); lit (us "+00:00")].
Definition datetime_fromisoformat (value : ustr) : option utc_datetime :=
  match date_fromisoformat (slice value 0 10) with
  | None => None
  | Some (y, m, d) =>
      let time := slice value 10 (zlen value) in
      if fullmatch re_iso_time time then
        let hour := int_of_digits (slice time 1 3) in
        let minute := int_of_digits (slice time 4 6) in
        let second := int_of_digits (slice time 7 9) in
        let micro := if zlen time =? 22 then int_of_digits (slice time 10 16) else 0 in
        if (hour <? 24) && (minute <? 60) && (second <? 60)
        then Some {| dt_year := y; dt_month := m; dt_day := d; dt_hour := hour; dt_minute := minute;
                     dt_second := second; dt_microsecond := micro |}
        else None
      else None
  end.

Definition days_before_month (y m : Z) : Z :=
  fold_right (fun k acc => days_in_month y k + acc) 0 (seqZ 1 (m - 1)).
Definition date_toordinal (y m d : Z) : Z :=
  let p := y - 1 in p * 365 + p / 4 - p / 100 + p / 400 + days_before_month y m + d.
Definition microseconds_of (t : utc_datetime) : Z :=
  (((date_toordinal (dt_year t) (dt_month t) (dt_day t) * 24 + dt_hour t) * 60 + dt_minute t) * 60 + dt_second t)
  * 1000000 + dt_microsecond t.

Definition elapsed_days (first_at now_at : ustr) : Z :=
  match datetime_fromisoformat first_at, datetime_fromisoformat now_at with
  | Some first, Some now => Z.max 0 ((microseconds_of now - microseconds_of first) / 86400000000)
  | _, _ => 0
  end.

(** ** Ledger data *)
Definition LineageKey : Type := ustr * ustr * ustr.

Inductive RetirementStatus := Candidate | Retired | Reinstated.
#[export] Instance RetirementStatus_eq_dec : EqDecision RetirementStatus. Proof. solve_decision. Defined.

Record RetirementPolicy := { grace_runs : Z; grace_days : Z; max_per_run : Z; max_ratio : spec_float }.

Definition check_policy (p : RetirementPolicy) : res unit :=
  let! _ := raise_if (grace_runs p <? 2) (RetirementError "retirement_grace_runs_minimum") in
  raise_if ((grace_days p <? 1) || (max_per_run p <? 1)
            || negb (SFltb (S754_zero false) (max_ratio p) && SFleb (max_ratio p) float_0_05))
    (RetirementError "retirement_policy_invalid").

Record DecisionInputs := {
  di_baseline_total : Z;
  di_consecutive_absences : Z;
  di_elapsed_days : Z;
  di_grace_days : Z;
  di_grace_runs : Z;
  di_max_per_run : Z;
  di_max_ratio : spec_float;
}.

Record RetirementEntry := {
  re_document_id : ustr;
  re_source_id : ustr;
  re_issuer : ustr;
  re_product_code : ustr;
  re_document_type : ustr;
  re_pdf_sha256 : ustr;
  re_ocr_sha256 : option ustr;
  re_status : RetirementStatus;
  re_first_absent_run_id : ustr;
  re_first_absent_at : ustr;
  re_last_observed_run_id : ustr;
  re_last_observed_at : ustr;
  re_last_checked_run_id : ustr;
  re_consecutive_absences : Z;
  re_retired_run_id : option ustr;
  re_retired_at : option ustr;
  re_reinstated_run_id : option ustr;
  re_reinstated_at : option ustr;
  re_decision_inputs : option DecisionInputs;
}.
Definition re_lineage_key (e : RetirementEntry) : LineageKey := (re_issuer e, re_product_code e, re_document_type e).

Record RetirementLedger := { rl_updated_run_id : ustr; rl_entries : list RetirementEntry; rl_ledger_sha256 : ustr }.

Definition is_open (e : RetirementEntry) : bool := match re_status e with Candidate | Retired => true | Reinstated => false end.
Definition open_by_document (l : RetirementLedger) : list (ustr * RetirementEntry) :=
  dict_of (map (fun e => (re_document_id e, e)) (filter (fun e => is_open e = true) (rl_entries l))).

Record AbsentDocument := {
  ad_document_id : ustr;
  ad_source_id : ustr;
  ad_issuer : ustr;
  ad_product_code : ustr;
  ad_document_type : ustr;
  ad_pdf_sha256 : ustr;
  ad_ocr_sha256 : option ustr;
  ad_last_observed_run_id : ustr;
  ad_last_observed_at : ustr;
}.
Definition ad_lineage_key (d : AbsentDocument) : LineageKey := (ad_issuer d, ad_product_code d, ad_document_type d).

Record RetiredRecord := {
  rr_consecutive_absences : Z;
  rr_document_id : ustr;
  rr_document_type : ustr;
  rr_first_absent_run_id : ustr;
  rr_issuer : ustr;
  rr_last_observed_run_id : ustr;
  rr_ocr_sha256 : option ustr;
  rr_pdf_sha256 : ustr;
  rr_product_code : ustr;
  rr_retired_run_id : option ustr;
  rr_revalidated : bool;
  rr_source_id : ustr;
}.
Definition retired_record (e : RetirementEntry) (already : bool) : RetiredRecord :=
  {| rr_consecutive_absences := re_consecutive_absences e; rr_document_id := re_document_id e;
     rr_document_type := re_document_type e; rr_first_absent_run_id := re_first_absent_run_id e;
     rr_issuer := re_issuer e; rr_last_observed_run_id := re_last_observed_run_id e;
     rr_ocr_sha256 := re_ocr_sha256 e; rr_pdf_sha256 := re_pdf_sha256 e; rr_product_code := re_product_code e;
     rr_retired_run_id := re_retired_run_id e; rr_revalidated := already; rr_source_id := re_source_id e |}.

Record CandidateRecord := {
  cr_consecutive_absences : Z;
  cr_document_id : ustr;
  cr_document_type : ustr;
  cr_first_absent_run_id : ustr;
  cr_issuer : ustr;
  cr_last_observed_run_id : ustr;
  cr_pdf_sha256 : ustr;
  cr_product_code : ustr;
  cr_source_id : ustr;
}.
Definition candidate_record (e : RetirementEntry) : CandidateRecord :=
  {| cr_consecutive_absences := re_consecutive_absences e; cr_document_id := re_document_id e;
     cr_document_type := re_document_type e; cr_first_absent_run_id := re_first_absent_run_id e;
     cr_issuer := re_issuer e; cr_last_observed_run_id := re_last_observed_run_id e;
     cr_pdf_sha256 := re_pdf_sha256 e; cr_product_code := re_product_code e; cr_source_id := re_source_id e |}.

Record RetirementOutcome := {
  ro_retired : list RetiredRecord;
  ro_candidates : list CandidateRecord;
  ro_unjustified : list (ustr * ustr);
  ro_ledger : RetirementLedger;
  ro_reinstated : list ustr;
}.

(** ** The policy pass *)
Record evaluation := {
  ev_run_id : ustr;
  ev_run_started_at : utc_datetime;
  ev_policy : RetirementPolicy;
  ev_baseline_total : Z;
  ev_ledger : option RetirementLedger;
  ev_absent : list AbsentDocument;
  ev_durable_ok : gmap ustr bool;
  ev_lineage_absent : gmap ustr bool;
  ev_discovered_lineages : gset LineageKey;
  ev_frozen_issuers : gset ustr;
}.

Definition run_stamp (ev : evaluation) : ustr := datetime_isoformat (ev_run_started_at ev).
Definition previous_entries (ev : evaluation) : list (ustr * RetirementEntry) :=
  dict_of (map (fun e => (re_document_id e, e)) (match ev_ledger ev with Some l => rl_entries l | None => [] end)).

Definition lex3_leb (x y : ustr * ustr * ustr) : bool :=
  let '(a, b, c) := x in
  let '(a', b', c') := y in
  if bool_decide (a = a') then (if bool_decide (b = b') then ustr_leb c c' else ustr_leb b b') else ustr_leb a a'.
Definition absent_order (d e : AbsentDocument) : bool :=
  lex3_leb (ad_issuer d, ad_product_code d, ad_document_id d) (ad_issuer e, ad_product_code e, ad_document_id e).

Definition effective_cap (ev : evaluation) : res Z :=
  let grace_runs_cap := max_per_run (ev_policy ev) in
  let! ratio_cap := int_of_float (float_mul (float_of_int (ev_baseline_total ev)) (max_ratio (ev_policy ev))) in
  Ok (Z.max 1 (Z.min grace_runs_cap (if 0 <? ev_baseline_total ev then ratio_cap else grace_runs_cap))).

Record eval_state := {
  es_updated : list (ustr * RetirementEntry);
  es_retired : list RetiredRecord;
  es_candidates : list CandidateRecord;
  es_unjustified : list (ustr * ustr);
  es_judged : Z;
}.
Definition mark_unjustified (id reason : ustr) (st : eval_state) : eval_state :=
  {| es_updated := es_updated st; es_retired := es_retired st; es_candidates := es_candidates st;
     es_unjustified := dict_set id reason (es_unjustified st); es_judged := es_judged st |}.

Definition flag (m : gmap ustr bool) (id : ustr) : bool := match m !! id with Some b => b | None => false end.

(** The entry a judged document gets. *)
Definition judged_entry (ev : evaluation) (prior : option RetirementEntry) (item : AbsentDocument) : RetirementEntry :=
  let policy := ev_policy ev in
  let absences :=
    match prior with
    | Some p => if bool_decide (re_last_checked_run_id p = ev_run_id ev)
                then re_consecutive_absences p else re_consecutive_absences p + 1
    | None => 1
    end in
  let first_run := match prior with Some p => re_first_absent_run_id p | None => ev_run_id ev end in
  let first_at := match prior with Some p => re_first_absent_at p | None => run_stamp ev end in
  let days := elapsed_days first_at (run_stamp ev) in
  let meets_grace := (grace_runs policy <=? absences) && (2 <=? absences) in
  {| re_document_id := ad_document_id item; re_source_id := ad_source_id item; re_issuer := ad_issuer item;
     re_product_code := ad_product_code item; re_document_type := ad_document_type item;
     re_pdf_sha256 := ad_pdf_sha256 item; re_ocr_sha256 := ad_ocr_sha256 item;
     re_status := if meets_grace then Retired else Candidate;
     re_first_absent_run_id := first_run; re_first_absent_at := first_at;
     re_last_observed_run_id := ad_last_observed_run_id item; re_last_observed_at := ad_last_observed_at item;
     re_last_checked_run_id := ev_run_id ev; re_consecutive_absences := absences;
     re_retired_run_id := if meets_grace then Some (ev_run_id ev) else None;
     re_retired_at := if meets_grace then Some (run_stamp ev) else None;
     re_reinstated_run_id := None; re_reinstated_at := None;
     re_decision_inputs :=
       if meets_grace
       then Some {| di_baseline_total := ev_baseline_total ev; di_consecutive_absences := absences;
                    di_elapsed_days := days; di_grace_days := grace_days policy; di_grace_runs := grace_runs policy;
                    di_max_per_run := max_per_run policy; di_max_ratio := max_ratio policy |}
       else None |}.

(** One document of the loop. *)
Definition evaluate_item (ev : evaluation) (cap : Z) (st : eval_state) (item : AbsentDocument) : eval_state :=
  let id := ad_document_id item in
  if bool_decide (ad_issuer item ∈ ev_frozen_issuers ev) then mark_unjustified id (us "issuer_collection_unavailable") st
  else
    let prior :=
      match dict_get id (previous_entries ev) with
      | Some p => if bool_decide (re_status p = Reinstated) then None else Some p
      | None => None
      end in
    if negb (flag (ev_durable_ok ev) id) || negb (flag (ev_lineage_absent ev) id)
    then mark_unjustified id (us "retirement_evidence_incomplete") st
    else
      let judge (_ : unit) :=
        if cap <=? es_judged st then mark_unjustified id (us "retirement_cap_exceeded") st
        else
          let entry := judged_entry ev prior item in
          let retiring := bool_decide (re_status entry = Retired) in
          {| es_updated := dict_set (re_document_id entry) entry (es_updated st);
             es_retired := if retiring then es_retired st ++ [retired_record entry false] else es_retired st;
             es_candidates := if retiring then es_candidates st else es_candidates st ++ [candidate_record entry];
             es_unjustified := es_unjustified st; es_judged := es_judged st + 1 |} in
      match prior with
      | Some p =>
          if bool_decide (re_status p = Retired) then
            {| es_updated := es_updated st; es_retired := es_retired st ++ [retired_record p true];
               es_candidates := es_candidates st; es_unjustified := es_unjustified st; es_judged := es_judged st |}
          else judge tt
      | None => judge tt
      end.

(** The entry of a document that was found again. *)
Definition reinstate (ev : evaluation) (e : RetirementEntry) : RetirementEntry :=
  {| re_document_id := re_document_id e; re_source_id := re_source_id e; re_issuer := re_issuer e;
     re_product_code := re_product_code e; re_document_type := re_document_type e; re_pdf_sha256 := re_pdf_sha256 e;
     re_ocr_sha256 := re_ocr_sha256 e; re_status := Reinstated;
     re_first_absent_run_id := re_first_absent_run_id e; re_first_absent_at := re_first_absent_at e;
     re_last_observed_run_id := re_last_observed_run_id e; re_last_observed_at := re_last_observed_at e;
     re_last_checked_run_id := ev_run_id ev; re_consecutive_absences := re_consecutive_absences e;
     re_retired_run_id := re_retired_run_id e; re_retired_at := re_retired_at e;
     re_reinstated_run_id := Some (ev_run_id ev); re_reinstated_at := Some (run_stamp ev);
     re_decision_inputs := re_decision_inputs e |}.

Definition found_again (ev : evaluation) (e : RetirementEntry) : bool :=
  negb (bool_decide (re_issuer e ∈ ev_frozen_issuers ev)) && is_open e
  && bool_decide (re_lineage_key e ∈ ev_discovered_lineages ev).

Definition reinstate_item (ev : evaluation) (acc : list (ustr * RetirementEntry) * list ustr)
    (kv : ustr * RetirementEntry) : list (ustr * RetirementEntry) * list ustr :=
  if found_again ev kv.2 then (dict_set kv.1 (reinstate ev kv.2) acc.1, acc.2 ++ [kv.1]) else acc.

Definition evaluate_retirements (ev : evaluation) : res RetirementOutcome :=
  let! cap := effective_cap ev in
  let ordered := sorted_by absent_order (ev_absent ev) in
  let st := fold_left (evaluate_item ev cap) ordered
              {| es_updated := previous_entries ev; es_retired := []; es_candidates := []; es_unjustified := [];
                 es_judged := 0 |} in
  let '(updated, reinstated) := fold_left (reinstate_item ev) (previous_entries ev) (es_updated st, []) in
  Ok {| ro_retired := es_retired st; ro_candidates := es_candidates st; ro_unjustified := es_unjustified st;
        ro_ledger := {| rl_updated_run_id := ev_run_id ev; rl_entries := updated.*2; rl_ledger_sha256 := [] |};
        ro_reinstated := sorted_by ustr_leb reinstated |}.
