(* ===== verification/RetirementProof.v ===== *)
(** Properties of the retirement policy pass. *)
From S2P Require Export Retirement.

(** ** The dictionary of previous entries *)
Lemma dict_of_values {K V} `{EqDecision K} (key : V -> K) (l : list V) k v :
  dict_get k (dict_of (map (fun x => (key x, x)) l)) = Some v -> key v = k /\ v ∈ l.
Proof.
  unfold dict_of.
  assert (forall d, (forall k v, dict_get k d = Some v -> key v = k /\ v ∈ l) ->
    forall m, (forall x, x ∈ m -> x ∈ l) ->
    dict_get k (fold_left (fun d kv => dict_set kv.1 kv.2 d) (map (fun x => (key x, x)) m) d) = Some v -> key v = k /\ v ∈ l) as H.
  { intros d Hd m. revert d Hd. induction m as [|x m IH]; intros d Hd Hm; cbn; [apply Hd|].
    apply IH; [|intros; apply Hm; by right]. intros k' v'. rewrite dict_get_set. case_decide as E; [|apply Hd].
    intros [= <-]. split; [done|]. apply Hm. by left. }
  by apply (H [] ltac:(done) l).
Qed.

Lemma previous_id ev id p : dict_get id (previous_entries ev) = Some p -> re_document_id p = id.
Proof. intros H. by apply dict_of_values in H as [? _]. Qed.

Lemma previous_NoDup ev : NoDup (previous_entries ev).*1.
Proof. apply dict_of_NoDup_keys. Qed.

(** The prior entry the loop works with. *)
Definition live_prior (ev : evaluation) (id : ustr) : option RetirementEntry :=
  match dict_get id (previous_entries ev) with
  | Some p => if bool_decide (re_status p = Reinstated) then None else Some p
  | None => None
  end.

Lemma live_prior_spec ev id p :
  live_prior ev id = Some p -> dict_get id (previous_entries ev) = Some p /\ re_status p <> Reinstated /\ re_document_id p = id.
Proof.
  unfold live_prior. destruct (dict_get id (previous_entries ev)) as [q|] eqn:E; [|done]. case_bool_decide; [done|].
  intros [= <-]. split; [done|]. split; [done|by eapply previous_id].
Qed.

(** The document passed every check that does not depend on the cap. *)
Definition eligible (ev : evaluation) (item : AbsentDocument) : Prop :=
  ad_issuer item ∉ ev_frozen_issuers ev /\ flag (ev_durable_ok ev) (ad_document_id item) = true /\
  flag (ev_lineage_absent ev) (ad_document_id item) = true.

Inductive item_step (ev : evaluation) (cap : Z) (st : eval_state) (item : AbsentDocument) : eval_state -> Prop :=
| is_unjustified reason : item_step ev cap st item (mark_unjustified (ad_document_id item) reason st)
| is_revalidated p :
    eligible ev item -> live_prior ev (ad_document_id item) = Some p -> re_status p = Retired ->
    item_step ev cap st item
      {| es_updated := es_updated st; es_retired := es_retired st ++ [retired_record p true];
         es_candidates := es_candidates st; es_unjustified := es_unjustified st; es_judged := es_judged st |}
| is_retired e :
    eligible ev item -> e = judged_entry ev (live_prior ev (ad_document_id item)) item -> re_status e = Retired ->
    (forall p, live_prior ev (ad_document_id item) = Some p -> re_status p = Candidate) -> es_judged st < cap ->
    item_step ev cap st item
      {| es_updated := dict_set (re_document_id e) e (es_updated st); es_retired := es_retired st ++ [retired_record e false];
         es_candidates := es_candidates st; es_unjustified := es_unjustified st; es_judged := es_judged st + 1 |}
| is_candidate e :
    eligible ev item -> e = judged_entry ev (live_prior ev (ad_document_id item)) item -> re_status e = Candidate ->
    (forall p, live_prior ev (ad_document_id item) = Some p -> re_status p = Candidate) -> es_judged st < cap ->
    item_step ev cap st item
      {| es_updated := dict_set (re_document_id e) e (es_updated st); es_retired := es_retired st;
         es_candidates := es_candidates st ++ [candidate_record e]; es_unjustified := es_unjustified st;
         es_judged := es_judged st + 1 |}.

Lemma judged_status ev prior item :
  re_status (judged_entry ev prior item) = Retired \/ re_status (judged_entry ev prior item) = Candidate.
Proof. cbn. destruct (_ && _); auto. Qed.

(** The loop body is one of four steps. *)
Lemma evaluate_item_step ev cap st item : item_step ev cap st item (evaluate_item ev cap st item).
Proof.
  unfold evaluate_item. case_bool_decide as Hf; [constructor|].
  change (match dict_get (ad_document_id item) (previous_entries ev) with
          | Some p => if bool_decide (re_status p = Reinstated) then None else Some p
          | None => None end) with (live_prior ev (ad_document_id item)).
  destruct (negb _ || negb _) eqn:Hev; [constructor|]. apply orb_false_iff in Hev as [H1%negb_false_iff H2%negb_false_iff].
  assert (eligible ev item) as He by done.
  assert ((forall p, live_prior ev (ad_document_id item) = Some p -> re_status p = Candidate) ->
    item_step ev cap st item
      (if cap <=? es_judged st then mark_unjustified (ad_document_id item) (us "retirement_cap_exceeded") st
       else
         {| es_updated := dict_set (re_document_id (judged_entry ev (live_prior ev (ad_document_id item)) item))
              (judged_entry ev (live_prior ev (ad_document_id item)) item) (es_updated st);
            es_retired := if bool_decide (re_status (judged_entry ev (live_prior ev (ad_document_id item)) item) = Retired)
              then es_retired st ++ [retired_record (judged_entry ev (live_prior ev (ad_document_id item)) item) false] else es_retired st;
            es_candidates := if bool_decide (re_status (judged_entry ev (live_prior ev (ad_document_id item)) item) = Retired)
              then es_candidates st else es_candidates st ++ [candidate_record (judged_entry ev (live_prior ev (ad_document_id item)) item)];
            es_unjustified := es_unjustified st; es_judged := es_judged st + 1 |})) as Hjudge.
  { intros Hc. destruct (Z.leb_spec cap (es_judged st)) as [_|Hlt]; [constructor|].
    destruct (judged_status ev (live_prior ev (ad_document_id item)) item) as [Hs|Hs].
    - rewrite bool_decide_eq_true_2 by exact Hs. by eapply is_retired.
    - rewrite bool_decide_eq_false_2 by congruence. by eapply is_candidate. }
  destruct (live_prior ev (ad_document_id item)) as [p|] eqn:Ep; [|by apply Hjudge].
  destruct (decide (re_status p = Retired)) as [Es|Es].
  - rewrite (bool_decide_eq_true_2 (re_status p = Retired)) by done. by eapply is_revalidated.
  - rewrite (bool_decide_eq_false_2 (re_status p = Retired)) by done. apply Hjudge. intros q [= <-].
    apply live_prior_spec in Ep as (_ & Hr & _). by destruct (re_status p).
Qed.

(** ** The loop *)
Definition outcome_ids (retired : list RetiredRecord) (candidates : list CandidateRecord) (unjustified : list (ustr * ustr))
    : list ustr := map rr_document_id retired ++ map cr_document_id candidates ++ unjustified.*1.

(** A record of a document that was retired in this run, and why. *)
Definition justified_retirement (ev : evaluation) (r : RetiredRecord) : Prop :=
  exists item p, item ∈ ev_absent ev /\ eligible ev item /\ ad_document_id item = rr_document_id r /\
    dict_get (rr_document_id r) (previous_entries ev) = Some p /\ re_status p = Candidate /\
    grace_runs (ev_policy ev) <= rr_consecutive_absences r /\ 2 <= rr_consecutive_absences r /\
    rr_consecutive_absences r = re_consecutive_absences p +
      (if bool_decide (re_last_checked_run_id p = ev_run_id ev) then 0 else 1).

(** A record carried over from an earlier run. *)
Definition carried_retirement (ev : evaluation) (r : RetiredRecord) : Prop :=
  exists p, dict_get (rr_document_id r) (previous_entries ev) = Some p /\ re_status p = Retired /\ r = retired_record p true.

Definition new_retirements (retired : list RetiredRecord) : list RetiredRecord := filter (fun r => rr_revalidated r = false) retired.

(** How an entry of the ledger came about. *)
Definition entry_origin (ev : evaluation) (id : ustr) (e : RetirementEntry) : Prop :=
  dict_get id (previous_entries ev) = Some e \/
  exists item, item ∈ ev_absent ev /\ ad_document_id item = id /\ e = judged_entry ev (live_prior ev id) item /\
    (forall p, live_prior ev id = Some p -> re_status p = Candidate).

(** The id of an absent document that passed the checks before the cap. *)
Definition eligible_id (ev : evaluation) (id : ustr) : Prop :=
  exists item, item ∈ ev_absent ev /\ eligible ev item /\ ad_document_id item = id.

Record loop_inv (ev : evaluation) (cap : Z) (seen : list AbsentDocument) (st : eval_state) : Prop := {
  li_ids : Permutation (outcome_ids (es_retired st) (es_candidates st) (es_unjustified st)) (map ad_document_id seen);
  li_retired : Forall (fun r => if rr_revalidated r then carried_retirement ev r else justified_retirement ev r) (es_retired st);
  li_eligible : Forall (eligible_id ev) (map rr_document_id (es_retired st) ++ map cr_document_id (es_candidates st));
  li_judged : es_judged st = zlen (es_candidates st) + zlen (new_retirements (es_retired st));
  li_cap : es_judged st <= Z.max 0 cap;
  li_nodup : NoDup (es_updated st).*1;
  li_kept : forall id, id ∈ (previous_entries ev).*1 -> id ∈ (es_updated st).*1;
  li_origin : forall id e, dict_get id (es_updated st) = Some e -> re_document_id e = id /\ entry_origin ev id e;
}.

Lemma judged_id ev prior item : re_document_id (judged_entry ev prior item) = ad_document_id item.
Proof. done. Qed.

Lemma judged_retired ev item :
  item ∈ ev_absent ev -> eligible ev item ->
  re_status (judged_entry ev (live_prior ev (ad_document_id item)) item) = Retired ->
  (forall p, live_prior ev (ad_document_id item) = Some p -> re_status p = Candidate) ->
  justified_retirement ev (retired_record (judged_entry ev (live_prior ev (ad_document_id item)) item) false).
Proof.
  intros Hin He Hs Hp. cbn in Hs. destruct (live_prior ev (ad_document_id item)) as [p|] eqn:Ep.
  - destruct (_ && _) eqn:Hg; [|done]. bsplit. exists item, p. apply live_prior_spec in Ep as (Hget & _ & _).
    cbn [retired_record judged_entry rr_document_id re_document_id rr_consecutive_absences re_consecutive_absences].
    repeat (split; [first [done|by apply Hp]|]). split; [|case_bool_decide; lia].
    case_bool_decide; lia.
  - destruct (_ && _) eqn:Hg; [|done]. bsplit. lia.
Qed.

Lemma filter_new_app l r : new_retirements (l ++ [r]) = new_retirements l ++ (if rr_revalidated r then [] else [r]).
Proof. unfold new_retirements. rewrite filter_app. f_equal. rewrite filter_cons, filter_nil. destruct (rr_revalidated r); by case_decide. Qed.

Lemma outcome_ids_fresh ev cap seen st item :
  loop_inv ev cap seen st -> ad_document_id item ∉ map ad_document_id seen ->
  ad_document_id item ∉ (es_unjustified st).*1.
Proof.
  intros H Hn Hin. apply Hn. rewrite <- (li_ids _ _ _ _ H). unfold outcome_ids.
  apply elem_of_app. right. apply elem_of_app. by right.
Qed.

Lemma move_end_1 {A} (x : A) a b c : Permutation ((a ++ [x]) ++ b ++ c) ((a ++ b ++ c) ++ [x]).
Proof. rewrite <- !app_assoc. apply Permutation_app_head. rewrite (app_assoc b c [x]). apply Permutation_app_comm. Qed.
Lemma move_end_2 {A} (x : A) a b c : Permutation (a ++ (b ++ [x]) ++ c) ((a ++ b ++ c) ++ [x]).
Proof. rewrite <- !app_assoc. do 2 apply Permutation_app_head. apply Permutation_app_comm. Qed.

Lemma origin_set ev id e u :
  (forall id e, dict_get id u = Some e -> re_document_id e = id /\ entry_origin ev id e) ->
  re_document_id e = id -> entry_origin ev id e ->
  forall id' e', dict_get id' (dict_set id e u) = Some e' -> re_document_id e' = id' /\ entry_origin ev id' e'.
Proof. intros H Hid He id' e'. rewrite dict_get_set. case_decide as E; [|apply H]. intros [= <-]. by subst. Qed.

Lemma eligible_retired ev item (retired candidates : list ustr) :
  item ∈ ev_absent ev -> eligible ev item -> Forall (eligible_id ev) (retired ++ candidates) ->
  Forall (eligible_id ev) ((retired ++ [ad_document_id item]) ++ candidates) /\
  Forall (eligible_id ev) (retired ++ candidates ++ [ad_document_id item]).
Proof.
  intros Hin He H. assert (eligible_id ev (ad_document_id item)) by by exists item.
  apply Forall_app in H as [H1 H2]. split; repeat (apply Forall_app; split); try done; by constructor.
Qed.

Lemma loop_inv_step ev cap seen st item st' :
  loop_inv ev cap seen st -> item ∈ ev_absent ev -> ad_document_id item ∉ map ad_document_id seen ->
  item_step ev cap st item st' -> loop_inv ev cap (seen ++ [item]) st'.
Proof.
  intros H Hin Hnew Hstep. pose proof (outcome_ids_fresh _ _ _ _ _ H Hnew) as Hfresh. destruct H.
  destruct Hstep as [reason|p He Hp Hs|e He -> Hs Hp Hlt|e He -> Hs Hp Hlt]; split; cbn [mark_unjustified es_updated es_retired
    es_candidates es_unjustified es_judged]; try done.
  - rewrite dict_set_fresh by done. rewrite map_app, <- li_ids0. unfold outcome_ids. rewrite fmap_app. cbn. by rewrite !app_assoc.
  - apply live_prior_spec in Hp as (_ & _ & Hid). rewrite map_app, <- li_ids0. unfold outcome_ids. rewrite map_app. cbn. rewrite Hid. apply move_end_1.
  - apply Forall_app. split; [done|]. repeat constructor. apply live_prior_spec in Hp as (Hget & _ & Hid).
    cbn. exists p. cbn. by rewrite Hid.
  - apply live_prior_spec in Hp as (_ & _ & Hid). rewrite map_app. cbn. rewrite Hid. by apply eligible_retired.
  - rewrite filter_new_app. cbn. by rewrite app_nil_r.
  - rewrite map_app, <- li_ids0. unfold outcome_ids. rewrite map_app. apply move_end_1.
  - apply Forall_app. split; [done|]. repeat constructor. cbn [rr_revalidated retired_record]. by apply judged_retired.
  - rewrite map_app. cbn. by apply eligible_retired.
  - rewrite filter_new_app. cbn [rr_revalidated retired_record]. rewrite zlen_app, li_judged0, zlen_cons, zlen_nil. lia.
  - lia.
  - by apply dict_set_NoDup.
  - intros id Hid. apply dict_set_keys. right. auto.
  - apply origin_set; [done..|]. right. exists item. rewrite judged_id. by repeat split.
  - rewrite map_app, <- li_ids0. unfold outcome_ids. rewrite map_app. apply move_end_2.
  - rewrite map_app. cbn. by apply eligible_retired.
  - rewrite zlen_app, li_judged0, zlen_cons, zlen_nil. lia.
  - lia.
  - by apply dict_set_NoDup.
  - intros id Hid. apply dict_set_keys. right. auto.
  - apply origin_set; [done..|]. right. exists item. rewrite judged_id. by repeat split.
Qed.

Lemma fold_left_invariant {A S} (f : S -> A -> S) (I : list A -> S -> Prop) l s :
  I [] s -> (forall done_ a rest st, l = done_ ++ a :: rest -> I done_ st -> I (done_ ++ [a]) (f st a)) -> I l (fold_left f l s).
Proof.
  intros H0 Hstep. assert (forall done_ rest st, l = done_ ++ rest -> I done_ st -> I l (fold_left f rest st)) as H; [|by apply (H [])].
  intros done_ rest. revert done_. induction rest as [|a rest IH]; intros done_ st E Hs; cbn.
  - by rewrite E, app_nil_r.
  - apply (IH (done_ ++ [a])); [by rewrite <- app_assoc|]. by eapply Hstep.
Qed.

Lemma loop_ok ev cap ordered :
  Permutation ordered (ev_absent ev) -> NoDup (map ad_document_id (ev_absent ev)) ->
  loop_inv ev cap ordered
    (fold_left (evaluate_item ev cap) ordered
       {| es_updated := previous_entries ev; es_retired := []; es_candidates := []; es_unjustified := []; es_judged := 0 |}).
Proof.
  intros Hperm Hnd. apply fold_left_invariant.
  - split; cbn; try done; [lia|apply previous_NoDup|]. intros id e He. split; [by eapply previous_id|by left].
  - intros seen item rest st E Hinv. eapply loop_inv_step; [exact Hinv| | |apply evaluate_item_step].
    + rewrite <- Hperm, E. apply elem_of_app. right. left.
    + rewrite <- Hperm, E, map_app in Hnd. apply NoDup_app in Hnd as (_ & Hd & _). intros Hs. apply (Hd _ Hs). left.
Qed.

(** ** The reinstatement pass *)
Lemma reinstate_pass ev l : forall u acc,
  NoDup l.*1 -> NoDup u.*1 ->
  let r := fold_left (reinstate_item ev) l (u, acc) in
  NoDup r.1.*1 /\ (forall id, id ∈ u.*1 -> id ∈ r.1.*1) /\
  (forall id e, dict_get id r.1 = Some e ->
     (exists p, dict_get id l = Some p /\ found_again ev p = true /\ e = reinstate ev p) \/ dict_get id u = Some e).
Proof.
  induction l as [|[k p] l IH]; intros u acc Hl Hu; cbn; [by auto|]. apply NoDup_cons in Hl as [Hk Hl].
  unfold reinstate_item at 2 4 6. cbn [fst snd]. destruct (found_again ev p) eqn:Ef.
  - destruct (IH (dict_set k (reinstate ev p) u) (acc ++ [k]) Hl) as (H1 & H2 & H3); [by apply dict_set_NoDup|].
    split; [done|]. split; [intros id Hid; apply H2, dict_set_keys; by right|].
    intros id e He. destruct (H3 id e He) as [(q & Hq & Hfa & ->)|Hget].
    + left. exists q. split; [|done]. cbn [dict_get]. rewrite decide_False; [done|]. intros ->. apply Hk.
      apply dict_get_elem in Hq. apply list_elem_of_fmap. by exists (k, q).
    + rewrite dict_get_set in Hget. case_decide as E; [|by right]. injection Hget as <-. left. by exists p.
  - destruct (IH u acc Hl Hu) as (H1 & H2 & H3). split; [done|]. split; [done|]. intros id e He.
    destruct (H3 id e He) as [(q & Hq & Hfa & ->)|Hget]; [|by right].
    left. exists q. split; [|done]. cbn [dict_get]. rewrite decide_False; [done|]. intros ->. apply Hk.
    apply dict_get_elem in Hq. apply list_elem_of_fmap. by exists (k, q).
Qed.

(** The allowed life of a ledger entry. *)
Inductive status_step : option RetirementStatus -> RetirementStatus -> Prop :=
| step_unchanged s : status_step (Some s) s
| step_first_absence : status_step None Candidate
| step_retire : status_step (Some Candidate) Retired
| step_absent_again : status_step (Some Reinstated) Candidate
| step_found_again s : s <> Reinstated -> status_step (Some s) Reinstated.

Lemma judged_transition ev id item :
  ad_document_id item = id -> (forall p, live_prior ev id = Some p -> re_status p = Candidate) ->
  status_step (re_status <$> dict_get id (previous_entries ev)) (re_status (judged_entry ev (live_prior ev id) item)).
Proof.
  intros Hid Hp. unfold live_prior in *. destruct (dict_get id (previous_entries ev)) as [q|] eqn:Eq; cbn [fmap option_fmap option_map].
  - case_bool_decide as Er.
    + rewrite Er. replace (re_status (judged_entry ev None item)) with Candidate; [constructor|].
      cbn. by rewrite andb_false_r.
    + rewrite (Hp q) by done. destruct (judged_status ev (Some q) item) as [-> | ->]; constructor.
  - replace (re_status (judged_entry ev None item)) with Candidate; [constructor|]. cbn. by rewrite andb_false_r.
Qed.

Lemma evaluate_parts ev out :
  evaluate_retirements ev = Ok out -> NoDup (map ad_document_id (ev_absent ev)) ->
  exists cap st, effective_cap ev = Ok cap /\ loop_inv ev cap (sorted_by absent_order (ev_absent ev)) st /\
    ro_retired out = es_retired st /\ ro_candidates out = es_candidates st /\ ro_unjustified out = es_unjustified st /\
    exists u, rl_entries (ro_ledger out) = u.*2 /\ NoDup u.*1 /\ (forall id, id ∈ (previous_entries ev).*1 -> id ∈ u.*1) /\
      forall id e, dict_get id u = Some e ->
        (exists p, dict_get id (previous_entries ev) = Some p /\ found_again ev p = true /\ e = reinstate ev p) \/
        dict_get id (es_updated st) = Some e.
Proof.
  unfold evaluate_retirements. intros H Hnd. inv_res H.
  pose proof (loop_ok ev r _ (sorted_by_Permutation absent_order (ev_absent ev)) Hnd) as Hloop.
  set (st := fold_left (evaluate_item ev r) _ _) in *.
  pose proof (reinstate_pass ev (previous_entries ev) (es_updated st) [] (previous_NoDup ev) (li_nodup _ _ _ _ Hloop)) as Hpass.
  destruct (fold_left (reinstate_item ev) _ _) as [u reinstated]. injection H as <-. cbn in Hpass.
  destruct Hpass as (H1 & H2 & H3). exists r, st. split; [done|]. split; [exact Hloop|]. repeat (split; [done|]).
  exists u. split; [done|]. split; [done|]. split; [|done]. intros id Hid. by apply H2, (li_kept _ _ _ _ Hloop).
Qed.

(** ** The properties *)

(** Every absent document is classified exactly once: as retired, as a
    candidate, or as unjustified. *)
Theorem every_absence_classified ev out :
  NoDup (map ad_document_id (ev_absent ev)) -> evaluate_retirements ev = Ok out ->
  Permutation (map rr_document_id (ro_retired out) ++ map cr_document_id (ro_candidates out) ++ (ro_unjustified out).*1)
    (map ad_document_id (ev_absent ev)).
Proof.
  intros Hnd H. destruct (evaluate_parts ev out H Hnd) as (cap & st & _ & Hinv & -> & -> & -> & _).
  rewrite <- (sorted_by_Permutation absent_order (ev_absent ev)). apply (li_ids _ _ _ _ Hinv).
Qed.

(** C19: a document is newly retired only with complete evidence, from a candidate
    entry of an earlier run, after the policy's grace of at least two checked
    absences; every other retired record was carried over unchanged. *)
Theorem retirement_justified ev out :
  NoDup (map ad_document_id (ev_absent ev)) -> evaluate_retirements ev = Ok out ->
  Forall (fun r => if rr_revalidated r then carried_retirement ev r else justified_retirement ev r) (ro_retired out).
Proof.
  intros Hnd H. destruct (evaluate_parts ev out H Hnd) as (cap & st & _ & Hinv & -> & _). apply (li_retired _ _ _ _ Hinv).
Qed.

(** One pass judges at most the cap: with a valid policy at most [max_per_run]
    documents become retired or candidates. *)
Theorem judgements_bounded ev out :
  check_policy (ev_policy ev) = Ok tt -> NoDup (map ad_document_id (ev_absent ev)) -> evaluate_retirements ev = Ok out ->
  zlen (ro_candidates out) + zlen (new_retirements (ro_retired out)) <= max_per_run (ev_policy ev).
Proof.
  intros Hp Hnd H. destruct (evaluate_parts ev out H Hnd) as (cap & st & Hcap & Hinv & -> & -> & _).
  rewrite <- (li_judged _ _ _ _ Hinv). pose proof (li_cap _ _ _ _ Hinv) as Hle.
  unfold check_policy in Hp. inv_res Hp. bsplit. unfold effective_cap in Hcap. inv_res Hcap. lia.
Qed.

(** The ledger only moves entries along their life cycle and loses none:
    nothing becomes retired without having been a candidate, and a retired entry
    stays until the product is found again. *)
Theorem ledger_transitions ev out :
  NoDup (map ad_document_id (ev_absent ev)) -> evaluate_retirements ev = Ok out ->
  (forall id, id ∈ (previous_entries ev).*1 -> id ∈ map re_document_id (rl_entries (ro_ledger out))) /\
  NoDup (map re_document_id (rl_entries (ro_ledger out))) /\
  Forall (fun e => status_step (re_status <$> dict_get (re_document_id e) (previous_entries ev)) (re_status e))
    (rl_entries (ro_ledger out)).
Proof.
  intros Hnd H. destruct (evaluate_parts ev out H Hnd) as (cap & st & _ & Hinv & _ & _ & _ & u & -> & Hu & Hkept & Horigin).
  assert (forall id e, (id, e) ∈ u -> re_document_id e = id /\ status_step (re_status <$> dict_get id (previous_entries ev)) (re_status e)) as He.
  { intros id e Hin%(dict_get_of_elem _ _ _ Hu). destruct (Horigin id e Hin) as [(p & Hp & Hfa & ->)|Hst].
    - split; [exact (previous_id _ _ _ Hp)|]. rewrite Hp. cbn. apply step_found_again. intros Hr.
      unfold found_again, is_open in Hfa. rewrite Hr in Hfa. by rewrite andb_false_r in Hfa.
    - destruct (li_origin _ _ _ _ Hinv id e Hst) as [Hid [Hprev|(item & _ & Hitem & -> & Hc)]]; (split; [done|]).
      + rewrite Hprev. apply step_unchanged.
      + by apply judged_transition. }
  assert (map re_document_id u.*2 = u.*1) as Hids.
  { clear -He. induction u as [|[id e] u IH]; [done|]. cbn. rewrite IH by (intros; apply He; by right). f_equal. apply He. left. }
  rewrite Hids. split; [done|]. split; [done|]. apply Forall_forall. intros e ([id e'] & -> & Hin)%list_elem_of_fmap.
  cbn. destruct (He id e' Hin) as [-> Hs]. exact Hs.
Qed.

(** ** Concrete runs *)
Definition sample_policy : RetirementPolicy :=
  {| grace_runs := 2; grace_days := 7; max_per_run := 1; max_ratio := RETIREMENT_MAX_RATIO |}.
Definition sample_absent (id : string) : AbsentDocument :=
  {| ad_document_id := us id; ad_source_id := us "s"; ad_issuer := us "kb"; ad_product_code := us "p";
     ad_document_type := us "t"; ad_pdf_sha256 := us "x"; ad_ocr_sha256 := Some (us "o");
     ad_last_observed_run_id := us "run-0"; ad_last_observed_at := us "2026-01-01T00:00:00+00:00" |}.
Definition sample_entry (id : string) : RetirementEntry :=
  {| re_document_id := us id; re_source_id := us "s"; re_issuer := us "kb"; re_product_code := us "p";
     re_document_type := us "t"; re_pdf_sha256 := us "x"; re_ocr_sha256 := Some (us "o"); re_status := Candidate;
     re_first_absent_run_id := us "run-1"; re_first_absent_at := us "2026-01-02T03:04:05+00:00";
     re_last_observed_run_id := us "run-0"; re_last_observed_at := us "2026-01-01T00:00:00+00:00";
     re_last_checked_run_id := us "run-1"; re_consecutive_absences := 1; re_retired_run_id := None; re_retired_at := None;
     re_reinstated_run_id := None; re_reinstated_at := None; re_decision_inputs := None |}.
Definition sample_evaluation (ledger : RetirementLedger) : evaluation :=
  {| ev_run_id := us "run-2";
     ev_run_started_at := {| dt_year := 2026; dt_month := 1; dt_day := 12; dt_hour := 0; dt_minute := 0; dt_second := 0; dt_microsecond := 5 |};
     ev_policy := sample_policy; ev_baseline_total := 1000; ev_ledger := Some ledger;
     ev_absent := [sample_absent "a"; sample_absent "b"];
     ev_durable_ok := list_to_map [(us "a", true); (us "b", true)];
     ev_lineage_absent := list_to_map [(us "a", true); (us "b", true)];
     ev_discovered_lineages := ∅; ev_frozen_issuers := ∅ |}.
Definition sample_ledger : RetirementLedger :=
  {| rl_updated_run_id := us "run-1"; rl_entries := [sample_entry "a"; sample_entry "b"]; rl_ledger_sha256 := [] |}.
Definition first_pass : RetirementOutcome :=
  match evaluate_retirements (sample_evaluation sample_ledger) with
  | Ok out => out
  | Err _ => {| ro_retired := []; ro_candidates := []; ro_unjustified := []; ro_ledger := sample_ledger; ro_reinstated := [] |}
  end.

Lemma sample_absent_NoDup : NoDup (map ad_document_id (ev_absent (sample_evaluation sample_ledger))).
Proof. apply (bool_decide_unpack _). vm_compute. exact I. Defined.

Lemma every_absence_classified_witness :
  Permutation (map rr_document_id (ro_retired first_pass) ++ map cr_document_id (ro_candidates first_pass) ++ (ro_unjustified first_pass).*1)
    [us "a"; us "b"].
Proof. apply (every_absence_classified (sample_evaluation sample_ledger)); [apply sample_absent_NoDup|vm_compute; reflexivity]. Defined.

Lemma retirement_justified_witness :
  length (ro_retired first_pass) = 1%nat /\
  Forall (fun r => if rr_revalidated r then carried_retirement (sample_evaluation sample_ledger) r
                   else justified_retirement (sample_evaluation sample_ledger) r) (ro_retired first_pass).
Proof.
  split; [vm_compute; reflexivity|].
  apply retirement_justified; [apply sample_absent_NoDup|vm_compute; reflexivity].
Defined.

Lemma judgements_bounded_witness : zlen (ro_candidates first_pass) + zlen (new_retirements (ro_retired first_pass)) <= 1.
Proof.
  apply (judgements_bounded (sample_evaluation sample_ledger));
    [vm_compute; reflexivity|apply sample_absent_NoDup|vm_compute; reflexivity].
Defined.

Lemma ledger_transitions_witness : NoDup (map re_document_id (rl_entries (ro_ledger first_pass))).
Proof. apply (ledger_transitions (sample_evaluation sample_ledger)); [apply sample_absent_NoDup|vm_compute; reflexivity]. Defined.

