(* ===== verification/CorpusDiff.v ===== *)
(** The zero-loss corpus gate ([cardrag_worker/corpus_diff.py]), the document
    identities of [contracts.py] it works with, and the retirement resolver the
    pipeline injects into it ([Pipeline._build_retirement_resolver]).

    Writing the report is an effect of the gate: [gate_written] is the report that
    went to [output_path], also when the gate then refuses the run.  The file
    system evidence ([_retirement_evidence_ok]), the clock and the stored ledger
    are arguments of the resolver. *)
From Stdlib Require Floats.SpecFloat.
From S2P Require Export Retirement.
Import Stdlib.Floats.SpecFloat.

(** ** Sources and documents *)
Record SourceRecord := {
  sr_issuer : ustr;
  sr_product_code : ustr;
  sr_product_name : ustr;
  sr_effective_date : Z * Z * Z;
  sr_source_version : ustr;
  sr_source_url : ustr;
  sr_source_post_id : ustr;
  sr_file_name : ustr;
  sr_category : ustr;
  sr_metadata : list (ustr * json);
  sr_document_type : ustr;
}.

Definition ustr_empty (t : ustr) : bool := bool_decide (t = []).

Definition is_pdf (s : SourceRecord) : bool := endswith (us ".pdf") (casefold (sr_file_name s)).
Definition is_zip (s : SourceRecord) : bool := endswith (us ".zip") (casefold (sr_file_name s)).

Definition check_source_record (s : SourceRecord) : res unit :=
  let! _ := raise_if (existsb ustr_empty [sr_issuer s; sr_product_code s; sr_product_name s; sr_source_version s; sr_source_url s])
              (ValueError "source record contains an empty identity field") in
  raise_if (negb (is_pdf s || is_zip s)) (ValueError "source record file_name must end in .pdf or .zip").

Definition discovery_payload (s : SourceRecord) : json :=
  JObj [(us "category", JStr (sr_category s)); (us "document_type", JStr (sr_document_type s));
        (us "effective_date", JStr (date_isoformat (sr_effective_date s))); (us "file_name", JStr (sr_file_name s));
        (us "issuer", JStr (sr_issuer s)); (us "metadata", JObj (sr_metadata s));
        (us "product_code", JStr (sr_product_code s)); (us "product_name", JStr (sr_product_name s));
        (us "source_post_id", JStr (sr_source_post_id s)); (us "source_url", JStr (sr_source_url s));
        (us "source_version", JStr (sr_source_version s))].
Definition source_id (s : SourceRecord) : ustr := us "source_" ++ canonical_sha256 (discovery_payload s).

Definition document_identity (s : SourceRecord) (pdf_sha256 : ustr) : json :=
  JObj [(us "document_type", JStr (sr_document_type s)); (us "effective_date", JStr (date_isoformat (sr_effective_date s)));
        (us "issuer", JStr (sr_issuer s)); (us "pdf_sha256", JStr pdf_sha256);
        (us "product_code", JStr (sr_product_code s)); (us "version", JStr (sr_source_version s))].
Definition document_id (s : SourceRecord) (pdf_sha256 : ustr) : res ustr :=
  let! _ := raise_if (negb (fullmatch re_hex64 pdf_sha256)) (ValueError "invalid PDF sha256") in
  Ok (us "doc_" ++ canonical_sha256 (document_identity s pdf_sha256)).

Record AcquiredDocument := {
  aq_source : SourceRecord;
  aq_pdf_sha256 : ustr;
  aq_supersedes_document_id : option ustr;
  aq_is_historical : bool;
}.
Definition aq_lineage (d : AcquiredDocument) : LineageKey :=
  (sr_issuer (aq_source d), sr_product_code (aq_source d), sr_document_type (aq_source d)).

(** ** The prior corpus *)
Record PriorEntry := {
  pe_document_id : ustr;
  pe_source_id : ustr;
  pe_issuer : ustr;
  pe_product_code : ustr;
  pe_document_type : ustr;
  pe_pdf_sha256 : ustr;
  pe_ocr_sha256 : option ustr;
}.

Record CorpusPriorView := {
  pv_kind : ustr;
  pv_generation_id : ustr;
  pv_run_id : ustr;
  pv_observed_at : ustr;
  pv_current_doc_ids : gset ustr;
  pv_historical_doc_ids : gset ustr;
  pv_entries : list (ustr * PriorEntry);
}.

Record SeedEntry := { sde_source_id : ustr; sde_issuer : ustr; sde_pdf_sha256 : ustr; sde_ocr_sha256 : option ustr }.
Record StateSeedLedger := {
  sl_generation_id : ustr;
  sl_run_id : ustr;
  sl_entries_by_doc_id : list (ustr * SeedEntry);
  sl_prior_current_doc_ids : gset ustr;
  sl_prior_historical_doc_ids : gset ustr;
  sl_source_records : list (ustr * SourceRecord);
  sl_schema_version : ustr;
}.
Definition is_ocr_recovery_only (l : StateSeedLedger) : bool :=
  bool_decide (sl_schema_version l = us "cardrag.ocr-recovery-ledger.v1").

Definition prior_entry_of_seed (l : StateSeedLedger) (doc_id : ustr) (e : SeedEntry) : PriorEntry :=
  let record := dict_get (sde_source_id e) (sl_source_records l) in
  {| pe_document_id := doc_id; pe_source_id := sde_source_id e; pe_issuer := sde_issuer e;
     pe_product_code := match record with Some r => sr_product_code r | None => [] end;
     pe_document_type := match record with Some r => sr_document_type r | None => [] end;
     pe_pdf_sha256 := sde_pdf_sha256 e; pe_ocr_sha256 := sde_ocr_sha256 e |}.

Definition prior_view_from_seed_ledger (l : StateSeedLedger) (observed_at : ustr) : CorpusPriorView :=
  {| pv_kind := us "seed-ledger"; pv_generation_id := sl_generation_id l; pv_run_id := sl_run_id l;
     pv_observed_at := observed_at; pv_current_doc_ids := sl_prior_current_doc_ids l;
     pv_historical_doc_ids := sl_prior_historical_doc_ids l;
     pv_entries := dict_of (map (fun kv => (kv.1, prior_entry_of_seed l kv.1 kv.2)) (sl_entries_by_doc_id l)) |}.

(** ** The report *)
Record RetirementRequest := {
  rq_document_id : ustr;
  rq_source_id : ustr;
  rq_issuer : ustr;
  rq_product_code : ustr;
  rq_document_type : ustr;
  rq_pdf_sha256 : ustr;
  rq_ocr_sha256 : option ustr;
}.
Definition RetirementResolver : Type := list RetirementRequest -> gset LineageKey -> res (option RetirementOutcome).

Record ChangeRecord := {
  ch_document_id : ustr;
  ch_source_id : ustr;
  ch_issuer : ustr;
  ch_product_code : ustr;
  ch_new_pdf_sha256 : ustr;
  ch_previous_document_id : option ustr;
}.
Record NewProduct := {
  np_document_id : ustr;
  np_source_id : ustr;
  np_issuer : ustr;
  np_product_code : ustr;
  np_pdf_sha256 : ustr;
}.
Record DiffCounts := {
  dc_prior_current : Z;
  dc_prior_historical : Z;
  dc_unchanged : Z;
  dc_same_source_byte_revision : Z;
  dc_new_products : Z;
  dc_successor_sources : Z;
  dc_replaced_predecessors : Z;
  dc_retired : Z;
  dc_retirement_candidates : Z;
  dc_final_current : Z;
  dc_final_historical : Z;
  dc_final_corpus : Z;
  dc_missing_unjustified : Z;
}.
Record CorpusDiffReport := {
  cd_run_id : ustr;
  cd_baseline_kind : ustr;
  cd_counts : DiffCounts;
  cd_unchanged : list ustr;
  cd_same_source_byte_revisions : list ChangeRecord;
  cd_successor_sources : list ChangeRecord;
  cd_new_products : list NewProduct;
  cd_historical_maintained : list ustr;
  cd_retired_lineages : list RetiredRecord;
  cd_retirement_candidates : list CandidateRecord;
  cd_missing_unjustified : list ustr;
}.

(** The fields of the exception; its message is made from them. *)
Record CorpusDiffError := {
  ce_run_id : ustr;
  ce_missing_count : Z;
  ce_retired_count : Z;
  ce_candidate_count : Z;
  ce_reason_code : ustr;
  ce_sample : list ustr;
  ce_report : ustr;
}.
Inductive gate_verdict := Passed (report : CorpusDiffReport) | Refused (e : CorpusDiffError).
Record gate_result := { gate_written : option CorpusDiffReport; gate_verdict_of : gate_verdict }.

(** ** Comparison *)
Definition keys {V} (d : list (ustr * V)) : gset ustr := list_to_set d.*1.

Definition document_map (docs : list AcquiredDocument) : res (list (ustr * AcquiredDocument)) :=
  let! items := mapM_res (fun d => let! id := document_id (aq_source d) (aq_pdf_sha256 d) in Ok (id, d)) docs in
  Ok (dict_of items).

Definition new_product (id : ustr) (d : AcquiredDocument) : NewProduct :=
  {| np_document_id := id; np_source_id := source_id (aq_source d); np_issuer := sr_issuer (aq_source d);
     np_product_code := sr_product_code (aq_source d); np_pdf_sha256 := aq_pdf_sha256 d |}.
Definition change_record (id : ustr) (d : AcquiredDocument) (previous : option ustr) : ChangeRecord :=
  {| ch_document_id := id; ch_source_id := source_id (aq_source d); ch_issuer := sr_issuer (aq_source d);
     ch_product_code := sr_product_code (aq_source d); ch_new_pdf_sha256 := aq_pdf_sha256 d;
     ch_previous_document_id := previous |}.

(** The first prior entry that satisfies [p], when the document names no predecessor. *)
Definition predecessor (superseded : option ustr) (p : PriorEntry -> bool) (entries : list (ustr * PriorEntry)) : option ustr :=
  match superseded with
  | Some _ => superseded
  | None => pe_document_id <$> List.find p entries.*2
  end.

Inductive change_kind := SameSource | Successor | NewKind.

Record comparison := { cmp_revisions : list ChangeRecord; cmp_successors : list ChangeRecord; cmp_new : list NewProduct }.

Section Compare.
Context (prior : CorpusPriorView) (historical_ids : gset ustr).

Definition prior_all : gset ustr := pv_current_doc_ids prior ∪ pv_historical_doc_ids prior.
Definition replaced_predecessors : gset ustr := historical_ids ∩ pv_current_doc_ids prior.
Definition prior_source_ids : gset ustr := list_to_set (map pe_source_id (pv_entries prior).*2).
Definition prior_products : gset (ustr * ustr) :=
  list_to_set (map (fun e => (pe_issuer e, pe_product_code e))
    (filter (fun e => pe_product_code e <> []) (pv_entries prior).*2)).

Definition classify_change (d : AcquiredDocument) : change_kind :=
  let source := aq_source d in
  if bool_decide (source_id source ∈ prior_source_ids) then SameSource
  else if match aq_supersedes_document_id d with
          | Some s => bool_decide (s ∈ replaced_predecessors) || bool_decide (s ∈ keys (pv_entries prior))
                      || bool_decide (s ∈ prior_all)
          | None => false
          end
          || bool_decide ((sr_issuer source, sr_product_code source) ∈ prior_products)
       then Successor else NewKind.

(** One new current document of the loop. *)
Definition compare_document (acc : comparison) (item : ustr * AcquiredDocument) : comparison :=
  let '(id, d) := item in
  let source := aq_source d in
  match classify_change d with
  | SameSource =>
      let previous := predecessor (aq_supersedes_document_id d)
                        (fun pe => bool_decide (pe_source_id pe = source_id source)) (pv_entries prior) in
      {| cmp_revisions := cmp_revisions acc ++ [change_record id d previous];
         cmp_successors := cmp_successors acc; cmp_new := cmp_new acc |}
  | Successor =>
      let previous := predecessor (aq_supersedes_document_id d)
                        (fun pe => bool_decide (pe_issuer pe = sr_issuer source) && bool_decide (pe_product_code pe = sr_product_code source))
                        (pv_entries prior) in
      {| cmp_revisions := cmp_revisions acc;
         cmp_successors := cmp_successors acc ++ [change_record id d previous]; cmp_new := cmp_new acc |}
  | NewKind =>
      {| cmp_revisions := cmp_revisions acc; cmp_successors := cmp_successors acc;
         cmp_new := cmp_new acc ++ [new_product id d] |}
  end.

Definition request_for (id : ustr) : RetirementRequest :=
  match dict_get id (pv_entries prior) with
  | Some e => {| rq_document_id := id; rq_source_id := pe_source_id e; rq_issuer := pe_issuer e;
                 rq_product_code := pe_product_code e; rq_document_type := pe_document_type e;
                 rq_pdf_sha256 := pe_pdf_sha256 e; rq_ocr_sha256 := pe_ocr_sha256 e |}
  | None => {| rq_document_id := id; rq_source_id := []; rq_issuer := []; rq_product_code := [];
               rq_document_type := []; rq_pdf_sha256 := []; rq_ocr_sha256 := None |}
  end.
End Compare.

(** The arguments of [generate_corpus_diff_report]. *)
Record gate_inputs := {
  gi_run_id : ustr;
  gi_acquired : list AcquiredDocument;
  gi_seed_ledger : option StateSeedLedger;
  gi_prior : option CorpusPriorView;
  gi_resolver : option RetirementResolver;
  gi_output_path : bool;
  gi_fail_on_missing : bool;
  gi_prior_observed_at : ustr;
  gi_discovered_lineages : option (gset LineageKey);
}.

Definition effective_prior (gi : gate_inputs) : option CorpusPriorView :=
  match gi_prior gi, gi_seed_ledger gi with
  | Some p, _ => Some p
  | None, Some l => Some (prior_view_from_seed_ledger l (gi_prior_observed_at gi))
  | None, None => None
  end.

(** The lineages discovery found, or those of the current documents. *)
Definition active_lineages (gi : gate_inputs) (current_docs : list AcquiredDocument) : gset LineageKey :=
  match gi_discovered_lineages gi with
  | Some l => l
  | None => list_to_set (map aq_lineage current_docs)
  end.

(** The unjustified ids and the records of the resolver's outcome. *)
Definition justify (gi : gate_inputs) (prior : CorpusPriorView) (current_docs : list AcquiredDocument)
    (missing : list ustr) : res (list ustr * list RetiredRecord * list CandidateRecord) :=
  match gi_resolver gi with
  | None => Ok (missing, [], [])
  | Some resolver =>
      let! outcome := resolver (map (request_for prior) missing) (active_lineages gi current_docs) in
      match outcome with
      | None => Ok (missing, [], [])
      | Some o =>
          Ok (sorted_by ustr_leb (filter (fun id => id ∈ missing) (ro_unjustified o).*1), ro_retired o, ro_candidates o)
      end
  end.

Definition corpus_diff_error (run_id : ustr) (report : CorpusDiffReport) : CorpusDiffError :=
  {| ce_run_id := run_id; ce_missing_count := zlen (cd_missing_unjustified report);
     ce_retired_count := zlen (cd_retired_lineages report); ce_candidate_count := zlen (cd_retirement_candidates report);
     ce_reason_code := us "corpus_diff_missing"; ce_sample := slice (cd_missing_unjustified report) 0 5;
     ce_report := us "runs/" ++ run_id ++ us "/reports/corpus-diff.json" |}.

(** The exemption of an OCR recovery ledger without a resolver. *)
Definition recovery_exempt (gi : gate_inputs) : bool :=
  match gi_seed_ledger gi, gi_resolver gi with
  | Some l, None => is_ocr_recovery_only l
  | _, _ => false
  end.

Definition initial_report (gi : gate_inputs) (current_map historical_map : list (ustr * AcquiredDocument)) : CorpusDiffReport :=
  let new_products := map (fun kv => new_product kv.1 kv.2) (sorted_by key_leb current_map) in
  {| cd_run_id := gi_run_id gi; cd_baseline_kind := us "none";
     cd_counts :=
       {| dc_prior_current := 0; dc_prior_historical := 0; dc_unchanged := 0; dc_same_source_byte_revision := 0;
          dc_new_products := zlen new_products; dc_successor_sources := 0; dc_replaced_predecessors := 0;
          dc_retired := 0; dc_retirement_candidates := 0; dc_final_current := zlen current_map;
          dc_final_historical := zlen historical_map;
          dc_final_corpus := Z.of_nat (size (keys current_map ∪ keys historical_map)); dc_missing_unjustified := 0 |};
     cd_unchanged := []; cd_same_source_byte_revisions := []; cd_successor_sources := [];
     cd_new_products := new_products; cd_historical_maintained := sorted_by ustr_leb historical_map.*1;
     cd_retired_lineages := []; cd_retirement_candidates := []; cd_missing_unjustified := [] |}.

Definition compare_with (gi : gate_inputs) (prior : CorpusPriorView) (current_docs : list AcquiredDocument)
    (current_map historical_map : list (ustr * AcquiredDocument)) : res CorpusDiffReport :=
  let current_ids := keys current_map in
  let historical_ids := keys historical_map in
  let new_current_ids := sorted_set (current_ids ∖ pv_current_doc_ids prior) in
  let new_documents := omap (fun id => pair id <$> dict_get id current_map) new_current_ids in
  let cmp := fold_left (compare_document prior historical_ids) new_documents
               {| cmp_revisions := []; cmp_successors := []; cmp_new := [] |} in
  let unchanged := pv_current_doc_ids prior ∩ current_ids in
  let missing := sorted_set (prior_all prior ∖ (current_ids ∪ historical_ids)) in
  let! justified := justify gi prior current_docs missing in
  let '(unjustified, retired, candidates) := justified in
  Ok {| cd_run_id := gi_run_id gi; cd_baseline_kind := pv_kind prior;
        cd_counts :=
          {| dc_prior_current := Z.of_nat (size (pv_current_doc_ids prior));
             dc_prior_historical := Z.of_nat (size (pv_historical_doc_ids prior));
             dc_unchanged := Z.of_nat (size unchanged);
             dc_same_source_byte_revision := zlen (cmp_revisions cmp); dc_new_products := zlen (cmp_new cmp);
             dc_successor_sources := zlen (cmp_successors cmp);
             dc_replaced_predecessors := Z.of_nat (size (replaced_predecessors prior historical_ids));
             dc_retired := zlen retired; dc_retirement_candidates := zlen candidates;
             dc_final_current := zlen current_map; dc_final_historical := zlen historical_map;
             dc_final_corpus := Z.of_nat (size (current_ids ∪ historical_ids));
             dc_missing_unjustified := zlen unjustified |};
        cd_unchanged := sorted_set unchanged; cd_same_source_byte_revisions := cmp_revisions cmp;
        cd_successor_sources := cmp_successors cmp; cd_new_products := cmp_new cmp;
        cd_historical_maintained := sorted_by ustr_leb historical_map.*1; cd_retired_lineages := retired;
        cd_retirement_candidates := candidates; cd_missing_unjustified := unjustified |}.

Definition written (gi : gate_inputs) (report : CorpusDiffReport) : option CorpusDiffReport :=
  if gi_output_path gi then Some report else None.

Definition generate_corpus_diff_report (gi : gate_inputs) : res gate_result :=
  let current_docs := filter (fun d => aq_is_historical d = false) (gi_acquired gi) in
  let historical_docs := filter (fun d => aq_is_historical d = true) (gi_acquired gi) in
  let! current_map := document_map current_docs in
  let! historical_map := document_map historical_docs in
  match effective_prior gi with
  | None =>
      let report := initial_report gi current_map historical_map in
      Ok {| gate_written := written gi report; gate_verdict_of := Passed report |}
  | Some prior =>
      let! report := compare_with gi prior current_docs current_map historical_map in
      let refused := negb (bool_decide (cd_missing_unjustified report = [])) && gi_fail_on_missing gi && negb (recovery_exempt gi) in
      Ok {| gate_written := written gi report;
            gate_verdict_of := if refused then Refused (corpus_diff_error (gi_run_id gi) report) else Passed report |}
  end.

(** ** The resolver the pipeline builds *)
Record resolver_env := {
  rs_run_id : ustr;
  rs_prior : CorpusPriorView;
  rs_grace_runs : Z;
  rs_grace_days : Z;
  rs_max_per_run : Z;
  rs_ledger : option RetirementLedger;
  rs_now : utc_datetime;
  rs_evidence_ok : AbsentDocument -> CorpusPriorView -> res bool;
  rs_issuer_failed : list (ustr * bool);
  rs_adapters : list ustr;
  rs_selected_issuers : gset ustr;
}.

Definition resolver_policy (rs : resolver_env) : RetirementPolicy :=
  {| grace_runs := rs_grace_runs rs; grace_days := rs_grace_days rs; max_per_run := rs_max_per_run rs;
     max_ratio := RETIREMENT_MAX_RATIO |}.

Definition absent_of_request (rs : resolver_env) (r : RetirementRequest) : AbsentDocument :=
  {| ad_document_id := rq_document_id r; ad_source_id := rq_source_id r; ad_issuer := rq_issuer r;
     ad_product_code := rq_product_code r; ad_document_type := rq_document_type r;
     ad_pdf_sha256 := rq_pdf_sha256 r; ad_ocr_sha256 := rq_ocr_sha256 r;
     ad_last_observed_run_id := pv_run_id (rs_prior rs); ad_last_observed_at := pv_observed_at (rs_prior rs) |}.
Definition absent_of_entry (e : RetirementEntry) : AbsentDocument :=
  {| ad_document_id := re_document_id e; ad_source_id := re_source_id e; ad_issuer := re_issuer e;
     ad_product_code := re_product_code e; ad_document_type := re_document_type e;
     ad_pdf_sha256 := re_pdf_sha256 e; ad_ocr_sha256 := re_ocr_sha256 e;
     ad_last_observed_run_id := re_last_observed_run_id e; ad_last_observed_at := re_last_observed_at e |}.

(** A stored candidate that is neither requested, discovered nor in the prior
    corpus is judged again. *)
Definition add_pending (rs : resolver_env) (discovered : gset LineageKey)
    (absent : list (ustr * AbsentDocument)) (e : RetirementEntry) : list (ustr * AbsentDocument) :=
  if negb (bool_decide (re_status e = Candidate)) || bool_decide (re_document_id e ∈ absent.*1) then absent
  else if bool_decide (re_lineage_key e ∈ discovered) || bool_decide (re_document_id e ∈ (pv_entries (rs_prior rs)).*1) then absent
  else dict_set (re_document_id e) (absent_of_entry e) absent.

Definition collect_absent (rs : resolver_env) (requests : list RetirementRequest) (discovered : gset LineageKey)
    : list (ustr * AbsentDocument) :=
  fold_left (add_pending rs discovered) (match rs_ledger rs with Some l => rl_entries l | None => [] end)
    (dict_of (map (fun r => (rq_document_id r, absent_of_request rs r)) requests)).

(** The evidence of the documents, checked in order until the budget is used up. *)
Record verdicts := { vd_durable : gmap ustr bool; vd_lineage_absent : gmap ustr bool; vd_used : Z }.

Definition check_evidence (rs : resolver_env) (discovered : gset LineageKey) (v : verdicts) (d : AbsentDocument) : res verdicts :=
  let lineage := <[ad_document_id d := negb (bool_decide (ad_lineage_key d ∈ discovered))]> (vd_lineage_absent v) in
  if vd_used v <? rs_max_per_run rs + 10 then
    let! ok := rs_evidence_ok rs d (rs_prior rs) in
    Ok {| vd_durable := <[ad_document_id d := ok]> (vd_durable v); vd_lineage_absent := lineage; vd_used := vd_used v + 1 |}
  else Ok {| vd_durable := <[ad_document_id d := false]> (vd_durable v); vd_lineage_absent := lineage; vd_used := vd_used v |}.

Definition resolver_frozen (rs : resolver_env) : gset ustr :=
  list_to_set (filter (fun p => p.2 = true) (rs_issuer_failed rs)).*1
  ∪ (list_to_set (rs_adapters rs) ∖ rs_selected_issuers rs).

Definition resolver_evaluation (rs : resolver_env) (discovered : gset LineageKey) (absent : list (ustr * AbsentDocument))
    (v : verdicts) : evaluation :=
  {| ev_run_id := rs_run_id rs; ev_run_started_at := rs_now rs; ev_policy := resolver_policy rs;
     ev_baseline_total := zlen (pv_entries (rs_prior rs)); ev_ledger := rs_ledger rs; ev_absent := absent.*2;
     ev_durable_ok := vd_durable v; ev_lineage_absent := vd_lineage_absent v; ev_discovered_lineages := discovered;
     ev_frozen_issuers := resolver_frozen rs |}.

Definition resolve (rs : resolver_env) : RetirementResolver := fun requests discovered =>
  let absent := collect_absent rs requests discovered in
  let! v := foldM (check_evidence rs discovered) {| vd_durable := ∅; vd_lineage_absent := ∅; vd_used := 0 |}
              (sorted_by absent_order absent.*2) in
  let! outcome := evaluate_retirements (resolver_evaluation rs discovered absent v) in
  Ok (Some outcome).

(** What the resolver leaves with the pipeline: the counts of the gate, and the
    new ledger when its payload differs from the stored one.  Payloads are compared
    as values: entries in document order, the hash left out. *)
#[export] Instance spec_float_eq_dec : EqDecision spec_float. Proof. solve_decision. Defined.
#[export] Instance DecisionInputs_eq_dec : EqDecision DecisionInputs. Proof. solve_decision. Defined.
#[export] Instance RetirementEntry_eq_dec : EqDecision RetirementEntry. Proof. solve_decision. Defined.

Definition ledger_payload (l : RetirementLedger) : ustr * list RetirementEntry :=
  (rl_updated_run_id l, sorted_by (fun e f => ustr_leb (re_document_id e) (re_document_id f)) (rl_entries l)).
Definition corpus_gate_counts (outcome : RetirementOutcome) : Z * Z := (zlen (ro_retired outcome), zlen (ro_candidates outcome)).
Definition pending_retirement_ledger (rs : resolver_env) (outcome : RetirementOutcome) : option RetirementLedger :=
  let changed := match rs_ledger rs with
                 | Some l => negb (bool_decide (ledger_payload l = ledger_payload (ro_ledger outcome)))
                 | None => true
                 end in
  if negb (bool_decide (rl_entries (ro_ledger outcome) = [])) && changed then Some (ro_ledger outcome) else None.

(** [_build_retirement_resolver]: the policy is checked when the resolver is built. *)
Definition build_retirement_resolver (rs : resolver_env) : res RetirementResolver :=
  let! _ := check_policy (resolver_policy rs) in
  Ok (resolve rs).
