(* ===== verification/CorpusDiffProof.v ===== *)
(** The corpus gate loses no document: what a passed report says of every prior
    document, for any resolver that classifies its requests, and for the
    resolver of the pipeline. *)
From S2P Require Export CorpusDiff RetirementProof.

(** ** Dictionaries and sets *)
Lemma dict_of_keys {K V} `{EqDecision K} (l : list (K * V)) k : k ∈ (dict_of l).*1 <-> k ∈ l.*1.
Proof.
  unfold dict_of. assert (forall d, k ∈ (fold_left (fun d kv => dict_set kv.1 kv.2 d) l d).*1 <-> k ∈ d.*1 \/ k ∈ l.*1) as H.
  { induction l as [|[k1 v1] l IH]; intros d; cbn [fold_left]; [rewrite elem_of_nil; tauto|].
    rewrite IH, dict_set_keys. cbn. rewrite elem_of_cons. tauto. }
  rewrite H. rewrite elem_of_nil. tauto.
Qed.

Lemma dict_of_source {K V} `{EqDecision K} (l : list (K * V)) k v : dict_get k (dict_of l) = Some v -> (k, v) ∈ l.
Proof.
  unfold dict_of. assert (forall d, dict_get k (fold_left (fun d kv => dict_set kv.1 kv.2 d) l d) = Some v ->
    dict_get k d = Some v \/ (k, v) ∈ l) as H.
  { induction l as [|[k1 v1] l IH]; intros d; cbn [fold_left]; [by left|]. intros [H|H]%IH; [|right; by right].
    rewrite dict_get_set in H. case_decide as E; [|by left]. injection H as <-. subst. right. by left. }
  intros Hg. destruct (H [] Hg) as [?|?]; [discriminate|done].
Qed.

Lemma dict_get_is_Some {K V} `{EqDecision K} (k : K) (d : list (K * V)) : k ∈ d.*1 -> is_Some (dict_get k d).
Proof. intros Hk. destruct (dict_get k d) eqn:E; [done|]. by apply dict_get_None in E. Qed.

Lemma keys_elem {V} (d : list (ustr * V)) id : id ∈ keys d <-> id ∈ d.*1.
Proof. apply elem_of_list_to_set. Qed.

(** ** Acquired documents *)
Definition acquired (docs : list AcquiredDocument) (id : ustr) : Prop :=
  exists d, d ∈ docs /\ document_id (aq_source d) (aq_pdf_sha256 d) = Ok id.

Lemma document_map_items docs items :
  mapM_res (fun d => let! id := document_id (aq_source d) (aq_pdf_sha256 d) in Ok (id, d)) docs = Ok items ->
  forall id d, (id, d) ∈ items <-> d ∈ docs /\ document_id (aq_source d) (aq_pdf_sha256 d) = Ok id.
Proof.
  revert items. induction docs as [|a docs IH]; cbn [mapM_res]; intros items H.
  - injection H as <-. intros id d. rewrite !elem_of_nil. tauto.
  - destruct (document_id (aq_source a) (aq_pdf_sha256 a)) as [i|] eqn:Ei; [|discriminate].
    cbn [res_bind] in H. destruct (mapM_res _ docs) as [rest|] eqn:Er; [|discriminate]. injection H as <-.
    intros id d. rewrite !elem_of_cons, (IH rest eq_refl). split.
    + intros [[= -> ->]|[? ?]]; auto.
    + intros [[->|Hin] Hd]; [left; congruence|by right].
Qed.

Lemma document_map_spec docs m :
  document_map docs = Ok m ->
  NoDup m.*1 /\ (forall id, id ∈ m.*1 <-> acquired docs id) /\
  (forall id d, dict_get id m = Some d -> d ∈ docs /\ document_id (aq_source d) (aq_pdf_sha256 d) = Ok id).
Proof.
  unfold document_map. intros H. apply bind_ok in H as (items & Hi & [= <-]). pose proof (document_map_items _ _ Hi) as Hitems.
  split; [apply dict_of_NoDup_keys|]. split.
  - intros id. rewrite dict_of_keys, list_elem_of_fmap. split.
    + intros ([k d] & -> & Hin). exists d. by apply Hitems.
    + intros (d & Hd). exists (id, d). split; [done|]. by apply Hitems.
  - intros id d Hg. by apply Hitems, dict_of_source.
Qed.

Lemma acquired_split docs id :
  acquired docs id <->
  acquired (filter (fun d => aq_is_historical d = false) docs) id \/ acquired (filter (fun d => aq_is_historical d = true) docs) id.
Proof.
  unfold acquired. split.
  - intros (d & Hd & E). destruct (aq_is_historical d) eqn:Eh; [right|left]; exists d; by rewrite list_elem_of_filter.
  - intros [(d & [_ Hd]%list_elem_of_filter & E)|(d & [_ Hd]%list_elem_of_filter & E)]; by exists d.
Qed.

(** ** The contract of a resolver *)
Definition outcome_covers (o : RetirementOutcome) (id : ustr) : Prop :=
  id ∈ map rr_document_id (ro_retired o) \/ id ∈ map cr_document_id (ro_candidates o) \/ id ∈ (ro_unjustified o).*1.

(** What the gate relies on: no request goes unanswered. *)
Class ClassifyingResolver (r : RetirementResolver) : Prop :=
  classifies : forall requests discovered o, r requests discovered = Ok (Some o) ->
    forall q, q ∈ requests -> outcome_covers o (rq_document_id q).

(** Evidence about a retired document or a candidate, as a resolver may promise it. *)
Class VouchingResolver (vouched : gset LineageKey -> ustr -> Prop) (r : RetirementResolver) : Prop :=
  vouches : forall requests discovered o, r requests discovered = Ok (Some o) ->
    Forall (vouched discovered) (map rr_document_id (ro_retired o) ++ map cr_document_id (ro_candidates o)).

(** ** The comparison loop *)
Lemma compare_ids prior hist items : forall acc,
  let r := fold_left (compare_document prior hist) items acc in
  Permutation (map ch_document_id (cmp_revisions r) ++ map ch_document_id (cmp_successors r) ++ map np_document_id (cmp_new r))
    ((map ch_document_id (cmp_revisions acc) ++ map ch_document_id (cmp_successors acc) ++ map np_document_id (cmp_new acc)) ++ items.*1).
Proof.
  induction items as [|[id d] items IH]; intros acc; cbn [fold_left]; [by rewrite app_nil_r|].
  cbn zeta in IH |- *. rewrite IH, fmap_cons. cbn [fst]. rewrite (cons_middle id), (app_assoc _ [id]).
  apply Permutation_app_tail. unfold compare_document. destruct (classify_change _ _ d); cbn [cmp_revisions cmp_successors cmp_new];
    rewrite map_app; cbn [map].
  - apply move_end_1.
  - apply move_end_2.
  - by rewrite !app_assoc.
Qed.

Lemma new_documents_ids (m : list (ustr * AcquiredDocument)) ids :
  (forall id, id ∈ ids -> id ∈ m.*1) -> (omap (fun id => pair id <$> dict_get id m) ids).*1 = ids.
Proof.
  induction ids as [|id ids IH]; intros H; [done|]. cbn. destruct (dict_get_is_Some id m) as [d Hd]; [apply H; left|].
  rewrite Hd. cbn. f_equal. apply IH. intros; apply H. by right.
Qed.

Lemma set_split_sorted (a b : gset ustr) : Permutation (sorted_set (a ∩ b) ++ sorted_set (b ∖ a)) (elements b).
Proof.
  apply NoDup_Permutation; [|apply NoDup_elements|].
  - apply NoDup_app. split; [apply sorted_set_NoDup|]. split; [|apply sorted_set_NoDup].
    intros x. rewrite !sorted_set_elem. set_solver.
  - intros x. rewrite elem_of_app, !sorted_set_elem, elem_of_elements. destruct (decide (x ∈ a)); set_solver.
Qed.

(** ** The gate against any resolver *)

(** The report of a run, returned or written. *)
Definition reported (g : gate_result) (report : CorpusDiffReport) : Prop :=
  gate_verdict_of g = Passed report \/ gate_written g = Some report.

Section Gate.
Context (gi : gate_inputs) (prior : CorpusPriorView).
Context (Hprior : effective_prior gi = Some prior).

(** What a run of the gate is made of. *)
Lemma gate_parts g :
  generate_corpus_diff_report gi = Ok g ->
  exists report cm hm,
    document_map (filter (fun d => aq_is_historical d = false) (gi_acquired gi)) = Ok cm /\
    document_map (filter (fun d => aq_is_historical d = true) (gi_acquired gi)) = Ok hm /\
    compare_with gi prior (filter (fun d => aq_is_historical d = false) (gi_acquired gi)) cm hm = Ok report /\
    gate_written g = written gi report /\
    gate_verdict_of g =
      (if negb (bool_decide (cd_missing_unjustified report = [])) && gi_fail_on_missing gi && negb (recovery_exempt gi)
       then Refused (corpus_diff_error (gi_run_id gi) report) else Passed report).
Proof.
  unfold generate_corpus_diff_report. rewrite Hprior. intros H. inv_res H. exists r1, r, r0. auto 10.
Qed.

Definition missing_ids (cm hm : list (ustr * AcquiredDocument)) : list ustr :=
  sorted_set (prior_all prior ∖ (keys cm ∪ keys hm)).

Lemma missing_ids_spec cm hm id :
  document_map (filter (fun d => aq_is_historical d = false) (gi_acquired gi)) = Ok cm ->
  document_map (filter (fun d => aq_is_historical d = true) (gi_acquired gi)) = Ok hm ->
  id ∈ missing_ids cm hm <-> id ∈ prior_all prior /\ ~ acquired (gi_acquired gi) id.
Proof.
  intros (_ & Hc & _)%document_map_spec (_ & Hh & _)%document_map_spec. unfold missing_ids.
  rewrite sorted_set_elem, elem_of_difference, elem_of_union, !keys_elem, Hc, Hh, <- acquired_split. done.
Qed.

(** How the report deals with the missing ids. *)
Lemma compare_with_parts cds cm hm report :
  compare_with gi prior cds cm hm = Ok report ->
  justify gi prior cds (missing_ids cm hm) =
    Ok (cd_missing_unjustified report, cd_retired_lineages report, cd_retirement_candidates report).
Proof.
  unfold compare_with. intros H. apply bind_ok in H as ([[u r] c] & Hj & H). injection H as <-. exact Hj.
Qed.

Lemma justify_cases cds missing u r c :
  justify gi prior cds missing = Ok (u, r, c) ->
  (u = missing /\ r = [] /\ c = []) \/
  (exists resolver o, gi_resolver gi = Some resolver /\
     resolver (map (request_for prior) missing) (active_lineages gi cds) = Ok (Some o) /\
     r = ro_retired o /\ c = ro_candidates o /\ (forall id, id ∈ u <-> id ∈ missing /\ id ∈ (ro_unjustified o).*1)).
Proof.
  unfold justify. destruct (gi_resolver gi) as [resolver|]; [|intros H; injection H as <- <- <-; auto].
  intros H. apply bind_ok in H as (o & Ho & H). destruct o as [o|]; injection H as <- <- <-; [|auto].
  right. exists resolver, o. split; [done|]. split; [exact Ho|]. split; [done|]. split; [done|].
  intros id. rewrite sorted_by_Permutation, list_elem_of_filter. done.
Qed.

Lemma request_for_id id : rq_document_id (request_for prior id) = id.
Proof. unfold request_for. by destruct (dict_get _ _). Qed.

Lemma gate_report g report :
  generate_corpus_diff_report gi = Ok g -> reported g report ->
  exists cm hm,
    document_map (filter (fun d => aq_is_historical d = false) (gi_acquired gi)) = Ok cm /\
    document_map (filter (fun d => aq_is_historical d = true) (gi_acquired gi)) = Ok hm /\
    compare_with gi prior (filter (fun d => aq_is_historical d = false) (gi_acquired gi)) cm hm = Ok report.
Proof.
  intros H Hreport. apply gate_parts in H as (rep & cm & hm & Hc & Hh & Hcmp & Hw & Hv).
  exists cm, hm. split; [done|]. split; [done|]. rewrite Hcmp. f_equal. destruct Hreport as [E|E].
  - rewrite Hv in E. destruct (_ && _); [discriminate|by injection E].
  - rewrite Hw in E. unfold written in E. destruct (gi_output_path gi); [by injection E|discriminate].
Qed.

(** Every prior document is accounted for in the report. *)
Lemma report_accounts report g :
  (forall r, gi_resolver gi = Some r -> ClassifyingResolver r) ->
  generate_corpus_diff_report gi = Ok g ->
  reported g report ->
  forall id, id ∈ prior_all prior ->
    acquired (gi_acquired gi) id \/ id ∈ map rr_document_id (cd_retired_lineages report) \/
    id ∈ map cr_document_id (cd_retirement_candidates report) \/ id ∈ cd_missing_unjustified report.
Proof.
  intros Hlaw H Hreport id Hid. destruct (gate_report _ _ H Hreport) as (cm & hm & Hc & Hh & Hcmp).
  destruct (decide (id ∈ missing_ids cm hm)) as [Hm|Hm].
  2: { left. destruct (document_map_spec _ _ Hc) as (_ & Ac & _). destruct (document_map_spec _ _ Hh) as (_ & Ah & _).
       apply acquired_split. rewrite <- Ac, <- Ah. unfold missing_ids in Hm. rewrite sorted_set_elem in Hm.
       rewrite elem_of_difference, elem_of_union, !keys_elem in Hm.
       destruct (decide (id ∈ cm.*1)); [by left|]. destruct (decide (id ∈ hm.*1)); [by right|]. tauto. }
  right. apply compare_with_parts, justify_cases in Hcmp as [(-> & _ & _)|(res & o & Hr & Ho & -> & -> & Hu)]; [auto|].
  assert (request_for prior id ∈ map (request_for prior) (missing_ids cm hm)) as Hq by (apply list_elem_of_fmap; eauto).
  destruct (Hlaw _ Hr _ _ _ Ho _ Hq) as [Hx|[Hx|Hx]]; rewrite request_for_id in Hx; [auto|auto|].
  right. right. by apply Hu.
Qed.
End Gate.

(** ** The pipeline's resolver *)
Definition well_keyed (absent : list (ustr * AbsentDocument)) : Prop :=
  NoDup absent.*1 /\ map ad_document_id absent.*2 = absent.*1.

Lemma well_keyed_set absent id d : well_keyed absent -> ad_document_id d = id -> id ∉ absent.*1 -> well_keyed (dict_set id d absent).
Proof.
  intros [Hnd Hids] Hid Hn. split; [by apply dict_set_NoDup|]. rewrite dict_set_fresh by done.
  rewrite !fmap_app. f_equal; [exact Hids|]. cbn. by rewrite Hid.
Qed.

Lemma well_keyed_requests rs requests :
  well_keyed (dict_of (map (fun r => (rq_document_id r, absent_of_request rs r)) requests)).
Proof.
  split; [apply dict_of_NoDup_keys|]. set (d := dict_of _).
  assert (forall k v, (k, v) ∈ d -> ad_document_id v = k) as H.
  { intros k v Hin. assert (dict_get k d = Some v) as Hg by (apply dict_get_of_elem; [apply dict_of_NoDup_keys|done]).
    apply dict_of_source in Hg. apply list_elem_of_fmap in Hg as (r & [= -> ->] & _). done. }
  clearbody d. induction d as [|[k v] d IH]; [done|]. cbn. f_equal; [apply H; left|]. apply IH. intros; apply H. by right.
Qed.

Lemma add_pending_keyed rs discovered absent e :
  well_keyed absent ->
  well_keyed (add_pending rs discovered absent e) /\ (forall id, id ∈ absent.*1 -> id ∈ (add_pending rs discovered absent e).*1).
Proof.
  intros H. unfold add_pending. case_match eqn:E1; [done|]. case_match; [done|]. bsplit.
  split; [by apply well_keyed_set|]. intros id Hid. apply dict_set_keys. by right.
Qed.

Lemma collect_absent_spec rs requests discovered :
  well_keyed (collect_absent rs requests discovered) /\
  (forall q, q ∈ requests -> rq_document_id q ∈ (collect_absent rs requests discovered).*1).
Proof.
  unfold collect_absent. set (l := match rs_ledger rs with Some _ => _ | None => _ end).
  assert (forall absent, well_keyed absent ->
    well_keyed (fold_left (add_pending rs discovered) l absent) /\
    (forall id, id ∈ absent.*1 -> id ∈ (fold_left (add_pending rs discovered) l absent).*1)) as H.
  { induction l as [|e l IH]; intros absent Ha; cbn [fold_left]; [done|].
    destruct (add_pending_keyed rs discovered absent e Ha) as [H1 H2]. destruct (IH _ H1) as [H3 H4]. split; auto. }
  destruct (H _ (well_keyed_requests rs requests)) as [H1 H2]. split; [done|]. intros q Hq. apply H2.
  rewrite dict_of_keys. apply list_elem_of_fmap. exists (rq_document_id q, absent_of_request rs q). split; [done|].
  apply list_elem_of_fmap. by exists q.
Qed.

(** The verdict maps after the evidence loop. *)
Record verdicts_inv (rs : resolver_env) (discovered : gset LineageKey) (seen : list AbsentDocument) (v : verdicts) : Prop := {
  vi_durable : exists ok, zlen ok <= vd_used v /\
    forall id, flag (vd_durable v) id = true ->
      id ∈ ok /\ exists d, d ∈ seen /\ ad_document_id d = id /\ rs_evidence_ok rs d (rs_prior rs) = Ok true;
  vi_lineage : forall id, flag (vd_lineage_absent v) id = true ->
    exists d, d ∈ seen /\ ad_document_id d = id /\ ad_lineage_key d ∉ discovered;
  vi_used : 0 <= vd_used v <= Z.max 0 (rs_max_per_run rs + 10);
}.

Lemma flag_insert (m : gmap ustr bool) id b id' : flag (<[id := b]> m) id' = if decide (id = id') then b else flag m id'.
Proof. unfold flag. destruct (decide (id = id')) as [->|]; [by rewrite lookup_insert_eq|by rewrite lookup_insert_ne]. Qed.

Lemma verdicts_step rs discovered seen v d v' :
  verdicts_inv rs discovered seen v -> check_evidence rs discovered v d = Ok v' -> verdicts_inv rs discovered (seen ++ [d]) v'.
Proof.
  intros [(ok & Hlen & Hok) Hlin Hu] H.
  assert (forall id, flag (<[ad_document_id d := negb (bool_decide (ad_lineage_key d ∈ discovered))]> (vd_lineage_absent v)) id = true ->
    exists d', d' ∈ seen ++ [d] /\ ad_document_id d' = id /\ ad_lineage_key d' ∉ discovered) as Hlin'.
  { intros id. rewrite flag_insert. destruct (decide (ad_document_id d = id)) as [E|E].
    - intros Hb. bsplit. exists d. rewrite elem_of_app, list_elem_of_singleton. auto.
    - intros Hb. destruct (Hlin id Hb) as (d' & ? & ?). exists d'. rewrite elem_of_app. auto. }
  unfold check_evidence in H. destruct (Z.ltb_spec (vd_used v) (rs_max_per_run rs + 10)) as [Hlt|Hge].
  - apply bind_ok in H as (b & Hb & [= <-]). split; cbn [vd_durable vd_lineage_absent vd_used]; [|done|lia].
    exists (if b then ad_document_id d :: ok else ok). split; [destruct b; rewrite ?zlen_cons; lia|].
    intros id. rewrite flag_insert. destruct (decide (ad_document_id d = id)) as [E|E].
    + intros ->. split; [subst; left|]. exists d. rewrite elem_of_app, list_elem_of_singleton. auto.
    + intros Hd. destruct (Hok id Hd) as (Hin & d' & ? & ?). split; [destruct b; [by right|done]|].
      exists d'. rewrite elem_of_app. auto.
  - injection H as <-. split; cbn [vd_durable vd_lineage_absent vd_used]; [|done|done]. exists ok. split; [done|].
    intros id. rewrite flag_insert. destruct (decide (ad_document_id d = id)) as [E|E]; [done|]. intros Hd. destruct (Hok id Hd) as (Hin & d' & ? & ?).
    split; [done|]. exists d'. rewrite elem_of_app. auto.
Qed.

Lemma verdicts_ok rs discovered l v :
  foldM (check_evidence rs discovered) {| vd_durable := ∅; vd_lineage_absent := ∅; vd_used := 0 |} l = Ok v ->
  verdicts_inv rs discovered l v.
Proof.
  intros H. refine (foldM_ok_invariant _ (verdicts_inv rs discovered) _ _ _ _ _ H).
  - split; cbn; [|unfold flag; intros id; by rewrite lookup_empty|lia].
    exists []. split; [rewrite zlen_nil; lia|]. unfold flag. intros id. by rewrite lookup_empty.
  - intros. by eapply verdicts_step.
Qed.

(** What a successful call of the resolver consists of. *)
Lemma resolve_parts rs requests discovered o :
  resolve rs requests discovered = Ok (Some o) ->
  exists v, let absent := collect_absent rs requests discovered in
    evaluate_retirements (resolver_evaluation rs discovered absent v) = Ok o /\
    verdicts_inv rs discovered (sorted_by absent_order absent.*2) v /\
    NoDup (map ad_document_id absent.*2).
Proof.
  unfold resolve. intros H. inv_res H. exists r. split; [congruence|]. split; [by apply verdicts_ok|].
  destruct (collect_absent_spec rs requests discovered) as [[Hnd Hids] _]. by rewrite Hids.
Qed.

#[export] Instance resolve_classifies rs : ClassifyingResolver (resolve rs).
Proof.
  intros requests discovered o H q Hq. destruct (resolve_parts _ _ _ _ H) as (v & He & _ & Hnd).
  destruct (evaluate_parts _ _ He Hnd) as (cap & st & _ & Hinv & Hr & Hc & Hu & _).
  destruct (collect_absent_spec rs requests discovered) as [[_ Hids] Hreq]. specialize (Hreq q Hq).
  rewrite <- Hids in Hreq. pose proof (li_ids _ _ _ _ Hinv) as Hperm. cbn [resolver_evaluation ev_absent] in Hperm.
  rewrite (sorted_by_Permutation absent_order) in Hperm. rewrite <- Hperm in Hreq. unfold outcome_ids in Hreq.
  unfold outcome_covers. rewrite Hr, Hc, Hu. rewrite !elem_of_app in Hreq. done.
Qed.

(** The evidence the pipeline has about a document it lets go. *)
Definition vouched_by (rs : resolver_env) (discovered : gset LineageKey) (id : ustr) : Prop :=
  exists d, ad_document_id d = id /\ ad_issuer d ∉ resolver_frozen rs /\ ad_lineage_key d ∉ discovered /\
    rs_evidence_ok rs d (rs_prior rs) = Ok true.

#[export] Instance resolve_vouches rs : VouchingResolver (vouched_by rs) (resolve rs).
Proof.
  intros requests discovered o H. destruct (resolve_parts _ _ _ _ H) as (v & He & Hv & Hnd).
  destruct (evaluate_parts _ _ He Hnd) as (cap & st & _ & Hinv & -> & -> & _).
  eapply Forall_impl; [exact (li_eligible _ _ _ _ Hinv)|]. intros id (item & Hin & (Hf & Hd & Hl) & Hid).
  cbn [resolver_evaluation ev_absent ev_frozen_issuers ev_durable_ok ev_lineage_absent] in *.
  destruct (vi_durable _ _ _ _ Hv) as (ok & _ & Hok). destruct (Hok _ Hd) as (_ & d & Hd1 & Hd2 & Hd3).
  destruct (vi_lineage _ _ _ _ Hv _ Hl) as (d' & Hd1' & Hd2' & Hd3').
  rewrite sorted_by_Permutation in Hd1, Hd1'.
  assert (d = item) as -> by (eapply map_NoDup_inj; eauto). assert (d' = item) as -> by (eapply map_NoDup_inj; eauto).
  by exists item.
Qed.

(** One run lets go at most its evidence budget. *)
Lemma resolve_budget rs requests discovered o :
  resolve rs requests discovered = Ok (Some o) ->
  zlen (ro_retired o) + zlen (ro_candidates o) <= Z.max 0 (rs_max_per_run rs + 10).
Proof.
  intros H. destruct (resolve_parts _ _ _ _ H) as (v & He & Hv & Hnd).
  destruct (evaluate_parts _ _ He Hnd) as (cap & st & _ & Hinv & -> & -> & _).
  destruct (vi_durable _ _ _ _ Hv) as (ok & Hlen & Hok). pose proof (vi_used _ _ _ _ Hv) as Hu.
  set (ids := map rr_document_id (es_retired st) ++ map cr_document_id (es_candidates st)).
  assert (NoDup ids) as Hids.
  { cbn [resolver_evaluation ev_absent] in Hinv. rewrite <- (sorted_by_Permutation absent_order), <- (li_ids _ _ _ _ Hinv) in Hnd.
    unfold outcome_ids in Hnd. rewrite app_assoc in Hnd. by apply NoDup_app in Hnd as [? _]. }
  assert (length ids <= length ok)%nat as Hle.
  { apply submseteq_length, NoDup_submseteq; [done|]. intros id Hin.
    pose proof (li_eligible _ _ _ _ Hinv) as Hel. rewrite Forall_forall in Hel.
    destruct (Hel id Hin) as (item & _ & (_ & Hd & _) & <-). by apply Hok. }
  unfold ids in Hle. rewrite length_app, !length_map in Hle. unfold zlen in *. lia.
Qed.

Lemma slice_prefix {A} (t : list A) n : 0 <= n -> slice t 0 n = take (Z.to_nat n) t.
Proof.
  intros Hn. unfold slice, slice_bound, zlen. rewrite (proj2 (Z.ltb_ge n 0) Hn).
  replace (Z.to_nat (Z.min (Z.of_nat (length t)) (if 0 <? 0 then 0 + Z.of_nat (length t) else 0))) with 0%nat by (cbn; lia).
  change (drop 0 t) with t. destruct (Z.le_gt_cases (Z.of_nat (length t)) n).
  - rewrite (take_ge t (Z.to_nat n)) by lia. apply take_ge. lia.
  - f_equal. lia.
Qed.

(** ** The properties *)

(** C2: zero loss.  When the gate passes, every document of the prior corpus was
    acquired again, or is retired or a retirement candidate in the report,
    for every resolver that answers all its requests. *)
Theorem gate_zero_loss gi prior g report :
  (forall r, gi_resolver gi = Some r -> ClassifyingResolver r) ->
  effective_prior gi = Some prior -> gi_fail_on_missing gi = true -> recovery_exempt gi = false ->
  generate_corpus_diff_report gi = Ok g -> gate_verdict_of g = Passed report ->
  forall id, id ∈ prior_all prior ->
    acquired (gi_acquired gi) id \/ id ∈ map rr_document_id (cd_retired_lineages report) \/
    id ∈ map cr_document_id (cd_retirement_candidates report).
Proof.
  intros Hlaw Hp Hf Hr H Hv id Hid.
  destruct (report_accounts gi prior Hp report g Hlaw H (or_introl Hv) id Hid) as [?|[?|[?|Hm]]]; auto.
  destruct (gate_parts gi prior Hp g H) as (rep & cm & hm & _ & _ & _ & _ & Hv'). rewrite Hv' in Hv. rewrite Hf, Hr in Hv.
  destruct (cd_missing_unjustified rep) eqn:Em; [|discriminate]. injection Hv as <-.
  rewrite Em in Hm. by apply not_elem_of_nil in Hm.
Qed.

(** C30: with the resolver of the pipeline, every document the report lets go has
    complete evidence, an issuer whose collection succeeded and a product
    discovery no longer finds, and one run lets go at most [max_per_run + 10]. *)
Theorem pipeline_lets_go gi prior rs resolver discovered g report :
  build_retirement_resolver rs = Ok resolver -> gi_resolver gi = Some resolver -> gi_discovered_lineages gi = Some discovered ->
  effective_prior gi = Some prior -> generate_corpus_diff_report gi = Ok g -> reported g report ->
  Forall (vouched_by rs discovered)
    (map rr_document_id (cd_retired_lineages report) ++ map cr_document_id (cd_retirement_candidates report)) /\
  zlen (cd_retired_lineages report) + zlen (cd_retirement_candidates report) <= rs_max_per_run rs + 10.
Proof.
  intros Hb Hgr Hd Hp H Hrep. unfold build_retirement_resolver in Hb. apply bind_ok in Hb as ([] & Hpol & [= <-]).
  unfold check_policy in Hpol. inv_res Hpol. bsplit. cbn [resolver_policy max_per_run] in *.
  destruct (gate_report gi prior Hp g report H Hrep) as (cm & hm & _ & _ & Hcmp).
  apply compare_with_parts, justify_cases in Hcmp as [(_ & -> & ->)|(res & o & Hr' & Ho & -> & -> & _)].
  - split; [constructor|]. unfold zlen. cbn. lia.
  - rewrite Hgr in Hr'. injection Hr' as <-. unfold active_lineages in Ho. rewrite Hd in Ho.
    split; [exact (vouches _ _ _ Ho)|]. apply resolve_budget in Ho. lia.
Qed.

(** A refusal is justified and reported: the report was written first, the
    error repeats its counts, and each document it counts is a document of the
    prior corpus that was not acquired. *)
Theorem refusal_justified gi prior g e :
  effective_prior gi = Some prior -> generate_corpus_diff_report gi = Ok g -> gate_verdict_of g = Refused e ->
  exists report, gate_written g = (if gi_output_path gi then Some report else None) /\
    0 < ce_missing_count e /\ ce_missing_count e = zlen (cd_missing_unjustified report) /\
    dc_missing_unjustified (cd_counts report) = ce_missing_count e /\
    Forall (fun id => id ∈ prior_all prior /\ ~ acquired (gi_acquired gi) id) (cd_missing_unjustified report) /\
    (exists rest, cd_missing_unjustified report = ce_sample e ++ rest) /\ ce_sample e <> [].
Proof.
  intros Hp H Hv. destruct (gate_parts gi prior Hp g H) as (rep & cm & hm & Hc & Hh & Hcmp & Hw & Hv').
  rewrite Hv in Hv'. case_match eqn:Eg; [|discriminate]. injection Hv' as ->. bsplit. exists rep. split; [exact Hw|].
  cbn [corpus_diff_error ce_missing_count ce_sample].
  assert (0 < zlen (cd_missing_unjustified rep)) as Hpos by (destruct (cd_missing_unjustified rep); [done|unfold zlen; cbn [length]; lia]).
  split; [done|]. split; [done|]. pose proof Hcmp as Hcmp'. unfold compare_with in Hcmp'. apply bind_ok in Hcmp' as ([[u r] c] & _ & [= Erep]).
  split; [by rewrite <- Erep|]. clear Erep. split.
  - apply Forall_forall. intros id Hid. apply (missing_ids_spec gi prior cm hm id Hc Hh).
    apply compare_with_parts, justify_cases in Hcmp as [(<- & _ & _)|(res & o & _ & _ & _ & _ & Hu)]; [done|]. by apply Hu.
  - rewrite slice_prefix by lia. split; [exists (drop 5 (cd_missing_unjustified rep)); symmetry; apply take_drop|].
    by destruct (cd_missing_unjustified rep).
Qed.

(** Without a resolver the gate passes exactly when every prior document was
    acquired. *)
Theorem gate_without_resolver gi prior g :
  gi_resolver gi = None -> gi_fail_on_missing gi = true -> recovery_exempt gi = false ->
  effective_prior gi = Some prior -> generate_corpus_diff_report gi = Ok g ->
  (exists report, gate_verdict_of g = Passed report) <-> (forall id, id ∈ prior_all prior -> acquired (gi_acquired gi) id).
Proof.
  intros Hn Hf Hr Hp H. destruct (gate_parts gi prior Hp g H) as (rep & cm & hm & Hc & Hh & Hcmp & _ & Hv).
  pose proof (fun id => missing_ids_spec gi prior cm hm id Hc Hh) as Hmiss.
  apply compare_with_parts, justify_cases in Hcmp as [(Hu & _ & _)|(res & o & Hs & _)]; [|congruence].
  rewrite Hv, Hf, Hr, Hu, andb_true_r, andb_true_r. split.
  - intros [report Hpass] id Hid. destruct (missing_ids prior cm hm) as [|x l] eqn:Em; [|discriminate].
    destruct (document_map_spec _ _ Hc) as (_ & Ac & _). destruct (document_map_spec _ _ Hh) as (_ & Ah & _).
    apply acquired_split. rewrite <- Ac, <- Ah. assert (id ∉ missing_ids prior cm hm) as Hnm by (rewrite Em; apply not_elem_of_nil).
    unfold missing_ids in Hnm. rewrite sorted_set_elem, elem_of_difference, elem_of_union, !keys_elem in Hnm.
    destruct (decide (id ∈ cm.*1)); [by left|]. destruct (decide (id ∈ hm.*1)); [by right|]. tauto.
  - intros Hall. destruct (missing_ids prior cm hm) as [|x l]; [by eexists|].
    destruct (proj1 (Hmiss x)) as [Hx Hna]; [left|]. destruct (Hna (Hall x Hx)).
Qed.

(** The report sorts the current documents into unchanged ones, new revisions
    of a known source, successors and new products: each current document is in
    exactly one group, and the counts of the groups add up. *)
Theorem current_documents_classified gi prior g report :
  effective_prior gi = Some prior -> generate_corpus_diff_report gi = Ok g -> reported g report ->
  let ids := cd_unchanged report ++ map ch_document_id (cd_same_source_byte_revisions report) ++
             map ch_document_id (cd_successor_sources report) ++ map np_document_id (cd_new_products report) in
  NoDup ids /\
  (forall id, id ∈ ids <-> acquired (filter (fun d => aq_is_historical d = false) (gi_acquired gi)) id) /\
  (let n := cd_counts report in
   dc_final_current n =
     dc_unchanged n + dc_same_source_byte_revision n + dc_successor_sources n + dc_new_products n).
Proof.
  intros Hp H Hrep. destruct (gate_report gi prior Hp g report H Hrep) as (cm & hm & Hc & _ & Hcmp).
  destruct (document_map_spec _ _ Hc) as (Hnd & Ac & _). unfold compare_with in Hcmp.
  apply bind_ok in Hcmp as ([[u r] c] & _ & [= <-]).
  cbn [cd_unchanged cd_same_source_byte_revisions cd_successor_sources cd_new_products cd_counts dc_final_current
       dc_unchanged dc_same_source_byte_revision dc_successor_sources dc_new_products].
  set (new_ids := sorted_set (keys cm ∖ pv_current_doc_ids prior)).
  pose proof (compare_ids prior (keys hm) (omap (fun id => pair id <$> dict_get id cm) new_ids)
    {| cmp_revisions := []; cmp_successors := []; cmp_new := [] |}) as Hperm. cbn zeta in Hperm.
  rewrite new_documents_ids in Hperm by (intros id; unfold new_ids; rewrite sorted_set_elem, elem_of_difference, keys_elem; tauto).
  cbn [cmp_revisions cmp_successors cmp_new map app] in Hperm.
  set (cmp := fold_left _ _ _) in *. pose proof (set_split_sorted (pv_current_doc_ids prior) (keys cm)) as Hsplit.
  fold new_ids in Hsplit. split; [|split].
  - rewrite Hperm, Hsplit. apply NoDup_elements.
  - intros id. rewrite Hperm, Hsplit, elem_of_elements, keys_elem. apply Ac.
  - apply Permutation_length in Hperm, Hsplit. rewrite !length_app, !length_map in Hperm. rewrite length_app in Hsplit.
    rewrite <- sorted_set_length. change (length (elements (keys cm))) with (size (keys cm)) in Hsplit.
    assert (size (keys cm) = length cm) as Hsize by (unfold keys; rewrite size_list_to_set by done; apply length_map).
    unfold zlen. lia.
Qed.

(** ** A concrete corpus *)
Definition sample_source (product : string) : SourceRecord :=
  {| sr_issuer := us "kb"; sr_product_code := us product; sr_product_name := us "card"; sr_effective_date := (2026, 1, 2);
     sr_source_version := us "v1"; sr_source_url := us "https://kb.example/p"; sr_source_post_id := us "7";
     sr_file_name := us "Terms.PDF"; sr_category := us "credit"; sr_metadata := []; sr_document_type := us "product_description" |}.
Definition sample_pdf (digit : string) : ustr := concat (repeat (us digit) 64).
Definition sample_acquired (product digit : string) : AcquiredDocument :=
  {| aq_source := sample_source product; aq_pdf_sha256 := sample_pdf digit; aq_supersedes_document_id := None;
     aq_is_historical := false |}.
Definition sample_id (product digit : string) : ustr :=
  match document_id (sample_source product) (sample_pdf digit) with Ok id => id | Err _ => [] end.
Definition sample_prior_entry (id product : ustr) : ustr * PriorEntry :=
  (id, {| pe_document_id := id; pe_source_id := us "source_x"; pe_issuer := us "kb"; pe_product_code := product;
          pe_document_type := us "product_description"; pe_pdf_sha256 := us "x"; pe_ocr_sha256 := Some (us "y") |}).
Definition sample_prior (kept : ustr) : CorpusPriorView :=
  {| pv_kind := us "rolling-baseline"; pv_generation_id := us "g1"; pv_run_id := us "run-1";
     pv_observed_at := us "2026-01-01T00:00:00+00:00"; pv_current_doc_ids := {[kept; us "doc_gone"]};
     pv_historical_doc_ids := ∅; pv_entries := [sample_prior_entry kept (us "p1"); sample_prior_entry (us "doc_gone") (us "p0")] |}.
Definition sample_resolver_env : resolver_env :=
  {| rs_run_id := us "run-2"; rs_prior := sample_prior (sample_id "p1" "a"); rs_grace_runs := 2; rs_grace_days := 7;
     rs_max_per_run := 3; rs_ledger := None;
     rs_now := {| dt_year := 2026; dt_month := 1; dt_day := 12; dt_hour := 0; dt_minute := 0; dt_second := 0; dt_microsecond := 5 |};
     rs_evidence_ok := fun _ _ => Ok true; rs_issuer_failed := [(us "kb", false)]; rs_adapters := [us "kb"];
     rs_selected_issuers := {[us "kb"]} |}.
Definition sample_gate (resolver : option RetirementResolver) : gate_inputs :=
  {| gi_run_id := us "run-2"; gi_acquired := [sample_acquired "p1" "a"; sample_acquired "p1" "b"; sample_acquired "p2" "c"];
     gi_seed_ledger := None; gi_prior := Some (sample_prior (sample_id "p1" "a")); gi_resolver := resolver;
     gi_output_path := true; gi_fail_on_missing := true; gi_prior_observed_at := []; gi_discovered_lineages := Some ∅ |}.
Definition sample_with_resolver : gate_inputs := sample_gate (Some (resolve sample_resolver_env)).
Definition gate_of (gi : gate_inputs) : gate_result :=
  match generate_corpus_diff_report gi with
  | Ok g => g
  | Err _ => {| gate_written := None; gate_verdict_of := Refused {| ce_run_id := []; ce_missing_count := 0; ce_retired_count := 0;
                ce_candidate_count := 0; ce_reason_code := []; ce_sample := []; ce_report := [] |} |}
  end.

(** With the resolver the vanished document becomes a candidate; without it the run is refused. *)
Lemma sample_runs :
  generate_corpus_diff_report sample_with_resolver = Ok (gate_of sample_with_resolver) /\
  generate_corpus_diff_report (sample_gate None) = Ok (gate_of (sample_gate None)) /\
  match gate_verdict_of (gate_of sample_with_resolver) with
  | Passed r => map cr_document_id (cd_retirement_candidates r) = [us "doc_gone"] /\ zlen (cd_successor_sources r) = 1 /\ zlen (cd_new_products r) = 1
  | Refused _ => False
  end /\
  match gate_verdict_of (gate_of (sample_gate None)) with Passed _ => False | Refused e => ce_sample e = [us "doc_gone"] end.
Proof. vm_compute. repeat split. Qed.

Lemma sample_passes : exists report, gate_verdict_of (gate_of sample_with_resolver) = Passed report.
Proof.
  destruct sample_runs as (_ & _ & H & _). destruct (gate_verdict_of (gate_of sample_with_resolver)) as [r|]; [by exists r|done].
Qed.

Lemma sample_refuses : exists e, gate_verdict_of (gate_of (sample_gate None)) = Refused e.
Proof.
  destruct sample_runs as (_ & _ & _ & H). destruct (gate_verdict_of (gate_of (sample_gate None))) as [|e]; [done|by exists e].
Qed.

Lemma gate_zero_loss_witness : exists report, gate_verdict_of (gate_of sample_with_resolver) = Passed report /\
  forall id, id ∈ prior_all (sample_prior (sample_id "p1" "a")) ->
    acquired (gi_acquired sample_with_resolver) id \/ id ∈ map rr_document_id (cd_retired_lineages report) \/
    id ∈ map cr_document_id (cd_retirement_candidates report).
Proof.
  destruct sample_passes as [report Hr]. exists report. split; [exact Hr|].
  apply (gate_zero_loss sample_with_resolver (sample_prior (sample_id "p1" "a")) (gate_of sample_with_resolver) report);
    [|reflexivity|reflexivity|reflexivity|exact (proj1 sample_runs)|exact Hr].
  intros r Hres. injection Hres as <-. apply resolve_classifies.
Defined.

Lemma pipeline_lets_go_witness : exists report, gate_verdict_of (gate_of sample_with_resolver) = Passed report /\
  Forall (vouched_by sample_resolver_env ∅)
    (map rr_document_id (cd_retired_lineages report) ++ map cr_document_id (cd_retirement_candidates report)) /\
  zlen (cd_retired_lineages report) + zlen (cd_retirement_candidates report) <= 13.
Proof.
  destruct sample_passes as [report Hr]. exists report. split; [exact Hr|].
  apply (pipeline_lets_go sample_with_resolver (sample_prior (sample_id "p1" "a")) sample_resolver_env
           (resolve sample_resolver_env) ∅ (gate_of sample_with_resolver));
    [reflexivity|reflexivity|reflexivity|reflexivity|exact (proj1 sample_runs)|by left].
Defined.

Lemma refusal_justified_witness : exists e, gate_verdict_of (gate_of (sample_gate None)) = Refused e /\ 0 < ce_missing_count e.
Proof.
  destruct sample_refuses as [e He]. exists e. split; [exact He|].
  destruct (refusal_justified (sample_gate None) (sample_prior (sample_id "p1" "a")) (gate_of (sample_gate None)) e)
    as (report & _ & H & _); [reflexivity|exact (proj1 (proj2 sample_runs))|exact He|exact H].
Defined.

Lemma gate_without_resolver_witness :
  ~ (forall id, id ∈ prior_all (sample_prior (sample_id "p1" "a")) -> acquired (gi_acquired (sample_gate None)) id).
Proof.
  intros H. destruct sample_refuses as [e He].
  assert (exists report, gate_verdict_of (gate_of (sample_gate None)) = Passed report) as [report Hp].
  { apply (gate_without_resolver (sample_gate None) (sample_prior (sample_id "p1" "a")));
      [reflexivity|reflexivity|reflexivity|reflexivity|exact (proj1 (proj2 sample_runs))|exact H]. }
  rewrite He in Hp. discriminate.
Defined.

Lemma current_documents_classified_witness : exists report, gate_verdict_of (gate_of sample_with_resolver) = Passed report /\
  (let n := cd_counts report in
   dc_final_current n = dc_unchanged n + dc_same_source_byte_revision n + dc_successor_sources n + dc_new_products n).
Proof.
  destruct sample_passes as [report Hr]. exists report. split; [exact Hr|].
  apply (current_documents_classified sample_with_resolver (sample_prior (sample_id "p1" "a")) (gate_of sample_with_resolver));
    [reflexivity|exact (proj1 sample_runs)|by left].
Defined.
