(* ===== verification/Quota.v ===== *)
(** The storage quota of the MCP server ([cardrag_mcp/quota.py]).

    The state root is a tree of files; the coordination directory
    [audit-reports/.state-quota] with the durable policy and the reservation
    records is part of the tree and of the accounted usage.  An operation runs
    under the cross-process lock, so each is one atomic step.  The free space of
    the file system, the random tokens and the inode numbers are arguments.
    Left out: file descriptors, [fsync], permissions, and the temporary names a
    crash inside a publication can leave behind. *)
From S2P Require Export StructureModel.

Definition StorageQuotaError (message : string) : exn := Raised "StorageQuotaError" message.

Definition MIB : Z := 1024 * 1024.
Definition GIB : Z := 1024 * MIB.
Definition MAX_SAFE_BYTES : Z := Z.shiftl 1 63 - 1.
Definition MAXIMUM_COORDINATION_ENTRIES : Z := 8192.
Definition MAXIMUM_RESERVATIONS : Z := 4096.
Definition MAXIMUM_COORDINATION_FILE_BYTES : Z := 16 * 1024.
Definition POLICY_SCHEMA : ustr := us "cardrag.mcp-state-quota-policy.v1".
Definition RESERVATION_SCHEMA : ustr := us "cardrag.mcp-state-quota-reservation.v2".
Definition QUOTA_POLICY : ustr := us "policy.json".
Definition RESERVATION_NAME : regex := Seq (lit (us "reservation-")) (Seq re_hex64 (lit (us ".json"))).
Definition AUDIT_JOB : regex := Seq (lit (us "audit-")) re_hex64.
Definition MAP_REDUCE_JOB : regex := Seq (lit (us "map-reduce-")) re_hex64.

(** ** Bounded integers *)
Definition validate_byte_limit (value : Z) (label : string) (allow_zero : bool) : res Z :=
  let minimum := if allow_zero then 0 else 1 in
  let! _ := raise_if ((value <? minimum) || (MAX_SAFE_BYTES <? value))
              (ValueError (label ++ " must be a " ++ (if allow_zero then "non-negative" else "positive") ++ " bounded integer")) in
  Ok value.
Definition validate_count_limit (value : Z) (label : string) : res Z :=
  let! _ := raise_if ((value <? 1) || (MAX_SAFE_BYTES <? value)) (ValueError (label ++ " must be a positive bounded integer")) in
  Ok value.
Definition checked_add (left right : Z) (label : string) : res Z :=
  let! _ := validate_byte_limit left label true in
  let! _ := validate_byte_limit right label true in
  let! _ := raise_if (MAX_SAFE_BYTES - left <? right) (StorageQuotaError (label ++ " exceeds the supported byte range")) in
  Ok (left + right).

(** ** The policy *)
Record StateQuotaPolicy := {
  maximum_state_bytes : Z;
  reserved_free_space_bytes : Z;
  exhaustive_audit_max_jobs : Z;
  exhaustive_audit_max_total_bytes : Z;
  exhaustive_audit_max_artifact_bytes : Z;
  reranker_audit_max_jobs : Z;
  reranker_audit_max_total_bytes : Z;
  reranker_audit_max_artifact_bytes : Z;
}.
#[export] Instance StateQuotaPolicy_eq_dec : EqDecision StateQuotaPolicy. Proof. solve_decision. Defined.

Definition default_policy : StateQuotaPolicy :=
  {| maximum_state_bytes := 128 * GIB; reserved_free_space_bytes := 2 * GIB; exhaustive_audit_max_jobs := 32;
     exhaustive_audit_max_total_bytes := 2 * GIB; exhaustive_audit_max_artifact_bytes := 256 * MIB;
     reranker_audit_max_jobs := 1024; reranker_audit_max_total_bytes := 512 * MIB;
     reranker_audit_max_artifact_bytes := 8 * MIB |}.

Definition check_quota_policy (p : StateQuotaPolicy) : res unit :=
  let! _ := validate_byte_limit (maximum_state_bytes p) "maximum state bytes" false in
  let! _ := validate_byte_limit (reserved_free_space_bytes p) "reserved free-space bytes" true in
  let! _ := validate_count_limit (exhaustive_audit_max_jobs p) "maximum exhaustive audit jobs" in
  let! _ := validate_byte_limit (exhaustive_audit_max_total_bytes p) "maximum exhaustive audit total bytes" false in
  let! _ := validate_byte_limit (exhaustive_audit_max_artifact_bytes p) "maximum exhaustive audit artifact bytes" false in
  let! _ := validate_count_limit (reranker_audit_max_jobs p) "maximum reranker audit jobs" in
  let! _ := validate_byte_limit (reranker_audit_max_total_bytes p) "maximum reranker audit total bytes" false in
  let! _ := validate_byte_limit (reranker_audit_max_artifact_bytes p) "maximum reranker audit artifact bytes" false in
  let! _ := raise_if (exhaustive_audit_max_total_bytes p <? exhaustive_audit_max_artifact_bytes p)
              (ValueError "exhaustive audit artifact cap exceeds its total quota") in
  let! _ := raise_if (maximum_state_bytes p <? exhaustive_audit_max_total_bytes p)
              (ValueError "exhaustive audit total quota exceeds the MCP state quota") in
  let! _ := raise_if (reranker_audit_max_total_bytes p <? reranker_audit_max_artifact_bytes p)
              (ValueError "reranker audit artifact cap exceeds its total quota") in
  raise_if (maximum_state_bytes p <? reranker_audit_max_total_bytes p)
    (ValueError "reranker audit total quota exceeds the MCP state quota").

Definition policy_values (p : StateQuotaPolicy) : list Z :=
  [maximum_state_bytes p; reserved_free_space_bytes p; exhaustive_audit_max_jobs p; exhaustive_audit_max_total_bytes p;
   exhaustive_audit_max_artifact_bytes p; reranker_audit_max_jobs p; reranker_audit_max_total_bytes p;
   reranker_audit_max_artifact_bytes p].
Definition policy_payload (p : StateQuotaPolicy) : json :=
  JObj [(us "schema_version", JStr POLICY_SCHEMA); (us "values", JArr (map JInt (policy_values p)))].

(** The eight values of a policy file; a value of another type is invalid. *)
Definition policy_of_values (values : list json) : res StateQuotaPolicy :=
  match values with
  | [JInt a; JInt b; JInt c; JInt d; JInt e; JInt f; JInt g; JInt h] =>
      let p := {| maximum_state_bytes := a; reserved_free_space_bytes := b; exhaustive_audit_max_jobs := c;
                  exhaustive_audit_max_total_bytes := d; exhaustive_audit_max_artifact_bytes := e;
                  reranker_audit_max_jobs := f; reranker_audit_max_total_bytes := g;
                  reranker_audit_max_artifact_bytes := h |} in
      if is_ok (check_quota_policy p) then Ok p else Err (StorageQuotaError "state quota policy is invalid")
  | _ => Err (StorageQuotaError "state quota policy is invalid")
  end.

(** [set(parsed) == {...}] *)
Definition has_fields (members : list (ustr * json)) (fields : list ustr) : bool :=
  bool_decide ((list_to_set members.*1 : gset ustr) = list_to_set fields).

Definition parse_policy_payload (members : list (ustr * json)) : res StateQuotaPolicy :=
  let! _ := raise_if (negb (has_fields members [us "schema_version"; us "values"]))
              (StorageQuotaError "state quota policy fields are invalid") in
  match member (us "schema_version") members, member (us "values") members with
  | Some (JStr schema), Some (JArr values) =>
      let! _ := raise_if (negb (bool_decide (schema = POLICY_SCHEMA) && (zlen values =? 8)))
                  (StorageQuotaError "state quota policy schema is invalid") in
      policy_of_values values
  | _, _ => Err (StorageQuotaError "state quota policy schema is invalid")
  end.

(** ** Reservation records *)
Definition reservation_path (token : ustr) : ustr := us "reservation-" ++ token ++ us ".json".
(** Group 1 of [RESERVATION_NAME]. *)
Definition reservation_token (name : ustr) : option ustr :=
  if fullmatch RESERVATION_NAME name then Some (slice name 12 76) else None.

Definition reservation_payload (token : ustr) (logical peak : Z) : json :=
  JObj [(us "schema_version", JStr RESERVATION_SCHEMA); (us "token", JStr token); (us "lease", JStr (us "exclusive-flock-v1"));
        (us "logical", JInt logical); (us "peak", JInt peak)].

Definition byte_limit_ok (value : Z) : bool := (0 <=? value) && (value <=? MAX_SAFE_BYTES).

Definition parse_reservation_payload (name : ustr) (members : list (ustr * json)) : res (ustr * Z * Z) :=
  match reservation_token name with
  | Some expected =>
      let! _ := raise_if (negb (has_fields members [us "schema_version"; us "token"; us "lease"; us "logical"; us "peak"]))
                  (StorageQuotaError "state quota reservation fields are invalid") in
      match member (us "schema_version") members, member (us "token") members, member (us "lease") members with
      | Some (JStr schema), Some (JStr token), Some (JStr lease) =>
          let! _ := raise_if (negb (bool_decide (schema = RESERVATION_SCHEMA) && bool_decide (token = expected)
                                    && bool_decide (lease = us "exclusive-flock-v1")))
                      (StorageQuotaError "state quota reservation identity is invalid") in
          match member (us "logical") members, member (us "peak") members with
          | Some (JInt logical), Some (JInt peak) =>
              let! _ := raise_if (negb (byte_limit_ok logical && byte_limit_ok peak))
                          (StorageQuotaError "state quota reservation values are invalid") in
              let! _ := raise_if (peak <? logical) (StorageQuotaError "state quota reservation peak is invalid") in
              Ok (token, logical, peak)
          | _, _ => Err (StorageQuotaError "state quota reservation values are invalid")
          end
      | _, _, _ => Err (StorageQuotaError "state quota reservation identity is invalid")
      end
  | None => Err (StorageQuotaError "state quota reservation fields are invalid")
  end.

(** ** The tree of the state root *)
Definition canonical_file_bytes (v : json) : Z := zlen (canonical_json_bytes v) + 1.

(** A regular file is kept as its JSON value when its bytes are the canonical JSON
    of an object, and as its size otherwise. *)
#[local] Set Warnings "-register-all".
Inductive fs_entry : Type :=
| DataFile (size : Z)
| JsonFile (members : list (ustr * json))
| SymLink
| Special
| Directory (entries : list (ustr * fs_entry)).

Definition file_size (e : fs_entry) : option Z :=
  match e with
  | DataFile n => Some n
  | JsonFile v => Some (canonical_file_bytes (JObj v))
  | _ => None
  end.

(** [_directory_usage] of a directory with these entries. *)
Fixpoint entry_usage (e : fs_entry) : res Z :=
  match e with
  | DataFile n => Ok n
  | JsonFile v => Ok (canonical_file_bytes (JObj v))
  | SymLink => Err (StorageQuotaError "storage quota tree contains a symlink")
  | Special => Err (StorageQuotaError "storage quota tree contains a non-regular entry")
  | Directory entries =>
      let amounts := sorted_by key_leb (map (fun ne => (ne.1, entry_usage ne.2)) entries) in
      foldM (fun total (na : ustr * res Z) => let! amount := na.2 in checked_add total amount "storage quota usage") 0 amounts
  end.
Definition directory_usage (entries : list (ustr * fs_entry)) : res Z := entry_usage (Directory entries).

(** [_strict_json_file] on an entry of a directory. *)
Definition strict_json_file (e : fs_entry) : res (list (ustr * json)) :=
  match e with
  | JsonFile v =>
      let! _ := raise_if (MAXIMUM_COORDINATION_FILE_BYTES <? canonical_file_bytes (JObj v))
                  (StorageQuotaError "state quota coordination file has an invalid size") in
      Ok v
  | DataFile n =>
      let! _ := raise_if ((n <? 1) || (MAXIMUM_COORDINATION_FILE_BYTES <? n))
                  (StorageQuotaError "state quota coordination file has an invalid size") in
      Err (StorageQuotaError "state quota coordination file is not canonical JSON")
  | _ => Err (StorageQuotaError "state quota coordination file is unsafe")
  end.

(** A record of the coordination directory: its content, its inode, and whether
    its creator still holds the lock on that inode. *)
Record coordination_file := { cf_members : list (ustr * json); cf_inode : Z; cf_leased : bool }.

Record quota_state := {
  qs_root : list (ustr * fs_entry);
  qs_audit_reports : list (ustr * fs_entry);
  qs_files : list (ustr * coordination_file);
}.
Definition set_files (st : quota_state) (files : list (ustr * coordination_file)) : quota_state :=
  {| qs_root := qs_root st; qs_audit_reports := qs_audit_reports st; qs_files := files |}.

Definition file_entry (f : coordination_file) : fs_entry := JsonFile (cf_members f).
Definition coordination_entries (st : quota_state) : list (ustr * fs_entry) :=
  (us "state.lock", DataFile 0) :: map (fun nf => (nf.1, file_entry nf.2)) (qs_files st).
Definition state_tree (st : quota_state) : list (ustr * fs_entry) :=
  qs_root st ++ [(us "audit-reports", Directory (qs_audit_reports st ++ [(us ".state-quota", Directory (coordination_entries st))]))].
Definition safe_tree_usage (st : quota_state) : res Z := directory_usage (state_tree st).

(** ** Under the lock *)
Definition is_coordination_name (name : ustr) : bool := bool_decide (name = QUOTA_POLICY) || fullmatch RESERVATION_NAME name.

Definition reconcile_coordination_locked (st : quota_state) : res unit :=
  let! _ := raise_if (MAXIMUM_COORDINATION_ENTRIES <? zlen (coordination_entries st))
              (StorageQuotaError "state quota coordination entry cap is exceeded") in
  raise_if (negb (forallb (fun nf => is_coordination_name nf.1) (qs_files st)))
    (StorageQuotaError "state quota coordination directory contains an unknown entry").

(** One record of the scan, in the order of the names. *)
Definition read_reservation (acc : list (ustr * (Z * Z))) (nf : ustr * coordination_file) : res (list (ustr * (Z * Z))) :=
  if fullmatch RESERVATION_NAME nf.1 then
    let! _ := raise_if (MAXIMUM_RESERVATIONS <=? zlen acc) (StorageQuotaError "state quota reservation count is exhausted") in
    let! parsed := strict_json_file (file_entry nf.2) in
    let! record := parse_reservation_payload nf.1 parsed in
    let '(token, logical, peak) := record in
    Ok (dict_set token (logical, peak) acc)
  else Ok acc.
Definition durable_reservations_locked (st : quota_state) : res (list (ustr * (Z * Z))) :=
  let! _ := raise_if (MAXIMUM_COORDINATION_ENTRIES <? zlen (coordination_entries st))
              (StorageQuotaError "state quota coordination entry cap is exceeded") in
  foldM read_reservation [] (sorted_by key_leb (qs_files st)).

(** [free] is the free space of the file system, [None] when it is unavailable. *)
Definition free_space (free : option Z) : res Z := of_option (StorageQuotaError "filesystem free space is unavailable") free.

Definition ensure_policy_bootstrap_capacity (st : quota_state) (policy : StateQuotaPolicy) (size : Z) (free : option Z) : res unit :=
  let! usage := safe_tree_usage st in
  let! _ := raise_if ((maximum_state_bytes policy <? usage) || (maximum_state_bytes policy - usage <? size))
              (StorageQuotaError "MCP state quota cannot contain its durable policy") in
  let! free_bytes := free_space free in
  let! peak := checked_add size size "state quota policy publication growth" in
  raise_if ((free_bytes <? peak) || (free_bytes - peak <? reserved_free_space_bytes policy))
    (StorageQuotaError "MCP reserved free-space gate rejected its durable policy").

Definition json_members (v : json) : list (ustr * json) := match v with JObj l => l | _ => [] end.

(** Publishing a record under a name that must be new. *)
Definition publish (st : quota_state) (name : ustr) (value : json) (inode : Z) (leased : bool) : res quota_state :=
  let! _ := raise_if (bool_decide (name ∈ (qs_files st).*1)) (StorageQuotaError "state quota coordination identity already exists") in
  Ok (set_files st (qs_files st ++ [(name, {| cf_members := json_members value; cf_inode := inode; cf_leased := leased |})])).

Definition durable_policy_locked (st : quota_state) (requested : option StateQuotaPolicy) (inode : Z) (free : option Z)
    : res (quota_state * StateQuotaPolicy) :=
  let expected := match requested with Some p => p | None => default_policy end in
  let! published :=
    match dict_get QUOTA_POLICY (qs_files st) with
    | None =>
        let payload := policy_payload expected in
        let! _ := ensure_policy_bootstrap_capacity st expected (canonical_file_bytes payload) free in
        let! _ := raise_if (existsb (fun nf => fullmatch RESERVATION_NAME nf.1) (qs_files st))
                    (StorageQuotaError "state quota reservations exist without a durable policy") in
        let! st' := publish st QUOTA_POLICY payload inode false in
        Ok (st', expected)
    | Some f =>
        let! parsed := strict_json_file (file_entry f) in
        let! durable := parse_policy_payload parsed in
        Ok (st, durable)
    end in
  let '(st', durable) := published in
  let! _ := match requested with
            | Some p => raise_if (negb (bool_decide (durable = p))) (StorageQuotaError "state quota policy differs from the durable policy")
            | None => Ok tt
            end in
  Ok (st', durable).

(** The sums of the reserved growth. *)
Definition add_reserved (acc : Z * Z) (r : ustr * (Z * Z)) : res (Z * Z) :=
  let! logical := checked_add acc.1 r.2.1 "reserved logical state growth" in
  let! peak := checked_add acc.2 r.2.2 "reserved peak state growth" in
  Ok (logical, peak).

Definition ensure_global_state_growth_locked (st : quota_state) (logical_growth_bytes peak_growth_bytes : Z)
    (inode : Z) (free : option Z) : res quota_state :=
  let! logical_growth := validate_byte_limit logical_growth_bytes "logical state growth" true in
  let! peak_growth := validate_byte_limit peak_growth_bytes "peak state growth" true in
  let! _ := raise_if (peak_growth <? logical_growth) (ValueError "peak state growth cannot be smaller than logical growth") in
  let! policed := durable_policy_locked st None inode free in
  let '(st, policy) := policed in
  let! usage := safe_tree_usage st in
  let! reservations := durable_reservations_locked st in
  let! reserved := foldM add_reserved (0, 0) reservations in
  let! accounted_usage := checked_add usage reserved.1 "accounted state usage" in
  let! _ := raise_if ((maximum_state_bytes policy <? accounted_usage)
                      || (maximum_state_bytes policy - accounted_usage <? logical_growth))
              (StorageQuotaError "MCP state quota has insufficient capacity for this write") in
  let! free_bytes := free_space free in
  let! required_peak := checked_add reserved.2 peak_growth "reserved filesystem growth" in
  let! _ := raise_if ((free_bytes <? required_peak) || (free_bytes - required_peak <? reserved_free_space_bytes policy))
              (StorageQuotaError "MCP reserved free-space gate rejected this write") in
  Ok st.

(** ** The operations *)
Definition quota_transaction {A} (st : quota_state) (body : res A) : res A :=
  let! _ := reconcile_coordination_locked st in body.

Definition configure_state_quota (st : quota_state) (policy : StateQuotaPolicy) (inode : Z) (free : option Z) : res quota_state :=
  quota_transaction st (let! r := durable_policy_locked st (Some policy) inode free in Ok r.1).

(** [ensure_global_state_growth], also the entry of [state_quota_guard]. *)
Definition ensure_global_state_growth (st : quota_state) (logical_growth_bytes : Z) (peak_growth_bytes : option Z)
    (inode : Z) (free : option Z) : res quota_state :=
  let peak := match peak_growth_bytes with None => logical_growth_bytes | Some p => p end in
  quota_transaction st (ensure_global_state_growth_locked st logical_growth_bytes peak inode free).

Record StateQuotaReservation := { sr_token : ustr; sr_inode : Z; sr_released : bool }.

(** The first drawn token that is not in use. *)
Definition draw_token (draws : list ustr) (reservations : list (ustr * (Z * Z))) : res ustr :=
  of_option OutOfFuel (List.find (fun t => negb (bool_decide (t ∈ reservations.*1))) draws).

Definition reserve_global_state_growth (st : quota_state) (logical_growth_bytes : Z) (peak_growth_bytes : option Z)
    (draws : list ustr) (inode policy_inode : Z) (free : option Z) : res (quota_state * StateQuotaReservation) :=
  let peak := match peak_growth_bytes with None => logical_growth_bytes | Some p => p end in
  quota_transaction st (
    let! logical := validate_byte_limit logical_growth_bytes "logical state growth" true in
    let! peak_value := validate_byte_limit peak "peak state growth" true in
    let! _ := raise_if (peak_value <? logical) (ValueError "peak state growth cannot be smaller than logical growth") in
    let! reservations := durable_reservations_locked st in
    let! _ := raise_if (MAXIMUM_RESERVATIONS <=? zlen reservations)
                (StorageQuotaError "state quota reservation count is exhausted") in
    let! token := draw_token draws reservations in
    let value := reservation_payload token logical peak_value in
    let record_bytes := canonical_file_bytes value in
    let! logical_total := checked_add logical record_bytes "reserved logical state and receipt growth" in
    let! publication := checked_add record_bytes record_bytes "reservation publication peak growth" in
    let! peak_total := checked_add peak_value publication "reserved filesystem and receipt growth" in
    let! st := ensure_global_state_growth_locked st logical_total peak_total policy_inode free in
    let! st := publish st (reservation_path token) value inode true in
    Ok (st, {| sr_token := token; sr_inode := inode; sr_released := false |})).

Definition remove_file (name : ustr) (files : list (ustr * coordination_file)) : list (ustr * coordination_file) :=
  filter (fun nf => nf.1 <> name) files.

(** [StateQuotaReservation.release]; [same_process] is the test of the process id. *)
Definition release (st : quota_state) (r : StateQuotaReservation) (same_process : bool) : res (quota_state * StateQuotaReservation) :=
  if sr_released r then Ok (st, r)
  else
    let! _ := raise_if (negb same_process) (StorageQuotaError "state quota reservation cannot be released after fork") in
    quota_transaction st (
      let name := reservation_path (sr_token r) in
      let! reservations := durable_reservations_locked st in
      let! f := of_option (StorageQuotaError "state quota reservation is unavailable")
                  (if bool_decide (sr_token r ∈ reservations.*1) then dict_get name (qs_files st) else None) in
      let! _ := raise_if (negb (cf_inode f =? sr_inode r)) (StorageQuotaError "state quota reservation lease identity is stale") in
      Ok (set_files st (remove_file name (qs_files st)), {| sr_token := sr_token r; sr_inode := sr_inode r; sr_released := true |})).

(** One reservation of [reconcile_abandoned_state_reservations]. *)
Definition reconcile_token (acc : quota_state * list ustr) (token : ustr) : res (quota_state * list ustr) :=
  let '(st, removed) := acc in
  let name := reservation_path token in
  let! f := of_option (StorageQuotaError "state quota reservation lease is unreadable") (dict_get name (qs_files st)) in
  if cf_leased f then Ok acc
  else
    let! parsed := strict_json_file (file_entry f) in
    let! record := parse_reservation_payload name parsed in
    let! _ := raise_if (negb (bool_decide (record.1.1 = token))) (StorageQuotaError "state quota reservation identity is stale") in
    let! _ := safe_tree_usage st in
    Ok (set_files st (remove_file name (qs_files st)), removed ++ [token]).

Definition reconcile_abandoned_state_reservations (st : quota_state) (inode : Z) (free : option Z) : res (quota_state * list ustr) :=
  quota_transaction st (
    let! policed := durable_policy_locked st None inode free in
    let st := policed.1 in
    let! reservations := durable_reservations_locked st in
    foldM reconcile_token (st, []) (sorted_by ustr_leb reservations.*1)).
