(* ===== verification/QuotaProof.v ===== *)
(** The quota keeps the state root within its maximum: exact accounting of the
    tree, records that read back as they were written, and an invariant over
    every interleaving of reservations, guarded writes, releases and
    reconciliations. *)
From S2P Require Export Quota.

(** ** Sums *)
Fixpoint zsum (l : list Z) : Z := match l with [] => 0 | x :: l => x + zsum l end.

Lemma zsum_app l1 l2 : zsum (l1 ++ l2) = zsum l1 + zsum l2.
Proof. induction l1 as [|x l1 IH]; cbn; [done|]. rewrite IH. lia. Qed.

Lemma zsum_Permutation l1 l2 : Permutation l1 l2 -> zsum l1 = zsum l2.
Proof. induction 1; cbn; lia. Qed.

Lemma zsum_nonneg l : Forall (fun x => 0 <= x) l -> 0 <= zsum l.
Proof. induction 1; cbn; lia. Qed.

Lemma validate_byte_limit_ok v label b n :
  validate_byte_limit v label b = Ok n <-> n = v /\ (if b then 0 else 1) <= v <= MAX_SAFE_BYTES.
Proof.
  unfold validate_byte_limit. split.
  - intros H. inv_res H. bsplit. destruct b; lia.
  - intros (-> & H). destruct (_ || _) eqn:E; [|done]. destruct b; lia.
Qed.

Lemma checked_add_ok l r label n :
  checked_add l r label = Ok n <-> n = l + r /\ 0 <= l /\ 0 <= r /\ l + r <= MAX_SAFE_BYTES.
Proof.
  unfold checked_add. split.
  - intros H. inv_res H. apply validate_byte_limit_ok in Hr, Hr0. lia.
  - intros (-> & H). rewrite (proj2 (validate_byte_limit_ok l label true l)) by (split; [done|]; lia).
    rewrite (proj2 (validate_byte_limit_ok r label true r)) by (split; [done|]; lia).
    cbn [res_bind]. destruct (Z.ltb_spec (MAX_SAFE_BYTES - l) r); [lia|done].
Qed.

(** ** The tree *)
Section fs_ind.
Variable P : fs_entry -> Prop.
Hypothesis Hdata : forall n, P (DataFile n).
Hypothesis Hjson : forall v, P (JsonFile v).
Hypothesis Hlink : P SymLink.
Hypothesis Hspecial : P Special.
Hypothesis Hdir : forall l, Forall (fun ne => P ne.2) l -> P (Directory l).
Fixpoint fs_entry_full_ind (e : fs_entry) : P e :=
  match e with
  | DataFile n => Hdata n
  | JsonFile v => Hjson v
  | SymLink => Hlink
  | Special => Hspecial
  | Directory l =>
      Hdir l ((fix go l : Forall (fun ne => P ne.2) l :=
                 match l with [] => Forall_nil_2 _ | ne :: l => Forall_cons_2 _ _ _ (fs_entry_full_ind ne.2) (go l) end) l)
  end.
End fs_ind.

(** The bytes of the regular files below an entry. *)
Fixpoint entry_bytes (e : fs_entry) : Z :=
  match e with
  | DataFile n => n
  | JsonFile v => canonical_file_bytes (JObj v)
  | SymLink | Special => 0
  | Directory l => zsum (map (fun ne => entry_bytes ne.2) l)
  end.

(** Only directories and regular files of representable sizes. *)
Fixpoint countable (e : fs_entry) : Prop :=
  match e with
  | DataFile n => 0 <= n
  | JsonFile _ => True
  | SymLink | Special => False
  | Directory l => fold_right (fun ne P => countable ne.2 /\ P) True l
  end.

Lemma countable_Directory l : countable (Directory l) <-> Forall (fun ne => countable ne.2) l.
Proof.
  cbn. induction l as [|ne l IH]; cbn; [split; [constructor|done]|]. rewrite IH. split.
  - intros [? ?]. by constructor.
  - by intros [? ?]%Forall_cons.
Qed.

Lemma canonical_file_bytes_pos v : 0 < canonical_file_bytes v.
Proof. unfold canonical_file_bytes. pose proof (zlen_nonneg (canonical_json_bytes v)). lia. Qed.

Lemma entry_bytes_nonneg e : countable e -> 0 <= entry_bytes e.
Proof.
  induction e as [n|v| | |l IH] using fs_entry_full_ind; cbn [entry_bytes].
  - done.
  - intros _. pose proof (canonical_file_bytes_pos (JObj v)). lia.
  - done.
  - done.
  - rewrite countable_Directory. intros Hl. apply zsum_nonneg, Forall_map, Forall_forall. intros ne Hne.
    rewrite Forall_forall in IH, Hl. apply IH; [done|]. by apply Hl.
Qed.

(** The loop over the amounts, in any order. *)
Lemma add_amounts amounts : forall total n,
  0 <= total -> total <= MAX_SAFE_BYTES ->
  foldM (fun total (na : ustr * res Z) => let! amount := na.2 in checked_add total amount "storage quota usage") total amounts = Ok n <->
  exists ns, Forall2 (fun (na : ustr * res Z) k => na.2 = Ok k /\ 0 <= k) amounts ns /\ n = total + zsum ns /\ n <= MAX_SAFE_BYTES.
Proof.
  induction amounts as [|[name r] amounts IH]; intros total n Ht Hm; cbn [foldM].
  - split; [intros [= <-]; exists []; split; [constructor|cbn; lia]|].
    intros (ns & Hns & -> & _). inversion Hns; subst. cbn. f_equal. lia.
  - cbn [snd]. destruct r as [k|e]; cbn [res_bind].
    + split.
      * intros H. apply bind_ok in H as (t & Hc & H). apply checked_add_ok in Hc as (-> & H1 & H2 & H3).
        apply IH in H as (ns & Hns & -> & Hle); [|lia|lia]. exists (k :: ns). cbn [zsum].
        split; [by constructor|]. lia.
      * intros (ns & Hns & -> & Hle). inversion Hns as [|? k' ? ns' Hhead Hrest]; subst.
        destruct Hhead as [Heq Hk]. cbn [snd] in Heq. injection Heq as <-.
        cbn [zsum] in *.
        assert (0 <= zsum ns'). { apply zsum_nonneg. clear -Hrest. induction Hrest as [|? ? ? ? [_ ?]]; by constructor. }
        rewrite (proj2 (checked_add_ok total k "storage quota usage" (total + k))) by lia. cbn [res_bind].
        apply IH; [lia|lia|]. exists ns'. split; [done|]. lia.
    + split; [discriminate|]. intros (ns & Hns & _). inversion Hns as [|? ? ? ? Hhead]; subst. by destruct Hhead.
Qed.

Lemma Forall2_perm_l {A B} (R : A -> B -> Prop) l l' k :
  Permutation l l' -> Forall2 R l k -> exists k', Permutation k k' /\ Forall2 R l' k'.
Proof.
  intros Hp. revert k. induction Hp as [|a l l' Hp IH|a b l|l l' l'' _ IH1 _ IH2]; intros k Hk.
  - exists k. by inversion Hk; subst.
  - inversion Hk as [|? x ? k1 Hx Hk1]; subst. destruct (IH k1 Hk1) as (k' & ? & ?). exists (x :: k'). split; by constructor.
  - inversion Hk as [|? x ? k1 Hx Hk1]; subst. inversion Hk1 as [|? y ? k2 Hy Hk2]; subst.
    exists (y :: x :: k2). split; [constructor|]. by repeat constructor.
  - destruct (IH1 k Hk) as (k1 & ? & Hk1). destruct (IH2 k1 Hk1) as (k2 & ? & ?). exists k2. split; [by etransitivity|done].
Qed.

Lemma entry_usage_spec e n :
  entry_usage e = Ok n /\ 0 <= n <-> countable e /\ n = entry_bytes e /\ (forall l, e = Directory l -> n <= MAX_SAFE_BYTES).
Proof.
  revert n. induction e as [k|v| | |l IH] using fs_entry_full_ind; intros n; cbn [entry_usage].
  - cbn [countable entry_bytes]. split; [intros [[= <-] ?]; naive_solver|]. intros (? & -> & _). done.
  - cbn [countable entry_bytes]. split; [intros [[= <-] ?]; naive_solver|]. intros (_ & -> & _).
    split; [done|]. pose proof (canonical_file_bytes_pos (JObj v)). lia.
  - cbn. split; [by intros [? _]|by intros []].
  - cbn. split; [by intros [? _]|by intros []].
  - rewrite add_amounts, countable_Directory by (vm_compute; discriminate).
    set (amounts := map (fun ne => (ne.1, entry_usage ne.2)) l).
    rewrite Forall_forall in IH. split.
    + intros [(ns & Hns & -> & Hle) _].
      destruct (Forall2_perm_l _ _ _ _ (sorted_by_Permutation key_leb amounts) Hns) as (ks & Hp & Hks).
      rewrite (zsum_Permutation _ _ Hp) in *. clear Hp Hns.
      assert (Forall (fun ne : ustr * fs_entry => countable ne.2) l /\ zsum ks = entry_bytes (Directory l)) as [H1 H2]; [|by rewrite H2 in *; auto].
      unfold amounts in Hks. clear Hle. revert ks Hks. induction l as [|[name e] l IHl]; intros ks Hks; inversion Hks as [|? k ? ks' Hhead Hrest]; subst.
      * done.
      * destruct (proj1 (IH (name, e) (list_elem_of_here _ _) k) Hhead) as (Hc & -> & _).
        destruct (IHl ltac:(intros; apply IH; by right) ks' Hrest) as [H1 H2].
        split; [by constructor|]. cbn [zsum]. rewrite H2. done.
    + intros (Hc & -> & Hmax). specialize (Hmax l eq_refl). split; [|by apply entry_bytes_nonneg, countable_Directory].
      assert (exists ns, Forall2 (fun (na : ustr * res Z) k => na.2 = Ok k /\ 0 <= k) amounts ns /\ zsum ns = entry_bytes (Directory l))
        as (ns & Hns & Hsum).
      { unfold amounts. revert Hmax. induction l as [|[name e] l IHl]; intros Hmax; [exists []; split; [constructor|done]|].
        apply Forall_cons in Hc as [He Hc]. cbn [snd] in He. cbn [entry_bytes map zsum snd] in Hmax.
        pose proof (entry_bytes_nonneg e He). pose proof (entry_bytes_nonneg (Directory l) (proj2 (countable_Directory l) Hc)) as Hl.
        cbn [entry_bytes] in Hl. 
        destruct (IHl ltac:(intros; apply IH; by right) Hc) as (ns & Hns & Hsum); [cbn [entry_bytes]; lia|].
        exists (entry_bytes e :: ns). split; [|cbn [entry_bytes map zsum snd] in *; lia].
        constructor; [|done]. cbn [map fst snd]. apply (proj2 (IH (name, e) (list_elem_of_here _ _) _)). cbn [snd].
        split; [done|]. split; [done|]. intros l' ->. lia. }
      destruct (Forall2_perm_l _ _ _ _ (symmetry (sorted_by_Permutation key_leb amounts)) Hns) as (ks & Hp & Hks).
      exists ks. split; [done|]. rewrite <- (zsum_Permutation _ _ Hp), Hsum. split; [done|]. exact Hmax.
Qed.

(** ** Records *)
Lemma reservation_name_spec name :
  fullmatch RESERVATION_NAME name = true <-> exists t, fullmatch re_hex64 t = true /\ name = reservation_path t.
Proof.
  unfold RESERVATION_NAME, reservation_path. rewrite fullmatch_lang. split.
  - intros (t1 & r & -> & ->%lang_lit & (t & t3 & -> & Ht & ->%lang_lit)%lang_seq_inv)%lang_seq_inv.
    exists t. by rewrite fullmatch_lang.
  - intros (t & Ht%fullmatch_lang & ->). repeat constructor; try done; by apply lang_lit.
Qed.

Lemma reservation_path_inj t u : reservation_path t = reservation_path u -> t = u.
Proof. unfold reservation_path. intros H. apply app_inv_head in H. by apply app_inv_tail in H. Qed.

Lemma reservation_token_path t : fullmatch re_hex64 t = true -> reservation_token (reservation_path t) = Some t.
Proof.
  intros Ht. unfold reservation_token. rewrite (proj2 (reservation_name_spec _)) by by exists t. f_equal.
  unfold reservation_path. apply fullmatch_hex64 in Ht as [Hlen _].
  replace 12 with (zlen (us "reservation-")) by reflexivity.
  replace 76 with (zlen (us "reservation-") + zlen t) by (unfold zlen; rewrite Hlen; reflexivity).
  apply slice_app_middle.
Qed.

Lemma reservation_token_spec name t :
  reservation_token name = Some t <-> fullmatch re_hex64 t = true /\ name = reservation_path t.
Proof.
  split; [|intros [Ht ->]; by apply reservation_token_path].
  intros H. assert (fullmatch RESERVATION_NAME name = true) as Hn by (unfold reservation_token in H; by destruct (fullmatch _ _)).
  apply reservation_name_spec in Hn as (u & Hu & ->). rewrite reservation_token_path in H by done. by injection H as <-.
Qed.

Lemma byte_limit_ok_spec v : byte_limit_ok v = true <-> 0 <= v <= MAX_SAFE_BYTES.
Proof. unfold byte_limit_ok. rewrite andb_true_iff. lia. Qed.

Lemma parse_reservation_spec name m t l p :
  parse_reservation_payload name m = Ok (t, l, p) ->
  fullmatch re_hex64 t = true /\ name = reservation_path t /\ 0 <= l <= p /\ p <= MAX_SAFE_BYTES /\
  has_fields m [us "schema_version"; us "token"; us "lease"; us "logical"; us "peak"] = true /\
  member (us "schema_version") m = Some (JStr RESERVATION_SCHEMA) /\ member (us "token") m = Some (JStr t) /\
  member (us "lease") m = Some (JStr (us "exclusive-flock-v1")) /\ member (us "logical") m = Some (JInt l) /\
  member (us "peak") m = Some (JInt p).
Proof.
  unfold parse_reservation_payload. destruct (reservation_token name) as [expected|] eqn:Et; [|discriminate].
  intros H. apply bind_ok in H as (u & Hf & H). apply raise_if_ok in Hf.
  destruct (member (us "schema_version") m) as [[| | |schema| |]|]; try discriminate.
  destruct (member (us "token") m) as [[| | |token| |]|]; try discriminate.
  destruct (member (us "lease") m) as [[| | |lease| |]|]; try discriminate.
  apply bind_ok in H as (u' & Hi & H). apply raise_if_ok in Hi.
  destruct (member (us "logical") m) as [[| |l'| | |]|]; try discriminate.
  destruct (member (us "peak") m) as [[| |p'| | |]|]; try discriminate.
  apply bind_ok in H as (u2 & Hv & H). apply bind_ok in H as (u3 & Hp & H). injection H as -> -> ->.
  apply raise_if_ok in Hv, Hp. bsplit. subst. apply reservation_token_spec in Et as [? ->].
  repeat match goal with H : byte_limit_ok _ = true |- _ => apply byte_limit_ok_spec in H end.
  repeat split; try done; lia.
Qed.

Lemma parse_reservation_payload_ok t l p :
  fullmatch re_hex64 t = true -> 0 <= l -> l <= p -> p <= MAX_SAFE_BYTES ->
  parse_reservation_payload (reservation_path t) (json_members (reservation_payload t l p)) = Ok (t, l, p).
Proof.
  intros Ht Hl Hlp Hp. unfold parse_reservation_payload. rewrite reservation_token_path by done.
  assert (has_fields (json_members (reservation_payload t l p))
    [us "schema_version"; us "token"; us "lease"; us "logical"; us "peak"] = true) as -> by (apply bool_decide_eq_true_2; reflexivity).
  cbn [negb raise_if res_bind].
  change (member (us "schema_version") (json_members (reservation_payload t l p))) with (Some (JStr RESERVATION_SCHEMA)).
  change (member (us "token") (json_members (reservation_payload t l p))) with (Some (JStr t)).
  change (member (us "lease") (json_members (reservation_payload t l p))) with (Some (JStr (us "exclusive-flock-v1"))).
  change (member (us "logical") (json_members (reservation_payload t l p))) with (Some (JInt l)).
  change (member (us "peak") (json_members (reservation_payload t l p))) with (Some (JInt p)). cbn iota beta.
  rewrite !(bool_decide_eq_true_2 _ eq_refl). cbn [negb andb raise_if res_bind].
  rewrite (proj2 (byte_limit_ok_spec l)), (proj2 (byte_limit_ok_spec p)) by lia.
  rewrite (proj2 (Z.ltb_ge p l)) by lia. done.
Qed.

(** The values of a policy determine it. *)
Lemma policy_of_values_ok vs p :
  policy_of_values vs = Ok p <-> vs = map JInt (policy_values p) /\ check_quota_policy p = Ok tt.
Proof.
  split.
  - intros H. unfold policy_of_values in H.
    do 8 (destruct vs as [|[| |?| | |] vs]; try discriminate). destruct vs; [|discriminate].
    match type of H with (if is_ok ?c then _ else _) = _ => destruct c as [[]|] eqn:Ec end; [|discriminate].
    injection H as <-. done.
  - intros [-> Hc]. destruct p. unfold policy_of_values, policy_values. cbn [map]. cbn in Hc |- *. by rewrite Hc.
Qed.

Lemma parse_policy_spec m p :
  parse_policy_payload m = Ok p <->
  has_fields m [us "schema_version"; us "values"] = true /\ member (us "schema_version") m = Some (JStr POLICY_SCHEMA) /\
  member (us "values") m = Some (JArr (map JInt (policy_values p))) /\ check_quota_policy p = Ok tt.
Proof.
  unfold parse_policy_payload. split.
  - intros H. apply bind_ok in H as (u & Hf & H). apply raise_if_ok in Hf. bsplit.
    destruct (member (us "schema_version") m) as [[| | |schema| |]|]; try discriminate.
    destruct (member (us "values") m) as [[| | | |vs|]|]; try discriminate.
    apply bind_ok in H as (u' & Hi & H). apply raise_if_ok in Hi. bsplit. subst. apply policy_of_values_ok in H as [-> Hc]. done.
  - intros (-> & -> & -> & Hc). cbn [negb raise_if res_bind]. rewrite (bool_decide_eq_true_2 _ eq_refl).
    apply policy_of_values_ok. done.
Qed.

Lemma policy_payload_parses p : check_quota_policy p = Ok tt -> parse_policy_payload (json_members (policy_payload p)) = Ok p.
Proof. intros Hc. apply parse_policy_spec. by repeat split. Qed.

(** Sorting by key forgets the order of distinct keys. *)
Lemma sorted_by_key_unique {A} (l1 l2 : list (ustr * A)) :
  NoDup l1.*1 -> Permutation l1 l2 -> sorted_by key_leb l1 = sorted_by key_leb l2.
Proof.
  intros Hnd Hp. set (R := fun x y : ustr * A => key_leb x y = true /\ (x.1 = y.1 -> x = y)).
  assert (forall l, Permutation l1 l -> StronglySorted R (sorted_by key_leb l)) as Hs.
  { intros l Hl. assert (NoDup (sorted_by key_leb l).*1) as Hk by by rewrite (sorted_by_Permutation key_leb l), <- Hl.
    pose proof (sorted_by_sorted key_leb (fun a b => ustr_leb_total a.1 b.1) (fun a b c => ustr_leb_trans a.1 b.1 c.1) l) as Hs.
    induction Hs as [|x l' Hs IH Hx]; constructor; cbn in Hk; apply NoDup_cons in Hk as [Hn Hk]; [by apply IH|].
    apply Forall_forall. intros y Hy. rewrite Forall_forall in Hx. split; [by apply Hx|]. intros E. destruct Hn. rewrite E.
    apply list_elem_of_fmap. by exists y. }
  apply (sorted_perm_unique R); [|by apply Hs|by apply Hs|by rewrite !(sorted_by_Permutation key_leb)].
  intros x y [H1 H3] [H2 _]. by apply H3, ustr_leb_antisym.
Qed.

(** Objects with the same members have the same canonical bytes. *)
Lemma canonical_json_bytes_members l1 l2 :
  NoDup l1.*1 -> NoDup l2.*1 -> (forall k, k ∈ l1.*1 <-> k ∈ l2.*1) ->
  (forall k, k ∈ l1.*1 -> member k l1 = member k l2) ->
  canonical_json_bytes (JObj l1) = canonical_json_bytes (JObj l2).
Proof.
  intros H1 H2 Hk Hm. unfold canonical_json_bytes. f_equal. cbn [dumps].
  rewrite !(sorted_by_map key_leb key_leb) by done. rewrite (sorted_by_key_unique l1 l2); [done|done|].
  apply NoDup_Permutation; [by eapply NoDup_fmap_1..|]. intros [k v]. rewrite <- !member_elem by done.
  destruct (decide (k ∈ l1.*1)) as [Hin|Hin]; [by rewrite Hm|].
  rewrite !member_elem by done. split; intros Hmem; exfalso.
  - apply Hin. apply list_elem_of_fmap. by exists (k, v).
  - apply Hin, Hk. apply list_elem_of_fmap. by exists (k, v).
Qed.

(** ** The scan of the records *)
Definition file_record (nf : ustr * coordination_file) : option (ustr * Z * Z) :=
  match parse_reservation_payload nf.1 (cf_members nf.2) with Ok r => Some r | Err _ => None end.
Definition record_entry (r : ustr * Z * Z) : ustr * (Z * Z) := (r.1.1, (r.1.2, r.2)).

Lemma file_record_spec nf t l p :
  file_record nf = Some (t, l, p) -> nf.1 = reservation_path t /\ fullmatch re_hex64 t = true /\ 0 <= l <= p /\ p <= MAX_SAFE_BYTES.
Proof.
  unfold file_record. destruct (parse_reservation_payload _ _) as [[[t' l'] p']|] eqn:E; [|discriminate].
  intros [= -> -> ->]. apply parse_reservation_spec in E as (? & ? & ? & ? & _). auto.
Qed.

Lemma file_record_name nf r : file_record nf = Some r -> fullmatch RESERVATION_NAME nf.1 = true.
Proof. destruct r as [[t l] p]. intros (-> & Ht & _)%file_record_spec. apply reservation_name_spec. by exists t. Qed.

(** Every file under a reservation name is a record. *)
Definition records_valid (files : list (ustr * coordination_file)) : Prop :=
  Forall (fun nf => fullmatch RESERVATION_NAME nf.1 = true -> is_Some (file_record nf)) files.

Definition records_of (files : list (ustr * coordination_file)) : list (ustr * (Z * Z)) :=
  omap (fun nf => record_entry <$> file_record nf) files.

Lemma records_of_cons nf l :
  records_of (nf :: l) = (match file_record nf with Some r => [record_entry r] | None => [] end) ++ records_of l.
Proof. unfold records_of. cbn. by destruct (file_record nf). Qed.

Lemma records_of_app l1 l2 : records_of (l1 ++ l2) = records_of l1 ++ records_of l2.
Proof. apply omap_app. Qed.

Lemma records_of_name files t : t ∈ (records_of files).*1 -> reservation_path t ∈ files.*1.
Proof.
  intros ([t' lp] & -> & H)%list_elem_of_fmap. apply list_elem_of_omap in H as (nf & Hnf & Hr).
  destruct (file_record nf) as [[[u l] p]|] eqn:E; [|discriminate]. cbn in Hr. injection Hr as <- _.
  cbn [fst].   apply file_record_spec in E as (<- & _). apply list_elem_of_fmap. by exists nf.
Qed.

Lemma scan_spec files rs :
  NoDup files.*1 -> foldM read_reservation [] files = Ok rs -> rs = records_of files /\ records_valid files.
Proof.
  intros Hnd H. refine (foldM_ok_invariant _ (fun seen acc => acc = records_of seen /\ records_valid seen) _ _ _ _ _ H).
  - split; [done|constructor].
  - intros seen nf rest acc acc' E [-> Hv] Hstep. rewrite records_of_app. unfold read_reservation in Hstep.
    destruct (fullmatch RESERVATION_NAME nf.1) eqn:En.
    + apply bind_ok in Hstep as (u & _ & Hstep). apply bind_ok in Hstep as (m & Hm & Hstep).
      apply bind_ok in Hstep as ([[t l] p] & Hp & Hstep). injection Hstep as <-.
      assert (m = cf_members nf.2) as -> by (unfold strict_json_file, file_entry in Hm; apply bind_ok in Hm as (? & _ & [= <-]); done).
      assert (file_record nf = Some (t, l, p)) as Hr by (unfold file_record; by rewrite Hp).
      split.
      * rewrite dict_set_fresh; [cbn; by rewrite Hr|]. intros Hin%records_of_name.
        apply file_record_spec in Hr as (Hname & _). rewrite E, fmap_app, fmap_cons, Hname in Hnd.
        apply NoDup_app in Hnd as (_ & Hd & _). apply (Hd _ Hin). left.
      * apply Forall_app. split; [done|]. repeat constructor. intros _. by rewrite Hr.
    + injection Hstep as <-. split.
      * cbn. destruct (file_record nf) as [r|] eqn:Er; [|by rewrite app_nil_r]. apply file_record_name in Er. congruence.
      * apply Forall_app. split; [done|]. repeat constructor. congruence.
Qed.

Lemma reservations_spec st rs :
  NoDup (qs_files st).*1 -> durable_reservations_locked st = Ok rs ->
  Permutation rs (records_of (qs_files st)) /\ records_valid (qs_files st).
Proof.
  intros Hnd H. unfold durable_reservations_locked in H. apply bind_ok in H as (u & _ & H).
  apply scan_spec in H as [-> Hv]; [|by rewrite (sorted_by_Permutation key_leb)]. split.
  - unfold records_of. by rewrite (sorted_by_Permutation key_leb).
  - unfold records_valid in *. by rewrite (sorted_by_Permutation key_leb) in Hv.
Qed.

(** The loop over the reserved growth adds up the records. *)
Lemma add_reserved_spec rs : forall l p l' p',
  foldM add_reserved (l, p) rs = Ok (l', p') ->
  l' = l + zsum (map (fun r => r.2.1) rs) /\ p' = p + zsum (map (fun r => r.2.2) rs).
Proof.
  induction rs as [|[t [a b]] rs IH]; intros l p l' p'; cbn [foldM map zsum]; [intros [= <- <-]; lia|].
  intros H. apply bind_ok in H as ([l1 p1] & Ha & H). unfold add_reserved in Ha. cbn [fst snd] in *.
  apply bind_ok in Ha as (x & Hx & Ha). apply bind_ok in Ha as (y & Hy & Ha). injection Ha as <- <-.
  apply checked_add_ok in Hx as (-> & _), Hy as (-> & _). apply IH in H as [-> ->]. lia.
Qed.

(** ** Writers and the invariant

    [w] records how many bytes each reservation's writer has written so far. *)
Definition written (w : gmap ustr Z) (t : ustr) : Z := default 0 (w !! t).

(** What a file of the coordination directory still holds of the quota. *)
Definition charge (w : gmap ustr Z) (nf : ustr * coordination_file) : Z :=
  match file_record nf with Some (t, l, _) => l - written w t | None => 0 end.
Definition outstanding (st : quota_state) (w : gmap ustr Z) : Z := zsum (map (charge w) (qs_files st)).

Definition state_bytes (st : quota_state) : Z := entry_bytes (Directory (state_tree st)).
Definition state_countable (st : quota_state) : Prop := countable (Directory (state_tree st)).

Definition set_data (st : quota_state) (root audit : list (ustr * fs_entry)) : quota_state :=
  {| qs_root := root; qs_audit_reports := audit; qs_files := qs_files st |}.

Definition file_bytes (nf : ustr * coordination_file) : Z := canonical_file_bytes (JObj (cf_members nf.2)).
Definition data_bytes (st : quota_state) : Z :=
  zsum (map (fun ne => entry_bytes ne.2) (qs_root st)) + zsum (map (fun ne => entry_bytes ne.2) (qs_audit_reports st)).

Lemma state_bytes_split st : state_bytes st = data_bytes st + zsum (map file_bytes (qs_files st)).
Proof.
  unfold state_bytes, state_tree, data_bytes. cbn [entry_bytes]. rewrite map_app, zsum_app. cbn [map snd entry_bytes zsum].
  rewrite map_app, zsum_app. cbn [map snd entry_bytes zsum]. unfold coordination_entries. cbn [map snd entry_bytes zsum].
  rewrite map_map. change (map (fun x => entry_bytes (x.1, file_entry x.2).2) (qs_files st)) with (map file_bytes (qs_files st)). lia.
Qed.

Definition data_countable (st : quota_state) : Prop :=
  Forall (fun ne => countable ne.2) (qs_root st) /\ Forall (fun ne => countable ne.2) (qs_audit_reports st).

Lemma state_countable_split st : state_countable st <-> data_countable st.
Proof.
  unfold state_countable, state_tree, data_countable. rewrite countable_Directory, Forall_app, Forall_singleton. cbn [snd].
  rewrite countable_Directory, Forall_app, Forall_singleton. cbn [snd]. rewrite countable_Directory.
  split; [tauto|]. intros [H1 H2]. split; [done|]. split; [done|]. unfold coordination_entries. constructor; [done|].
  apply Forall_map, Forall_forall. done.
Qed.

Record quota_inv (policy : StateQuotaPolicy) (st : quota_state) (w : gmap ustr Z) : Prop := {
  qi_names : NoDup (qs_files st).*1;
  qi_policy : exists f, dict_get QUOTA_POLICY (qs_files st) = Some f /\ parse_policy_payload (cf_members f) = Ok policy;
  qi_written : forall nf t l p, nf ∈ qs_files st -> file_record nf = Some (t, l, p) -> 0 <= written w t <= l;
  qi_countable : state_countable st;
  qi_bound : state_bytes st + outstanding st w <= maximum_state_bytes policy;
}.

Lemma outstanding_nonneg policy st w : quota_inv policy st w -> 0 <= outstanding st w.
Proof.
  intros H. apply zsum_nonneg, Forall_map, Forall_forall. intros nf Hnf. unfold charge.
  destruct (file_record nf) as [[[t l] p]|] eqn:E; [|done]. pose proof (qi_written _ _ _ H nf t l p Hnf E). lia.
Qed.

(** The reserved growth covers what is outstanding. *)
Lemma outstanding_reserved policy st w :
  quota_inv policy st w -> outstanding st w <= zsum (map (fun r => r.2.1) (records_of (qs_files st))).
Proof.
  intros H. pose proof (qi_written _ _ _ H) as Hw. unfold outstanding. clear H.
  induction (qs_files st) as [|nf files IH]; cbn [map zsum]; [done|].
  specialize (IH ltac:(intros; eapply Hw; [by right|done])). rewrite records_of_cons, map_app, zsum_app. unfold charge at 1.
  destruct (file_record nf) as [[[t l] p]|] eqn:E; cbn [map zsum record_entry fst snd]; [|lia].
  pose proof (Hw nf t l p ltac:(by left) E). lia.
Qed.

Lemma policy_locked policy st w inode free st' p :
  quota_inv policy st w -> durable_policy_locked st None inode free = Ok (st', p) -> st' = st /\ p = policy.
Proof.
  intros H Hd. destruct (qi_policy _ _ _ H) as (f & Hf & Hp). unfold durable_policy_locked in Hd. rewrite Hf in Hd.
  apply bind_ok in Hd as ([s d] & Hs & Hd). apply bind_ok in Hs as (m & Hm & Hs).
  assert (m = cf_members f) as -> by (unfold strict_json_file, file_entry in Hm; apply bind_ok in Hm as (? & _ & [= <-]); done).
  rewrite Hp in Hs. cbn [res_bind] in Hs. injection Hs as <- <-. cbn [res_bind] in Hd. by injection Hd as <- <-.
Qed.

Lemma usage_spec st n : safe_tree_usage st = Ok n -> state_countable st -> n = state_bytes st.
Proof.
  intros H Hc. unfold safe_tree_usage, directory_usage in H.
  assert (0 <= n) as Hn.
  { cbn [entry_usage] in H. apply add_amounts in H as (ns & Hns & -> & _); [|done|by vm_compute].
    apply zsum_nonneg. clear -Hns. induction Hns as [|? ? ? ? [_ ?]]; by constructor. }
  by destruct (proj1 (entry_usage_spec _ _) (conj H Hn)) as (_ & -> & _).
Qed.

(** A passed check leaves room for the growth beside everything reserved. *)
Lemma ensure_spec policy st w logical peak inode free st' :
  quota_inv policy st w -> ensure_global_state_growth_locked st logical peak inode free = Ok st' ->
  st' = st /\ 0 <= logical /\ state_bytes st + outstanding st w + logical <= maximum_state_bytes policy /\
  records_valid (qs_files st).
Proof.
  intros H He. unfold ensure_global_state_growth_locked in He.
  apply bind_ok in He as (lg & Hlg & He). apply bind_ok in He as (pk & Hpk & He). apply bind_ok in He as (u0 & _ & He).
  apply bind_ok in He as ([s p] & Hp & He). apply (policy_locked policy st w) in Hp as [-> ->]; [|done].
  apply bind_ok in He as (usage & Hu & He). apply bind_ok in He as (rs & Hrs & He). apply bind_ok in He as ([rl rp] & Hr & He).
  apply bind_ok in He as (acc & Hacc & He). apply bind_ok in He as (u1 & Hcap & He). apply raise_if_ok in Hcap.
  apply bind_ok in He as (fb & _ & He). apply bind_ok in He as (rq & _ & He). apply bind_ok in He as (u2 & _ & He). injection He as <-.
  apply validate_byte_limit_ok in Hlg as (-> & Hl). cbn iota in Hl. apply usage_spec in Hu as ->; [|apply (qi_countable _ _ _ H)].
  apply reservations_spec in Hrs as [Hperm Hv]; [|apply (qi_names _ _ _ H)]. apply add_reserved_spec in Hr as [-> _].
  apply checked_add_ok in Hacc as (-> & _). cbn [fst] in Hcap. pose proof (outstanding_reserved _ _ _ H) as Ho.
  rewrite (zsum_Permutation _ _ (Permutation_map (fun r => r.2.1) Hperm)) in Hcap. bsplit. repeat split; [lia|lia|done].
Qed.

(** One step of the server processes against the state root. *)
Inductive quota_step : quota_state * gmap ustr Z -> quota_state * gmap ustr Z -> Prop :=
| step_reserve st w logical peak draws inode policy_inode free st' r :
    Forall (fun t => fullmatch re_hex64 t = true) draws ->
    reserve_global_state_growth st logical peak draws inode policy_inode free = Ok (st', r) ->
    quota_step (st, w) (st', <[sr_token r := 0]> w)
| step_write_reserved st w t l p f n root audit :
    (reservation_path t, f) ∈ qs_files st -> file_record (reservation_path t, f) = Some (t, l, p) -> cf_leased f = true ->
    0 <= n -> written w t + n <= l ->
    data_countable (set_data st root audit) -> data_bytes (set_data st root audit) <= data_bytes st + n ->
    quota_step (st, w) (set_data st root audit, <[t := written w t + n]> w)
| step_guarded st w growth peak inode free st1 root audit :
    ensure_global_state_growth st growth peak inode free = Ok st1 ->
    data_countable (set_data st1 root audit) -> data_bytes (set_data st1 root audit) <= data_bytes st1 + growth ->
    quota_step (st, w) (set_data st1 root audit, w)
| step_shrink st w root audit :
    data_countable (set_data st root audit) -> data_bytes (set_data st root audit) <= data_bytes st ->
    quota_step (st, w) (set_data st root audit, w)
| step_release st w r same_process st' r' :
    release st r same_process = Ok (st', r') -> quota_step (st, w) (st', w)
| step_crash st w name :
    quota_step (st, w)
      (set_files st (map (fun nf => if decide (nf.1 = name)
         then (nf.1, {| cf_members := cf_members nf.2; cf_inode := cf_inode nf.2; cf_leased := false |}) else nf) (qs_files st)), w)
| step_reconcile st w inode free st' removed :
    reconcile_abandoned_state_reservations st inode free = Ok (st', removed) -> quota_step (st, w) (st', w).

(** ** The invariant is kept *)
Lemma zsum_filter_le {A} (P : A -> Prop) `{!forall x, Decision (P x)} (f : A -> Z) l :
  Forall (fun x => 0 <= f x) l -> zsum (map f (filter P l)) <= zsum (map f l).
Proof.
  induction 1 as [|x l Hx _ IH]; [done|]. rewrite filter_cons. destruct (decide (P x)); cbn [map zsum]; lia.
Qed.

Lemma reservation_path_policy t : reservation_path t <> QUOTA_POLICY.
Proof. unfold reservation_path. intros H. apply (f_equal head) in H. discriminate H. Qed.

Lemma dict_get_filter {V} (k name : ustr) (d : list (ustr * V)) :
  k <> name -> dict_get k (filter (fun nf => nf.1 <> name) d) = dict_get k d.
Proof.
  intros Hk. induction d as [|[k' v] d IH]; [done|]. rewrite filter_cons. cbn [fst].
  destruct (decide (k' <> name)) as [Hn|Hn]; cbn [dict_get]; [by rewrite IH|].
  rewrite decide_False; [exact IH|]. intros <-. by apply Hn.
Qed.

Lemma charge_nonneg policy st w : quota_inv policy st w -> Forall (fun nf => 0 <= charge w nf) (qs_files st).
Proof.
  intros H. apply Forall_forall. intros nf Hnf. unfold charge. destruct (file_record nf) as [[[t l] p]|] eqn:E; [|done].
  pose proof (qi_written _ _ _ H nf t l p Hnf E). lia.
Qed.

Lemma remove_file_NoDup name files : NoDup files.*1 -> NoDup (remove_file name files).*1.
Proof.
  unfold remove_file. induction files as [|x l IH]; intros Hl; [done|]. rewrite fmap_cons in Hl. apply NoDup_cons in Hl as [Hx Hl].
  rewrite filter_cons. destruct (decide _); [|by apply IH]. rewrite fmap_cons. apply NoDup_cons. split; [|by apply IH].
  intros (y & Hy & [_ Hin]%list_elem_of_filter)%list_elem_of_fmap. apply Hx. rewrite Hy. apply list_elem_of_fmap. by exists y.
Qed.

(** Removing a record only lowers usage and charges. *)
Lemma remove_inv policy st w t :
  quota_inv policy st w -> quota_inv policy (set_files st (remove_file (reservation_path t) (qs_files st))) w.
Proof.
  intros H. pose proof (charge_nonneg _ _ _ H) as Hch. destruct H as [Hn (f & Hf & Hp) Hw Hc Hb]. unfold remove_file. split.
  - by apply remove_file_NoDup.
  - exists f. split; [|done]. cbn [set_files qs_files]. rewrite dict_get_filter; [done|]. intros E. by apply (reservation_path_policy t).
  - intros nf u l p Hin. cbn [set_files qs_files] in Hin. apply list_elem_of_filter in Hin as [_ Hin]. by apply Hw.
  - apply state_countable_split in Hc. by apply state_countable_split.
  - rewrite state_bytes_split in *. unfold outstanding in *. cbn [set_files qs_files].
    change (data_bytes (set_files st _)) with (data_bytes st).
    pose proof (zsum_filter_le (fun nf => nf.1 <> reservation_path t) (charge w) _ Hch).
    pose proof (zsum_filter_le (fun nf => nf.1 <> reservation_path t) file_bytes (qs_files st)) as Hbytes.
    specialize (Hbytes ltac:(apply Forall_forall; intros nf _; unfold file_bytes; pose proof (canonical_file_bytes_pos (JObj (cf_members nf.2))); lia)).
    lia.
Qed.

(** New data that stays within [room] keeps the invariant when the charges fall by as much. *)
Lemma set_data_inv policy st w w' root audit room :
  quota_inv policy st w -> data_countable (set_data st root audit) -> data_bytes (set_data st root audit) <= data_bytes st + room ->
  (forall nf t l p, nf ∈ qs_files st -> file_record nf = Some (t, l, p) -> 0 <= written w' t <= l) ->
  state_bytes st + room + outstanding st w' <= maximum_state_bytes policy ->
  quota_inv policy (set_data st root audit) w'.
Proof.
  intros [Hn Hp Hw Hc Hb] Hd Hbytes Hw' Hroom. split; try done; [by apply state_countable_split|].
  rewrite state_bytes_split in *. cbn [set_data qs_files] in *. unfold outstanding in *. cbn [set_data qs_files] in *. lia.
Qed.

Lemma written_insert w t n u : written (<[t := n]> w) u = if decide (t = u) then n else written w u.
Proof. unfold written. destruct (decide (t = u)) as [->|]; [by rewrite lookup_insert_eq|by rewrite lookup_insert_ne]. Qed.

(** The charge of one token among files with distinct names. *)
Lemma charges_insert w t n files :
  NoDup files.*1 ->
  zsum (map (charge (<[t := n]> w)) files) =
  zsum (map (charge w) files) + (if bool_decide (t ∈ (records_of files).*1) then written w t - n else 0).
Proof.
  induction files as [|nf files IH]; intros Hnd; [done|]. rewrite fmap_cons in Hnd. apply NoDup_cons in Hnd as [Hx Hnd].
  specialize (IH Hnd). cbn [map zsum]. rewrite IH, records_of_cons, fmap_app. unfold charge at 1 3.
  destruct (file_record nf) as [[[u l] p]|] eqn:E; cbn [record_entry fst snd].
  - rewrite written_insert. destruct (decide (t = u)) as [->|Hne].
    + assert (u ∉ (records_of files).*1) as Hu.
      { intros Hin%records_of_name. apply file_record_spec in E as (E & _). by rewrite E in Hx. }
      rewrite (bool_decide_eq_false_2 (u ∈ (records_of files).*1) Hu).
      rewrite bool_decide_eq_true_2 by (apply elem_of_app; left; left). lia.
    + rewrite (bool_decide_ext (t ∈ [(u, (l, p))].*1 ++ _) (t ∈ (records_of files).*1)); [lia|].
      split; [|intros; apply elem_of_app; by right]. intros [Hin|?]%elem_of_app; [|done].
      apply list_elem_of_fmap in Hin as (x & -> & ->%list_elem_of_singleton). by destruct Hne.
  - rewrite (bool_decide_ext (t ∈ [].*1 ++ _) (t ∈ (records_of files).*1)); [lia|]. done.
Qed.

Lemma file_record_in files nf t l p : nf ∈ files -> file_record nf = Some (t, l, p) -> t ∈ (records_of files).*1.
Proof.
  intros Hin E. apply list_elem_of_fmap. exists (t, (l, p)). split; [done|]. apply list_elem_of_omap. exists nf.
  split; [done|]. by rewrite E.
Qed.

Lemma dict_get_app_l {V} k (d e : list (ustr * V)) v : dict_get k d = Some v -> dict_get k (d ++ e) = Some v.
Proof. induction d as [|[k' v'] d IH]; [done|]. cbn [dict_get app]. destruct (decide (k = k')); auto. Qed.

Lemma reservation_members t l p : JObj (json_members (reservation_payload t l p)) = reservation_payload t l p.
Proof. reflexivity. Qed.

(** What a successful reservation did. *)
Lemma reserve_spec policy st w logical peak draws inode pin free st' r :
  quota_inv policy st w -> Forall (fun t => fullmatch re_hex64 t = true) draws ->
  reserve_global_state_growth st logical peak draws inode pin free = Ok (st', r) ->
  exists p, let value := reservation_payload (sr_token r) logical p in
    let nf := (reservation_path (sr_token r), {| cf_members := json_members value; cf_inode := inode; cf_leased := true |}) in
    st' = set_files st (qs_files st ++ [nf]) /\ r = {| sr_token := sr_token r; sr_inode := inode; sr_released := false |} /\
    fullmatch re_hex64 (sr_token r) = true /\ sr_token r ∉ (records_of (qs_files st)).*1 /\
    reservation_path (sr_token r) ∉ (qs_files st).*1 /\ file_record nf = Some (sr_token r, logical, p) /\ 0 <= logical /\
    state_bytes st + outstanding st w + logical + file_bytes nf <= maximum_state_bytes policy.
Proof.
  intros Hinv Hhex H. unfold reserve_global_state_growth, quota_transaction in H.
  apply bind_ok in H as (u0 & _ & H). apply bind_ok in H as (lg & Hlg & H). apply bind_ok in H as (pk & Hpk & H).
  apply bind_ok in H as (u1 & Hle & H). apply raise_if_ok in Hle. apply bind_ok in H as (rs & Hrs & H). apply bind_ok in H as (u2 & _ & H).
  apply bind_ok in H as (t & Ht & H). apply bind_ok in H as (lt & Hlt & H). apply bind_ok in H as (pub & _ & H).
  apply bind_ok in H as (pt & _ & H). apply bind_ok in H as (st1 & He & H). apply bind_ok in H as (st2 & Hp & [= <- <-]).
  apply validate_byte_limit_ok in Hlg as [-> Hl], Hpk as [-> Hpk]. cbn iota in Hl, Hpk.
  apply checked_add_ok in Hlt as (-> & _). apply (ensure_spec policy st w) in He as (-> & _ & Hb & _); [|done].
  apply reservations_spec in Hrs as [Hperm _]; [|apply (qi_names _ _ _ Hinv)].
  apply of_option_ok, find_some in Ht as [Hin Hfresh]. bsplit.
  assert (fullmatch re_hex64 t = true) as Htok by (rewrite Forall_forall in Hhex; apply Hhex; by apply list_elem_of_In).
  unfold publish in Hp. apply bind_ok in Hp as (u3 & Hnew & [= <-]). apply raise_if_ok in Hnew. bsplit.
  eexists. cbn [sr_token]. split; [reflexivity|]. split; [done|]. split; [done|].
  split; [by rewrite <- Hperm|]. split; [done|]. split; [|split; [lia|unfold file_bytes; cbn [snd cf_members]; rewrite reservation_members; lia]].
  unfold file_record. cbn [fst snd cf_members]. rewrite parse_reservation_payload_ok; [done|done|lia|lia|lia].
Qed.

Lemma reserve_inv policy st w logical peak draws inode pin free st' r :
  quota_inv policy st w -> Forall (fun t => fullmatch re_hex64 t = true) draws ->
  reserve_global_state_growth st logical peak draws inode pin free = Ok (st', r) -> quota_inv policy st' (<[sr_token r := 0]> w).
Proof.
  intros Hinv Hhex H. destruct (reserve_spec _ _ _ _ _ _ _ _ _ _ _ Hinv Hhex H) as (p & -> & _ & Htok & Hfresh & Hname & Hrec & Hl & Hb).
  destruct Hinv as [Hn (f & Hf & Hp) Hw Hc Hbd]. set (nf := (_, _)) in *. split; cbn [set_files qs_files].
  - rewrite fmap_app. apply NoDup_app. split; [done|]. split; [|apply NoDup_singleton]. intros x Hx ->%list_elem_of_singleton. done.
  - exists f. split; [|done]. by apply dict_get_app_l.
  - intros nf' t l p' [Hin| ->%list_elem_of_singleton]%elem_of_app Hr.
    + rewrite written_insert, decide_False; [by eapply Hw|]. intros <-. by apply Hfresh, (file_record_in _ nf' _ l p').
    + rewrite Hrec in Hr. injection Hr as <- <- <-. rewrite written_insert, decide_True by done. lia.
  - apply state_countable_split in Hc. by apply state_countable_split.
  - rewrite state_bytes_split in *. unfold outstanding in *. cbn [set_files qs_files]. change (data_bytes (set_files st _)) with (data_bytes st).
    rewrite !map_app, !zsum_app. cbn [map zsum]. rewrite charges_insert by done. rewrite bool_decide_eq_false_2 by done.
    unfold charge at 2. rewrite Hrec, written_insert, decide_True by done. lia.
Qed.

(** ** Every step keeps the invariant *)
Lemma release_spec policy st w r same st' r' :
  quota_inv policy st w -> release st r same = Ok (st', r') ->
  st' = st \/ st' = set_files st (remove_file (reservation_path (sr_token r)) (qs_files st)).
Proof.
  intros H Hr. unfold release, quota_transaction in Hr. destruct (sr_released r); [injection Hr as <- _; by left|].
  apply bind_ok in Hr as (u0 & _ & Hr). apply bind_ok in Hr as (u1 & _ & Hr). apply bind_ok in Hr as (rs & _ & Hr).
  apply bind_ok in Hr as (f & _ & Hr). apply bind_ok in Hr as (u2 & _ & [= <- _]). by right.
Qed.

Definition release_lease (name : ustr) (nf : ustr * coordination_file) : ustr * coordination_file :=
  if decide (nf.1 = name)
  then (nf.1, {| cf_members := cf_members nf.2; cf_inode := cf_inode nf.2; cf_leased := false |}) else nf.

Lemma release_lease_same name nf :
  (release_lease name nf).1 = nf.1 /\ file_record (release_lease name nf) = file_record nf /\
  file_bytes (release_lease name nf) = file_bytes nf /\ cf_members (release_lease name nf).2 = cf_members nf.2.
Proof. unfold release_lease. by destruct (decide _). Qed.

Lemma map_ext_sum {A} (f g : A -> Z) (h : A -> A) l : (forall x, f (h x) = g x) -> zsum (map f (map h l)) = zsum (map g l).
Proof. intros H. induction l as [|x l IH]; cbn [map zsum]; [done|]. by rewrite H, IH. Qed.

Lemma crash_inv policy st w name :
  quota_inv policy st w -> quota_inv policy (set_files st (map (release_lease name) (qs_files st))) w.
Proof.
  intros [Hn (f & Hf & Hp) Hw Hc Hb]. split; cbn [set_files qs_files].
  - replace (map (release_lease name) (qs_files st)).*1 with (qs_files st).*1; [done|].
    clear. induction (qs_files st) as [|nf files IH]; [done|]. cbn [map]. rewrite !fmap_cons. f_equal; [|done].
    symmetry. apply release_lease_same.
  - assert (exists g, dict_get QUOTA_POLICY (map (release_lease name) (qs_files st)) = Some g /\ cf_members g = cf_members f)
      as (g & Hg & E); [|exists g; by rewrite E].
    clear -Hf. induction (qs_files st) as [|[k v] files IH]; [done|]. cbn [map dict_get] in *.
    destruct (release_lease name (k, v)) as [k' v'] eqn:E. pose proof (release_lease_same name (k, v)) as (H1 & _ & _ & H4).
    rewrite E in H1, H4. cbn [fst snd] in H1, H4. subst k'. cbn [dict_get]. destruct (decide (QUOTA_POLICY = k)); [|auto].
    injection Hf as <-. by exists v'.
  - intros nf t l p (nf' & -> & Hin)%list_elem_of_fmap Hr. destruct (release_lease_same name nf') as (_ & E & _). rewrite E in Hr. by eapply Hw.
  - apply state_countable_split. by apply state_countable_split in Hc.
  - rewrite state_bytes_split in *. unfold outstanding in *. cbn [set_files qs_files]. change (data_bytes (set_files st _)) with (data_bytes st).
    rewrite (map_ext_sum file_bytes file_bytes), (map_ext_sum (charge w) (charge w)); [done| |].
    + intros nf. unfold charge. by destruct (release_lease_same name nf) as (_ & -> & _).
    + intros nf. apply release_lease_same.
Qed.

Lemma reconcile_inv policy w tokens : forall st removed st' removed',
  quota_inv policy st w -> foldM reconcile_token (st, removed) tokens = Ok (st', removed') -> quota_inv policy st' w.
Proof.
  induction tokens as [|t tokens IH]; intros st removed st' removed' H Hr; cbn [foldM] in Hr; [by injection Hr as <- _|].
  apply bind_ok in Hr as ([st1 removed1] & Ht & Hr). apply (IH st1 removed1 st' removed'); [|done].
  unfold reconcile_token in Ht. apply bind_ok in Ht as (f & _ & Ht). destruct (cf_leased f); [by injection Ht as <- _|].
  apply bind_ok in Ht as (m & _ & Ht). apply bind_ok in Ht as (rec & _ & Ht). apply bind_ok in Ht as (u & _ & Ht).
  apply bind_ok in Ht as (n & _ & [= <- _]). by apply remove_inv.
Qed.

Lemma quota_step_inv policy s s' : quota_step s s' -> quota_inv policy s.1 s.2 -> quota_inv policy s'.1 s'.2.
Proof.
  destruct 1 as [st w logical peak draws inode pin free st' r Hhex H|st w t l p f n root audit Hin Hr _ Hn Hle Hc Hb
                |st w g pk inode free st1 root audit He Hc Hb|st w root audit Hc Hb|st w r same st' r' H|st w name
                |st w inode free st' removed H]; cbn [fst snd]; intros Hinv.
  - by eapply reserve_inv.
  - pose proof (qi_names _ _ _ Hinv) as Hnd. pose proof (file_record_in _ _ _ _ _ Hin Hr) as Ht.
    apply (set_data_inv policy st w _ root audit n); try done.
    + intros nf u l' p' Hnf Hr'. rewrite written_insert. destruct (decide (t = u)) as [<-|]; [|by eapply qi_written].
      assert (nf = (reservation_path t, f)) as ->.
      { apply (map_NoDup_inj fst (qs_files st)); [done..|]. by apply file_record_spec in Hr' as (-> & _). }
      rewrite Hr in Hr'. injection Hr' as <- <-. pose proof (qi_written _ _ _ Hinv _ _ _ _ Hin Hr). lia.
    + unfold outstanding. rewrite charges_insert by done. rewrite bool_decide_eq_true_2 by done.
      pose proof (qi_bound _ _ _ Hinv) as Hbd. unfold outstanding in Hbd. lia.
  - unfold ensure_global_state_growth, quota_transaction in He. apply bind_ok in He as (u & _ & He).
    apply (ensure_spec policy st w) in He as (-> & Hg & Hroom & _); [|done].
    apply (set_data_inv policy st w w root audit g); try done; [apply (qi_written _ _ _ Hinv)|lia].
  - apply (set_data_inv policy st w w root audit 0); try done; [lia|apply (qi_written _ _ _ Hinv)|].
    pose proof (qi_bound _ _ _ Hinv). lia.
  - destruct (release_spec _ _ _ _ _ _ _ Hinv H) as [->| ->]; [done|by apply remove_inv].
  - by apply crash_inv.
  - unfold reconcile_abandoned_state_reservations, quota_transaction in H. apply bind_ok in H as (u & _ & H).
    apply bind_ok in H as ([st1 p1] & Hp & H). apply (policy_locked policy st w) in Hp as [-> ->]; [|done].
    cbn [fst] in H. apply bind_ok in H as (rs & _ & H). by eapply reconcile_inv.
Qed.
