(* ===== verification/QuotaSpec.v ===== *)
(** What the quota promises: the state root refines an account with a fixed
    limit, its records read back as written, and a reservation can always be
    given back. *)
From S2P Require Export QuotaProof.

(** ** The account *)
Record account := { ac_used : Z; ac_held : Z }.

(** The bank teller's view: money in use, money held for a customer, a limit on
    both together. *)
Inductive account_step (limit : Z) : account -> account -> Prop :=
| account_hold u h n : 0 <= n -> u + h + n <= limit -> account_step limit {| ac_used := u; ac_held := h |} {| ac_used := u; ac_held := h + n |}
| account_spend u h n : 0 <= n -> u + h + n <= limit -> account_step limit {| ac_used := u; ac_held := h |} {| ac_used := u + n; ac_held := h |}
| account_spend_held u h n : 0 <= n -> n <= h -> account_step limit {| ac_used := u; ac_held := h |} {| ac_used := u + n; ac_held := h - n |}
| account_return u h n : 0 <= n -> n <= h -> account_step limit {| ac_used := u; ac_held := h |} {| ac_used := u; ac_held := h - n |}
| account_free u h n : 0 <= n -> n <= u -> account_step limit {| ac_used := u; ac_held := h |} {| ac_used := u - n; ac_held := h |}.

Definition account_of (s : quota_state * gmap ustr Z) : account :=
  {| ac_used := state_bytes s.1; ac_held := outstanding s.1 s.2 |}.

Lemma state_bytes_nonneg st : state_countable st -> 0 <= state_bytes st.
Proof. apply entry_bytes_nonneg. Qed.

(** Moves that the five steps compose to. *)
Lemma account_lower limit u h u' h' :
  0 <= u' -> u' <= u -> 0 <= h' -> h' <= h ->
  rtc (account_step limit) {| ac_used := u; ac_held := h |} {| ac_used := u'; ac_held := h' |}.
Proof.
  intros. eapply rtc_l; [apply (account_free _ u h (u - u')); lia|]. apply rtc_once.
  replace (u - (u - u')) with u' by lia. replace h' with (h - (h - h')) by lia. apply account_return; lia.
Qed.

Lemma account_grow limit u h u' n :
  0 <= u' -> 0 <= n -> 0 <= h -> u' <= u + n -> u + h + n <= limit -> rtc (account_step limit) {| ac_used := u; ac_held := h |} {| ac_used := u'; ac_held := h |}.
Proof. intros. eapply rtc_l; [apply (account_spend _ u h n); lia|]. apply account_lower; lia. Qed.

Lemma account_grow_held limit u h u' n :
  0 <= u' -> 0 <= n -> n <= h -> u' <= u + n -> rtc (account_step limit) {| ac_used := u; ac_held := h |} {| ac_used := u'; ac_held := h - n |}.
Proof. intros. eapply rtc_l; [apply (account_spend_held _ u h n); lia|]. apply account_lower; lia. Qed.

Lemma state_bytes_set_data st root audit room :
  data_bytes (set_data st root audit) <= data_bytes st + room -> state_bytes (set_data st root audit) <= state_bytes st + room.
Proof. intros H. rewrite !state_bytes_split. cbn [set_data qs_files] in *. lia. Qed.

(** Removing a record lowers usage and holdings. *)
Lemma remove_account policy st w t :
  quota_inv policy st w -> let st' := set_files st (remove_file (reservation_path t) (qs_files st)) in
  0 <= state_bytes st' <= state_bytes st /\ 0 <= outstanding st' w <= outstanding st w.
Proof.
  intros H st'. pose proof (remove_inv policy st w t H) as H'. pose proof (charge_nonneg _ _ _ H) as Hch.
  split; split; [apply state_bytes_nonneg, (qi_countable _ _ _ H')| |by eapply outstanding_nonneg|].
  - rewrite !state_bytes_split. unfold st', remove_file. cbn [set_files qs_files]. change (data_bytes (set_files st _)) with (data_bytes st).
    pose proof (zsum_filter_le (fun nf => nf.1 <> reservation_path t) file_bytes (qs_files st)) as Hbytes.
    specialize (Hbytes ltac:(apply Forall_forall; intros nf _; unfold file_bytes; pose proof (canonical_file_bytes_pos (JObj (cf_members nf.2))); lia)).
    lia.
  - unfold outstanding, st', remove_file. cbn [set_files qs_files]. by apply zsum_filter_le.
Qed.

Lemma reconcile_account policy w tokens limit : forall st removed st' removed',
  quota_inv policy st w -> foldM reconcile_token (st, removed) tokens = Ok (st', removed') ->
  rtc (account_step limit) (account_of (st, w)) (account_of (st', w)).
Proof.
  induction tokens as [|t tokens IH]; intros st removed st' removed' H Hr; cbn [foldM] in Hr; [injection Hr as <- _; apply rtc_refl|].
  apply bind_ok in Hr as ([st1 removed1] & Ht & Hr).
  unfold reconcile_token in Ht. apply bind_ok in Ht as (f & _ & Ht). destruct (cf_leased f); [injection Ht as <- <-; by eapply IH|].
  apply bind_ok in Ht as (m & _ & Ht). apply bind_ok in Ht as (rec & _ & Ht). apply bind_ok in Ht as (u & _ & Ht).
  apply bind_ok in Ht as (n & _ & [= <- <-]). etransitivity; [|eapply IH; [by apply remove_inv|exact Hr]].
  destruct (remove_account policy st w t H). unfold account_of; cbn [fst snd]; apply account_lower; lia.
Qed.

(** One step of the servers is a few steps of the account. *)
Lemma quota_step_account policy s s' :
  quota_step s s' -> quota_inv policy s.1 s.2 ->
  rtc (account_step (maximum_state_bytes policy)) (account_of s) (account_of s').
Proof.
  intros Hstep Hinv. pose proof (quota_step_inv policy s s' Hstep Hinv) as Hinv'.
  pose proof (state_bytes_nonneg _ (qi_countable _ _ _ Hinv')) as Hb'. pose proof (outstanding_nonneg _ _ _ Hinv) as Ho.
  pose proof (state_bytes_nonneg _ (qi_countable _ _ _ Hinv)) as Hb0.
  destruct Hstep as [st w logical peak draws inode pin free st' r Hhex H|st w t l p f n root audit Hin Hr _ Hn Hle Hc Hb
                |st w g pk inode free st1 root audit He Hc Hb|st w root audit Hc Hb|st w r same st' r' H|st w name
                |st w inode free st' removed H]; unfold account_of; cbn [fst snd] in *.
  - destruct (reserve_spec _ _ _ _ _ _ _ _ _ _ _ Hinv Hhex H) as (p & -> & _ & _ & Hfresh & _ & Hrec & Hl & Hb).
    clear H. set (nf := (reservation_path (sr_token r), _)) in *. assert (0 < file_bytes nf) by apply canonical_file_bytes_pos.
    assert (state_bytes (set_files st (qs_files st ++ [nf])) = state_bytes st + file_bytes nf) as ->.
    { rewrite !state_bytes_split. cbn [set_files qs_files]. change (data_bytes (set_files st _)) with (data_bytes st).
      rewrite map_app, zsum_app. cbn [map zsum]. lia. }
    assert (outstanding (set_files st (qs_files st ++ [nf])) (<[sr_token r:=0]> w) = outstanding st w + logical) as ->.
    { unfold outstanding. cbn [set_files qs_files]. rewrite map_app, zsum_app. cbn [map zsum].
      rewrite charges_insert by apply (qi_names _ _ _ Hinv). rewrite bool_decide_eq_false_2 by done.
      unfold charge at 2. rewrite Hrec, written_insert, decide_True by done. lia. }
    eapply rtc_l; [apply (account_spend _ _ _ (file_bytes nf)); lia|]. apply rtc_once, account_hold; lia.
  - pose proof (file_record_in _ _ _ _ _ Hin Hr) as Ht. pose proof (qi_written _ _ _ Hinv _ _ _ _ Hin Hr) as Hw.
    assert (outstanding (set_data st root audit) (<[t:=written w t + n]> w) = outstanding st w - n) as E.
    { unfold outstanding. cbn [set_data qs_files]. rewrite charges_insert by apply (qi_names _ _ _ Hinv).
      rewrite bool_decide_eq_true_2 by done. lia. }
    pose proof (outstanding_nonneg _ _ _ Hinv') as Ho'. rewrite E in *.
    apply account_grow_held; [done|done|lia|]. by apply state_bytes_set_data.
  - unfold ensure_global_state_growth, quota_transaction in He. apply bind_ok in He as (u & _ & He).
    apply (ensure_spec policy st w) in He as (-> & Hg & Hroom & _); [|done].
    change (outstanding (set_data st root audit) w) with (outstanding st w).
    apply (account_grow _ _ _ _ g); try lia. by apply state_bytes_set_data.
  - change (outstanding (set_data st root audit) w) with (outstanding st w). apply account_lower; try lia.
    pose proof (state_bytes_set_data st root audit 0). lia.
  - destruct (release_spec _ _ _ _ _ _ _ Hinv H) as [->| ->]; [apply rtc_refl|].
    destruct (remove_account policy st w (sr_token r) Hinv). unfold account_of; cbn [fst snd]; apply account_lower; lia.
  - assert (state_bytes (set_files st (map (release_lease name) (qs_files st))) = state_bytes st) as E1.
    { rewrite !state_bytes_split. cbn [set_files qs_files]. change (data_bytes (set_files st _)) with (data_bytes st).
      rewrite (map_ext_sum file_bytes file_bytes); [done|]. intros nf. apply release_lease_same. }
    assert (outstanding (set_files st (map (release_lease name) (qs_files st))) w = outstanding st w) as E2.
    { unfold outstanding. cbn [set_files qs_files]. apply map_ext_sum. intros nf. unfold charge.
      by destruct (release_lease_same name nf) as (_ & -> & _). }
    change (map _ (qs_files st)) with (map (release_lease name) (qs_files st)). rewrite E1, E2. apply rtc_refl.
  - unfold reconcile_abandoned_state_reservations, quota_transaction in H. apply bind_ok in H as (u & _ & H).
    apply bind_ok in H as ([st1 p1] & Hp & H). apply (policy_locked policy st w) in Hp as [-> ->]; [|done].
    cbn [fst] in H. apply bind_ok in H as (rs & _ & H). by eapply (reconcile_account policy).
Qed.

(** The states the servers can reach. *)
Lemma quota_reach policy s s' :
  rtc quota_step s s' -> quota_inv policy s.1 s.2 ->
  quota_inv policy s'.1 s'.2 /\ rtc (account_step (maximum_state_bytes policy)) (account_of s) (account_of s').
Proof.
  induction 1 as [s|s s1 s2 Hstep _ IH]; intros Hinv; [split; [done|apply rtc_refl]|].
  destruct (IH (quota_step_inv policy _ _ Hstep Hinv)) as [H1 H2]. split; [done|].
  etransitivity; [by eapply quota_step_account|done].
Qed.

(** ** The size of a record *)
Lemma double_digits d :
  (Decimal.nb_digits (Decimal.Little.double d) <= S (Decimal.nb_digits d))%nat /\
  (Decimal.nb_digits (Decimal.Little.succ_double d) <= S (Decimal.nb_digits d))%nat.
Proof. induction d; cbn in *; lia. Qed.

Lemma uint_codes_length d : length (uint_codes d) = Decimal.nb_digits d.
Proof. induction d; cbn; auto. Qed.

(** A number has no more decimal digits than bits. *)
Lemma str_of_Z_length z : 0 <= z -> z <= MAX_SAFE_BYTES -> (length (str_of_Z z) <= 64)%nat.
Proof.
  intros Hz Hm. destruct z as [|p|p]; [cbn; lia| |lia]. cbn [str_of_Z]. rewrite uint_codes_length.
  unfold Pos.to_uint. rewrite DecimalFacts.nb_digits_rev.
  assert (Decimal.nb_digits (Pos.to_little_uint p) <= Pos.size_nat p)%nat as Hd.
  { clear. induction p as [p IH|p IH|]; cbn; [| |lia]; pose proof (double_digits (Pos.to_little_uint p)); lia. }
  assert (Pos.size_nat p <= 64)%nat; [|lia].
  assert (2 ^ Z.of_nat (Pos.size_nat p) <= 2 * Z.pos p) as Hs.
  { clear. induction p as [p IH|p IH|]; cbn [Pos.size_nat]; rewrite ?Nat2Z.inj_succ, ?Z.pow_succ_r by lia; lia. }
  destruct (Nat.le_gt_cases (Pos.size_nat p) 64) as [|Hgt]; [done|].
  assert (2 ^ 65 <= 2 ^ Z.of_nat (Pos.size_nat p)) by (apply Z.pow_le_mono_r; lia).
  assert (MAX_SAFE_BYTES < 2 ^ 64) by (vm_compute; reflexivity). assert (2 ^ 65 = 2 * 2 ^ 64) by reflexivity. lia.
Qed.

Lemma utf8_encode_length t : (length (utf8_encode t) <= 4 * length t)%nat.
Proof.
  induction t as [|c t IH]; [done|]. rewrite utf8_encode_cons, length_app. cbn [length].
  assert (length (utf8_encode_cp c) <= 4)%nat; [|lia]. unfold utf8_encode_cp. repeat case_match; cbn; lia.
Qed.

Lemma dumps_str_length t : (length (dumps_str t) <= 6 * length t + 2)%nat.
Proof.
  unfold dumps_str. cbn [length]. rewrite length_app. cbn [length].
  assert (length (flat_map escape_cp t) <= 6 * length t)%nat; [|lia].
  induction t as [|c t IH]; [done|]. cbn [flat_map length]. rewrite length_app.
  assert (length (escape_cp c) <= 6)%nat; [|lia]. unfold escape_cp, hex2. repeat case_match; cbn; lia.
Qed.

Lemma reservation_dumps t l p :
  dumps (reservation_payload t l p) =
  123%N :: dumps_seq 125%N
    [dumps_str (us "lease") ++ 58%N :: dumps_str (us "exclusive-flock-v1"); dumps_str (us "logical") ++ 58%N :: str_of_Z l;
     dumps_str (us "peak") ++ 58%N :: str_of_Z p; dumps_str (us "schema_version") ++ 58%N :: dumps_str RESERVATION_SCHEMA;
     dumps_str (us "token") ++ 58%N :: dumps_str t].
Proof. reflexivity. Qed.

Lemma reservation_size t l p :
  fullmatch re_hex64 t = true -> 0 <= l -> l <= p -> p <= MAX_SAFE_BYTES ->
  canonical_file_bytes (reservation_payload t l p) <= MAXIMUM_COORDINATION_FILE_BYTES.
Proof.
  intros [Ht _]%fullmatch_hex64 Hl Hlp Hp. unfold canonical_file_bytes, canonical_json_bytes, zlen.
  pose proof (utf8_encode_length (dumps (reservation_payload t l p))) as Hu. rewrite reservation_dumps in *.
  pose proof (str_of_Z_length l Hl ltac:(lia)). pose proof (str_of_Z_length p ltac:(lia) Hp). pose proof (dumps_str_length t).
  set (n := length (utf8_encode _)) in *. clearbody n. cbn [dumps_seq length] in Hu.
  repeat (rewrite length_app in Hu; cbn [length] in Hu).
  pose proof (dumps_str_length (us "lease")). pose proof (dumps_str_length (us "exclusive-flock-v1")).
  pose proof (dumps_str_length (us "logical")). pose proof (dumps_str_length (us "peak")).
  pose proof (dumps_str_length (us "schema_version")). pose proof (dumps_str_length (us "token")).
  pose proof (dumps_str_length RESERVATION_SCHEMA).
  assert (length (us "lease") = 5%nat) by reflexivity. assert (length (us "exclusive-flock-v1") = 18%nat) by reflexivity.
  assert (length (us "logical") = 7%nat) by reflexivity. assert (length (us "peak") = 4%nat) by reflexivity.
  assert (length (us "schema_version") = 14%nat) by reflexivity. assert (length (us "token") = 5%nat) by reflexivity.
  assert (length RESERVATION_SCHEMA = 38%nat) by reflexivity. unfold MAXIMUM_COORDINATION_FILE_BYTES. lia.
Qed.

(** ** Reserving and releasing *)
Lemma scan_complete files :
  NoDup files.*1 -> zlen (records_of files) <= MAXIMUM_RESERVATIONS ->
  Forall (fun nf => fullmatch RESERVATION_NAME nf.1 = true -> is_ok (strict_json_file (file_entry nf.2)) = true /\ is_Some (file_record nf)) files ->
  foldM read_reservation [] files = Ok (records_of files).
Proof.
  intros Hnd Hlen Hok.
  assert (forall seen rest, files = seen ++ rest -> foldM read_reservation (records_of seen) rest = Ok (records_of files)) as H;
    [|by apply (H [] files)].
  intros seen rest. revert seen. induction rest as [|nf rest IH]; intros seen E; cbn [foldM]; [by rewrite E, app_nil_r|].
  assert (records_of (seen ++ [nf]) = records_of seen ++ (match file_record nf with Some r => [record_entry r] | None => [] end)) as Es.
  { by rewrite records_of_app, records_of_cons, app_nil_r. }
  assert (read_reservation (records_of seen) nf = Ok (records_of (seen ++ [nf]))) as ->; [|apply IH; by rewrite <- app_assoc].
  rewrite Es. unfold read_reservation. destruct (fullmatch RESERVATION_NAME nf.1) eqn:En.
  - rewrite Forall_forall in Hok. destruct (Hok nf) as [Hs [[[t l] p] Hr]]; [rewrite E; apply elem_of_app; right; left|done|].
    rewrite E, records_of_app, records_of_cons, Hr, !zlen_app, zlen_cons in Hlen. pose proof (zlen_nonneg (records_of rest)).
    unfold zlen in Hlen at 2. cbn [length] in Hlen.
    destruct (Z.leb_spec MAXIMUM_RESERVATIONS (zlen (records_of seen))); [unfold zlen in *; lia|]. cbn [raise_if res_bind].
    unfold strict_json_file, file_entry in *. cbn [res_bind] in Hs |- *. destruct (raise_if _ _) as [[]|]; [|discriminate]. cbn [res_bind].
    unfold file_record in Hr. destruct (parse_reservation_payload nf.1 (cf_members nf.2)) as [rec|] eqn:Ep; [|discriminate].
    injection Hr as ->. cbn [res_bind]. rewrite dict_set_fresh.
    + unfold file_record. by rewrite Ep.
    + intros Hin%records_of_name. apply parse_reservation_spec in Ep as (_ & Hname & _).
      rewrite E, fmap_app, fmap_cons, Hname in Hnd. apply NoDup_app in Hnd as (_ & Hd & _). apply (Hd _ Hin). left.
  - destruct (file_record nf) eqn:Er; [apply file_record_name in Er; congruence|]. by rewrite app_nil_r.
Qed.

Lemma scan_strict files : forall acc rs,
  foldM read_reservation acc files = Ok rs ->
  Forall (fun nf => fullmatch RESERVATION_NAME nf.1 = true -> is_ok (strict_json_file (file_entry nf.2)) = true) files.
Proof.
  induction files as [|nf files IH]; intros acc rs H; cbn [foldM] in H; [constructor|].
  apply bind_ok in H as (acc' & Hr & H). constructor; [|by eapply IH]. intros En. unfold read_reservation in Hr. rewrite En in Hr.
  apply bind_ok in Hr as (u & _ & Hr). apply bind_ok in Hr as (m & -> & _). done.
Qed.

(** A directory of policy and records has few files. *)
Lemma coordination_count files :
  NoDup files.*1 -> Forall (fun nf => is_coordination_name nf.1 = true) files -> records_valid files ->
  (length files <= length (records_of files) + 1)%nat.
Proof.
  intros Hnd Hc Hv. rewrite Forall_forall in Hc. unfold records_valid in Hv. rewrite Forall_forall in Hv.
  assert (length files <= length (records_of files) + length (filter (fun nf => nf.1 = QUOTA_POLICY) files))%nat as H.
  { clear Hnd. induction files as [|nf files IH]; [cbn; lia|]. rewrite records_of_cons, length_app, filter_cons.
    specialize (IH ltac:(intros; apply Hc; by right) ltac:(intros; apply Hv; [by right|done])). cbn [length].
    specialize (Hc nf ltac:(by left)). unfold is_coordination_name in Hc. apply orb_true_iff in Hc as [Hc|Hc].
    - bsplit. rewrite decide_True by done. cbn [length]. lia.
    - destruct (Hv nf ltac:(by left) Hc) as [r Hr]. rewrite Hr. cbn [length]. destruct (decide _); cbn [length]; lia. }
  assert (length (filter (fun nf => nf.1 = QUOTA_POLICY) files) <= 1)%nat; [|lia].
  clear -Hnd. induction files as [|nf files IH]; [cbn; lia|]. rewrite fmap_cons in Hnd. apply NoDup_cons in Hnd as [Hn Hnd].
  rewrite filter_cons. destruct (decide (nf.1 = QUOTA_POLICY)) as [E|]; [|by apply IH]. cbn [length].
  rewrite filter_none; [cbn; lia|]. apply Forall_forall. intros x Hx E'. apply Hn. rewrite E, <- E'. apply list_elem_of_fmap. by exists x.
Qed.

Lemma reserve_release_lemma policy st w logical peak draws inode pin free st' r :
  quota_inv policy st w -> Forall (fun t => fullmatch re_hex64 t = true) draws ->
  reserve_global_state_growth st logical peak draws inode pin free = Ok (st', r) ->
  release st' r true = Ok (st, {| sr_token := sr_token r; sr_inode := sr_inode r; sr_released := true |}).
Proof.
  intros Hinv Hhex H. destruct (reserve_spec _ _ _ _ _ _ _ _ _ _ _ Hinv Hhex H) as (p & -> & Er & Htok & Hfresh & Hname & Hrec & Hl & _).
  unfold reserve_global_state_growth, quota_transaction in H. apply bind_ok in H as (u0 & Hco & H).
  apply bind_ok in H as (lg & _ & H). apply bind_ok in H as (pk & _ & H). apply bind_ok in H as (u1 & _ & H).
  apply bind_ok in H as (rs & Hrs & H). apply bind_ok in H as (u2 & Hmax & _).
  unfold reconcile_coordination_locked in Hco. apply bind_ok in Hco as (u3 & _ & Hnames). apply raise_if_ok in Hmax, Hnames. bsplit.
  apply forallb_Forall in Hnames. pose proof (qi_names _ _ _ Hinv) as Hnd.
  pose proof (reservations_spec _ _ Hnd Hrs) as [Hperm Hv].
  unfold durable_reservations_locked in Hrs. apply bind_ok in Hrs as (u4 & _ & Hscan). apply scan_strict in Hscan.
  rewrite (sorted_by_Permutation key_leb) in Hscan. pose proof (coordination_count _ Hnd Hnames Hv) as Hcount.
  assert (zlen rs = zlen (records_of (qs_files st))) as Hlen by (unfold zlen; by rewrite Hperm). apply Z.leb_gt in Hmax.
  set (nf := (reservation_path (sr_token r), _)) in *.
  assert (fullmatch RESERVATION_NAME nf.1 = true) as Hnf by (by eapply file_record_name).
  destruct r as [token ino released]. cbn [sr_token sr_inode sr_released] in *. injection Er as -> ->.
  unfold release. cbn [sr_released sr_token sr_inode negb raise_if res_bind]. unfold quota_transaction.
  assert (reconcile_coordination_locked (set_files st (qs_files st ++ [nf])) = Ok tt) as ->.
  { unfold reconcile_coordination_locked, coordination_entries. cbn [set_files qs_files].
    rewrite zlen_cons. unfold zlen. rewrite length_map, length_app. cbn [length]. unfold zlen in *.
    rewrite (proj2 (Z.ltb_ge MAXIMUM_COORDINATION_ENTRIES _)) by (unfold MAXIMUM_COORDINATION_ENTRIES, MAXIMUM_RESERVATIONS in *; lia).
    cbn [raise_if res_bind]. rewrite (proj2 (forallb_Forall _ _)); [done|]. apply Forall_app. split; [done|].
    repeat constructor. unfold is_coordination_name. rewrite Hnf. apply orb_true_r. }
  cbn [res_bind]. assert (NoDup (qs_files st ++ [nf]).*1) as Hnd'.
  { rewrite fmap_app. apply NoDup_app. split; [done|]. split; [|apply NoDup_singleton]. by intros x Hx ->%list_elem_of_singleton. }
  assert (Permutation (sorted_by key_leb (qs_files st ++ [nf])) (qs_files st ++ [nf])) as Hs by apply sorted_by_Permutation.
  assert (Permutation (records_of (sorted_by key_leb (qs_files st ++ [nf]))) (records_of (qs_files st ++ [nf]))) as Hrs'
    by (unfold records_of; by rewrite Hs).
  assert (records_of (qs_files st ++ [nf]) = records_of (qs_files st) ++ [(token, (logical, p))]) as Er
    by (by rewrite records_of_app, records_of_cons, Hrec, app_nil_r).
  assert (durable_reservations_locked (set_files st (qs_files st ++ [nf])) = Ok (records_of (sorted_by key_leb (qs_files st ++ [nf])))) as ->.
  { unfold durable_reservations_locked, coordination_entries. cbn [set_files qs_files]. rewrite zlen_cons. unfold zlen at 1.
    rewrite length_map, length_app. cbn [length]. unfold zlen in *.
    rewrite (proj2 (Z.ltb_ge MAXIMUM_COORDINATION_ENTRIES _)) by (unfold MAXIMUM_COORDINATION_ENTRIES, MAXIMUM_RESERVATIONS in *; lia).
    cbn [raise_if res_bind]. apply scan_complete; [by rewrite Hs| |].
    - unfold zlen. rewrite Hrs', Er, length_app. cbn [length]. lia.
    - rewrite Hs. apply Forall_app. split.
      + rewrite Forall_forall in Hscan. unfold records_valid in Hv. rewrite Forall_forall in Hv. apply Forall_forall. intros x Hx Hn. auto.
      + apply Forall_singleton. intros _. split; [|by rewrite Hrec]. unfold nf, file_entry. cbn [snd cf_members strict_json_file].
        apply file_record_spec in Hrec as (_ & _ & Hb1 & Hb2). rewrite reservation_members.
        rewrite (proj2 (Z.ltb_ge MAXIMUM_COORDINATION_FILE_BYTES _)); [done|]. apply reservation_size; [done|lia..]. }
  cbn [res_bind]. rewrite bool_decide_eq_true_2 by (rewrite Hrs', Er, fmap_app; apply elem_of_app; right; left).
  cbn [set_files qs_files]. rewrite (dict_get_of_elem (reservation_path token) nf.2).
  - cbn [of_option res_bind nf snd cf_inode]. rewrite Z.eqb_refl. cbn [negb raise_if res_bind]. fold nf.
    assert (remove_file (reservation_path token) (qs_files st ++ [nf]) = qs_files st) as ->; [|by destruct st].
    unfold remove_file. rewrite filter_app, filter_all.
    + rewrite filter_none; [apply app_nil_r|]. apply Forall_singleton. by intros Hn.
    + apply Forall_forall. intros x Hx E. apply Hname. rewrite <- E. apply list_elem_of_fmap. by exists x.
  - done.
  - apply elem_of_app. right. left.
Qed.

(** ** Canonical files *)
Definition plain (v : json) : Prop := forall w, normalize w = normalize v -> w = v.

Lemma plain_str t : plain (JStr t). Proof. intros []; cbn; congruence. Qed.
Lemma plain_int z : plain (JInt z). Proof. intros []; cbn; congruence. Qed.
Lemma plain_arr l : Forall plain l -> plain (JArr l).
Proof.
  intros Hl [| | | |l'|]; cbn; try congruence. intros [= E]. f_equal. revert l' E.
  induction Hl as [|v l Hv _ IH]; intros [|w l']; cbn; try congruence. intros [= Hw E]. f_equal; [by apply Hv|by apply IH].
Qed.

Lemma member_keys (k : ustr) l : member k l = None <-> k ∉ l.*1.
Proof.
  induction l as [|[k' v] l IH]; cbn [member]; [split; [intros _; apply not_elem_of_nil|done]|].
  rewrite fmap_cons, not_elem_of_cons. cbn [fst]. case_bool_decide as E; [naive_solver|]. rewrite IH. naive_solver.
Qed.

Lemma canonical_members_inv l1 l2 :
  NoDup l1.*1 -> NoDup l2.*1 -> canonical_json_bytes (JObj l1) = canonical_json_bytes (JObj l2) ->
  (forall k, k ∈ l1.*1 <-> k ∈ l2.*1) /\ (forall k v, member k l2 = Some v -> plain v -> member k l1 = Some v).
Proof.
  intros H1 H2 E. pose proof (fun k => canonical_members l1 l2 k H1 H2 E) as Hm. split.
  - intros k. specialize (Hm k). pose proof (member_keys k l1) as K1. pose proof (member_keys k l2) as K2.
    destruct (member k l1), (member k l2); try discriminate.
    + split; intros _; (destruct (decide (k ∈ l2.*1)), (decide (k ∈ l1.*1))); try done; naive_solver.
    + naive_solver.
  - intros k v Hv Hp. specialize (Hm k). rewrite Hv in Hm. destruct (member k l1) as [w|]; [|discriminate].
    cbn in Hm. injection Hm as Hm. f_equal. by apply Hp.
Qed.

Lemma has_fields_spec m fields : has_fields m fields = true <-> (forall k, k ∈ m.*1 <-> k ∈ fields).
Proof.
  unfold has_fields. rewrite bool_decide_eq_true. rewrite set_eq. split; intros H k; specialize (H k).
  - by rewrite !elem_of_list_to_set in H.
  - by rewrite !elem_of_list_to_set.
Qed.

Definition policy_members (p : StateQuotaPolicy) : list (ustr * json) :=
  [(us "schema_version", JStr POLICY_SCHEMA); (us "values", JArr (map JInt (policy_values p)))].

(** ** The properties *)

(** C37: a policy file is accepted exactly when it is the canonical file of a valid
    policy, and then that policy is read: publishing and reading round-trip and
    no other file passes for a policy. *)
Theorem policy_file_roundtrip m p :
  NoDup m.*1 ->
  parse_policy_payload m = Ok p <->
  check_quota_policy p = Ok tt /\ canonical_json_bytes (JObj m) = canonical_json_bytes (policy_payload p).
Proof.
  intros Hnd. assert (NoDup (policy_members p).*1) as Hnd' by (apply (bool_decide_unpack _); vm_compute; exact I).
  change (policy_payload p) with (JObj (policy_members p)). rewrite parse_policy_spec, has_fields_spec. split.
  - intros (Hf & Hs & Hv & Hc). split; [done|]. apply canonical_json_bytes_members; [done|done|exact Hf|].
    intros k Hk%Hf. apply elem_of_cons in Hk as [->|Hk]; [by rewrite Hs|].
    apply list_elem_of_singleton in Hk as ->. by rewrite Hv.
  - intros [Hc E]. destruct (canonical_members_inv _ _ Hnd Hnd' E) as [Hk Hm]. split; [exact Hk|].
    split; [by apply Hm, plain_str|]. split; [|done]. apply Hm; [reflexivity|]. apply plain_arr, Forall_map, Forall_forall.
    intros z _. apply plain_int.
Qed.

Definition reservation_fields (t : ustr) (l p : Z) : list (ustr * json) := json_members (reservation_payload t l p).

(** A reservation record is accepted under a name exactly when it is the
    canonical record of that name's token with bounded, ordered amounts. *)
Theorem reservation_file_roundtrip name m t l p :
  NoDup m.*1 ->
  parse_reservation_payload name m = Ok (t, l, p) <->
  fullmatch re_hex64 t = true /\ name = reservation_path t /\ (0 <= l /\ l <= p /\ p <= MAX_SAFE_BYTES) /\
  canonical_json_bytes (JObj m) = canonical_json_bytes (reservation_payload t l p).
Proof.
  intros Hnd. assert (NoDup (reservation_fields t l p).*1) as Hnd' by (apply (bool_decide_unpack _); vm_compute; exact I).
  change (reservation_payload t l p) with (JObj (reservation_fields t l p)). split.
  - intros (Ht & Hn & Hb & Hp & Hf & Hs & Htok & Hl & Hlog & Hpk)%parse_reservation_spec.
    split; [done|]. split; [done|]. split; [lia|]. rewrite has_fields_spec in Hf.
    apply canonical_json_bytes_members; [done|done|exact Hf|]. intros k Hk%Hf.
    repeat (apply elem_of_cons in Hk as [->|Hk]; [rewrite ?Hs, ?Htok, ?Hl, ?Hlog, ?Hpk; reflexivity|]). by apply not_elem_of_nil in Hk.
  - intros (Ht & -> & Hb & E). destruct (canonical_members_inv _ _ Hnd Hnd' E) as [Hk Hm].
    unfold parse_reservation_payload. rewrite reservation_token_path by done.
    rewrite (proj2 (has_fields_spec m [us "schema_version"; us "token"; us "lease"; us "logical"; us "peak"]) Hk). cbn [negb raise_if res_bind].
    rewrite (Hm (us "schema_version") (JStr RESERVATION_SCHEMA)), (Hm (us "token") (JStr t)),
      (Hm (us "lease") (JStr (us "exclusive-flock-v1"))), (Hm (us "logical") (JInt l)), (Hm (us "peak") (JInt p));
      try reflexivity; try apply plain_str; try apply plain_int.
    rewrite !(bool_decide_eq_true_2 _ eq_refl). cbn [negb andb raise_if res_bind].
    rewrite (proj2 (byte_limit_ok_spec l)), (proj2 (byte_limit_ok_spec p)) by lia. rewrite (proj2 (Z.ltb_ge p l)) by lia. done.
Qed.

(** The usage of a tree is exactly the bytes of its regular files: it is
    returned when the tree has only directories and regular files and the sum
    fits 63 bits, and refused otherwise. *)
Theorem directory_usage_exact entries n :
  (directory_usage entries = Ok n /\ 0 <= n) <->
  Forall (fun ne => countable ne.2) entries /\ n = zsum (map (fun ne => entry_bytes ne.2) entries) /\ n <= MAX_SAFE_BYTES.
Proof.
  unfold directory_usage. rewrite entry_usage_spec, countable_Directory. split; intros (H1 & H2 & H3); repeat split; try done.
  by apply (H3 entries).
Qed.

(** Configuring an empty coordination directory establishes the invariant. *)
Lemma configure_inv st policy inode free st' :
  check_quota_policy policy = Ok tt -> qs_files st = [] -> state_countable st ->
  configure_state_quota st policy inode free = Ok st' -> quota_inv policy st' ∅.
Proof.
  intros Hc Hf Hcount H. unfold configure_state_quota, quota_transaction in H. apply bind_ok in H as (u & _ & H).
  apply bind_ok in H as ([st1 p1] & Hd & [= <-]). cbn [fst]. unfold durable_policy_locked in Hd. rewrite Hf in Hd. cbn [dict_get] in Hd.
  apply bind_ok in Hd as ([s d] & Hs & Hd). apply bind_ok in Hs as (u1 & Hb & Hs). apply bind_ok in Hs as (u2 & _ & Hs).
  apply bind_ok in Hs as (s1 & Hp & [= <- <-]). apply bind_ok in Hd as (u3 & _ & [= <- <-]).
  unfold publish in Hp. apply bind_ok in Hp as (u4 & _ & [= <-]). rewrite Hf. cbn [app].
  unfold ensure_policy_bootstrap_capacity in Hb. apply bind_ok in Hb as (usage & Hu & Hb). apply bind_ok in Hb as (u5 & Hcap & _).
  apply raise_if_ok in Hcap. apply usage_spec in Hu as ->; [|done]. bsplit.
  set (nf := (QUOTA_POLICY, _)). assert (file_record nf = None) as Hnone.
  { destruct (file_record nf) eqn:E; [|done]. apply file_record_name in E. exfalso. revert E. vm_compute. discriminate. }
  split; cbn [set_files qs_files].
  - apply NoDup_singleton.
  - eexists. cbn [dict_get nf]. rewrite decide_True by done. split; [reflexivity|]. by apply policy_payload_parses.
  - intros nf' t l p ->%list_elem_of_singleton. by rewrite Hnone.
  - apply state_countable_split in Hcount. by apply state_countable_split.
  - unfold outstanding. rewrite state_bytes_split in *. cbn [set_files qs_files map zsum]. change (data_bytes (set_files st _)) with (data_bytes st).
    rewrite Hf in *. cbn [map zsum] in *. unfold charge. rewrite Hnone. change (file_bytes nf) with (canonical_file_bytes (policy_payload policy)). lia.
Qed.

(** C10: whatever the servers do after the quota is configured - reservations,
    writes under them, guarded writes, releases, crashes, reconciliations, in any
    order - the state root stays within its maximum, with room for everything
    that is still reserved. *)
Theorem quota_respected st0 policy inode free st1 s :
  check_quota_policy policy = Ok tt -> qs_files st0 = [] -> state_countable st0 ->
  configure_state_quota st0 policy inode free = Ok st1 -> rtc quota_step (st1, ∅) s ->
  exists n, safe_tree_usage s.1 = Ok n /\ 0 <= outstanding s.1 s.2 /\ n + outstanding s.1 s.2 <= maximum_state_bytes policy.
Proof.
  intros Hc Hf Hcount Hconf Hsteps. pose proof (configure_inv _ _ _ _ _ Hc Hf Hcount Hconf) as Hinv.
  destruct (quota_reach policy _ _ Hsteps Hinv) as [H _]. exists (state_bytes s.1).
  pose proof (outstanding_nonneg _ _ _ H) as Ho. pose proof (qi_bound _ _ _ H) as Hb. split; [|by split].
  assert (maximum_state_bytes policy <= MAX_SAFE_BYTES) as Hmax.
  { unfold check_quota_policy in Hc. apply bind_ok in Hc as (n & Hn & _). apply validate_byte_limit_ok in Hn. lia. }
  apply (proj2 (entry_usage_spec (Directory (state_tree s.1)) (state_bytes s.1))). split; [apply (qi_countable _ _ _ H)|].
  split; [done|]. intros _ _. lia.
Qed.


(** A reservation that was granted can be released at once, and releasing it
    restores the state exactly. *)
Theorem reserve_release st0 policy inode0 free0 st1 s logical peak draws inode pin free st' r :
  check_quota_policy policy = Ok tt -> qs_files st0 = [] -> state_countable st0 ->
  configure_state_quota st0 policy inode0 free0 = Ok st1 -> rtc quota_step (st1, ∅) s ->
  Forall (fun t => fullmatch re_hex64 t = true) draws ->
  reserve_global_state_growth s.1 logical peak draws inode pin free = Ok (st', r) ->
  release st' r true = Ok (s.1, {| sr_token := sr_token r; sr_inode := sr_inode r; sr_released := true |}).
Proof.
  intros Hc Hf Hcount Hconf Hsteps Hhex H.
  destruct (quota_reach policy _ _ Hsteps (configure_inv _ _ _ _ _ Hc Hf Hcount Hconf)) as [Hinv _].
  by eapply reserve_release_lemma.
Qed.

(** ** Reconciliation *)
Lemma reconcile_live tokens : forall st removed st' removed',
  NoDup (qs_files st).*1 -> foldM reconcile_token (st, removed) tokens = Ok (st', removed') ->
  (forall nf, nf ∈ qs_files st' -> nf ∈ qs_files st) /\
  (forall nf, nf ∈ qs_files st -> cf_leased nf.2 = true -> nf ∈ qs_files st') /\
  exists new, removed' = removed ++ new /\ sublist new tokens /\
    Forall (fun t => reservation_path t ∉ (qs_files st').*1 /\
      exists f, (reservation_path t, f) ∈ qs_files st /\ cf_leased f = false) new.
Proof.
  induction tokens as [|t tokens IH]; intros st removed st' removed' Hnd H; cbn [foldM] in H.
  - injection H as <- <-. split; [done|]. split; [done|]. exists []. by rewrite app_nil_r.
  - apply bind_ok in H as ([st1 removed1] & Ht & H). unfold reconcile_token in Ht. apply bind_ok in Ht as (f & Hf & Ht).
    apply of_option_ok, dict_get_elem in Hf. destruct (cf_leased f) eqn:El.
    + injection Ht as <- <-. destruct (IH _ _ _ _ Hnd H) as (H1 & H2 & new & -> & Hsub & Hnew).
      split; [done|]. split; [done|]. exists new. split; [done|]. split; [by apply sublist_cons|done].
    + apply bind_ok in Ht as (m & _ & Ht). apply bind_ok in Ht as (rec & _ & Ht). apply bind_ok in Ht as (u & _ & Ht).
      apply bind_ok in Ht as (n & _ & [= <- <-]).
      pose proof (remove_file_NoDup (reservation_path t) _ Hnd) as Hnd1.
      destruct (IH (set_files st _) _ _ _ Hnd1 H) as (H1 & H2 & new & -> & Hsub & Hnew). cbn [set_files qs_files] in *. unfold remove_file in H1, H2, Hnew.
      split; [|split].
      * intros nf Hin. apply H1, list_elem_of_filter in Hin as [_ Hin]. done.
      * intros nf Hin Hl. apply H2; [|done]. apply list_elem_of_filter. split; [|done]. intros E.
        assert (nf = (reservation_path t, f)) as -> by by apply (map_NoDup_inj fst (qs_files st)). cbn in Hl. congruence.
      * exists (t :: new). split; [by rewrite <- app_assoc|]. split; [by apply sublist_skip|]. constructor.
        -- split; [|by exists f]. intros (nf & E & Hin)%list_elem_of_fmap. apply H1, list_elem_of_filter in Hin as [Hn _]. congruence.
        -- eapply Forall_impl; [exact Hnew|]. intros t' (Hn & g & Hg & Hgl). split; [done|]. exists g. split; [|done].
           by apply list_elem_of_filter in Hg as [_ Hg].
Qed.

(** Reconciliation removes only reservations whose creator is gone: every
    record with a live creator, and every other file, stays; each reported token
    had an abandoned record that is now removed. *)
Theorem reconcile_only_abandoned policy st w inode free st' removed :
  quota_inv policy st w -> reconcile_abandoned_state_reservations st inode free = Ok (st', removed) ->
  (forall nf, nf ∈ qs_files st' -> nf ∈ qs_files st) /\
  (forall nf, nf ∈ qs_files st -> cf_leased nf.2 = true -> nf ∈ qs_files st') /\
  Forall (fun t => reservation_path t ∉ (qs_files st').*1 /\
    exists f, (reservation_path t, f) ∈ qs_files st /\ cf_leased f = false) removed.
Proof.
  intros Hinv H. unfold reconcile_abandoned_state_reservations, quota_transaction in H. apply bind_ok in H as (u & _ & H).
  apply bind_ok in H as ([st1 p1] & Hp & H). apply (policy_locked policy st w) in Hp as [-> ->]; [|done].
  cbn [fst] in H. apply bind_ok in H as (rs & _ & H).
  destruct (reconcile_live _ _ _ _ _ (qi_names _ _ _ Hinv) H) as (H1 & H2 & new & -> & _ & Hnew). done.
Qed.

(** ** Concrete runs *)
Definition sample_root : quota_state :=
  {| qs_root := [(us "serving.db", DataFile 4096); (us "cache", Directory [(us "a", DataFile 10); (us "b", DataFile 0)])];
     qs_audit_reports := [(us "report.json", DataFile 77)]; qs_files := [] |}.
Definition or_root {A} (d : A) (r : res A) : A := match r with Ok a => a | Err _ => d end.
Definition sample_configured : quota_state := or_root sample_root (configure_state_quota sample_root default_policy 1 (Some (8 * GIB))).
Definition sample_token : ustr := concat (repeat (us "0f") 32).
Definition sample_reserved : quota_state * StateQuotaReservation :=
  or_root (sample_root, {| sr_token := []; sr_inode := 0; sr_released := true |})
    (reserve_global_state_growth sample_configured 5000 None [sample_token] 2 3 (Some (8 * GIB))).

Lemma sample_configure_ok : configure_state_quota sample_root default_policy 1 (Some (8 * GIB)) = Ok sample_configured.
Proof. vm_compute. reflexivity. Qed.
Lemma sample_reserve_ok :
  reserve_global_state_growth sample_configured 5000 None [sample_token] 2 3 (Some (8 * GIB)) = Ok sample_reserved.
Proof. vm_compute. reflexivity. Qed.
Lemma sample_reserve_pair :
  reserve_global_state_growth (sample_configured, ∅ : gmap ustr Z).1 5000 None [sample_token] 2 3 (Some (8 * GIB)) =
  Ok (sample_reserved.1, sample_reserved.2).
Proof. rewrite <- surjective_pairing. exact sample_reserve_ok. Qed.
Lemma sample_countable : state_countable sample_root.
Proof. vm_compute. repeat split; discriminate. Qed.
Lemma sample_hex : Forall (fun t => fullmatch re_hex64 t = true) [sample_token].
Proof. apply Forall_singleton. vm_compute. reflexivity. Qed.
Definition sample_state : quota_state * gmap ustr Z := (sample_reserved.1, <[sr_token sample_reserved.2 := 0]> ∅).
Lemma sample_policy_valid : check_quota_policy default_policy = Ok tt.
Proof. vm_compute. reflexivity. Qed.
Lemma sample_steps : rtc quota_step (sample_configured, ∅) sample_state.
Proof.
  apply rtc_once. eapply step_reserve; [apply sample_hex|]. rewrite sample_reserve_ok. by rewrite <- surjective_pairing.
Qed.

Lemma quota_respected_witness : exists n, safe_tree_usage sample_state.1 = Ok n /\ 0 <= outstanding sample_state.1 sample_state.2 /\
  n + outstanding sample_state.1 sample_state.2 <= maximum_state_bytes default_policy.
Proof.
  exact (quota_respected sample_root default_policy 1 (Some (8 * GIB)) sample_configured sample_state
           sample_policy_valid eq_refl sample_countable sample_configure_ok sample_steps).
Defined.


Lemma reserve_release_witness :
  release sample_reserved.1 sample_reserved.2 true =
  Ok (sample_configured, {| sr_token := sr_token sample_reserved.2; sr_inode := sr_inode sample_reserved.2; sr_released := true |}).
Proof.
  exact (reserve_release sample_root default_policy 1 (Some (8 * GIB)) sample_configured (sample_configured, ∅)
           5000 None [sample_token] 2 3 (Some (8 * GIB)) sample_reserved.1 sample_reserved.2
           sample_policy_valid eq_refl sample_countable sample_configure_ok (rtc_refl _ _) sample_hex sample_reserve_pair).
Defined.

(** The creator of the sample reservation crashes, and the record is reconciled. *)
Definition sample_crashed : quota_state :=
  set_files sample_reserved.1 (map (release_lease (reservation_path sample_token)) (qs_files sample_reserved.1)).
Definition sample_reconciled : quota_state * list ustr :=
  or_root (sample_root, []) (reconcile_abandoned_state_reservations sample_crashed 4 (Some (8 * GIB))).

Lemma sample_crashed_inv : quota_inv default_policy sample_crashed sample_state.2.
Proof.
  apply crash_inv.
  exact (proj1 (quota_reach default_policy _ _ sample_steps
    (configure_inv sample_root default_policy 1 (Some (8 * GIB)) _ sample_policy_valid eq_refl sample_countable sample_configure_ok))).
Qed.

Lemma sample_reconcile_ok : reconcile_abandoned_state_reservations sample_crashed 4 (Some (8 * GIB)) = Ok sample_reconciled.
Proof. vm_compute. reflexivity. Qed.
Lemma sample_reconcile_pair :
  reconcile_abandoned_state_reservations sample_crashed 4 (Some (8 * GIB)) = Ok (sample_reconciled.1, sample_reconciled.2).
Proof. rewrite <- surjective_pairing. exact sample_reconcile_ok. Qed.
Lemma sample_reconciled_tokens : sample_reconciled.2 = [sample_token].
Proof. vm_compute. reflexivity. Qed.

Lemma reconcile_only_abandoned_witness : sample_reconciled.2 = [sample_token] /\
  reservation_path sample_token ∉ (qs_files sample_reconciled.1).*1.
Proof.
  split; [exact sample_reconciled_tokens|].
  pose proof (reconcile_only_abandoned default_policy sample_crashed sample_state.2 4 (Some (8 * GIB))
    sample_reconciled.1 sample_reconciled.2 sample_crashed_inv sample_reconcile_pair) as (_ & _ & H).
  rewrite sample_reconciled_tokens in H. apply Forall_inv in H. exact (proj1 H).
Defined.

Lemma policy_file_roundtrip_witness : parse_policy_payload (policy_members default_policy) = Ok default_policy.
Proof.
  apply policy_file_roundtrip; [apply (bool_decide_unpack _); vm_compute; exact I|].
  split; [vm_compute; reflexivity|reflexivity].
Defined.

Lemma reservation_file_roundtrip_witness :
  parse_reservation_payload (reservation_path sample_token) (reservation_fields sample_token 1 2) = Ok (sample_token, 1, 2).
Proof.
  apply reservation_file_roundtrip; [apply (bool_decide_unpack _); vm_compute; exact I|].
  split; [vm_compute; reflexivity|]. split; [reflexivity|]. split; [|reflexivity].
  split; [discriminate|]. split; discriminate.
Defined.
