(* ===== verification/Rotation.v ===== *)
(** The daily issuer rotation ([cardrag_worker/rotation.py]) for one schedule and
    channel: the tables of the worker database as values, one function per
    operation, and the part of [scope_session] around a run.

    A transaction that raises leaves the tables unchanged, as the error monad
    does.  [day] is the date in Seoul; the status of a run and the existence of
    its sealed publication are arguments.  Reconciling a publication over the
    network is not modelled. *)
From S2P Require Export StructureModel.

Definition PartialExecutionError (code : string) : exn := Raised "PartialExecutionError" code.

(** ** Scope *)
Record IssuerScope := { sc_pool : list ustr; sc_selected : list ustr; sc_mode : ustr }.
Definition make_scope (pool selected : list ustr) (mode : ustr) : res IssuerScope :=
  let! _ := raise_if (bool_decide (selected = []) || negb (bool_decide (NoDup selected))
                      || negb (bool_decide (Forall (fun s => s ∈ pool) selected)))
              (ValueError "issuer selection must be a nonempty subset of the configured pool") in
  let! _ := raise_if (negb (bool_decide (mode ∈ [us "all"; us "selected"; us "round_robin"])))
              (ValueError "invalid issuer execution mode") in
  Ok {| sc_pool := pool; sc_selected := selected; sc_mode := mode |}.

Record Assignment := {
  as_scope : IssuerScope;
  as_day : option ustr;
  as_run_id : option ustr;
  as_result : option json;
  as_attempt : Z;
}.

(** ** Tables *)
Record DayRow := { dr_day : ustr; dr_issuer : ustr; dr_run_id : option ustr; dr_result : option json }.
Record AttemptRow := { at_day : ustr; at_attempt : Z; at_issuer : ustr; at_run_id : option ustr; at_result : option json }.
Record MigrationRow := { mg_day : ustr; mg_before : list ustr; mg_after : list ustr }.

Record rotation_state := {
  rot_cycle : option (list ustr * list ustr);
  rot_days : list DayRow;
  rot_attempts : list AttemptRow;
  rot_migrations : list MigrationRow;
}.
Definition empty_rotation : rotation_state :=
  {| rot_cycle := None; rot_days := []; rot_attempts := []; rot_migrations := [] |}.

(** The run table and the files of the runs, as the rotation reads them. *)
Record run_view := { rv_status : ustr -> option ustr; rv_sealed : ustr -> bool }.

Definition terminal_status (status : ustr) : bool := bool_decide (status ∈ [us "succeeded"; us "no_change"; us "failed"]).
Definition terminal_run (rv : run_view) (run_id : ustr) : option ustr :=
  match rv_status rv run_id with
  | Some s => if terminal_status s then Some s else None
  | None => None
  end.

Definition find_day (st : rotation_state) (day : ustr) : option DayRow :=
  List.find (fun r => bool_decide (dr_day r = day)) (rot_days st).
Definition day_attempts (st : rotation_state) (day : ustr) : list Z :=
  map at_attempt (filter (fun a => at_day a = day) (rot_attempts st)).
(** [SELECT MAX(attempt) ...]: NULL without rows. *)
Definition max_attempt (st : rotation_state) (day : ustr) : option Z :=
  match day_attempts st day with [] => None | n :: l => Some (fold_left Z.max l n) end.
Definition attempt_count (st : rotation_state) (day : ustr) : Z := default 1 (max_attempt st day).

(** [UPDATE issuer_rotation_day SET ... WHERE day=?], and the same for attempts. *)
Definition update_day (f : DayRow -> DayRow) (day : ustr) (st : rotation_state) : rotation_state :=
  {| rot_cycle := rot_cycle st; rot_days := map (fun r => if decide (dr_day r = day) then f r else r) (rot_days st);
     rot_attempts := rot_attempts st; rot_migrations := rot_migrations st |}.
Definition update_attempt (f : AttemptRow -> AttemptRow) (day : ustr) (attempt : Z) (st : rotation_state) : rotation_state :=
  {| rot_cycle := rot_cycle st; rot_days := rot_days st;
     rot_attempts := map (fun a => if decide (at_day a = day /\ at_attempt a = attempt) then f a else a) (rot_attempts st);
     rot_migrations := rot_migrations st |}.
(** [INSERT INTO issuer_rotation_attempt VALUES (..., NULL, NULL)] *)
Definition insert_attempt (day : ustr) (attempt : Z) (issuer : ustr) (st : rotation_state) : res rotation_state :=
  let! _ := raise_if (existsb (fun a => bool_decide (at_day a = day) && (at_attempt a =? attempt)) (rot_attempts st))
              (Raised "IntegrityError" "UNIQUE constraint failed") in
  Ok {| rot_cycle := rot_cycle st; rot_days := rot_days st;
        rot_attempts := rot_attempts st ++
          [{| at_day := day; at_attempt := attempt; at_issuer := issuer; at_run_id := None; at_result := None |}];
        rot_migrations := rot_migrations st |}.
Definition insert_day (day issuer : ustr) (st : rotation_state) : res rotation_state :=
  let! _ := raise_if (existsb (fun r => bool_decide (dr_day r = day)) (rot_days st))
              (Raised "IntegrityError" "UNIQUE constraint failed") in
  Ok {| rot_cycle := rot_cycle st;
        rot_days := rot_days st ++ [{| dr_day := day; dr_issuer := issuer; dr_run_id := None; dr_result := None |}];
        rot_attempts := rot_attempts st; rot_migrations := rot_migrations st |}.
(** [INSERT OR REPLACE INTO issuer_rotation_migration] *)
Definition replace_migration (row : MigrationRow) (st : rotation_state) : rotation_state :=
  {| rot_cycle := rot_cycle st; rot_days := rot_days st; rot_attempts := rot_attempts st;
     rot_migrations := filter (fun m => mg_day m <> mg_day row) (rot_migrations st) ++ [row] |}.
Definition set_cycle (remaining roster : list ustr) (st : rotation_state) : rotation_state :=
  {| rot_cycle := Some (remaining, roster); rot_days := rot_days st; rot_attempts := rot_attempts st;
     rot_migrations := rot_migrations st |}.

Definition set_day_result (result : option json) (r : DayRow) : DayRow :=
  {| dr_day := dr_day r; dr_issuer := dr_issuer r; dr_run_id := dr_run_id r; dr_result := result |}.
Definition set_day_run (run_id : option ustr) (r : DayRow) : DayRow :=
  {| dr_day := dr_day r; dr_issuer := dr_issuer r; dr_run_id := run_id; dr_result := dr_result r |}.
Definition set_attempt_result (result : option json) (a : AttemptRow) : AttemptRow :=
  {| at_day := at_day a; at_attempt := at_attempt a; at_issuer := at_issuer a; at_run_id := at_run_id a; at_result := result |}.
Definition set_attempt_run (run_id : option ustr) (a : AttemptRow) : AttemptRow :=
  {| at_day := at_day a; at_attempt := at_attempt a; at_issuer := at_issuer a; at_run_id := run_id; at_result := at_result a |}.

Definition reconciled_result (status run_id : ustr) : json :=
  JObj [(us "status", JStr status); (us "run_id", JStr run_id); (us "rotation_reconciled", JBool true)].

(** ** The operations *)
Definition check_limit (st : rotation_state) (rv : run_view) (day : ustr) : res unit :=
  match find_day st day with
  | None => Ok tt
  | Some row =>
      if attempt_count st day <? 3 then Ok tt
      else raise_if (match dr_result row with Some _ => true | None => false end
                     || match dr_run_id row with
                        | Some id => match terminal_run rv id with Some _ => true | None => false end
                        | None => false
                        end)
             (PartialExecutionError "rotation_daily_attempt_limit")
  end.

(** The result of the day's latest attempt, recorded now when the run has ended. *)
Definition settle_day (st : rotation_state) (rv : run_view) (row : DayRow) : rotation_state * option json :=
  let attempt := attempt_count st (dr_day row) in
  match dr_result row, dr_run_id row with
  | Some r, _ => (st, Some r)
  | None, Some run_id =>
      match terminal_run rv run_id with
      | Some status =>
          let result := Some (reconciled_result status run_id) in
          (update_attempt (set_attempt_result result) (dr_day row) attempt (update_day (set_day_result result) (dr_day row) st), result)
      | None => (st, None)
      end
  | None, None => (st, None)
  end.

Definition round_robin (pool : list ustr) (issuer : ustr) : res IssuerScope := make_scope pool [issuer] (us "round_robin").

(** [claim] on a day that has its issuer. *)
Definition claim_again (st : rotation_state) (rv : run_view) (pool : list ustr) (row : DayRow) : res (rotation_state * Assignment) :=
  let day := dr_day row in
  let! _ := raise_if (negb (bool_decide (dr_issuer row ∈ pool))) (PartialExecutionError "rotation_assigned_issuer_disabled") in
  let attempt := attempt_count st day in
  let '(st, result) := settle_day st rv row in
  match result with
  | Some _ =>
      let! _ := raise_if (3 <=? attempt) (PartialExecutionError "rotation_daily_attempt_limit") in
      let st := update_day (fun r => set_day_run None (set_day_result None r)) day st in
      let! st := insert_attempt day (attempt + 1) (dr_issuer row) st in
      let! scope := round_robin pool (dr_issuer row) in
      Ok (st, {| as_scope := scope; as_day := Some day; as_run_id := None; as_result := None; as_attempt := attempt + 1 |})
  | None =>
      let! scope := round_robin pool (dr_issuer row) in
      Ok (st, {| as_scope := scope; as_day := Some day; as_run_id := dr_run_id row; as_result := None; as_attempt := attempt |})
  end.

(** An older day with a sealed publication whose run has not ended. *)
Definition unresolved_publication (st : rotation_state) (rv : run_view) : bool :=
  existsb (fun r => match dr_result r, dr_run_id r with
                    | None, Some id => rv_sealed rv id && match terminal_run rv id with Some _ => false | None => true end
                    | _, _ => false
                    end) (rot_days st).

(** The issuer at the head of the cycle, and the cycle without it. *)
Definition next_issuer (cycle : option (list ustr * list ustr)) (pool : list ustr) : res (ustr * (list ustr * list ustr)) :=
  let roster := match cycle with Some (_, r) => r | None => pool end in
  let remaining := match cycle with Some (r, _) => filter (fun code => code ∈ pool) r | None => [] end in
  let '(remaining, roster) := match remaining with [] => (pool, pool) | _ => (remaining, roster) end in
  match remaining with
  | issuer :: rest => Ok (issuer, (rest, roster))
  | [] => Err IndexError
  end.

(** [claim] on a new day. *)
Definition claim_new (st : rotation_state) (rv : run_view) (pool : list ustr) (day : ustr) : res (rotation_state * Assignment) :=
  let! _ := raise_if (unresolved_publication st rv) (PartialExecutionError "rotation_publication_reconciliation_required") in
  let st := match rot_cycle st with
            | Some (_, roster) =>
                if bool_decide (roster = pool) then st
                else replace_migration {| mg_day := day; mg_before := roster; mg_after := pool |} st
            | None => st
            end in
  let! next := next_issuer (rot_cycle st) pool in
  let '(issuer, (remaining, roster)) := next in
  let st := set_cycle remaining roster st in
  let! st := insert_day day issuer st in
  let! st := insert_attempt day 1 issuer st in
  let! scope := round_robin pool issuer in
  Ok (st, {| as_scope := scope; as_day := Some day; as_run_id := None; as_result := None; as_attempt := 1 |}).

Definition claim (st : rotation_state) (rv : run_view) (pool : list ustr) (day : ustr) : res (rotation_state * Assignment) :=
  match find_day st day with
  | Some row => claim_again st rv pool row
  | None => claim_new st rv pool day
  end.

(** The rows the guarded UPDATE of [bind] and [complete] matches: the day's row, when
    the assignment is its latest attempt. *)
Definition current_attempt (st : rotation_state) (a : Assignment) : bool :=
  match as_day a with
  | Some day =>
      match find_day st day with Some _ => bool_decide (max_attempt st day = Some (as_attempt a)) | None => false end
  | None => false
  end.
Definition assignment_day (a : Assignment) : ustr := default [] (as_day a).

Definition bind (st : rotation_state) (a : Assignment) (run_id : ustr) : res (rotation_state * Assignment) :=
  let! _ := raise_if (match as_run_id a with Some id => negb (bool_decide (id = run_id)) | None => false end)
              (ValueError "rotation run binding changed") in
  let! _ := raise_if (negb (current_attempt st a)) (ValueError "rotation attempt binding changed") in
  let day := assignment_day a in
  Ok (update_attempt (set_attempt_run (Some run_id)) day (as_attempt a) (update_day (set_day_run (Some run_id)) day st),
      {| as_scope := as_scope a; as_day := as_day a; as_run_id := Some run_id; as_result := as_result a;
         as_attempt := as_attempt a |}).

Definition complete (st : rotation_state) (a : Assignment) (result : json) : res (rotation_state * Assignment) :=
  let! _ := raise_if (negb (current_attempt st a)) (ValueError "rotation attempt completion changed") in
  let day := assignment_day a in
  Ok (update_attempt (set_attempt_result (Some result)) day (as_attempt a) (update_day (set_day_result (Some result)) day st),
      {| as_scope := as_scope a; as_day := as_day a; as_run_id := as_run_id a; as_result := Some result;
         as_attempt := as_attempt a |}).

(** ** The session around a run *)

(** The check of [scope_session] on the claimed assignment before the run starts. *)
Definition session_start (st : rotation_state) (rv : run_view) (a : Assignment) : res (rotation_state * Assignment) :=
  match as_result a, as_run_id a with
  | None, Some run_id =>
      match terminal_run rv run_id with
      | Some status => complete st a (reconciled_result status run_id)
      | None =>
          let! _ := raise_if (rv_sealed rv run_id) (PartialExecutionError "rotation_publication_reconciliation_required") in
          Ok (st, a)
      end
  | _, _ => Ok (st, a)
  end.

Inductive session_outcome := Returned | Cancelled | Failed.
Definition failed_result (a : Assignment) : json :=
  JObj [(us "status", JStr (us "failed")); (us "run_id", JOpt (as_run_id a)); (us "reason_code", JStr (us "rotation_execution_failed"))].

(** The end of the session: a failure is recorded, a cancellation is left to a later
    reconciliation, a normal end records the result there is. *)
Definition session_end (st : rotation_state) (rv : run_view) (a : Assignment) (outcome : session_outcome) : res (rotation_state * Assignment) :=
  match outcome with
  | Failed => complete st a (failed_result a)
  | Cancelled => Ok (st, a)
  | Returned =>
      match as_result a, as_run_id a with
      | Some result, _ => complete st a result
      | None, Some run_id =>
          match terminal_run rv run_id with
          | Some status => complete st a (JObj [(us "status", JStr status); (us "run_id", JStr run_id)])
          | None => Ok (st, a)
          end
      | None, None => Ok (st, a)
      end
  end.
