(* ===== verification/RotationProof.v ===== *)
(** The rotation is fair and bounded: issuers take turns in the order of the pool,
    a day keeps its issuer, and its attempts are numbered, closed one after the
    other and at most three. *)
From S2P Require Export Rotation.

(** ** The invariant *)
Definition day_rows (st : rotation_state) (day : ustr) : list AttemptRow := filter (fun a => at_day a = day) (rot_attempts st).

(** The attempts of a day row: numbered from 1, of the row's issuer, all but the last
    one closed, the last one mirrored in the row. *)
Definition day_ok (r : DayRow) (rows : list AttemptRow) : Prop :=
  exists closed last, rows = closed ++ [last] /\ (length closed <= 2)%nat /\
    map at_attempt rows = seqZ 1 (zlen rows) /\ Forall (fun a => at_issuer a = dr_issuer r) rows /\
    Forall (fun a => is_Some (at_result a)) closed /\ at_run_id last = dr_run_id r /\ at_result last = dr_result r.

Record rotation_inv (st : rotation_state) : Prop := {
  ri_days : NoDup (map dr_day (rot_days st));
  ri_attempts : Forall (fun a => at_day a ∈ map dr_day (rot_days st)) (rot_attempts st);
  ri_rows : Forall (fun r => day_ok r (day_rows st (dr_day r))) (rot_days st);
}.

Lemma empty_rotation_inv : rotation_inv empty_rotation.
Proof. split; constructor. Qed.

Lemma find_day_spec st day r : find_day st day = Some r -> r ∈ rot_days st /\ dr_day r = day.
Proof. unfold find_day. intros [Hin Hb]%find_some. bsplit. split; [by apply list_elem_of_In|done]. Qed.

Lemma find_day_None st day : find_day st day = None -> day ∉ map dr_day (rot_days st).
Proof.
  unfold find_day. intros H (r & -> & Hin)%list_elem_of_fmap. pose proof (find_none _ _ H r (proj1 (list_elem_of_In _ _) Hin)) as Hn.
  cbn beta in Hn. bsplit. done.
Qed.

Lemma find_day_update f day st d :
  (forall r, dr_day (f r) = dr_day r) ->
  find_day (update_day f day st) d = (fun r => if decide (dr_day r = day) then f r else r) <$> find_day st d.
Proof.
  intros Hf. unfold find_day, update_day. cbn [rot_days]. induction (rot_days st) as [|r l IH]; [done|]. cbn [map List.find].
  assert (dr_day (if decide (dr_day r = day) then f r else r) = dr_day r) as -> by (destruct (decide _); [apply Hf|done]).
  destruct (bool_decide (dr_day r = d)); [done|]. apply IH.
Qed.

Lemma day_rows_update f day n st d :
  (forall a, at_day (f a) = at_day a) ->
  day_rows (update_attempt f day n st) d =
  map (fun a => if decide (at_day a = day /\ at_attempt a = n) then f a else a) (day_rows st d).
Proof.
  intros Hf. unfold day_rows, update_attempt. cbn [rot_attempts]. induction (rot_attempts st) as [|a l IH]; [done|]. cbn [map].
  rewrite !filter_cons.
  assert (at_day (if decide (at_day a = day /\ at_attempt a = n) then f a else a) = at_day a) as -> by (destruct (decide _); [apply Hf|done]).
  destruct (decide (at_day a = d)); cbn [map]; by rewrite IH.
Qed.

(** The numbering gives the maximum. *)
Lemma fold_max_seqZ n : forall m, m + 1 <= n + 1 -> 0 <= n -> fold_left Z.max (seqZ (m + 1) (n - m)) m = n.
Proof.
  intros m Hm Hn. remember (Z.to_nat (n - m)) as k eqn:Ek. revert m Hm Ek. induction k as [|k IH]; intros m Hm Ek.
  - assert (m = n) as -> by lia. by rewrite Z.sub_diag.
  - rewrite seqZ_cons by lia. cbn [fold_left]. rewrite Z.max_r by lia.
    replace (Z.succ (m + 1)) with (m + 1 + 1) by lia. replace (Z.pred (n - m)) with (n - (m + 1)) by lia. apply IH; lia.
Qed.

Lemma max_attempt_rows st day :
  day_rows st day <> [] -> map at_attempt (day_rows st day) = seqZ 1 (zlen (day_rows st day)) ->
  max_attempt st day = Some (zlen (day_rows st day)).
Proof.
  intros Hne Hnum. unfold max_attempt, day_attempts. fold (day_rows st day). rewrite Hnum.
  assert (0 < zlen (day_rows st day)) by (destruct (day_rows st day); [done|unfold zlen; cbn; lia]).
  rewrite seqZ_cons by lia. f_equal. replace (Z.succ 1) with (1 + 1) by lia.
  replace (Z.pred (zlen (day_rows st day))) with (zlen (day_rows st day) - 1) by lia. apply fold_max_seqZ; lia.
Qed.

Lemma day_ok_max st r : rotation_inv st -> r ∈ rot_days st ->
  max_attempt st (dr_day r) = Some (zlen (day_rows st (dr_day r))) /\ 1 <= zlen (day_rows st (dr_day r)) <= 3.
Proof.
  intros Hinv Hr. pose proof (ri_rows _ Hinv) as H. rewrite Forall_forall in H. destruct (H r Hr) as (closed & last & E & Hlen & Hnum & _).
  split.
  - apply max_attempt_rows; [|done]. rewrite E. by destruct closed.
  - rewrite E, zlen_app, zlen_cons, zlen_nil. unfold zlen. lia.
Qed.

(** The number of a row is its place. *)
Lemma numbered_last closed last :
  map at_attempt (closed ++ [last]) = seqZ 1 (zlen (closed ++ [last])) ->
  at_attempt last = zlen (closed ++ [last]) /\ Forall (fun a => at_attempt a <> zlen (closed ++ [last])) closed.
Proof.
  rewrite zlen_app, zlen_cons, zlen_nil. intros H. rewrite map_app in H. replace (zlen closed + (1 + 0)) with (zlen closed + 1) in * by lia.
  rewrite seqZ_app in H by (pose proof (zlen_nonneg closed); lia). apply app_inj_1 in H as [H1 H2].
  - cbn in H2. injection H2 as H2. split; [lia|]. apply Forall_forall. intros a Ha E.
    assert (at_attempt a ∈ map at_attempt closed) as Hin by (apply list_elem_of_fmap; by exists a).
    rewrite H1 in Hin. apply elem_of_seqZ in Hin. lia.
  - rewrite length_map, length_seqZ. unfold zlen. lia.
Qed.

(** ** Updating the latest attempt together with its day *)
Section Update.
Context (fd : DayRow -> DayRow) (fa : AttemptRow -> AttemptRow).
Context (Hday : forall r, dr_day (fd r) = dr_day r) (Hissuer : forall r, dr_issuer (fd r) = dr_issuer r).
Context (Haday : forall a, at_day (fa a) = at_day a) (Hattempt : forall a, at_attempt (fa a) = at_attempt a).
Context (Haissuer : forall a, at_issuer (fa a) = at_issuer a).
Context (Hmirror : forall r a, at_run_id a = dr_run_id r -> at_result a = dr_result r ->
  at_run_id (fa a) = dr_run_id (fd r) /\ at_result (fa a) = dr_result (fd r)).

Definition update_current (st : rotation_state) (day : ustr) (n : Z) : rotation_state :=
  update_attempt fa day n (update_day fd day st).

Lemma update_days st day n : map dr_day (rot_days (update_current st day n)) = map dr_day (rot_days st).
Proof. cbn. rewrite map_map. apply map_ext. intros r. by destruct (decide _). Qed.

Lemma update_current_inv st day n :
  rotation_inv st -> max_attempt st day = Some n -> rotation_inv (update_current st day n).
Proof.
  intros Hinv Hmax. pose proof Hinv as [Hd Ha Hr]. split.
  - by rewrite update_days.
  - rewrite update_days. cbn [update_current update_attempt rot_attempts]. apply Forall_map. eapply Forall_impl; [exact Ha|].
    intros a Hin. cbn [update_day rot_attempts] in *. destruct (decide _); [by rewrite Haday|done].
  - unfold update_current. cbn [update_attempt update_day rot_days]. apply Forall_map. apply Forall_forall. intros r Hin.
    rewrite Forall_forall in Hr. destruct (Hr r Hin) as (closed & last & E & Hlen & Hnum & Hiss & Hclosed & Hrun & Hres).
    destruct (decide (dr_day r = day)) as [<-|Hne].
    + rewrite Hday, day_rows_update by done. change (day_rows (update_day fd (dr_day r) st) (dr_day r)) with (day_rows st (dr_day r)).
      destruct (day_ok_max st r Hinv Hin) as [Hm _]. rewrite Hm in Hmax. injection Hmax as <-.
      rewrite E in *. destruct (numbered_last _ _ Hnum) as [Hl Hc].
      assert (Forall (fun a => at_day a = dr_day r) (closed ++ [last])) as Hdays.
      { rewrite <- E. unfold day_rows. apply Forall_forall. by intros a [? _]%list_elem_of_filter. }
      apply Forall_app in Hdays as [_ Hdl%Forall_inv].
      set (g := fun a => if decide _ then fa a else a).
      assert (map g (closed ++ [last]) = closed ++ [fa last]) as ->.
      { rewrite map_app. cbn [map]. f_equal.
        - clear -Hc. induction Hc as [|a l Hn _ IH]; [done|]. cbn [map]. rewrite IH. unfold g at 1. by rewrite decide_False by tauto.
        - unfold g. by rewrite decide_True by done. }
      destruct (Hmirror r last Hrun Hres) as [H1 H2]. exists closed, (fa last).
      split; [done|]. split; [done|]. split; [|split; [|done]].
      * rewrite map_app in *. cbn [map] in *. rewrite Hattempt, Hnum. by rewrite !zlen_app, !zlen_cons.
      * apply Forall_app in Hiss as [Hi1 Hi2%Forall_inv]. apply Forall_app. split; [|apply Forall_singleton; by rewrite Haissuer, Hissuer].
        eapply Forall_impl; [exact Hi1|]. intros a ->. by rewrite Hissuer.
    + rewrite day_rows_update by done. change (day_rows (update_day fd day st) (dr_day r)) with (day_rows st (dr_day r)).
      replace (map _ (day_rows st (dr_day r))) with (day_rows st (dr_day r)); [by apply Hr|].
      symmetry. rewrite <- (map_id (day_rows st (dr_day r))) at 2. apply map_ext_in. intros a Hin2.
      apply list_elem_of_In in Hin2. unfold day_rows in Hin2. apply list_elem_of_filter in Hin2 as [Hda _].
      rewrite decide_False; [done|]. intros [H1 _]. congruence.
Qed.
End Update.

(** ** The operations keep the invariant *)
Lemma bind_inv st a run_id st' a' : rotation_inv st -> bind st a run_id = Ok (st', a') -> rotation_inv st'.
Proof.
  intros Hinv H. unfold bind in H. apply bind_ok in H as (u & _ & H). apply bind_ok in H as (u1 & Hc & [= <- _]).
  apply raise_if_ok in Hc. bsplit. unfold current_attempt in Hc. destruct (as_day a) as [day|] eqn:Ed; [|done].
  destruct (find_day st day); [|done]. bsplit. unfold assignment_day. rewrite Ed. cbn [default].
  by apply (update_current_inv (set_day_run (Some run_id)) (set_attempt_run (Some run_id))).
Qed.

Lemma complete_inv st a result st' a' : rotation_inv st -> complete st a result = Ok (st', a') -> rotation_inv st'.
Proof.
  intros Hinv H. unfold complete in H. apply bind_ok in H as (u1 & Hc & [= <- _]).
  apply raise_if_ok in Hc. bsplit. unfold current_attempt in Hc. destruct (as_day a) as [day|] eqn:Ed; [|done].
  destruct (find_day st day); [|done]. bsplit. unfold assignment_day. rewrite Ed. cbn [default].
  by apply (update_current_inv (set_day_result (Some result)) (set_attempt_result (Some result))).
Qed.

Lemma session_start_inv st rv a st' a' : rotation_inv st -> session_start st rv a = Ok (st', a') -> rotation_inv st'.
Proof.
  intros Hinv H. unfold session_start in H. destruct (as_result a); [by injection H as <- _|].
  destruct (as_run_id a) as [id|]; [|by injection H as <- _]. destruct (terminal_run rv id); [by eapply complete_inv|].
  apply bind_ok in H as (? & _ & [= <- _]). done.
Qed.

Lemma session_end_inv st rv a o st' a' : rotation_inv st -> session_end st rv a o = Ok (st', a') -> rotation_inv st'.
Proof.
  intros Hinv H. unfold session_end in H. destruct o; [|by injection H as <- _|by eapply complete_inv].
  destruct (as_result a); [by eapply complete_inv|]. destruct (as_run_id a) as [id|]; [|by injection H as <- _].
  destruct (terminal_run rv id); [by eapply complete_inv|by injection H as <- _].
Qed.

Lemma settle_inv st rv row st' result :
  rotation_inv st -> row ∈ rot_days st -> settle_day st rv row = (st', result) ->
  rotation_inv st' /\ rot_cycle st' = rot_cycle st /\ map dr_day (rot_days st') = map dr_day (rot_days st) /\
  attempt_count st' (dr_day row) = attempt_count st (dr_day row) /\
  exists row', row' ∈ rot_days st' /\ dr_day row' = dr_day row /\ dr_issuer row' = dr_issuer row /\ dr_result row' = result.
Proof.
  intros Hinv Hrow H. unfold settle_day in H.
  assert (forall r, st' = st -> result = dr_result row -> r = row -> rotation_inv st' /\ rot_cycle st' = rot_cycle st /\
    map dr_day (rot_days st') = map dr_day (rot_days st) /\ attempt_count st' (dr_day row) = attempt_count st (dr_day row) /\
    exists row', row' ∈ rot_days st' /\ dr_day row' = dr_day row /\ dr_issuer row' = dr_issuer row /\ dr_result row' = result) as Hsame.
  { intros r -> -> _. repeat (split; [done|]). by exists row. }
  destruct (dr_result row) as [res0|] eqn:Er; [injection H as <- <-; by apply (Hsame row)|].
  destruct (dr_run_id row) as [id|]; [|injection H as <- <-; by apply (Hsame row)].
  destruct (terminal_run rv id) as [status|]; [|injection H as <- <-; by apply (Hsame row)].
  injection H as <- <-. clear Hsame. set (result := Some (reconciled_result status id)).
  destruct (day_ok_max st row Hinv Hrow) as [Hm _]. 
  assert (attempt_count st (dr_day row) = zlen (day_rows st (dr_day row))) as -> by (unfold attempt_count; by rewrite Hm).
  change (update_attempt (set_attempt_result result) (dr_day row) (zlen (day_rows st (dr_day row))) (update_day (set_day_result result) (dr_day row) st))
    with (update_current (set_day_result result) (set_attempt_result result) st (dr_day row) (zlen (day_rows st (dr_day row)))).
  assert (rotation_inv (update_current (set_day_result result) (set_attempt_result result) st (dr_day row) (zlen (day_rows st (dr_day row))))) as Hinv'
    by by apply update_current_inv.
  split; [done|]. split; [done|]. split; [by apply update_days|].
  assert (set_day_result result row ∈ rot_days (update_current (set_day_result result) (set_attempt_result result) st (dr_day row) (zlen (day_rows st (dr_day row))))) as Hin.
  { cbn [update_current update_attempt update_day rot_days]. apply list_elem_of_fmap. exists row. by rewrite decide_True. }
  split; [|by exists (set_day_result result row)].
  destruct (day_ok_max _ _ Hinv' Hin) as [Hm' _]. cbn [set_day_result dr_day] in Hm'. unfold attempt_count. rewrite Hm'. cbn [default].
  unfold update_current. rewrite day_rows_update by done. unfold zlen. by rewrite length_map.
Qed.

(** A new attempt on a day whose last attempt is closed. *)
Lemma new_attempt_inv st row n issuer st' :
  rotation_inv st -> row ∈ rot_days st -> is_Some (dr_result row) -> issuer = dr_issuer row ->
  attempt_count st (dr_day row) = n -> n < 3 ->
  insert_attempt (dr_day row) (n + 1) issuer (update_day (fun r => set_day_run None (set_day_result None r)) (dr_day row) st) = Ok st' ->
  rotation_inv st' /\ map dr_day (rot_days st') = map dr_day (rot_days st) /\ rot_cycle st' = rot_cycle st.
Proof.
  intros Hinv Hrow Hres -> Hn Hlt H. unfold insert_attempt in H. apply bind_ok in H as (u & _ & [= <-]).
  destruct (day_ok_max st row Hinv Hrow) as [Hm _]. unfold attempt_count in Hn. rewrite Hm in Hn. cbn in Hn.
  pose proof Hinv as [Hd Ha Hr]. set (new := {| at_day := dr_day row |}).
  set (reset := fun r => set_day_run None (set_day_result None r)).
  assert (map dr_day (map (fun r => if decide (dr_day r = dr_day row) then reset r else r) (rot_days st)) = map dr_day (rot_days st)) as Edays.
  { rewrite map_map. apply map_ext. intros r. by destruct (decide _). }
  split; [|by split; [apply Edays|]]. split; cbn [update_day rot_days rot_attempts].
  - match goal with |- NoDup ?l => replace l with (map dr_day (rot_days st)) by (symmetry; exact Edays) end. done.
  - match goal with |- Forall (fun a => at_day a ∈ ?l) _ => replace l with (map dr_day (rot_days st)) by (symmetry; exact Edays) end.
    apply Forall_app. split; [done|]. apply Forall_singleton. cbn. apply list_elem_of_fmap. by exists row.
  - apply Forall_map. apply Forall_forall. intros r Hin. rewrite Forall_forall in Hr. pose proof (Hr r Hin) as Hok.
    set (st1 := {| rot_cycle := _ |}).
    assert (forall d, day_rows st1 d = day_rows st d ++ (if decide (dr_day row = d) then [new] else [])) as Erows.
    { intros d. unfold day_rows, st1. cbn [rot_attempts update_day]. rewrite filter_app, filter_cons, filter_nil. done. }
    destruct (decide (dr_day r = dr_day row)) as [E|Hne].
    + assert (r = row) as -> by by apply (map_NoDup_inj dr_day (rot_days st)).
      unfold reset. cbn [set_day_run set_day_result dr_day]. rewrite Erows, decide_True by done.
      destruct Hok as (closed & last & Er & Hlen & Hnum & Hiss & Hclosed & _ & Hlast).
      exists (day_rows st (dr_day row)), new. split; [done|]. split; [unfold zlen in Hn; lia|]. split; [|split; [|split; [|done]]].
      * rewrite map_app, Hnum, zlen_app, zlen_cons, zlen_nil.
        replace (zlen (day_rows st (dr_day row)) + (1 + 0)) with (zlen (day_rows st (dr_day row)) + 1) by lia.
        rewrite seqZ_app by (pose proof (zlen_nonneg (day_rows st (dr_day row))); lia). f_equal. cbn [map new at_attempt].
        unfold new. cbn [at_attempt]. rewrite seqZ_cons by lia. f_equal. lia.
      * apply Forall_app. split; [done|]. by apply Forall_singleton.
      * rewrite Er. apply Forall_app. split; [done|]. apply Forall_singleton. by rewrite Hlast.
    + rewrite Erows, decide_False by congruence. by rewrite app_nil_r.
Qed.

Lemma make_scope_selected pool s mode sc : make_scope pool [s] mode = Ok sc -> sc_selected sc = [s] /\ s ∈ pool.
Proof.
  unfold make_scope. intros H. apply bind_ok in H as (u & H1 & H). apply bind_ok in H as (u1 & _ & [= <-]).
  apply raise_if_ok in H1. apply orb_false_iff in H1 as [_ H1]. bsplit. apply Forall_inv in H1. done.
Qed.

(** What a claim on a day with an issuer does. *)
Lemma claim_again_spec st rv pool row st' a :
  rotation_inv st -> row ∈ rot_days st -> claim_again st rv pool row = Ok (st', a) ->
  rotation_inv st' /\ rot_cycle st' = rot_cycle st /\ map dr_day (rot_days st') = map dr_day (rot_days st) /\
  as_day a = Some (dr_day row) /\ sc_selected (as_scope a) = [dr_issuer row] /\ 1 <= as_attempt a <= 3 /\ dr_issuer row ∈ pool /\
  let ended := bool_decide (is_Some (settle_day st rv row).2) in
  as_attempt a = (if ended then attempt_count st (dr_day row) + 1 else attempt_count st (dr_day row)) /\
  as_run_id a = (if ended then None else dr_run_id row).
Proof.
  intros Hinv Hrow H. unfold claim_again in H. apply bind_ok in H as (u & Hpool & H). apply raise_if_ok in Hpool. bsplit.
  destruct (day_ok_max st row Hinv Hrow) as [Hm Hb]. unfold attempt_count in H at 1.
  assert (attempt_count st (dr_day row) = zlen (day_rows st (dr_day row))) as Hac by (unfold attempt_count; by rewrite Hm).
  change (default 1 (max_attempt st (dr_day row))) with (attempt_count st (dr_day row)) in H.
  destruct (settle_day st rv row) as [st1 result] eqn:Es.
  destruct (settle_inv _ _ _ _ _ Hinv Hrow Es) as (Hinv1 & Hcyc & Hdays & Hcount & row' & Hrow' & Hd' & Hi' & Hr').
  destruct result as [j|].
  - apply bind_ok in H as (u1 & Hlt & H). apply raise_if_ok in Hlt. apply bind_ok in H as (st2 & Hins & H).
    apply bind_ok in H as (sc & Hsc & [= <- <-]). apply make_scope_selected in Hsc as [Hsc _].
    rewrite <- Hcount, <- Hd', <- Hi' in Hins.
    assert (attempt_count st1 (dr_day row') < 3) as Hlt3 by (rewrite Hd', Hcount; apply Z.leb_gt in Hlt; lia).
    destruct (new_attempt_inv st1 row' _ (dr_issuer row') st2 Hinv1 Hrow' ltac:(by rewrite Hr') eq_refl eq_refl Hlt3 Hins) as (Hinv2 & Hd2 & Hc2).
    cbn [as_day as_scope as_attempt]. rewrite Hd2, Hdays, Hc2, Hcyc, Hac. apply Z.leb_gt in Hlt.
    cbn [snd]. rewrite bool_decide_eq_true_2 by by eexists.
    repeat (split; [done|]). split; [lia|]. repeat (split; [done|]). done.
  - apply bind_ok in H as (sc & Hsc & [= <- <-]). apply make_scope_selected in Hsc as [Hsc _].
    cbn [as_day as_scope as_attempt snd]. rewrite Hdays, Hcyc, Hac, bool_decide_eq_false_2 by by intros [? ?].
    repeat (split; [done|]). done.
Qed.

(** What a claim on a new day does. *)
Lemma claim_new_spec st rv pool day st' a :
  rotation_inv st -> find_day st day = None -> claim_new st rv pool day = Ok (st', a) ->
  rotation_inv st' /\ exists issuer cycle, next_issuer (rot_cycle st) pool = Ok (issuer, cycle) /\ rot_cycle st' = Some cycle /\
    sc_selected (as_scope a) = [issuer].
Proof.
  intros Hinv Hnone H. unfold claim_new in H. apply bind_ok in H as (u & _ & H).
  set (st1 := match rot_cycle st with Some (_, _) => _ | None => st end) in H.
  assert (rot_cycle st1 = rot_cycle st /\ rot_days st1 = rot_days st /\ rot_attempts st1 = rot_attempts st) as (Ec & Ed & Ea).
  { unfold st1. destruct (rot_cycle st) as [[r s]|] eqn:E; [|by rewrite E]. case_bool_decide; [by rewrite E|]. by cbn. }
  rewrite Ec in H. clearbody st1. apply bind_ok in H as ([issuer [remaining roster]] & Hn & H).
  apply bind_ok in H as (st2 & Hd & H). apply bind_ok in H as (st3 & Ha & H). apply bind_ok in H as (sc & Hsc & [= <- <-]).
  unfold insert_day in Hd. apply bind_ok in Hd as (u1 & _ & [= <-]). unfold insert_attempt in Ha. apply bind_ok in Ha as (u2 & _ & [= <-]).
  apply make_scope_selected in Hsc as [Hsc _]. split; [|by exists issuer, (remaining, roster)].
  destruct Hinv as [Hnd Hat Hrows]. apply find_day_None in Hnone. cbn [set_cycle rot_days rot_attempts]. rewrite Ed, Ea. clear Ec Ed Ea.
  set (row := {| dr_day := day |}). set (new := {| at_day := day |}).
  set (st2 := {| rot_cycle := _ |}).
  assert (forall d, day_rows st2 d = day_rows st d ++ (if decide (day = d) then [new] else [])) as Erows.
  { intros d. unfold day_rows, st2. cbn [rot_attempts]. by rewrite filter_app, filter_cons, filter_nil. }
  split; unfold st2; cbn [rot_days rot_attempts].
  - rewrite map_app. apply NoDup_app. split; [done|]. split; [|apply NoDup_singleton]. by intros x Hx ->%list_elem_of_singleton.
  - apply Forall_app. split; [|apply Forall_singleton; rewrite map_app; apply elem_of_app; right; left].
    eapply Forall_impl; [exact Hat|]. intros b Hb. rewrite map_app. apply elem_of_app. by left.
  - fold st2. apply Forall_app. split.
    + apply Forall_forall. intros r Hr. rewrite Erows, decide_False.
      * rewrite app_nil_r. rewrite Forall_forall in Hrows. by apply Hrows.
      * intros E. apply Hnone. rewrite E. apply list_elem_of_fmap. by exists r.
    + apply Forall_singleton. cbn [row dr_day]. rewrite Erows, decide_True by done.
      assert (day_rows st day = []) as ->.
      { apply filter_none. apply Forall_forall. intros b Hb E. rewrite Forall_forall in Hat. apply Hnone. rewrite <- E. by apply Hat. }
      exists [], new. split; [done|]. split; [cbn; lia|]. split; [done|]. split; [by apply Forall_singleton|]. split; [constructor|done].
Qed.

(** ** Runs of the rotation *)

(** One operation with the configured pool, and the issuer it starts a new day with. *)
Inductive rotation_step (pool : list ustr) : rotation_state -> list ustr -> rotation_state -> Prop :=
| step_claim_new st rv day st' a :
    find_day st day = None -> claim st rv pool day = Ok (st', a) -> rotation_step pool st (sc_selected (as_scope a)) st'
| step_claim_again st rv day st' a :
    is_Some (find_day st day) -> claim st rv pool day = Ok (st', a) -> rotation_step pool st [] st'
| step_bind st a run_id st' a' : bind st a run_id = Ok (st', a') -> rotation_step pool st [] st'
| step_complete st a result st' a' : complete st a result = Ok (st', a') -> rotation_step pool st [] st'
| step_session_start st rv a st' a' : session_start st rv a = Ok (st', a') -> rotation_step pool st [] st'
| step_session_end st rv a o st' a' : session_end st rv a o = Ok (st', a') -> rotation_step pool st [] st'.

(** The issuers of the days claimed so far, oldest first. *)
Inductive rotation_run (pool : list ustr) : list ustr -> rotation_state -> Prop :=
| run_start : rotation_run pool [] empty_rotation
| run_step issuers st new st' : rotation_run pool issuers st -> rotation_step pool st new st' -> rotation_run pool (issuers ++ new) st'.

Lemma update_current_cycle fd fa st day n : rot_cycle (update_current fd fa st day n) = rot_cycle st.
Proof. done. Qed.

Lemma complete_cycle st a result st' a' : complete st a result = Ok (st', a') -> rot_cycle st' = rot_cycle st.
Proof. unfold complete. intros H. by apply bind_ok in H as (u & _ & [= <- _]). Qed.

Lemma rotation_step_spec pool st new st' :
  rotation_step pool st new st' -> rotation_inv st ->
  rotation_inv st' /\ ((new = [] /\ rot_cycle st' = rot_cycle st) \/
    exists issuer cycle, new = [issuer] /\ next_issuer (rot_cycle st) pool = Ok (issuer, cycle) /\ rot_cycle st' = Some cycle).
Proof.
  intros Hstep Hinv. destruct Hstep as [st rv day st' a Hn H|st rv day st' a Hs H|st a id st' a' H|st a j st' a' H|st rv a st' a' H|st rv a o st' a' H].
  - unfold claim in H. rewrite Hn in H. destruct (claim_new_spec _ _ _ _ _ _ Hinv Hn H) as (Hinv' & issuer & cycle & H1 & H2 & ->).
    split; [done|]. right. by exists issuer, cycle.
  - unfold claim in H. destruct Hs as [row Hrow]. rewrite Hrow in H. apply find_day_spec in Hrow as [Hrow _].
    destruct (claim_again_spec _ _ _ _ _ _ Hinv Hrow H) as (Hinv' & Hc & _). split; [done|]. by left.
  - split; [by eapply bind_inv|]. left. split; [done|]. unfold bind in H. apply bind_ok in H as (u & _ & H). by apply bind_ok in H as (u1 & _ & [= <- _]).
  - split; [by eapply complete_inv|]. left. split; [done|]. by eapply complete_cycle.
  - split; [by eapply session_start_inv|]. left. split; [done|]. unfold session_start in H.
    destruct (as_result a); [by injection H as <- _|]. destruct (as_run_id a) as [id|]; [|by injection H as <- _].
    destruct (terminal_run rv id); [by eapply complete_cycle|]. by apply bind_ok in H as (? & _ & [= <- _]).
  - split; [by eapply session_end_inv|]. left. split; [done|]. unfold session_end in H.
    destruct o; [|by injection H as <- _|by eapply complete_cycle].
    destruct (as_result a); [by eapply complete_cycle|]. destruct (as_run_id a) as [id|]; [|by injection H as <- _].
    destruct (terminal_run rv id); [by eapply complete_cycle|by injection H as <- _].
Qed.

(** The cycle after [k] new days. *)
Definition cycle_at (pool : list ustr) (k : nat) (cycle : option (list ustr * list ustr)) : Prop :=
  match cycle with
  | None => k = O
  | Some (remaining, roster) => roster = pool /\ exists r, remaining = drop r pool /\ (1 <= r <= length pool)%nat /\
      (k mod length pool = r mod length pool)%nat
  end.

Lemma next_in_cycle pool k cycle issuer cycle' :
  pool <> [] -> cycle_at pool k cycle -> next_issuer cycle pool = Ok (issuer, cycle') ->
  pool !! (k mod length pool)%nat = Some issuer /\ cycle_at pool (S k) (Some cycle').
Proof.
  intros Hne Hc H. assert (0 < length pool)%nat as Hn by (destruct pool; [done|cbn; lia]).
  assert (forall r, (r < length pool)%nat -> (k mod length pool = r)%nat -> Ok (issuer, cycle') =
    match drop r pool with x :: rest => Ok (x, (rest, pool)) | [] => Err IndexError end ->
    pool !! (k mod length pool)%nat = Some issuer /\ cycle_at pool (S k) (Some cycle')) as Hstep.
  { intros r Hr Hk E. destruct (lookup_lt_is_Some_2 pool r Hr) as [x Hx]. rewrite (drop_S _ _ _ Hx) in E. injection E as -> ->.
    rewrite Hk. split; [done|]. split; [done|]. exists (S r). split; [done|]. split; [lia|].
    replace (S k) with (k + 1)%nat by lia. replace (S r) with (r + 1)%nat by lia. by rewrite <- (Nat.Div0.add_mod_idemp_l k 1), Hk. }
  assert (forall r, (1 <= r <= length pool)%nat -> (k mod length pool = r mod length pool)%nat ->
    Ok (issuer, cycle') = match (match drop r pool with [] => pool | _ => drop r pool end) with x :: rest => Ok (x, (rest, pool)) | [] => Err IndexError end ->
    pool !! (k mod length pool)%nat = Some issuer /\ cycle_at pool (S k) (Some cycle')) as Hwrap.
  { intros r Hr Hk E. destruct (decide (r = length pool)) as [->|Hlt].
    - rewrite drop_all in E. apply (Hstep O); [lia| |exact E]. by rewrite Hk, Nat.Div0.mod_same.
    - assert (r < length pool)%nat as Hr' by lia. apply (Hstep r); [done| |].
      + by rewrite Hk, Nat.mod_small.
      + destruct (lookup_lt_is_Some_2 pool r Hr') as [x Hx]. by rewrite (drop_S _ _ _ Hx) in E |- *. }
  unfold next_issuer in H. destruct cycle as [[remaining roster]|].
  - destruct Hc as (-> & r & -> & Hr & Hk). rewrite filter_all in H.
    + apply (Hwrap r Hr Hk). rewrite <- H. by destruct (drop r pool).
    + apply Forall_forall. intros x Hx. rewrite <- (take_drop r pool). apply elem_of_app. by right.
  - cbn in Hc. subst k. apply (Hwrap (length pool)); [lia|by rewrite Nat.Div0.mod_same, Nat.Div0.mod_0_l|].
    rewrite drop_all, <- H. done.
Qed.

Lemma rotation_run_spec pool issuers st :
  rotation_run pool issuers st ->
  rotation_inv st /\ (pool <> [] -> cycle_at pool (length issuers) (rot_cycle st) /\
    forall k issuer, issuers !! k = Some issuer -> pool !! (k mod length pool)%nat = Some issuer).
Proof.
  induction 1 as [|issuers st new st' _ [IHinv IH] Hstep].
  - split; [apply empty_rotation_inv|]. intros _. split; [done|]. intros k issuer H. by rewrite lookup_nil in H.
  - destruct (rotation_step_spec _ _ _ _ Hstep IHinv) as [Hinv' Hcases]. split; [done|]. intros Hne.
    destruct (IH Hne) as [Hcyc Hall]. destruct Hcases as [[-> Hc]|(issuer & cycle & -> & Hn & Hc)].
    + rewrite app_nil_r, Hc. done.
    + destruct (next_in_cycle _ _ _ _ _ Hne Hcyc Hn) as [Hp Hc']. rewrite Hc, length_app. cbn [length].
      replace (length issuers + 1)%nat with (S (length issuers)) by lia. split; [done|].
      intros k i Hk. apply lookup_app_Some in Hk as [Hk|[Hle Hk]]; [by apply Hall|].
      destruct (k - length issuers)%nat as [|m] eqn:Em; [|done]. cbn in Hk. injection Hk as <-.
      by replace k with (length issuers) by lia.
Qed.

(** ** The properties *)

(** C25: round robin.  With a fixed pool the issuers of successive new days follow the
    pool in order, again and again, whatever happens between the claims: no issuer
    is skipped and none gets a second day before all others had one. *)
Theorem rotation_fair pool issuers st k issuer :
  pool <> [] -> rotation_run pool issuers st -> issuers !! k = Some issuer -> pool !! (k mod length pool)%nat = Some issuer.
Proof. intros Hne Hrun Hk. by apply (proj2 (rotation_run_spec _ _ _ Hrun) Hne). Qed.

(** The tables reachable with any sequence of pools. *)
Definition rotation_reachable (st : rotation_state) : Prop :=
  rtc (fun s s' => exists pool new, rotation_step pool s new s') empty_rotation st.

Lemma reachable_inv st : rotation_reachable st -> rotation_inv st.
Proof.
  unfold rotation_reachable. intros H. pattern st. revert st H. apply rtc_ind_r; [apply empty_rotation_inv|].
  intros s s' _ (pool & new & Hstep) Hinv. by apply (rotation_step_spec _ _ _ _ Hstep).
Qed.

(** The tables stay well-formed: a day has one row and one issuer, between one and
    three attempts numbered in order, every attempt but the last has its result,
    and the row repeats the run and the result of the last. *)
Theorem rotation_well_formed st :
  rotation_reachable st ->
  NoDup (map dr_day (rot_days st)) /\ Forall (fun a => at_day a ∈ map dr_day (rot_days st)) (rot_attempts st) /\
  Forall (fun r => day_ok r (day_rows st (dr_day r))) (rot_days st).
Proof. intros H. by destruct (reachable_inv st H). Qed.

(** Opening the next attempt never violates the key of the attempts. *)
Lemma insert_attempt_fresh st row f :
  rotation_inv st -> row ∈ rot_days st ->
  insert_attempt (dr_day row) (attempt_count st (dr_day row) + 1) (dr_issuer row) (update_day f (dr_day row) st) <> Err (Raised "IntegrityError" "UNIQUE constraint failed").
Proof.
  intros Hinv Hrow H. destruct (day_ok_max st row Hinv Hrow) as [Hm _]. unfold attempt_count in H. rewrite Hm in H. cbn [default] in H.
  unfold insert_attempt in H. destruct (existsb _ _) eqn:E; [|done]. clear H.
  apply existsb_exists in E as (a & Hin%list_elem_of_In & Hb). bsplit. cbn [update_day rot_attempts] in Hin.
  pose proof (ri_rows _ Hinv) as Hr. rewrite Forall_forall in Hr. destruct (Hr row Hrow) as (_ & _ & _ & _ & Hnum & _).
  assert (at_attempt a ∈ map at_attempt (day_rows st (dr_day row))) as Hat.
  { apply list_elem_of_fmap. exists a. split; [done|]. by apply list_elem_of_filter. }
  rewrite Hnum in Hat. apply elem_of_seqZ in Hat. unfold default, id in *. lia.
Qed.

Lemma round_robin_ok pool s : s ∈ pool ->
  round_robin pool s = Ok {| sc_pool := pool; sc_selected := [s]; sc_mode := us "round_robin" |}.
Proof.
  intros Hs. unfold round_robin, make_scope.
  rewrite (bool_decide_eq_false_2 ([s] = [])), (bool_decide_eq_true_2 (NoDup [s])), (bool_decide_eq_true_2 (Forall _ [s]));
    [done|by apply Forall_singleton|apply NoDup_singleton|done].
Qed.

(** A claim on a day that has its issuer keeps that issuer; when the last attempt
    has ended it opens the next attempt, refuses a fourth, and fails otherwise only
    when the issuer left the pool. *)
Theorem claim_day_again st rv pool day row :
  rotation_reachable st -> find_day st day = Some row ->
  let ended := bool_decide (is_Some (settle_day st rv row).2) in
  match claim st rv pool day with
  | Ok (st', a) =>
      dr_issuer row ∈ pool /\ sc_selected (as_scope a) = [dr_issuer row] /\ as_day a = Some day /\ rot_cycle st' = rot_cycle st /\
      as_attempt a = (if ended then attempt_count st day + 1 else attempt_count st day) /\ as_attempt a <= 3 /\
      as_run_id a = (if ended then None else dr_run_id row)
  | Err e =>
      (dr_issuer row ∉ pool /\ e = PartialExecutionError "rotation_assigned_issuer_disabled") \/
      (ended = true /\ attempt_count st day = 3 /\ e = PartialExecutionError "rotation_daily_attempt_limit")
  end.
Proof.
  intros Hreach Hfind. pose proof (reachable_inv st Hreach) as Hinv. pose proof Hfind as Hrow. apply find_day_spec in Hrow as [Hin <-].
  cbv zeta. unfold claim. rewrite Hfind. destruct (claim_again st rv pool row) as [[st' a]|e] eqn:E.
  - destruct (claim_again_spec _ _ _ _ _ _ Hinv Hin E) as (_ & Hc & _ & Hd & Hs & Hb & Hp & Ha & Hr). tauto.
  - unfold claim_again in E. case_bool_decide as Hp; [|left; by injection E as <-]. right. cbn [negb raise_if res_bind] in E.
    destruct (settle_day st rv row) as [st1 result] eqn:Es.
    destruct (settle_inv _ _ _ _ _ Hinv Hin Es) as (Hinv1 & _ & _ & Hcount & row' & Hrow' & Hd' & Hi' & _).
    rewrite round_robin_ok in E by done. destruct result as [j|]; [|done]. rewrite bool_decide_eq_true_2 by by eexists.
    destruct (day_ok_max st row Hinv Hin) as [Hm Hb]. assert (attempt_count st (dr_day row) <= 3) as Hle by (unfold attempt_count; rewrite Hm; cbn; lia).
    destruct (Z.leb_spec 3 (attempt_count st (dr_day row))) as [H3|H3].
    + injection E as <-. repeat (split; [done|]). split; [lia|done].
    + exfalso. cbn [raise_if res_bind] in E. rewrite <- Hcount, <- Hd', <- Hi' in E.
      pose proof (insert_attempt_fresh st1 row' (fun r => set_day_run None (set_day_result None r)) Hinv1 Hrow') as Hf.
      unfold insert_attempt in *. by destruct (existsb _ _).
Qed.

(** ** Samples *)
Definition sample_pool : list ustr := [us "kb"; us "bc"].
Definition sample_view (status : option ustr) : run_view := {| rv_status := fun _ => status; rv_sealed := fun _ => false |}.
Definition sample_claims (days : list ustr) : res rotation_state :=
  fold_left (fun acc day => let! st := acc in let! out := claim st (sample_view None) sample_pool day in Ok out.1) days (Ok empty_rotation).
Definition sample_days : list ustr := [us "2026-07-01"; us "2026-07-02"; us "2026-07-03"].
Definition sample_rotation (days : list ustr) : rotation_state := match sample_claims days with Ok st => st | Err _ => empty_rotation end.
Definition sample_assignment (day : ustr) (issuer : ustr) : Assignment :=
  {| as_scope := {| sc_pool := sample_pool; sc_selected := [issuer]; sc_mode := us "round_robin" |};
     as_day := Some day; as_run_id := None; as_result := None; as_attempt := 1 |}.

Lemma sample_claim_1 : claim empty_rotation (sample_view None) sample_pool (us "2026-07-01") =
  Ok (sample_rotation (take 1 sample_days), sample_assignment (us "2026-07-01") (us "kb")).
Proof. by vm_compute. Qed.
Lemma sample_claim_2 : claim (sample_rotation (take 1 sample_days)) (sample_view None) sample_pool (us "2026-07-02") =
  Ok (sample_rotation (take 2 sample_days), sample_assignment (us "2026-07-02") (us "bc")).
Proof. by vm_compute. Qed.
Lemma sample_claim_3 : claim (sample_rotation (take 2 sample_days)) (sample_view None) sample_pool (us "2026-07-03") =
  Ok (sample_rotation (take 3 sample_days), sample_assignment (us "2026-07-03") (us "kb")).
Proof. by vm_compute. Qed.

Lemma sample_run : rotation_run sample_pool [us "kb"; us "bc"; us "kb"] (sample_rotation (take 3 sample_days)).
Proof.
  apply (run_step _ [us "kb"; us "bc"] (sample_rotation (take 2 sample_days)) [us "kb"]); [|eapply (step_claim_new _ _ _ _ _ (sample_assignment _ _)); [|exact sample_claim_3]; by vm_compute].
  apply (run_step _ [us "kb"] (sample_rotation (take 1 sample_days)) [us "bc"]); [|eapply (step_claim_new _ _ _ _ _ (sample_assignment _ _)); [|exact sample_claim_2]; by vm_compute].
  apply (run_step _ [] empty_rotation [us "kb"]); [constructor|eapply (step_claim_new _ _ _ _ _ (sample_assignment _ _)); [|exact sample_claim_1]; by vm_compute].
Qed.

Lemma sample_reachable : rotation_reachable (sample_rotation (take 3 sample_days)).
Proof.
  apply (rtc_l _ _ (sample_rotation (take 1 sample_days))); [exists sample_pool, [us "kb"]; eapply (step_claim_new _ _ _ _ _ (sample_assignment _ _)); [|exact sample_claim_1]; by vm_compute|].
  apply (rtc_l _ _ (sample_rotation (take 2 sample_days))); [exists sample_pool, [us "bc"]; eapply (step_claim_new _ _ _ _ _ (sample_assignment _ _)); [|exact sample_claim_2]; by vm_compute|].
  apply rtc_once. exists sample_pool, [us "kb"]. eapply (step_claim_new _ _ _ _ _ (sample_assignment _ _)); [|exact sample_claim_3]; by vm_compute.
Qed.

(** The third day after a run that succeeded. *)
Definition sample_ended : rotation_state :=
  match bind (sample_rotation (take 3 sample_days)) (sample_assignment (us "2026-07-03") (us "kb")) (us "run-1") with
  | Ok (st, _) => st
  | Err _ => empty_rotation
  end.
Definition sample_row : DayRow :=
  {| dr_day := us "2026-07-03"; dr_issuer := us "kb"; dr_run_id := Some (us "run-1"); dr_result := None |}.

Lemma sample_ended_reachable : rotation_reachable sample_ended.
Proof.
  eapply rtc_r; [exact sample_reachable|]. exists sample_pool, [].
  apply (step_bind _ _ (sample_assignment (us "2026-07-03") (us "kb")) (us "run-1") _
    {| as_scope := as_scope (sample_assignment (us "2026-07-03") (us "kb")); as_day := Some (us "2026-07-03");
       as_run_id := Some (us "run-1"); as_result := None; as_attempt := 1 |}). by vm_compute.
Qed.
Lemma sample_row_found : find_day sample_ended (us "2026-07-03") = Some sample_row.
Proof. by vm_compute. Qed.
Lemma sample_pool_nonempty : sample_pool <> [].
Proof. done. Qed.
Lemma sample_third : [us "kb"; us "bc"; us "kb"] !! 2%nat = Some (us "kb").
Proof. done. Qed.

(** ** Witnesses *)
Lemma rotation_fair_witness : sample_pool !! (2 mod length sample_pool)%nat = Some (us "kb").
Proof. exact (rotation_fair sample_pool _ _ 2%nat (us "kb") sample_pool_nonempty sample_run sample_third). Defined.

Lemma rotation_well_formed_witness :
  Forall (fun r => day_ok r (day_rows sample_ended (dr_day r))) (rot_days sample_ended) /\ length (rot_days sample_ended) = 3%nat.
Proof. split; [exact (proj2 (proj2 (rotation_well_formed sample_ended sample_ended_reachable)))|by vm_compute]. Defined.

Lemma claim_day_again_witness :
  match claim sample_ended (sample_view (Some (us "succeeded"))) sample_pool (us "2026-07-03") with
  | Ok (_, a) => sc_selected (as_scope a) = [us "kb"] /\ as_attempt a = 2
  | Err _ => False
  end.
Proof.
  pose proof (claim_day_again sample_ended (sample_view (Some (us "succeeded"))) sample_pool _ _ sample_ended_reachable sample_row_found) as H.
  destruct (claim sample_ended _ _ _) as [[st a]|e] eqn:E.
  - destruct H as (_ & H1 & _ & _ & H2 & _). by split.
  - by vm_compute in E.
Defined.
