(* ===== verification/Ocr.v ===== *)
(** OCR artifacts and their identities ([cardrag_core/ocr.py]): the strict verification
    of OCR bytes, and the reuse keys of the OCR caches.

    The contract is a value of the model; the field types that pydantic enforces are the
    types of the record and the conditions of [valid_contract]. *)
From S2P Require Export Json Regex.

Definition OCRVerificationError : exn := Raised "OCRVerificationError" "".

(** ** Verified OCR text *)

(** [payload.decode("utf-8")]: well-formed sequences of Unicode scalar values only. *)
Definition is_scalar (c : N) : bool := (c <? 55296)%N || in_range 57344 1114111 c.
Definition decode_utf8 (payload : list N) : option ustr :=
  let t := utf8_decode payload in
  if forallb is_scalar t && bool_decide (utf8_encode t = payload) then Some t else None.

(** The page marker, [^] and [$] in multi-line mode: it matches whole lines only. *)
Definition re_page_marker : regex := seqs [lit (us "## Page "); rng 49 57; Star (rng 48 57)].
Definition is_marker (line : ustr) : bool := fullmatch re_page_marker line.
Fixpoint marker_scan (pos : Z) (lines : list ustr) : list (Z * ustr) :=
  match lines with
  | [] => []
  | line :: rest => (if is_marker line then [(pos, drop 8 line)] else []) ++ marker_scan (pos + zlen line + 1) rest
  end.
Definition find_markers (text : ustr) : list (Z * ustr) := marker_scan 0 (split_on 10 text).

(** [int(digits)], which refuses more than 4300 digits. *)
Definition int_limited (digits : ustr) : res Z :=
  let! _ := raise_if (4300 <? zlen digits) (ValueError "Exceeds the limit (4300 digits) for integer string conversion") in
  Ok (int_of_digits digits).

(** The slices from one marker to the next, stripped. *)
Fixpoint page_slices (text : ustr) (starts : list Z) : list ustr :=
  match starts with
  | [] => []
  | s :: rest => strip (slice text s (match rest with e :: _ => e | [] => zlen text end)) :: page_slices text rest
  end.

Definition canonical_text (pages : list ustr) : ustr := join [10%N; 10%N] pages ++ [10%N].

Definition split_pages (text : ustr) (expected_page_count minimum_chars_per_page : Z) : res (list ustr) :=
  let markers := find_markers text in
  let! marker_numbers := mapM_res int_limited (map snd markers) in
  let! _ := raise_if (negb (bool_decide (marker_numbers = seqZ 1 expected_page_count))) OCRVerificationError in
  let pages := page_slices text (map fst markers) in
  let! _ := raise_if (existsb (fun page => zlen page <? minimum_chars_per_page) pages) OCRVerificationError in
  let! _ := raise_if (negb (bool_decide (text = canonical_text pages))) OCRVerificationError in
  Ok pages.

Record VerifiedOCR := {
  vo_text : ustr;
  vo_sha256 : ustr;
  vo_size_bytes : Z;
  vo_char_count : Z;
  vo_pages : list ustr;
  vo_page_sha256 : list ustr;
}.

(** The optional arguments. *)
Record ocr_expectation := {
  ex_sha256 : option ustr;
  ex_size_bytes : option Z;
  ex_char_count : option Z;
  ex_page_sha256 : option (list ustr);
  ex_minimum_chars : Z;
}.
Definition differs {A} `{EqDecision A} (expected : option A) (actual : A) : bool :=
  match expected with Some e => negb (bool_decide (actual = e)) | None => false end.

Definition verify_ocr_bytes (payload : list N) (expected_page_count : Z) (ex : ocr_expectation) : res VerifiedOCR :=
  let! _ := raise_if (expected_page_count <? 1) (ValueError "expected_page_count must be positive") in
  let! _ := raise_if (ex_minimum_chars ex <? 1) (ValueError "minimum_chars_per_page must be positive") in
  let! _ := raise_if (existsb (fun b => (b =? 0)%N || (b =? 13)%N) payload) OCRVerificationError in
  let! _ := raise_if (differs (ex_size_bytes ex) (zlen payload)) OCRVerificationError in
  let digest := sha256_bytes payload in
  let! _ := raise_if (differs (ex_sha256 ex) digest) OCRVerificationError in
  let! text := of_option OCRVerificationError (decode_utf8 payload) in
  let! pages := split_pages text expected_page_count (ex_minimum_chars ex) in
  let! _ := raise_if (differs (ex_char_count ex) (zlen text)) OCRVerificationError in
  let page_hashes := map (fun page => sha256_bytes (utf8_encode page)) pages in
  let! _ := raise_if (differs (ex_page_sha256 ex) page_hashes) OCRVerificationError in
  Ok {| vo_text := text; vo_sha256 := digest; vo_size_bytes := zlen payload; vo_char_count := zlen text;
        vo_pages := pages; vo_page_sha256 := page_hashes |}.

(** ** Reuse keys *)
Inductive OCRContractSchema := ContractV1 | ContractV2.
Definition schema_name (s : OCRContractSchema) : ustr :=
  match s with ContractV1 => us "cardrag.ocr-contract.v1" | ContractV2 => us "cardrag.ocr-contract.v2" end.

Record NativeOCRContract := {
  oc_schema_version : OCRContractSchema;
  oc_processor_version : ustr;
  oc_cache_epoch : Z;
  oc_prompt_version : ustr;
  oc_prompt_sha256 : ustr;
  oc_renderer_id : ustr;
  oc_render_scale_milli : Z;
  oc_provider : ustr;
  oc_model : ustr;
  oc_reasoning_effort : option ustr;
  oc_chunk_pages : option Z;
  oc_segmentation_strategy_id : option ustr;
  oc_whole_document_max_pages : option Z;
  oc_target_pages_per_call : option Z;
  oc_context_pages_before : option Z;
  oc_context_pages_after : option Z;
  oc_output_policy : option ustr;
}.

Definition absent {A} (o : option A) : bool := match o with Some _ => false | None => true end.
Definition absent_fields (c : NativeOCRContract) : list bool :=
  [absent (oc_segmentation_strategy_id c); absent (oc_whole_document_max_pages c); absent (oc_target_pages_per_call c);
   absent (oc_context_pages_before c); absent (oc_context_pages_after c); absent (oc_output_policy c)].

Definition segmentation_contract_matches_schema (c : NativeOCRContract) : res unit :=
  match oc_schema_version c with
  | ContractV1 =>
      let! _ := raise_if (absent (oc_chunk_pages c)) (ValueError "v1 OCR contract requires chunk_pages") in
      raise_if (existsb negb (absent_fields c)) (ValueError "v1 OCR contract cannot contain v2 segmentation fields")
  | ContractV2 =>
      let! _ := raise_if (negb (absent (oc_chunk_pages c))) (ValueError "v2 OCR contract must use target_pages_per_call, not chunk_pages") in
      raise_if (existsb id (absent_fields c)) (ValueError "v2 OCR contract requires the complete segmentation contract")
  end.

Definition JOptZ (o : option Z) : json := match o with Some z => JInt z | None => JNull end.

(** [serialize_by_schema]: the fields of the other schema are left out. *)
Definition contract_payload (c : NativeOCRContract) : json :=
  JObj ([(us "schema_version", JStr (schema_name (oc_schema_version c)));
         (us "processor_version", JStr (oc_processor_version c));
         (us "output_profile", JStr (us "cardrag.ocr-markdown.v1"));
         (us "cache_epoch", JInt (oc_cache_epoch c));
         (us "prompt_version", JStr (oc_prompt_version c));
         (us "prompt_sha256", JStr (oc_prompt_sha256 c));
         (us "renderer_id", JStr (oc_renderer_id c));
         (us "render_scale_milli", JInt (oc_render_scale_milli c));
         (us "provider", JStr (oc_provider c));
         (us "model", JStr (oc_model c));
         (us "reasoning_effort", JOpt (oc_reasoning_effort c))] ++
        match oc_schema_version c with
        | ContractV1 => [(us "chunk_pages", JOptZ (oc_chunk_pages c))]
        | ContractV2 =>
            [(us "segmentation_strategy_id", JOpt (oc_segmentation_strategy_id c));
             (us "whole_document_max_pages", JOptZ (oc_whole_document_max_pages c));
             (us "target_pages_per_call", JOptZ (oc_target_pages_per_call c));
             (us "context_pages_before", JOptZ (oc_context_pages_before c));
             (us "context_pages_after", JOptZ (oc_context_pages_after c));
             (us "output_policy", JOpt (oc_output_policy c))]
        end).
Definition contract_sha256 (c : NativeOCRContract) : ustr := canonical_sha256 (contract_payload c).

Record OCRInput := { oi_pdf_sha256 : ustr; oi_pdf_size_bytes : Z; oi_page_count : Z }.
Definition input_payload (source : OCRInput) : json :=
  JObj [(us "schema_version", JStr (us "cardrag.ocr-input.v1")); (us "pdf_sha256", JStr (oi_pdf_sha256 source));
        (us "pdf_size_bytes", JInt (oi_pdf_size_bytes source)); (us "page_count", JInt (oi_page_count source))].

Definition native_key_payload (contract : NativeOCRContract) (source : OCRInput) : json :=
  JObj [(us "contract_sha256", JStr (contract_sha256 contract)); (us "input", input_payload source);
        (us "schema_version", JStr (us "cardrag.ocr-reuse-key.v1"))].
Definition native_ocr_reuse_key (contract : NativeOCRContract) (source : OCRInput) : ustr :=
  canonical_sha256 (native_key_payload contract source).

Definition content_key_payload (source : OCRInput) (cache_epoch : Z) : json :=
  JObj [(us "cache_epoch", JInt cache_epoch); (us "input", input_payload source);
        (us "schema_version", JStr (us "cardrag.ocr-content-reuse-key.v2"))].
Definition content_addressed_ocr_reuse_key (source : OCRInput) (cache_epoch : Z) : res ustr :=
  let! _ := raise_if (cache_epoch <? 0) (ValueError "OCR cache epoch must be a nonnegative integer") in
  Ok (canonical_sha256 (content_key_payload source cache_epoch)).
