(* ===== verification/OcrProof.v ===== *)
(** The strict verification of OCR bytes accepts exactly the canonical join of
    numbered pages and gives the pages back; the reuse keys bind every field of the
    contract and of the input. *)
From S2P Require Export Ocr Paths.

(** ** Stripping *)
Section Strip.
Context (p : N -> bool).

Lemma lstrip_suffix t : exists s, t = s ++ lstrip_by p t /\ Forall (fun c => p c = true) s.
Proof.
  induction t as [|c t (s & E & H)]; [by exists []|]. cbn. destruct (p c) eqn:Hc; [|by exists []].
  exists (c :: s). split; [by rewrite E at 1|by constructor].
Qed.

Lemma lstrip_head t c r : lstrip_by p t = c :: r -> p c = false.
Proof. induction t as [|d t IH]; [done|]. cbn. destruct (p d) eqn:E; [done|]. by intros [= <- <-]. Qed.

Lemma lstrip_id c t : p c = false -> lstrip_by p (c :: t) = c :: t.
Proof. cbn. by intros ->. Qed.

Lemma lstrip_idem t : lstrip_by p (lstrip_by p t) = lstrip_by p t.
Proof. destruct (lstrip_by p t) as [|c r] eqn:E; [done|]. apply lstrip_id. by eapply lstrip_head. Qed.

Lemma lstrip_spaces s t : Forall (fun c => p c = true) s -> lstrip_by p (s ++ t) = lstrip_by p t.
Proof. induction 1 as [|c s Hc _ IH]; [done|]. cbn. by rewrite Hc. Qed.

Lemma rstrip_prefix t : exists s, t = rstrip_by p t ++ s /\ Forall (fun c => p c = true) s.
Proof.
  destruct (lstrip_suffix (rev t)) as (s & E & H). exists (rev s). split; [|by apply Forall_rev].
  unfold rstrip_by. by rewrite <- rev_app_distr, <- E, rev_involutive.
Qed.

Lemma rstrip_spaces t s : Forall (fun c => p c = true) s -> rstrip_by p (t ++ s) = rstrip_by p t.
Proof. intros H. unfold rstrip_by. by rewrite rev_app_distr, lstrip_spaces by by apply Forall_rev. Qed.

Lemma rstrip_id t c : p c = false -> rstrip_by p (t ++ [c]) = t ++ [c].
Proof. intros H. unfold rstrip_by. rewrite rev_app_distr. cbn [rev app]. rewrite lstrip_id by done. cbn. by rewrite rev_involutive. Qed.

Lemma rstrip_idem t : rstrip_by p (rstrip_by p t) = rstrip_by p t.
Proof. unfold rstrip_by. by rewrite rev_involutive, lstrip_idem. Qed.

(** Stripping keeps a text between two visible characters whole. *)
Lemma rstrip_app t c s : p c = false -> rstrip_by p (t ++ c :: s) = t ++ c :: rstrip_by p s.
Proof.
  intros Hc. destruct (rstrip_prefix s) as (w & E & Hw). remember (rstrip_by p s) as s' eqn:Es. rewrite E at 1.
  change (t ++ c :: s' ++ w) with (t ++ (c :: s') ++ w). rewrite app_assoc, rstrip_spaces by done.
  destruct s' as [|x s' _] using rev_ind; [by apply rstrip_id|].
  rewrite app_comm_cons, app_assoc. apply rstrip_id.
  pose proof (rstrip_idem s) as Hi. rewrite <- Es in Hi. unfold rstrip_by in Hi. rewrite rev_app_distr in Hi. cbn [rev app] in Hi.
  destruct (p x) eqn:Hx; [|done]. exfalso. cbn [lstrip_by] in Hi. rewrite Hx in Hi.
  apply (f_equal length) in Hi. rewrite length_rev, length_app in Hi. cbn in Hi.
  destruct (lstrip_suffix (rev s')) as (u & Eu & _). apply (f_equal length) in Eu. rewrite length_app, length_rev in Eu. lia.
Qed.

Lemma strip_visible c t s : p c = false -> Forall (fun d => p d = true) s -> strip_by p (c :: t) = c :: t -> strip_by p (c :: t ++ s) = c :: t.
Proof.
  unfold strip_by. intros Hc Hs. rewrite !lstrip_id by done. intros H. by rewrite app_comm_cons, rstrip_spaces.
Qed.

Lemma strip_fixed_head t : strip_by p t = t -> t = [] \/ exists c r, t = c :: r /\ p c = false.
Proof.
  intros H. destruct t as [|c r]; [by left|]. right. exists c, r. split; [done|]. destruct (p c) eqn:E; [|done]. exfalso.
  unfold strip_by in H. cbn [lstrip_by] in H. rewrite E in H.
  destruct (rstrip_prefix (lstrip_by p r)) as (s & E1 & _), (lstrip_suffix r) as (u & E2 & _).
  apply (f_equal length) in H, E1, E2. rewrite length_app in E1, E2. cbn in H. lia.
Qed.

Lemma strip_idem t : strip_by p (strip_by p t) = strip_by p t.
Proof.
  destruct (lstrip_by p t) as [|c r] eqn:E; [unfold strip_by; by rewrite E|].
  assert (p c = false) as Hc by by eapply lstrip_head.
  assert (strip_by p t = c :: rstrip_by p r) as -> by (unfold strip_by; rewrite E; by apply (rstrip_app [])).
  unfold strip_by. rewrite lstrip_id by done. by rewrite (rstrip_app [] c _ Hc : rstrip_by p (c :: _) = _), rstrip_idem.
Qed.
End Strip.

(** ** Lines and markers *)
(** The length of a text from its lines. *)
Definition lines_length (lines : list ustr) : Z := fold_right (fun l n => zlen l + 1 + n) 0 lines.

Lemma split_on_length sep t : lines_length (split_on sep t) = zlen t + 1.
Proof.
  induction t as [|c t IH]; [done|]. cbn [split_on]. rewrite zlen_cons. pose proof (split_on_not_nil sep t) as Hne.
  destruct (c =? sep)%N; cbn [lines_length fold_right]; [fold (lines_length (split_on sep t)); rewrite zlen_nil; lia|].
  destruct (split_on sep t) as [|l ls]; [done|]. cbn [lines_length fold_right] in *. rewrite zlen_cons. lia.
Qed.

Lemma marker_scan_app pos l1 l2 : marker_scan pos (l1 ++ l2) = marker_scan pos l1 ++ marker_scan (pos + lines_length l1) l2.
Proof.
  revert pos. induction l1 as [|l l1 IH]; intros pos; cbn [app marker_scan lines_length fold_right].
  - by rewrite Z.add_0_r.
  - rewrite IH, <- app_assoc. fold (lines_length l1). by replace (pos + zlen l + 1 + lines_length l1) with (pos + (zlen l + 1 + lines_length l1)) by lia.
Qed.

Lemma marker_scan_none pos lines : Forall (fun l => is_marker l = false) lines -> marker_scan pos lines = [].
Proof. intros H. revert pos. induction H as [|l ls Hl _ IH]; intros pos; [done|]. cbn. by rewrite Hl, IH. Qed.

Lemma marker_count pos lines : length (marker_scan pos lines) = length (filter (fun l => is_marker l = true) lines).
Proof.
  revert pos. induction lines as [|l ls IH]; intros pos; [done|]. cbn [marker_scan]. rewrite length_app, IH, filter_cons.
  by destruct (is_marker l).
Qed.

(** A marker line has a visible first and last character and no line feed. *)
Lemma marker_spec line :
  is_marker line = true -> exists t c, line = us "## Page " ++ t ++ [c] /\ Forall (fun d => is_ascii_digit d = true) (t ++ [c]).
Proof.
  unfold is_marker. rewrite fullmatch_lang. unfold re_page_marker. cbn [seqs]. intros (t1 & t2 & -> & H1 & H2)%lang_seq_inv.
  apply lang_lit in H1 as ->. apply lang_seq_inv in H2 as (t3 & t4 & -> & H3 & H4). apply lang_chr_inv in H3 as (d & -> & Hd).
  assert (Forall (fun d => is_ascii_digit d = true) t4) as Hall.
  { remember (Star (rng 48 57)) as r eqn:Er. clear -H4 Er. induction H4 as [| | | | |r'|r' t u Ht IHt Hu IHu]; try done.
    injection Er as ->. apply Forall_app. split; [|by apply IHu]. apply lang_chr_inv in Ht as (c & -> & Hc). by apply Forall_singleton. }
  assert (Forall (fun d => is_ascii_digit d = true) (d :: t4)) as Hdig.
  { constructor; [|done]. unfold is_ascii_digit, in_range in *. apply andb_true_iff in Hd as [H1 H2]. apply N.leb_le in H1, H2.
    apply andb_true_iff. rewrite !N.leb_le. lia. }
  clear Hall. destruct (d :: t4) as [|x l _] eqn:E using rev_ind; [done|]. exists l, x. split; [|done].
  change (us "## Page " ++ [d] ++ t4) with (us "## Page " ++ (d :: t4)). by rewrite E.
Qed.

Lemma digit_visible c : is_ascii_digit c = true -> isspace_cp c = false /\ c <> 10%N.
Proof.
  unfold is_ascii_digit, in_range. rewrite andb_true_iff, !N.leb_le. intros [H1 H2].
  assert (c ∈ [48;49;50;51;52;53;54;55;56;57]%N) as Hin by (rewrite !elem_of_cons; lia).
  clear H1 H2. revert c Hin. apply (Forall_forall (fun c => isspace_cp c = false /\ c <> 10%N)). by repeat constructor.
Qed.

(** ** Pages *)

(** A page: its first line is the marker of its number, no other line is a marker, it
    is stripped and long enough. *)
Definition page_ok (minimum number : Z) (page : ustr) : Prop :=
  (exists line rest, split_on 10 page = line :: rest /\ is_marker line = true /\ int_limited (drop 8 line) = Ok number /\
    Forall (fun l => is_marker l = false) rest) /\
  strip page = page /\ minimum <= zlen page.
Definition pages_ok (count minimum : Z) (pages : list ustr) : Prop := Forall2 (page_ok minimum) (seqZ 1 count) pages.

Fixpoint page_starts (pos : Z) (pages : list ustr) : list Z :=
  match pages with [] => [] | p :: ps => pos :: page_starts (pos + zlen p + 2) ps end.

Lemma canonical_text_cons p q ps : canonical_text (p :: q :: ps) = p ++ 10%N :: 10%N :: canonical_text (q :: ps).
Proof. unfold canonical_text. change (join _ (p :: q :: ps)) with (p ++ [10%N; 10%N] ++ join [10%N; 10%N] (q :: ps)). by rewrite <- !app_assoc. Qed.
Lemma canonical_text_one p : canonical_text [p] = p ++ [10%N].
Proof. done. Qed.

Lemma canonical_lines p ps :
  split_on 10 (canonical_text (p :: ps)) =
  split_on 10 p ++ [[]] ++ match ps with [] => [] | _ => split_on 10 (canonical_text ps) end.
Proof. destruct ps as [|q ps]; [apply split_on_app|]. rewrite canonical_text_cons, split_on_app. cbn [split_on]. done. Qed.

(** The markers of a canonical text, page after page. *)
Lemma canonical_markers pos p ps :
  marker_scan pos (split_on 10 (canonical_text (p :: ps))) =
  marker_scan pos (split_on 10 p) ++
  match ps with [] => [] | _ => marker_scan (pos + zlen p + 2) (split_on 10 (canonical_text ps)) end.
Proof.
  rewrite canonical_lines, marker_scan_app, split_on_length. f_equal. cbn [marker_scan app].
  replace (is_marker []) with false by done. cbn [app]. rewrite zlen_nil. destruct ps; [done|].
  f_equal. lia.
Qed.

Lemma page_markers minimum number pos page :
  page_ok minimum number page ->
  exists digits, marker_scan pos (split_on 10 page) = [(pos, digits)] /\ int_limited digits = Ok number.
Proof.
  intros [(line & rest & -> & Hm & Hn & Hrest) _]. exists (drop 8 line). split; [|done].
  cbn [marker_scan]. by rewrite Hm, marker_scan_none.
Qed.

Lemma pages_markers minimum numbers pages : forall pos,
  Forall2 (page_ok minimum) numbers pages -> pages <> [] ->
  map fst (marker_scan pos (split_on 10 (canonical_text pages))) = page_starts pos pages /\
  mapM_res int_limited (map snd (marker_scan pos (split_on 10 (canonical_text pages)))) = Ok numbers.
Proof.
  intros pos H. revert pos. induction H as [|n p ns ps Hp Hps IH]; intros pos Hne; [done|]. rewrite canonical_markers.
  destruct (page_markers _ _ pos _ Hp) as (digits & -> & Hd). cbn [app map fst snd mapM_res page_starts]. rewrite Hd. cbn [res_bind].
  destruct ps as [|q ps].
  - inversion Hps. done.
  - destruct (IH (pos + zlen p + 2) ltac:(done)) as [-> ->]. done.
Qed.

(** ** Slicing a canonical text gives its pages *)
Lemma page_visible minimum number page : page_ok minimum number page -> exists c r, page = c :: r /\ isspace_cp c = false.
Proof.
  intros [(line & rest & E & Hm & _) [Hs _]]. destruct (strip_fixed_head _ _ Hs) as [->|H]; [|done].
  injection E as <- _. by apply marker_spec in Hm as (t & c & H & _).
Qed.

Lemma strip_page_space page s c r :
  page = c :: r -> isspace_cp c = false -> strip page = page -> Forall (fun d => isspace_cp d = true) s -> strip (page ++ s) = page.
Proof. intros -> Hc Hp Hs. by apply strip_visible. Qed.

Lemma slices_of_pages minimum numbers pages : forall pre,
  Forall2 (page_ok minimum) numbers pages -> pages <> [] ->
  page_slices (pre ++ canonical_text pages) (page_starts (zlen pre) pages) = pages.
Proof.
  intros pre H. revert pre. induction H as [|n p ns ps Hp Hps IH]; intros pre Hne; [done|]. cbn [page_starts page_slices].
  destruct (page_visible _ _ _ Hp) as (c & r & Ep & Hc). destruct Hp as [_ [Hstrip _]].
  destruct ps as [|q ps].
  - cbn [page_starts page_slices]. f_equal. rewrite canonical_text_one, zlen_app.
    pose proof (slice_app_middle pre (p ++ [10%N]) []) as E. rewrite app_nil_r in E. rewrite E.
    eapply strip_page_space; [exact Ep|done..|by apply Forall_singleton].
  - specialize (IH (pre ++ p ++ [10%N; 10%N]) ltac:(done)).
    replace (zlen (pre ++ p ++ [10%N; 10%N])) with (zlen pre + zlen p + 2) in IH by (rewrite !zlen_app, !zlen_cons, zlen_nil; lia).
    replace ((pre ++ p ++ [10%N; 10%N]) ++ canonical_text (q :: ps)) with (pre ++ canonical_text (p :: q :: ps)) in IH
      by (rewrite canonical_text_cons, <- !app_assoc; done).
    rewrite IH. f_equal. cbn [page_starts]. rewrite canonical_text_cons.
    pose proof (slice_app_middle pre (p ++ [10%N; 10%N]) (canonical_text (q :: ps))) as E. rewrite <- !app_assoc in E. cbn [app] in E.
    replace (zlen (p ++ [10%N; 10%N])) with (zlen p + 2) in E by (rewrite !zlen_app, !zlen_cons, zlen_nil; lia).
    replace (zlen pre + (zlen p + 2)) with (zlen pre + zlen p + 2) in E by lia. rewrite E.
    eapply strip_page_space; [exact Ep|done..|by repeat constructor].
Qed.

(** ** The slices of any text start with their marker *)
Lemma lines_length_nonneg lines : 0 <= lines_length lines.
Proof. induction lines as [|l ls IH]; [done|]. change (0 <= zlen l + 1 + lines_length ls). pose proof (zlen_nonneg l). lia. Qed.

Lemma marker_scan_range lines pos s d : (s, d) ∈ marker_scan pos lines -> pos <= s < pos + lines_length lines.
Proof.
  revert pos. induction lines as [|l ls IH]; intros pos H; cbn [marker_scan] in H; [by apply not_elem_of_nil in H|].
  pose proof (lines_length_nonneg ls).
  cbn [lines_length fold_right]. fold (lines_length ls). pose proof (zlen_nonneg l). apply elem_of_app in H as [H|H].
  - destruct (is_marker l); [|by apply not_elem_of_nil in H]. apply list_elem_of_singleton in H as [= -> _]. lia.
  - apply IH in H. lia.
Qed.

(** The text of a list of lines. *)
Lemma join_lines_cons l ls : join [10%N] (l :: ls) = l ++ match ls with [] => [] | _ => 10%N :: join [10%N] ls end.
Proof. destruct ls; cbn; [by rewrite app_nil_r|done]. Qed.

Lemma join_lines_length lines : lines <> [] -> zlen (join [10%N] lines) + 1 = lines_length lines.
Proof.
  induction lines as [|l ls IH]; [done|]. intros _. rewrite join_lines_cons, zlen_app. cbn [lines_length fold_right].
  fold (lines_length ls). destruct ls as [|l2 ls]; [rewrite zlen_nil; cbn; lia|]. rewrite zlen_cons, <- IH by done. lia.
Qed.

Definition line_end (u : ustr) : Prop := u = [] \/ exists v, u = 10%N :: v.

(** Each slice of the scan is a marker line, then the end or a line feed. *)
Lemma slice_starts_marker lines : forall pre (text : ustr),
  lines <> [] -> Forall (Forall (fun c => c <> 10%N)) lines ->
  text = pre ++ join [10%N] lines ->
  Forall2 (fun m page => exists line u, page = strip (line ++ u) /\ is_marker line = true /\ drop 8 line = snd m /\ line_end u)
    (marker_scan (zlen pre) lines) (page_slices text (map fst (marker_scan (zlen pre) lines))).
Proof.
  induction lines as [|l ls IH]; intros pre text Hne Hfeed Htext; [done|]. apply Forall_cons in Hfeed as [Hl Hls].
  rewrite join_lines_cons in Htext. destruct ls as [|l2 ls].
  - cbn [marker_scan]. rewrite app_nil_r. destruct (is_marker l) eqn:Hm; [|constructor]. cbn [map fst page_slices app].
    constructor; [|constructor]. exists l, []. rewrite Htext, !app_nil_r. split; [|by repeat (split; [done|]); left].
    pose proof (slice_app_middle pre l []) as E. rewrite app_nil_r in E. by rewrite zlen_app, E.
  - specialize (IH (pre ++ l ++ [10%N]) text ltac:(done) Hls ltac:(rewrite Htext, <- !app_assoc; done)).
    replace (zlen (pre ++ l ++ [10%N])) with (zlen pre + zlen l + 1) in IH by (rewrite !zlen_app, !zlen_cons, zlen_nil; lia).
    remember (l2 :: ls) as rest eqn:Er. cbn [marker_scan].
    destruct (is_marker l) eqn:Hm; [|done]. cbn [map fst app page_slices]. constructor; [|done].
    set (e := match map fst (marker_scan (zlen pre + zlen l + 1) rest) with [] => zlen text | e :: _ => e end).
    assert (zlen text = zlen pre + zlen l + lines_length rest) as Elen.
    { rewrite Htext, !zlen_app. subst rest. rewrite zlen_cons, <- join_lines_length by done. lia. }
    assert (0 < lines_length rest) as Hpos.
    { pose proof (join_lines_length rest ltac:(by subst rest)). pose proof (zlen_nonneg (join [10%N] rest)). lia. }
    assert (zlen pre + zlen l + 1 <= e <= zlen text) as He.
    { unfold e. destruct (marker_scan _ rest) as [|[s d] ms] eqn:Es; [cbn; lia|]. cbn [map fst].
      pose proof (marker_scan_range rest (zlen pre + zlen l + 1) s d ltac:(rewrite Es; left)). lia. }
    pose proof (zlen_nonneg pre). pose proof (zlen_nonneg l).
    exists l, (slice text (zlen pre + zlen l) e). split; [|split; [done|split; [done|right]]].
    + f_equal. rewrite (slice_split text (zlen pre) (zlen pre + zlen l) e) by lia. f_equal. rewrite Htext. apply slice_app_middle.
    + exists (slice text (zlen pre + zlen l + 1) e). rewrite (slice_split text (zlen pre + zlen l) (zlen pre + zlen l + 1) e) by lia.
      rewrite (slice_one text (zlen pre + zlen l) 10%N); [done|lia|]. rewrite Htext. subst rest.
      rewrite app_assoc, lookup_app_r; [|rewrite length_app; unfold zlen; lia].
      replace (Z.to_nat (zlen pre + zlen l) - length (pre ++ l))%nat with O by (rewrite length_app; unfold zlen; lia). done.
Qed.

Lemma split_on_nofeed sep t : Forall (Forall (fun c => c <> sep)) (split_on sep t).
Proof.
  induction t as [|c t IH]; cbn; [by repeat constructor|]. destruct (N.eqb_spec c sep); [by constructor|].
  destruct (split_on sep t) as [|l ls]; [by repeat constructor|]. apply Forall_cons in IH as [Hl Hls]. by repeat constructor.
Qed.

(** The slices of a text, with the marker each starts with. *)
Lemma slices_of_text text :
  Forall2 (fun m page => exists line u, page = strip (line ++ u) /\ is_marker line = true /\ drop 8 line = snd m /\ line_end u)
    (find_markers text) (page_slices text (map fst (find_markers text))).
Proof.
  apply (slice_starts_marker (split_on 10 text) [] text); [apply split_on_not_nil|apply split_on_nofeed|]. cbn. by rewrite join_split.
Qed.

(** Stripped, such a slice still has the marker as its first line. *)
Lemma first_line_of_slice line u :
  is_marker line = true -> line_end u -> exists rest, split_on 10 (strip (line ++ u)) = line :: rest.
Proof.
  intros Hm Hu. destruct (marker_spec _ Hm) as (t & c & E & Hd). apply Forall_app in Hd as [Hdt Hdc%Forall_inv].
  destruct (digit_visible c Hdc) as [Hvis Hfeed].
  assert (Forall (fun c => c <> 10%N) line) as Hline.
  { rewrite E. apply Forall_app. split; [by repeat constructor|]. apply Forall_app. split; [|by apply Forall_singleton].
    eapply Forall_impl; [exact Hdt|]. intros d Hd. by apply digit_visible. }
  assert (strip (line ++ u) = line ++ rstrip_by isspace_cp u) as ->.
  { rewrite E, <- !app_assoc. unfold strip, strip_by.
    assert (lstrip_by isspace_cp (us "## Page " ++ t ++ [c] ++ u) = us "## Page " ++ t ++ [c] ++ u) as -> by reflexivity.
    pose proof (rstrip_app isspace_cp (us "## Page " ++ t) c u Hvis) as H. rewrite <- !app_assoc in H. exact H. }
  destruct (rstrip_prefix isspace_cp u) as (s & Eu & Hs). destruct Hu as [->|[v ->]].
  - exists []. cbn. rewrite app_nil_r. by apply split_on_nosep.
  - destruct (rstrip_by isspace_cp (10%N :: v)) as [|d w]; [exists []; rewrite app_nil_r; by apply split_on_nosep|].
    injection Eu as <- _. exists (split_on 10 w). by rewrite split_on_app, (split_on_nosep 10 line).
Qed.

(** With one marker for each page, no page has a second one. *)
Definition first_marked (page : ustr) : Prop := exists line rest, split_on 10 page = line :: rest /\ is_marker line = true.
Lemma one_marker_each pages : forall pos,
  Forall first_marked pages -> pages <> [] ->
  let n := length (marker_scan pos (split_on 10 (canonical_text pages))) in
  (length pages <= n)%nat /\
  (n = length pages -> Forall (fun page => Forall (fun l => is_marker l = false) (List.tl (split_on 10 page))) pages).
Proof.
  intros pos H. revert pos. induction H as [|p ps (line & rest & E & Hm) Hps IH]; intros pos Hne; [done|]. cbv zeta.
  rewrite canonical_markers, length_app, marker_count, E, filter_cons, decide_True by done. cbn [length].
  assert (Forall (fun l => is_marker l = false) rest \/ (0 < length (filter (fun l => is_marker l = true) rest))%nat) as Hrest.
  { clear. induction rest as [|l rest IH]; [left; constructor|]. rewrite filter_cons.
    destruct (decide (is_marker l = true)) as [E|E]; [right; cbn; lia|]. apply not_true_iff_false in E.
    destruct IH as [IH|IH]; [left; by constructor|by right]. }
  destruct ps as [|q ps].
  - cbn [length]. split; [lia|]. intros Hlen. constructor; [|constructor]. rewrite E. cbn [List.tl]. destruct Hrest; [done|lia].
  - destruct (IH (pos + zlen p + 2) ltac:(done)) as [Hge Heq]. cbn [length] in *. split; [lia|]. intros Hlen.
    constructor; [|apply Heq; lia]. rewrite E. cbn [List.tl]. destruct Hrest; [done|lia].
Qed.

Lemma split_pages_spec text n minimum pages :
  1 <= n -> split_pages text n minimum = Ok pages <-> pages_ok n minimum pages /\ text = canonical_text pages.
Proof.
  intros Hn. split.
  - intros H. unfold split_pages in H. apply bind_ok in H as (nums & Hnums & H).
    apply bind_ok in H as (u1 & H1 & H). apply raise_if_ok in H1. bsplit. subst nums.
    apply bind_ok in H as (u2 & H2 & H). apply raise_if_ok in H2. apply bind_ok in H as (u3 & H3 & [= Hpages]).
    apply raise_if_ok in H3. bsplit. split; [|by rewrite <- Hpages].
    apply mapM_res_ok in Hnums. pose proof (slices_of_text text) as Hsl. rewrite Hpages in *.
    set (ms := find_markers text) in *. assert (length ms = length pages) as Hlen by by eapply Forall2_length.
    assert (length (seqZ 1 n) = length pages) as Hlen1 by (apply Forall2_length in Hnums; by rewrite length_map, Hlen in Hnums).
    assert (forall i k p, seqZ 1 n !! i = Some k -> pages !! i = Some p -> exists line rest,
      split_on 10 p = line :: rest /\ is_marker line = true /\ int_limited (drop 8 line) = Ok k /\ strip p = p) as Hfirst.
    { intros i k p Hk Hp. destruct (Forall2_lookup_r _ _ _ _ _ Hsl Hp) as (m & Hm & line & u & -> & Hmk & Hd & Hu).
      destruct (Forall2_lookup_r _ _ _ _ _ Hnums Hk) as (d & Hd1 & Hd2). rewrite list_lookup_fmap, Hm in Hd1. injection Hd1 as <-.
      destruct (first_line_of_slice line u Hmk Hu) as [rest Hrest]. exists line, rest. rewrite Hd. split; [done|]. split; [done|].
      split; [done|]. apply strip_idem. }
    assert (pages <> []) as Hne by (intros ->; rewrite seqZ_cons in Hlen1 by lia; done).
    assert (Forall first_marked pages) as Hmarked.
    { apply Forall_lookup. intros i p Hp. destruct (lookup_lt_is_Some_2 (seqZ 1 n) i) as [k Hk]; [rewrite Hlen1; by eapply lookup_lt_Some|].
      destruct (Hfirst i k p Hk Hp) as (line & rest & E & Hm & _). by exists line, rest. }
    destruct (one_marker_each pages 0 Hmarked Hne) as [_ Heach]. rewrite <- H3 in Heach. specialize (Heach Hlen).
    apply Forall2_same_length_lookup_2; [done|]. intros i k p Hk Hp. destruct (Hfirst i k p Hk Hp) as (line & rest & E & Hm & Hi & Hs).
    rewrite Forall_lookup in Heach. specialize (Heach i p Hp). rewrite E in Heach. split; [by exists line, rest|]. split; [done|].
    destruct (Z.leb_spec minimum (zlen p)); [done|]. exfalso. apply not_true_iff_false in H2. apply H2. apply existsb_elem.
    exists p. split; [by eapply list_elem_of_lookup_2|by apply Z.ltb_lt].
  - intros [Hok ->]. unfold pages_ok in Hok. assert (pages <> []) as Hne.
    { intros ->. inversion Hok as [E|]. by rewrite seqZ_cons in E by lia. }
    destruct (pages_markers _ _ _ 0 Hok Hne) as [Hf Hs]. unfold split_pages, find_markers. rewrite Hs, Hf. cbn [res_bind].
    pose proof (slices_of_pages minimum _ pages [] Hok Hne) as E. cbn [app zlen length] in E. rewrite zlen_nil in E. rewrite E.
    rewrite !bool_decide_eq_true_2 by done. cbn [negb raise_if res_bind].
    destruct (existsb _ pages) eqn:Ee; [|done]. exfalso. apply existsb_exists in Ee as (p & Hp%list_elem_of_In & Hlt).
    apply Z.ltb_lt in Hlt. apply list_elem_of_lookup in Hp as [i Hi].
    destruct (Forall2_lookup_r _ _ _ _ _ Hok Hi) as (k & _ & _ & _ & Hmin). lia.
Qed.

Lemma is_scalar_range c : is_scalar c = true -> (c < 1114112)%N.
Proof. unfold is_scalar, in_range. rewrite orb_true_iff, andb_true_iff, N.ltb_lt, !N.leb_le. lia. Qed.

Lemma decode_utf8_ok payload t : decode_utf8 payload = Some t <-> payload = utf8_encode t /\ Forall (fun c => is_scalar c = true) t.
Proof.
  unfold decode_utf8. split.
  - destruct (forallb is_scalar _ && _) eqn:E; [|done]. intros [= <-]. bsplit. split; [done|]. by apply forallb_Forall.
  - intros [-> Ht]. rewrite utf8_decode_encode by (eapply Forall_impl; [exact Ht|apply is_scalar_range]).
    apply forallb_Forall in Ht as ->. by rewrite bool_decide_eq_true_2.
Qed.

(** ** The properties *)

(** What verification returns for these pages. *)
Definition verified_pages (pages : list ustr) : VerifiedOCR :=
  let text := canonical_text pages in
  let payload := utf8_encode text in
  {| vo_text := text; vo_sha256 := sha256_bytes payload; vo_size_bytes := zlen payload; vo_char_count := zlen text;
     vo_pages := pages; vo_page_sha256 := map (fun page => sha256_bytes (utf8_encode page)) pages |}.

Definition agrees {A} (expected : option A) (actual : A) : Prop := match expected with Some e => actual = e | None => True end.
Definition meets (ex : ocr_expectation) (v : VerifiedOCR) : Prop :=
  agrees (ex_size_bytes ex) (vo_size_bytes v) /\ agrees (ex_sha256 ex) (vo_sha256 v) /\
  agrees (ex_char_count ex) (vo_char_count v) /\ agrees (ex_page_sha256 ex) (vo_page_sha256 v).
Definition plain_bytes (payload : list N) : Prop := Forall (fun b => b <> 0%N /\ b <> 13%N) payload.

Lemma differs_agrees {A} `{EqDecision A} (expected : option A) (actual : A) : differs expected actual = false <-> agrees expected actual.
Proof. destruct expected as [e|]; cbn; [|done]. rewrite negb_false_iff. apply bool_decide_eq_true. Qed.

Lemma plain_bytes_spec payload : existsb (fun b => (b =? 0)%N || (b =? 13)%N) payload = false <-> plain_bytes payload.
Proof.
  unfold plain_bytes. induction payload as [|b l IH]; cbn; [done|]. rewrite Forall_cons, <- IH, orb_false_iff, orb_false_iff, !N.eqb_neq. tauto.
Qed.

(** C11: verification is exact.  The accepted bytes are the UTF-8 encodings, without NUL
    and CR, of the canonical join of pages numbered from 1 to the expected count,
    each stripped, long enough and with its own marker as first line and no other;
    the pages come back, with the hashes and counts of exactly this text. *)
Theorem verify_ocr_canonical payload n ex v :
  verify_ocr_bytes payload n ex = Ok v <->
  1 <= n /\ 1 <= ex_minimum_chars ex /\
  exists pages, pages_ok n (ex_minimum_chars ex) pages /\ payload = utf8_encode (canonical_text pages) /\
    Forall (fun c => is_scalar c = true) (canonical_text pages) /\ plain_bytes payload /\
    v = verified_pages pages /\ meets ex v.
Proof.
  unfold verify_ocr_bytes. split.
  - intros H. apply bind_ok in H as (u1 & H1 & H). apply raise_if_ok, Z.ltb_ge in H1.
    apply bind_ok in H as (u2 & H2 & H). apply raise_if_ok, Z.ltb_ge in H2.
    apply bind_ok in H as (u3 & H3 & H). apply raise_if_ok, plain_bytes_spec in H3.
    apply bind_ok in H as (u4 & H4 & H). apply raise_if_ok, differs_agrees in H4.
    apply bind_ok in H as (u5 & H5 & H). apply raise_if_ok, differs_agrees in H5.
    apply bind_ok in H as (text & H6 & H). apply of_option_ok, decode_utf8_ok in H6 as [-> Hsc].
    apply bind_ok in H as (pages & H7 & H). apply split_pages_spec in H7 as [Hpages ->]; [|done].
    apply bind_ok in H as (u8 & H8 & H). apply raise_if_ok, differs_agrees in H8.
    apply bind_ok in H as (u9 & H9 & [= <-]). apply raise_if_ok, differs_agrees in H9.
    split; [done|]. split; [done|]. exists pages. by repeat (split; [done|]).
  - intros (Hn & Hm & pages & Hpages & -> & Hsc & Hplain & -> & Hsize & Hsha & Hchars & Hhash).
    cbn [verified_pages vo_size_bytes vo_sha256 vo_char_count vo_page_sha256] in *.
    destruct (Z.ltb_spec n 1); [lia|]. destruct (Z.ltb_spec (ex_minimum_chars ex) 1); [lia|]. cbn [raise_if res_bind].
    rewrite (proj2 (plain_bytes_spec _) Hplain), (proj2 (differs_agrees _ _) Hsize), (proj2 (differs_agrees _ _) Hsha).
    cbn [raise_if res_bind]. rewrite (proj2 (decode_utf8_ok _ _) (conj eq_refl Hsc)). cbn [of_option res_bind].
    rewrite (proj2 (split_pages_spec _ _ _ _ Hn) (conj Hpages eq_refl)). cbn [res_bind].
    by rewrite (proj2 (differs_agrees _ _) Hchars), (proj2 (differs_agrees _ _) Hhash).
Qed.

(** ** Reuse keys *)

(** Two byte strings that SHA-256 does not tell apart. *)
Definition collide (b1 b2 : list N) : Prop := b1 <> b2 /\ sha256_bytes b1 = sha256_bytes b2.

Lemma sha_eq_or_collide b1 b2 : sha256_bytes b1 = sha256_bytes b2 -> b1 = b2 \/ collide b1 b2.
Proof. intros H. destruct (decide (b1 = b2)); [by left|by right]. Qed.

(** A member of equal objects, in the form a proof can invert. *)
Lemma members_of_equal l1 l2 k v1 v2 :
  bool_decide (NoDup l1.*1) = true -> bool_decide (NoDup l2.*1) = true -> normalize (JObj l1) = normalize (JObj l2) ->
  member k l1 = Some v1 -> member k l2 = Some v2 -> normalize v1 = normalize v2.
Proof.
  intros H1 H2 H Hv1 Hv2. apply bool_decide_eq_true in H1, H2. cbn [normalize] in H. injection H as H.
  assert (normalize <$> member k l1 = normalize <$> member k l2) as E by by rewrite <- !normalize_member, H by done.
  rewrite Hv1, Hv2 in E. by injection E.
Qed.

Ltac member_eq H name :=
  lazymatch type of H with
  | normalize (JObj ?l1) = normalize (JObj ?l2) =>
      let o1 := eval vm_compute in (member (us name) l1) in
      let o2 := eval vm_compute in (member (us name) l2) in
      lazymatch o1 with
      | Some ?v1 => lazymatch o2 with
        | Some ?v2 =>
            let E := fresh "E" in
            pose proof (members_of_equal l1 l2 (us name) v1 v2 ltac:(vm_compute; reflexivity) ltac:(vm_compute; reflexivity) H
              ltac:(vm_compute; reflexivity) ltac:(vm_compute; reflexivity)) as E
        end
      end
  end.

Lemma JOpt_inj a b : normalize (JOpt a) = normalize (JOpt b) -> a = b.
Proof. destruct a, b; cbn; congruence. Qed.
Lemma JOptZ_inj a b : normalize (JOptZ a) = normalize (JOptZ b) -> a = b.
Proof. destruct a, b; cbn; congruence. Qed.
Lemma JStr_inj a b : normalize (JStr a) = normalize (JStr b) -> a = b.
Proof. cbn. congruence. Qed.
Lemma JInt_inj a b : normalize (JInt a) = normalize (JInt b) -> a = b.
Proof. cbn. congruence. Qed.

Lemma input_payload_inj s1 s2 : normalize (input_payload s1) = normalize (input_payload s2) -> s1 = s2.
Proof.
  destruct s1 as [a1 b1 c1], s2 as [a2 b2 c2]. intros H. unfold input_payload in H. cbn [oi_pdf_sha256 oi_pdf_size_bytes oi_page_count] in H.
  member_eq H "pdf_sha256". apply (JStr_inj a1 a2) in E as ->. member_eq H "pdf_size_bytes". apply (JInt_inj b1 b2) in E as ->.
  member_eq H "page_count". by apply (JInt_inj c1 c2) in E as ->.
Qed.

(** The payload of a valid contract determines the contract. *)
Lemma contract_payload_inj c1 c2 :
  segmentation_contract_matches_schema c1 = Ok tt -> segmentation_contract_matches_schema c2 = Ok tt ->
  normalize (contract_payload c1) = normalize (contract_payload c2) -> c1 = c2.
Proof.
  destruct c1 as [s1 a1 b1 d1 e1 f1 g1 h1 i1 j1 k1 l1 m1 n1 o1 p1 q1], c2 as [s2 a2 b2 d2 e2 f2 g2 h2 i2 j2 k2 l2 m2 n2 o2 p2 q2].
  intros V1 V2 H. destruct s1, s2; unfold contract_payload in H;
    cbn [segmentation_contract_matches_schema absent_fields oc_schema_version oc_chunk_pages oc_segmentation_strategy_id
      oc_whole_document_max_pages oc_target_pages_per_call oc_context_pages_before oc_context_pages_after oc_output_policy] in V1, V2;
    member_eq H "schema_version"; try (by vm_compute in E).
  all: clear E; member_eq H "processor_version"; apply (JStr_inj a1 a2) in E as ->;
    member_eq H "cache_epoch"; apply (JInt_inj b1 b2) in E as ->;
    member_eq H "prompt_version"; apply (JStr_inj d1 d2) in E as ->;
    member_eq H "prompt_sha256"; apply (JStr_inj e1 e2) in E as ->;
    member_eq H "renderer_id"; apply (JStr_inj f1 f2) in E as ->;
    member_eq H "render_scale_milli"; apply (JInt_inj g1 g2) in E as ->;
    member_eq H "provider"; apply (JStr_inj h1 h2) in E as ->;
    member_eq H "model"; apply (JStr_inj i1 i2) in E as ->;
    member_eq H "reasoning_effort"; apply (JOpt_inj j1 j2) in E as ->.
  - member_eq H "chunk_pages"; apply (JOptZ_inj k1 k2) in E as ->.
    clear H. destruct k2, l1, m1, n1, o1, p1, q1; try done. by destruct l2, m2, n2, o2, p2, q2.
  - member_eq H "segmentation_strategy_id"; apply (JOpt_inj l1 l2) in E as ->;
    member_eq H "whole_document_max_pages"; apply (JOptZ_inj m1 m2) in E as ->;
    member_eq H "target_pages_per_call"; apply (JOptZ_inj n1 n2) in E as ->;
    member_eq H "context_pages_before"; apply (JOptZ_inj o1 o2) in E as ->;
    member_eq H "context_pages_after"; apply (JOptZ_inj p1 p2) in E as ->;
    member_eq H "output_policy"; apply (JOpt_inj q1 q2) in E as ->.
    clear H. by destruct k1, k2.
Qed.

Lemma canonical_sha256_eq v : canonical_sha256 v = sha256_bytes (canonical_json_bytes v).
Proof. done. Qed.
Lemma contract_sha256_eq c : contract_sha256 c = canonical_sha256 (contract_payload c).
Proof. done. Qed.
Lemma native_key_eq c s : native_ocr_reuse_key c s = canonical_sha256 (native_key_payload c s).
Proof. done. Qed.
Lemma native_payload_inj k1 k2 s1 s2 :
  normalize (JObj [(us "contract_sha256", JStr k1); (us "input", input_payload s1); (us "schema_version", JStr (us "cardrag.ocr-reuse-key.v1"))]) =
  normalize (JObj [(us "contract_sha256", JStr k2); (us "input", input_payload s2); (us "schema_version", JStr (us "cardrag.ocr-reuse-key.v1"))]) ->
  k1 = k2 /\ s1 = s2.
Proof.
  intros H. remember (input_payload s1) as i1 eqn:E1. remember (input_payload s2) as i2 eqn:E2.
  member_eq H "contract_sha256". apply (JStr_inj k1 k2) in E. member_eq H "input". rewrite E1, E2 in E0. by apply input_payload_inj in E0.
Qed.
Lemma content_payload_inj s1 s2 epoch1 epoch2 :
  normalize (content_key_payload s1 epoch1) = normalize (content_key_payload s2 epoch2) -> s1 = s2 /\ epoch1 = epoch2.
Proof.
  unfold content_key_payload. intros H. remember (input_payload s1) as i1 eqn:E1. remember (input_payload s2) as i2 eqn:E2.
  member_eq H "cache_epoch". apply (JInt_inj epoch1 epoch2) in E. member_eq H "input". rewrite E1, E2 in E0. by apply input_payload_inj in E0.
Qed.

(** C36: the reuse keys bind their inputs.  Two valid contracts and two inputs with the
    same native key are the same, and so are two inputs and epochs with the same
    content key; otherwise their canonical bytes collide under SHA-256. *)
Theorem reuse_keys_bind c1 s1 c2 s2 epoch1 epoch2 :
  segmentation_contract_matches_schema c1 = Ok tt -> segmentation_contract_matches_schema c2 = Ok tt ->
  (native_ocr_reuse_key c1 s1 = native_ocr_reuse_key c2 s2 ->
   (c1 = c2 /\ s1 = s2) \/
   collide (canonical_json_bytes (native_key_payload c1 s1)) (canonical_json_bytes (native_key_payload c2 s2)) \/
   collide (canonical_json_bytes (contract_payload c1)) (canonical_json_bytes (contract_payload c2))) /\
  (forall key, content_addressed_ocr_reuse_key s1 epoch1 = Ok key -> content_addressed_ocr_reuse_key s2 epoch2 = Ok key ->
   (s1 = s2 /\ epoch1 = epoch2) \/
   collide (canonical_json_bytes (content_key_payload s1 epoch1)) (canonical_json_bytes (content_key_payload s2 epoch2))).
Proof.
  intros V1 V2. split.
  - rewrite !native_key_eq, !canonical_sha256_eq. intros [H|H]%sha_eq_or_collide; [|by right; left].
    apply canonical_json_bytes_normalize, native_payload_inj in H as [E ->].
    rewrite !contract_sha256_eq, !canonical_sha256_eq in E. apply sha_eq_or_collide in E as [E|E]; [|by right; right].
    apply canonical_json_bytes_normalize in E. left. split; [by apply contract_payload_inj|done].
  - intros key H1 H2. unfold content_addressed_ocr_reuse_key in H1, H2. apply bind_ok in H1 as (u1 & _ & [= H1]).
    apply bind_ok in H2 as (u2 & _ & [= H2]). rewrite <- H2, !canonical_sha256_eq in H1.
    apply sha_eq_or_collide in H1 as [H|H]; [|by right]. apply canonical_json_bytes_normalize, content_payload_inj in H. by left.
Qed.

(** ** Samples *)
Definition sample_page (n : Z) : ustr := us "## Page " ++ str_of_Z n ++ us "
annual fee of the card".
Definition sample_pages : list ustr := [sample_page 1; sample_page 2].
Definition sample_expectation : ocr_expectation :=
  {| ex_sha256 := None; ex_size_bytes := Some 67; ex_char_count := Some 67; ex_page_sha256 := None; ex_minimum_chars := 20 |}.
Example verify_sample :
  verify_ocr_bytes (utf8_encode (canonical_text sample_pages)) 2 sample_expectation = Ok (verified_pages sample_pages) /\
  verify_ocr_bytes (utf8_encode (canonical_text (rev sample_pages))) 2 sample_expectation = Err OCRVerificationError /\
  verify_ocr_bytes [192; 128]%N 2 {| ex_sha256 := None; ex_size_bytes := None; ex_char_count := None; ex_page_sha256 := None; ex_minimum_chars := 20 |}
    = Err OCRVerificationError.
Proof. by vm_compute. Qed.

Definition sample_contract (model : ustr) : NativeOCRContract :=
  {| oc_schema_version := ContractV1; oc_processor_version := us "p1"; oc_cache_epoch := 0; oc_prompt_version := us "v1";
     oc_prompt_sha256 := []; oc_renderer_id := us "r"; oc_render_scale_milli := 2000; oc_provider := us "x"; oc_model := model;
     oc_reasoning_effort := None; oc_chunk_pages := Some 4; oc_segmentation_strategy_id := None; oc_whole_document_max_pages := None;
     oc_target_pages_per_call := None; oc_context_pages_before := None; oc_context_pages_after := None; oc_output_policy := None |}.
Definition sample_input : OCRInput := {| oi_pdf_sha256 := us "00"; oi_pdf_size_bytes := 10; oi_page_count := 1 |}.
Lemma sample_contract_valid model : segmentation_contract_matches_schema (sample_contract model) = Ok tt.
Proof. done. Qed.

(** ** Witnesses *)
Lemma reuse_keys_bind_witness :
  sample_contract (us "a") = sample_contract (us "a") /\ sample_input = sample_input \/
  collide (canonical_json_bytes (native_key_payload (sample_contract (us "a")) sample_input))
    (canonical_json_bytes (native_key_payload (sample_contract (us "a")) sample_input)) \/
  collide (canonical_json_bytes (contract_payload (sample_contract (us "a")))) (canonical_json_bytes (contract_payload (sample_contract (us "a")))).
Proof.
  exact (proj1 (reuse_keys_bind (sample_contract (us "a")) sample_input (sample_contract (us "a")) sample_input 0 0
    (sample_contract_valid _) (sample_contract_valid _)) eq_refl).
Defined.
