(* ===== verification/Controls.v ===== *)
(** The control files of the artifact store ([cardrag_core/manifests.py],
    [cardrag_core/domain.py]): artifact references, generation manifests with READY
    file and pointer, and the manifests of the OCR caches, with the validators that
    bind every artifact to its path.

    Parsing the JSON of a control file and writing it back is pydantic's; the class
    [ControlCodec] states what the code relies on: a value that was parsed passed
    the validators of its class.  A parser gives the value together with its
    canonical bytes, because a model record keeps only the fields that the modelled
    code reads. *)
From S2P Require Export Ocr Paths.

(** ** Artifacts *)
Record ArtifactRef := { ar_sha256 : ustr; ar_size_bytes : Z; ar_media_type : ustr; ar_path : ustr }.

(** [PurePosixPath(text)] for a relative path. *)
Definition path_of (text : ustr) : posix_path := PurePosixPath [text].

Definition cas_path_matches_hash_when_applicable (a : ArtifactRef) : res unit :=
  let path := path_of (ar_path a) in
  if bool_decide (take 3 path = [us "v1"; us "objects"; us "sha256"]) then
    let! object := object_path (ar_sha256 a) in
    raise_if (negb (bool_decide (path = object))) (ValueError "CAS artifact path does not match its SHA-256")
  else Ok tt.

(** The field validator keeps the normalized path. *)
Definition check_artifact (a : ArtifactRef) : res unit :=
  let! _ := validate_sha256 (ar_sha256 a) in
  let! _ := raise_if (ar_size_bytes a <? 0) (ValueError "size_bytes") in
  let! path := validate_relative_path (ar_path a) in
  let! _ := raise_if (negb (bool_decide (ar_path a = as_posix path))) (ValueError "path") in
  cas_path_matches_hash_when_applicable a.

(** ** Generations *)
Record GenerationDocument := {
  gd_pdf : ArtifactRef;
  gd_ocr : option ArtifactRef;
  gd_ocr_cache_kind : option ustr;
  gd_ocr_reuse_key : option ustr;
  gd_ocr_variant_id : option ustr;
  gd_availability : option ustr;
  gd_ocr_failure : option ustr;
}.

Definition present {A} (o : option A) : bool := negb (absent o).
Definition uses_object_path (a : ArtifactRef) (message : string) : res unit :=
  let! object := object_path (ar_sha256 a) in
  raise_if (negb (bool_decide (path_of (ar_path a) = object))) (ValueError message).

Definition artifact_contracts_are_cas_bound (d : GenerationDocument) : res unit :=
  let! _ := raise_if (negb (bool_decide (ar_media_type (gd_pdf d) = us "application/pdf")))
              (ValueError "generation PDF media type must be application/pdf") in
  let! _ := uses_object_path (gd_pdf d) "generation PDF must reference its CAS object path" in
  let! _ := match gd_ocr d with
            | Some ocr =>
                let! _ := raise_if (negb (bool_decide (ar_media_type ocr = us "text/markdown; charset=utf-8")))
                            (ValueError "generation OCR media type is invalid") in
                uses_object_path ocr "generation OCR must reference its CAS object path"
            | None => Ok tt
            end in
  let! _ := raise_if (negb (Bool.eqb (present (gd_ocr_cache_kind d)) (present (gd_ocr_reuse_key d))))
              (ValueError "OCR cache kind and reuse key must be provided together") in
  let! _ := raise_if (absent (gd_ocr d) && present (gd_ocr_cache_kind d))
              (ValueError "OCR cache identity requires a generation OCR artifact") in
  let! _ := raise_if (bool_decide (gd_ocr_cache_kind d = Some (us "content")) && absent (gd_ocr_variant_id d))
              (ValueError "content OCR cache identity requires an exact variant ID") in
  let! _ := raise_if (present (gd_ocr_variant_id d)
                      && (negb (bool_decide (gd_ocr_cache_kind d = Some (us "content"))) || absent (gd_ocr d)))
              (ValueError "OCR variant identity requires a content cache artifact") in
  if bool_decide (gd_availability d = Some (us "available")) then
    raise_if (absent (gd_ocr d) || present (gd_ocr_failure d)) (ValueError "available generation document requires OCR and no failure")
  else if bool_decide (gd_availability d = Some (us "ocr_failed")) then
    raise_if (present (gd_ocr d) || absent (gd_ocr_failure d)) (ValueError "ocr_failed generation document requires only a failure summary")
  else raise_if (present (gd_ocr_failure d)) (ValueError "legacy generation document cannot contain an OCR failure summary").

Definition check_document (d : GenerationDocument) : res unit :=
  let! _ := check_artifact (gd_pdf d) in
  let! _ := match gd_ocr d with Some ocr => check_artifact ocr | None => Ok tt end in
  artifact_contracts_are_cas_bound d.

Record GenerationManifest := {
  gm_schema_version : ustr;
  gm_generation_id : ustr;
  gm_serving_database : ArtifactRef;
  gm_documents : list GenerationDocument;
  gm_vector_sidecar : option ArtifactRef;
  gm_previous_generation_id : option ustr;
}.
Definition has_vectors (schema_version : ustr) : bool :=
  bool_decide (schema_version ∈ [us "cardrag.generation.v5"; us "cardrag.generation.v6"]).

(** The checks of the manifest on identifiers and paths. *)
Definition check_manifest_paths (m : GenerationManifest) : res unit :=
  let! _ := validate_identifier (gm_generation_id m) "generation_id" in
  let! _ := match gm_previous_generation_id m with
            | Some g => let! _ := validate_identifier g "previous_generation_id" in Ok tt
            | None => Ok tt
            end in
  let! _ := check_artifact (gm_serving_database m) in
  let! database := generation_database_path (gm_generation_id m) in
  let! _ := raise_if (negb (bool_decide (path_of (ar_path (gm_serving_database m)) = database)))
              (ValueError "serving database path does not match generation_id") in
  let! _ := raise_if (bool_decide (gm_previous_generation_id m = Some (gm_generation_id m)))
              (ValueError "generation cannot name itself as its predecessor") in
  let! _ := forM check_document (gm_documents m) in
  match gm_vector_sidecar m with
  | Some sidecar =>
      let! _ := check_artifact sidecar in
      let! _ := raise_if (negb (has_vectors (gm_schema_version m))) (ValueError "v5 structure and vector fields require generation v5") in
      let! vectors := generation_vectors_path (gm_generation_id m) in
      raise_if (negb (bool_decide (path_of (ar_path sidecar) = vectors))) (ValueError "vector sidecar path does not match generation_id")
  | None => raise_if (has_vectors (gm_schema_version m)) (ValueError "v5 generation requires a vector sidecar")
  end.

Record GenerationReady := {
  gr_generation_id : ustr;
  gr_manifest_sha256 : ustr;
  gr_serving_database_sha256 : ustr;
  gr_serving_database_size_bytes : Z;
  gr_vector_sidecar_sha256 : option ustr;
  gr_vector_sidecar_size_bytes : option Z;
}.

Record GenerationPointer := { gp_generation : ustr; gp_manifest_sha256 : ustr; gp_ready_sha256 : ustr }.

(** ** OCR caches *)

(** A native or adopted cache manifest. *)
Record OCRManifest := { om_reuse_key : ustr; om_output : ArtifactRef }.
Definition check_ocr_output (output : ArtifactRef) : res unit :=
  let! _ := check_artifact output in uses_object_path output "OCR output must use its CAS object path".
Record OCRReady := { or_reuse_key : ustr; or_manifest_sha256 : ustr; or_ocr_sha256 : ustr }.

(** [cm_timestamp] is [created_at.strftime(...)], [cm_bytes] the canonical bytes. *)
Record ContentOCRArtifactManifest := {
  cm_reuse_key : ustr;
  cm_source : OCRInput;
  cm_output : ArtifactRef;
  cm_ocr_chars : Z;
  cm_page_output_sha256 : list ustr;
  cm_timestamp : ustr;
  cm_variant_id : ustr;
  cm_migrated_from : option (ustr * ustr);
  cm_bytes : list N;
}.
Definition cm_manifest_sha256 (m : ContentOCRArtifactManifest) : ustr := sha256_bytes (cm_bytes m).
Definition variant_label (m : ContentOCRArtifactManifest) : ustr :=
  cm_timestamp m ++ us "-" ++ slice (cm_manifest_sha256 m) 0 12.
Definition variant_root (m : ContentOCRArtifactManifest) : res posix_path :=
  content_ocr_variant_root_path (cm_reuse_key m) (variant_label m).

Record ContentOCRReady := { cr_reuse_key : ustr; cr_variant_id : ustr; cr_manifest_sha256 : ustr; cr_ocr_sha256 : ustr }.
Definition verifies (ready : ContentOCRReady) (m : ContentOCRArtifactManifest) : bool :=
  bool_decide (cr_reuse_key ready = cm_reuse_key m) && bool_decide (cr_variant_id ready = cm_variant_id m)
  && bool_decide (cr_manifest_sha256 ready = cm_manifest_sha256 m) && bool_decide (cr_ocr_sha256 ready = ar_sha256 (cm_output m)).

(** ** Parsing *)
Class ControlCodec := {
  parse_manifest : list N -> option (GenerationManifest * list N);
  parse_ready : list N -> option (GenerationReady * list N);
  parse_pointer : list N -> option (GenerationPointer * list N);
  parse_ocr_manifest : ustr -> list N -> option (OCRManifest * list N);
  parse_ocr_ready : list N -> option (OCRReady * list N);
  parse_content_manifest : list N -> option ContentOCRArtifactManifest;
  parse_content_ready : list N -> option (ContentOCRReady * list N);
  parsed_manifest_valid : forall b m c, parse_manifest b = Some (m, c) -> check_manifest_paths m = Ok tt;
  parsed_ocr_manifest_valid : forall kind b m c, parse_ocr_manifest kind b = Some (m, c) -> check_ocr_output (om_output m) = Ok tt;
  parsed_content_manifest_valid : forall b m, parse_content_manifest b = Some m -> check_ocr_output (cm_output m) = Ok tt;
}.

Lemma path_of_safe p : safe_path p -> path_of (as_posix p) = p.
Proof.
  intros Hp. unfold path_of, PurePosixPath. cbn [mbind list_bind]. rewrite app_nil_r, safe_path_split by done.
  apply filter_all. eapply Forall_impl; [apply Hp|]. apply safe_segment_nonempty.
Qed.
