(* ===== verification/Gc.v ===== *)
(** Garbage collection of the remote artifact store ([cardrag_worker/gc.py], the table
    of [cardrag_worker/state.py], [list_children] of [cardrag_worker/webdav.py]).

    The mark phase reads a server that does not change meanwhile ([remote]); the sweep
    runs against answers that may be different at every step ([sweep_env]), because
    publishers go on.  Sets are finite sets, a dictionary of nonempty sets is the set
    of its pairs.  Log lines are left out. *)
From S2P Require Export Controls.

(** ** Errors *)
Definition GCError (message : string) : exn := Raised "GCError" message.
Definition GCMarkVerificationError (message : string) : exn := Raised "GCMarkVerificationError" message.
Definition GCDeletionError (message : string) : exn := Raised "GCDeletionError" message.
Definition WebDAVHTTPError (status : string) : exn := Raised "WebDAVHTTPError" status.
Definition is_not_found (e : exn) : bool := bool_decide (e = WebDAVHTTPError "404").
Definition is_gc_error (e : exn) : bool :=
  match e with Raised c _ => bool_decide (c ∈ ["GCError"; "GCMarkVerificationError"; "GCDeletionError"]%string) | _ => false end.
Definition is_value_error (e : exn) : bool :=
  match e with ValueError _ => true | Raised c _ => bool_decide (c = "OCRVerificationError"%string) | _ => false end.

(** ** The server *)

(** [propfind] gives the texts of the hrefs below the base, [get_bytes] [None] for a
    missing object. *)
Record remote := {
  propfind : posix_path -> res (list ustr);
  get_bytes : posix_path -> res (option (list N));
}.
Definition path_leb (p q : posix_path) : bool := ustr_leb (as_posix p) (as_posix q).
Definition sorted_paths (l : list posix_path) : list posix_path := sorted_by path_leb (remove_dups l).
Definition list_children (r : remote) (path : posix_path) : res (list posix_path) :=
  let! hrefs := propfind r path in
  let! children := mapM_res validate_relative_path (filter (fun h => h <> []) hrefs) in
  Ok (sorted_paths (filter (fun child => child <> path) children)).
Definition required_bytes (r : remote) (path : posix_path) : res (list N) :=
  let! body := get_bytes r path in
  of_option (GCError "required control object is missing") body.
Definition optional_children (r : remote) (path : posix_path) : res (list posix_path) :=
  match list_children r path with
  | Err e => if is_not_found e then Ok [] else Err e
  | Ok children => Ok children
  end.

Definition posix_parent (p : posix_path) : posix_path := removelast p.
Definition posix_name (p : posix_path) : ustr := List.last p [].
Definition re_HEX_PREFIX : regex := times 2 (Chr is_hex).
Definition re_INCOMING_TEMP_LEAF : regex := seqs [times 32 (Chr is_hex); lit (us ".tmp")].
Definition INCOMING_ROOT : posix_path := PurePosixPath [us "v1"; us ".incoming"].
Definition INCOMING_NAMESPACES : list ustr := [us "channels"; us "publish"].
Definition KNOWN_UNCOLLECTED_INCOMING_NAMESPACES : list ustr := [us "objects"].
Definition CONTENT_INDEX_ROOT : posix_path := PurePosixPath [us "v1"; us "ocr-cache"; us "content-index"].

(** ** The retained generations *)
Section Mark.
Context {codec : ControlCodec} (r : remote).

Definition parsed {A} (message : string) (o : option A) : res A := of_option (GCMarkVerificationError message) o.
Definition canonical (message : string) (agree : bool) : res unit := raise_if (negb agree) (GCMarkVerificationError message).

(** One generation of the chain; [pointer] is the pointer that names it, for the first. *)
Definition read_generation (pointer : option GenerationPointer) (generation_id : ustr) : res GenerationManifest :=
  let! manifest_path := generation_manifest_path generation_id in
  let! manifest_body := required_bytes r manifest_path in
  let! ready_path := generation_ready_path generation_id in
  let! ready_body := required_bytes r ready_path in
  let! manifest := parsed "control JSON is invalid" (parse_manifest manifest_body) in
  let! ready := parsed "control JSON is invalid" (parse_ready ready_body) in
  let '(m, manifest_canonical) := manifest in
  let '(ready, ready_canonical) := ready in
  let! _ := canonical "control JSON is not canonical"
              (bool_decide (manifest_canonical = manifest_body) && bool_decide (ready_canonical = ready_body)) in
  let! _ := canonical "control hashes disagree"
              (bool_decide (gm_generation_id m = generation_id) && bool_decide (gr_generation_id ready = generation_id)
               && bool_decide (sha256_bytes manifest_body = gr_manifest_sha256 ready)
               && bool_decide (ar_sha256 (gm_serving_database m) = gr_serving_database_sha256 ready)
               && bool_decide (ar_size_bytes (gm_serving_database m) = gr_serving_database_size_bytes ready)) in
  let! _ :=
    if has_vectors (gm_schema_version m) then
      match gm_vector_sidecar m with
      | None => Err (GCMarkVerificationError "vector control hashes disagree")
      | Some sidecar =>
          if negb (bool_decide (gr_vector_sidecar_sha256 ready = Some (ar_sha256 sidecar))
                   && bool_decide (gr_vector_sidecar_size_bytes ready = Some (ar_size_bytes sidecar)))
          then Err (GCMarkVerificationError "vector control hashes disagree")
          else let! vectors := generation_vectors_path generation_id in
               canonical "vector control hashes disagree" (bool_decide (ar_path sidecar = as_posix vectors))
      end
    else canonical "legacy generation declares a vector sidecar"
           (absent (gm_vector_sidecar m) && absent (gr_vector_sidecar_sha256 ready) && absent (gr_vector_sidecar_size_bytes ready)) in
  let! _ := match pointer with
            | Some p => canonical "stable pointer does not bind current generation READY/manifest"
                          (bool_decide (gp_manifest_sha256 p = gr_manifest_sha256 ready)
                           && bool_decide (gp_ready_sha256 p = sha256_bytes ready_body))
            | None => Ok tt
            end in
  Ok m.

Fixpoint chain_from (retain : nat) (seen : list ustr) (pointer : option GenerationPointer) (generation_id : option ustr) : res (list GenerationManifest) :=
  match retain, generation_id with
  | S retain, Some id =>
      let! _ := raise_if (bool_decide (id ∈ seen)) (GCMarkVerificationError "generation predecessor chain contains a cycle") in
      let! m := read_generation pointer id in
      let! rest := chain_from retain (id :: seen) None (gm_previous_generation_id m) in
      Ok (m :: rest)
  | _, _ => Ok []
  end.

Definition generation_chain (retain : Z) (pointer_path : posix_path) : res (list N * list GenerationManifest) :=
  let! pointer_body := required_bytes r pointer_path in
  let! pointer := parsed "stable pointer is invalid" (parse_pointer pointer_body) in
  let '(p, pointer_canonical) := pointer in
  let! _ := canonical "stable pointer is not canonical JSON" (bool_decide (pointer_canonical = pointer_body)) in
  let! manifests := chain_from (Z.to_nat retain) [] (Some p) (Some (gp_generation p)) in
  Ok (pointer_body, manifests).

(** ** Listings *)
Definition generation_files_allowed : list ustr := [us "index.sqlite3"; us "vectors.f32"; us "manifest.json"; us "READY.json"].
Definition list_generation (path : posix_path) : res ustr :=
  let root := PurePosixPath [us "v1"; us "generations"] in
  let! _ := raise_if (negb (bool_decide (posix_parent path = root))) (GCError "unexpected generations PROPFIND shape") in
  let! _ := match validate_identifier (posix_name path) "generation_id" with
            | Ok _ => Ok tt
            | Err _ => Err (GCError "unsafe generation ID in PROPFIND")
            end in
  let! children := list_children r path in
  let names : gset ustr := list_to_set (map posix_name (filter (fun c => posix_parent c = path) children)) in
  let! _ := raise_if (negb (bool_decide (size names = length children)) || negb (bool_decide (names ⊆ list_to_set generation_files_allowed)))
              (GCError "unexpected object in generation") in
  Ok (posix_name path).
Definition list_generation_ids : res (list ustr) :=
  let! children := list_children r (PurePosixPath [us "v1"; us "generations"]) in
  let! ids := mapM_res list_generation children in
  Ok (sorted_by ustr_leb ids).

Definition CAS_ROOT : posix_path := PurePosixPath [us "v1"; us "objects"; us "sha256"].
Definition is_prefix_of (root prefix : posix_path) : bool :=
  bool_decide (posix_parent prefix = root) && fullmatch re_HEX_PREFIX (posix_name prefix).
Definition is_keyed (prefix path : posix_path) : bool :=
  bool_decide (posix_parent path = prefix) && fullmatch re_hex64 (posix_name path)
  && bool_decide (slice (posix_name path) 0 2 = posix_name prefix).
Definition list_prefix (prefix : posix_path) : res (list posix_path) :=
  let! children := list_children r prefix in
  let! _ := raise_if (negb (forallb (is_keyed prefix) children)) (GCError "unexpected CAS object in PROPFIND") in
  Ok children.
Definition list_cas_objects : res (list posix_path) :=
  let! prefixes := list_children r CAS_ROOT in
  let! _ := raise_if (negb (forallb (is_prefix_of CAS_ROOT) prefixes)) (GCError "unexpected CAS prefix in PROPFIND") in
  let! groups := mapM_res list_prefix prefixes in
  Ok (sorted_by path_leb (concat groups)).

(** ** Bindings of the caches *)
Definition cache_key : Type := ustr * ustr.
Definition binding : Type := ustr * Z * ustr.
Definition binding_of (a : ArtifactRef) : binding := (ar_sha256 a, ar_size_bytes a, ar_path a).

(** What the retained generations refer to: every path, the bindings of the legacy caches
    and the content variants. *)
Record references := {
  rf_marked : gset ustr;
  rf_caches : gset (cache_key * binding);
  rf_variants : list (cache_key * binding);
}.
Definition mark_paths (paths : list ustr) (f : references) : references :=
  {| rf_marked := rf_marked f ∪ list_to_set paths; rf_caches := rf_caches f; rf_variants := rf_variants f |}.

Definition refer_document (f : references) (d : GenerationDocument) : res references :=
  let f := mark_paths [ar_path (gd_pdf d)] f in
  match gd_ocr d with
  | None => Ok f
  | Some ocr =>
      let f := mark_paths [ar_path ocr] f in
      match gd_ocr_cache_kind d, gd_ocr_reuse_key d with
      | Some kind, Some key =>
          if bool_decide (kind = us "content") then
            let! variant := of_option (GCMarkVerificationError "retained content OCR variant ID is missing") (gd_ocr_variant_id d) in
            let! _ := raise_if (match dict_get (key, variant) (rf_variants f) with
                                | Some b => negb (bool_decide (b = binding_of ocr))
                                | None => false
                                end) (GCMarkVerificationError "retained content OCR variant has conflicting bindings") in
            Ok {| rf_marked := rf_marked f; rf_caches := rf_caches f;
                  rf_variants := dict_set (key, variant) (binding_of ocr) (rf_variants f) |}
          else Ok {| rf_marked := rf_marked f; rf_caches := rf_caches f ∪ {[((kind, key), binding_of ocr)]};
                     rf_variants := rf_variants f |}
      | _, _ => Ok f
      end
  end.
Definition refer_manifest (f : references) (m : GenerationManifest) : res references :=
  let id := gm_generation_id m in
  let! database := generation_database_path id in
  let! manifest := generation_manifest_path id in
  let! ready := generation_ready_path id in
  let f := mark_paths [as_posix database; as_posix manifest; as_posix ready] f in
  let f := match gm_vector_sidecar m with Some sidecar => mark_paths [ar_path sidecar] f | None => f end in
  foldM refer_document f (gm_documents m).
Definition refer (pointer_path : posix_path) (manifests : list GenerationManifest) : res references :=
  foldM refer_manifest {| rf_marked := {[as_posix pointer_path]}; rf_caches := ∅; rf_variants := [] |} manifests.

(** ** Content variants *)
Definition content_index_path (m : ContentOCRArtifactManifest) : posix_path :=
  path_join CONTENT_INDEX_ROOT (cm_reuse_key m ++ us "-" ++ variant_label m ++ us ".json").
Definition index_payload (m : ContentOCRArtifactManifest) : json :=
  JObj [(us "schema_version", JStr (us "cardrag.ocr-content-index.v1")); (us "reuse_key", JStr (cm_reuse_key m));
        (us "variant_id", JStr (cm_variant_id m)); (us "manifest_sha256", JStr (cm_manifest_sha256 m));
        (us "variant_label", JStr (variant_label m))].

Record variant_mark := {
  vm_paths : list ustr;
  vm_index : posix_path;
  vm_identity : cache_key;
  vm_legacy : list (cache_key * binding);
}.

(** The body of the [try]. *)
Definition verify_variant (indexed : list posix_path) (retained : list (cache_key * binding)) (key : ustr)
    (root : posix_path) : res variant_mark :=
  let manifest_path := path_join root (us "manifest.json") in
  let ready_path := path_join root (us "READY.json") in
  let! manifest_body := required_bytes r manifest_path in
  let! ready_body := required_bytes r ready_path in
  let! m := of_option (ValueError "validation error") (parse_content_manifest manifest_body) in
  let! ready := of_option (ValueError "validation error") (parse_content_ready ready_body) in
  let '(ready, ready_canonical) := ready in
  let index_path := content_index_path m in
  let! _ := raise_if (negb (bool_decide (index_path ∈ indexed))) (ValueError "content OCR variant has no index") in
  let! index_body := required_bytes r index_path in
  let! _ := raise_if (negb (bool_decide (cm_bytes m = manifest_body) && bool_decide (ready_canonical = ready_body)
                            && bool_decide (canonical_json_bytes (index_payload m) = index_body)
                            && verifies ready m && bool_decide (cm_reuse_key m = key)))
              (ValueError "content OCR variant controls disagree") in
  let! expected_root := variant_root m in
  let! _ := raise_if (negb (bool_decide (expected_root = root))) (ValueError "content OCR variant controls disagree") in
  let! _ := raise_if (match dict_get (cm_reuse_key m, cm_variant_id m) retained with
                      | Some b => negb (bool_decide (b = binding_of (cm_output m)))
                      | None => false
                      end) (ValueError "retained content OCR binding differs") in
  let! ocr_body := required_bytes r (path_of (ar_path (cm_output m))) in
  let! _ := verify_ocr_bytes ocr_body (oi_page_count (cm_source m))
              {| ex_sha256 := Some (ar_sha256 (cm_output m)); ex_size_bytes := Some (ar_size_bytes (cm_output m));
                 ex_char_count := Some (cm_ocr_chars m); ex_page_sha256 := Some (cm_page_output_sha256 m); ex_minimum_chars := 20 |} in
  Ok {| vm_paths := [as_posix manifest_path; as_posix ready_path; as_posix index_path; ar_path (cm_output m)];
        vm_index := index_path; vm_identity := (cm_reuse_key m, cm_variant_id m);
        vm_legacy := match cm_migrated_from m with Some old => [(old, binding_of (cm_output m))] | None => [] end |}.

Definition mark_variant (indexed : list posix_path) (retained : list (cache_key * binding)) (key : ustr)
    (variants_root root : posix_path) : res variant_mark :=
  let! _ := raise_if (negb (bool_decide (posix_parent root = variants_root))) (GCMarkVerificationError "unexpected content OCR variant path") in
  let! children := list_children r root in
  let! _ := raise_if (negb (bool_decide (length children = 2%nat))
                      || negb (bool_decide (list_to_set children =@{gset posix_path}
                                            {[path_join root (us "manifest.json"); path_join root (us "READY.json")]})))
              (GCMarkVerificationError "incomplete content OCR variant") in
  match verify_variant indexed retained key root with
  | Err e => Err (if is_value_error e || is_gc_error e then GCMarkVerificationError "content OCR variant failed mark verification" else e)
  | ok => ok
  end.
Definition mark_reuse_root (indexed : list posix_path) (retained : list (cache_key * binding)) (prefix reuse_root : posix_path) : res (list variant_mark) :=
  let! _ := raise_if (negb (is_keyed prefix reuse_root)) (GCMarkVerificationError "unexpected content OCR reuse directory") in
  let variants_root := path_join reuse_root (us "variants") in
  let! children := list_children r reuse_root in
  let! _ := raise_if (negb (bool_decide (list_to_set children =@{gset posix_path} {[variants_root]})))
              (GCMarkVerificationError "unexpected content OCR reuse shape") in
  let! roots := list_children r variants_root in
  mapM_res (mark_variant indexed retained (posix_name reuse_root) variants_root) roots.
Definition CONTENT_ROOT : posix_path := PurePosixPath [us "v1"; us "ocr-cache"; us "content"].
Definition mark_content_prefix (indexed : list posix_path) (retained : list (cache_key * binding)) (prefix : posix_path) : res (list variant_mark) :=
  let! _ := raise_if (negb (is_prefix_of CONTENT_ROOT prefix)) (GCMarkVerificationError "unexpected content OCR prefix") in
  let! roots := list_children r prefix in
  let! marks := mapM_res (mark_reuse_root indexed retained prefix) roots in
  Ok (concat marks).

Definition is_index_entry (entry : posix_path) : bool :=
  bool_decide (posix_parent entry = CONTENT_INDEX_ROOT) && endswith (us ".json") (posix_name entry).
Definition mark_content_variants (retained : list (cache_key * binding)) : res (list variant_mark) :=
  let! indexed := optional_children r CONTENT_INDEX_ROOT in
  let! _ := raise_if (negb (bool_decide (NoDup indexed))) (GCMarkVerificationError "duplicate content OCR index entry") in
  let! _ := raise_if (negb (forallb is_index_entry indexed)) (GCMarkVerificationError "unexpected content OCR index entry") in
  let! prefixes := optional_children r CONTENT_ROOT in
  let! _ := raise_if (negb (bool_decide (NoDup prefixes))) (GCMarkVerificationError "duplicate content OCR prefix") in
  let! groups := mapM_res (mark_content_prefix indexed retained) prefixes in
  let marks := concat groups in
  let! _ := raise_if (negb (bool_decide (list_to_set (map vm_index marks) =@{gset posix_path} list_to_set indexed))
                      || negb (forallb (fun kv => bool_decide (kv.1 ∈ map vm_identity marks)) retained))
              (GCMarkVerificationError "content OCR index or retained generation variant is missing") in
  Ok marks.

(** ** Native and adopted caches *)
Definition bindings_of (refs : gset (cache_key * binding)) (key : cache_key) : list binding :=
  map snd (filter (fun kv => kv.1 = key) (elements refs)).
Definition referred (refs : gset (cache_key * binding)) (key : cache_key) : bool := negb (bool_decide (bindings_of refs key = [])).

(** One cache directory: the paths it keeps, or [None] for a directory that may go. *)
Definition visit_cache (retained required : gset (cache_key * binding)) (kind key : ustr) (reuse_root : posix_path) : res (option (list ustr)) :=
  let! manifest_path := ocr_manifest_path key kind in
  let! ready_path := ocr_ready_path key kind in
  let inactive (message : string) : res (option (list ustr)) :=
    let! _ := raise_if (referred retained (kind, key)) (GCMarkVerificationError message) in Ok None in
  let! children := list_children r reuse_root in
  let names : gset ustr := list_to_set (map posix_name (filter (fun c => posix_parent c = reuse_root) children)) in
  let! _ := raise_if (negb (bool_decide (size names = length children))
                      || negb (bool_decide (names ⊆ {[posix_name manifest_path; posix_name ready_path]})))
              (GCMarkVerificationError "unexpected object in OCR cache") in
  let! manifest_body := get_bytes r manifest_path in
  let! ready_body := get_bytes r ready_path in
  match ready_body, manifest_body with
  | None, _ => Ok None
  | Some _, None => inactive "retained OCR cache has no manifest"
  | Some ready_body, Some manifest_body =>
      match parse_ocr_manifest kind manifest_body, parse_ocr_ready ready_body with
      | Some (m, manifest_canonical), Some (ready, ready_canonical) =>
          if negb (bool_decide (manifest_canonical = manifest_body) && bool_decide (ready_canonical = ready_body))
          then inactive "non-canonical retained OCR cache"
          else if negb (bool_decide (om_reuse_key m = key) && bool_decide (or_reuse_key ready = key)
                        && bool_decide (or_manifest_sha256 ready = sha256_bytes manifest_body)
                        && bool_decide (or_ocr_sha256 ready = ar_sha256 (om_output m)))
          then inactive "unbound retained OCR cache"
          else if referred retained (kind, key) then
            let! _ := raise_if (negb (bool_decide (binding_of (om_output m) ∈ bindings_of retained (kind, key))))
                        (GCMarkVerificationError "retained generation/cache binding differs") in
            let! _ := raise_if (referred required (kind, key) && negb (bool_decide (binding_of (om_output m) ∈ bindings_of required (kind, key))))
                        (GCMarkVerificationError "migrated legacy OCR binding differs") in
            Ok (Some [as_posix manifest_path; as_posix ready_path; ar_path (om_output m)])
          else Ok None
      | _, _ => inactive "invalid retained OCR cache"
      end
  end.

Record cache_visit := { cv_key : cache_key; cv_root : posix_path; cv_kept : option (list ustr) }.
Definition mark_cache_root (retained required : gset (cache_key * binding)) (kind : ustr) (prefix reuse_root : posix_path) : res cache_visit :=
  let! _ := raise_if (negb (is_keyed prefix reuse_root)) (GCMarkVerificationError "unexpected OCR cache reuse directory") in
  let! kept := visit_cache retained required kind (posix_name reuse_root) reuse_root in
  Ok {| cv_key := (kind, posix_name reuse_root); cv_root := reuse_root; cv_kept := kept |}.
Definition mark_cache_prefix (retained required : gset (cache_key * binding)) (kind : ustr) (kind_root prefix : posix_path) : res (list cache_visit) :=
  let! _ := raise_if (negb (is_prefix_of kind_root prefix)) (GCMarkVerificationError "unexpected OCR cache prefix") in
  let! roots := list_children r prefix in
  mapM_res (mark_cache_root retained required kind prefix) roots.
Definition mark_cache_kind (retained required : gset (cache_key * binding)) (kind : ustr) : res (list cache_visit) :=
  let kind_root := PurePosixPath [us "v1"; us "ocr-cache"; kind] in
  let! prefixes := optional_children r kind_root in
  let! groups := mapM_res (mark_cache_prefix retained required kind kind_root) prefixes in
  Ok (concat groups).

Definition kept_paths (visits : list cache_visit) : list ustr := concat (omap cv_kept visits).
Definition inactive_roots (visits : list cache_visit) : list ustr :=
  map (fun v => as_posix (cv_root v)) (filter (fun v => cv_kept v = None) visits).
Definition mark_ocr_caches (retained required : gset (cache_key * binding)) : res (list cache_visit) :=
  let! groups := mapM_res (mark_cache_kind retained required) [us "native"; us "adopted"] in
  let visits := concat groups in
  let found := map cv_key (filter (fun v => cv_kept v <> None) visits) in
  let! _ := raise_if (negb (forallb (fun kv => bool_decide (kv.1 ∈ found)) (filter (fun kv => referred retained kv.1) (elements required))))
              (GCMarkVerificationError "migrated legacy OCR provenance is missing") in
  Ok visits.

(** ** Uncommitted uploads *)
Definition is_incoming_temp_leaf (path : posix_path) : bool :=
  bool_decide (length path = 4%nat) && bool_decide (take 2 path = INCOMING_ROOT)
  && bool_decide (nth 2 path [] ∈ INCOMING_NAMESPACES) && fullmatch re_INCOMING_TEMP_LEAF (posix_name path).
Definition leaf_answer (path : posix_path) (children : res (list posix_path)) : res bool :=
  let! _ := raise_if (negb (is_incoming_temp_leaf path)) (GCError "unsafe incoming temporary deletion candidate") in
  match children with
  | Err e => if is_not_found e then Ok false else Err e
  | Ok [] => Ok true
  | Ok _ => Err (GCError "incoming temporary deletion candidate is not a leaf")
  end.
Definition incoming_leaf_exists_and_is_safe (path : posix_path) : res bool := leaf_answer path (list_children r path).
Definition list_namespace (namespace_root : posix_path) : res (list posix_path) :=
  let! children := list_children r namespace_root in
  let! _ := raise_if (negb (bool_decide (NoDup children))) (GCError "duplicate incoming temporary path in PROPFIND") in
  let! kept := mapM_res (fun path =>
      let! _ := raise_if (negb (bool_decide (posix_parent path = namespace_root)) || negb (is_incoming_temp_leaf path))
                  (GCError "unexpected incoming temporary path") in
      let! safe := incoming_leaf_exists_and_is_safe path in
      Ok (if safe then [path] else [])) children in
  Ok (concat kept).
Definition list_incoming_temp_leaves : res (list posix_path) :=
  let! namespaces := optional_children r INCOMING_ROOT in
  let! _ := raise_if (negb (bool_decide (NoDup namespaces))) (GCError "duplicate incoming namespace path in PROPFIND") in
  let collected := map (path_join INCOMING_ROOT) INCOMING_NAMESPACES in
  let allowed := collected ++ map (path_join INCOMING_ROOT) KNOWN_UNCOLLECTED_INCOMING_NAMESPACES in
  let! _ := raise_if (negb (forallb (fun p => bool_decide (posix_parent p = INCOMING_ROOT) && bool_decide (p ∈ allowed)) namespaces))
              (GCError "unexpected incoming namespace path") in
  let! leaves := mapM_res list_namespace (sorted_paths (filter (fun p => p ∈ namespaces) collected)) in
  Ok (sorted_paths (concat leaves)).

(** ** The mark phase *)
Record gc_mark := {
  mk_pointer_body : list N;
  mk_manifests : list GenerationManifest;
  mk_marked : gset ustr;
  mk_candidates : gset ustr;
}.

Definition mark_phase (retain : Z) (pointer_path : posix_path) : res gc_mark :=
  let! chain := generation_chain retain pointer_path in
  let '(pointer_body, manifests) := chain in
  let retained := map gm_generation_id manifests in
  let! f := refer pointer_path manifests in
  let! variants := mark_content_variants (rf_variants f) in
  let migrated : gset (cache_key * binding) := list_to_set (concat (map vm_legacy variants)) in
  let! visits := mark_ocr_caches (rf_caches f ∪ migrated) migrated in
  let marked := rf_marked f ∪ list_to_set (concat (map vm_paths variants)) ∪ list_to_set (kept_paths visits) in
  let! all_generations := list_generation_ids in
  let! all_objects := list_cas_objects in
  let! leaves := list_incoming_temp_leaves in
  Ok {| mk_pointer_body := pointer_body; mk_manifests := manifests; mk_marked := marked;
        mk_candidates :=
          list_to_set (map (fun id => us "v1/generations/" ++ id) (filter (fun id => id ∉ retained) all_generations))
          ∪ list_to_set (filter (fun p => p ∉ marked) (map as_posix all_objects))
          ∪ list_to_set (inactive_roots visits) ∪ list_to_set (map as_posix leaves) |}.
End Mark.

(** ** The table of unreferenced paths, with the times they were first and last seen *)
Abbreviation gc_table := (gmap ustr (Z * Z)).
Definition note_unreferenced (path : ustr) (observed_at : Z) (t : gc_table) : gc_table :=
  <[path := (match t !! path with Some (first_seen, _) => first_seen | None => observed_at end, observed_at)]> t.
Definition clear_unreferenced_except (paths : gset ustr) (t : gc_table) : gc_table := filter (fun kv => kv.1 ∈ paths) t.
Definition clear_unreferenced (path : ustr) (t : gc_table) : gc_table := delete path t.

Definition first_seen (t : gc_table) (path : ustr) : option Z := fst <$> t !! path.
Definition DAY : Z := 24 * 60 * 60 * 1000000.
(** 0001-01-01T00:00:00, in microseconds from 1970-01-01. *)
Definition MIN_DATETIME : Z := -719162 * DAY.

(** ** The sweep *)
Definition deletion_rank (path : ustr) : res Z :=
  if is_incoming_temp_leaf (path_of path) then Ok 0
  else if startswith (us "v1/generations/") path then Ok 1
  else if startswith (us "v1/ocr-cache/") path then Ok 2
  else if startswith (us "v1/objects/") path then Ok 3
  else Err (GCError "unexpected deletion candidate").
Definition deletion_leb (a b : Z * ustr) : bool := (a.1 <? b.1) || ((a.1 =? b.1) && ustr_leb a.2 b.2).
Definition deletion_order (paths : list ustr) : res (list ustr) :=
  let! keyed := mapM_res (fun path => let! rank := deletion_rank path in Ok (rank, path)) paths in
  Ok (map snd (sorted_by deletion_leb keyed)).

(** The answers of the server during the sweep, for each position of the list. *)
Record sweep_env := {
  se_fence : res (option (list N));
  se_pointer : nat -> res (option (list N));
  se_leaf : nat -> res (list posix_path);
  se_delete : nat -> res unit;
}.

(** [true]: the path was deleted; [false]: the upload was gone already. *)
Definition sweep_path (env : sweep_env) (pointer_body : list N) (i : nat) (path : ustr) : res bool :=
  let! head := se_pointer env i in
  let! body := of_option (GCError "required control object is missing") head in
  let! _ := raise_if (negb (bool_decide (body = pointer_body))) (GCDeletionError "stable pointer changed during GC") in
  let candidate := path_of path in
  let! gone :=
    if is_incoming_temp_leaf candidate
    then let! safe := leaf_answer candidate (se_leaf env i) in Ok (negb safe)
    else Ok false in
  if gone then Ok false else let! _ := se_delete env i in Ok true.

Fixpoint sweep (env : sweep_env) (pointer_body : list N) (i : nat) (eligible : list ustr) (t : gc_table) (deleted : list ustr)
  : gc_table * list ustr * option exn :=
  match eligible with
  | [] => (t, deleted, None)
  | path :: rest =>
      match sweep_path env pointer_body i path with
      | Ok done => sweep env pointer_body (S i) rest (clear_unreferenced path t) (if done then deleted ++ [path] else deleted)
      | Err e => (t, deleted, Some e)
      end
  end.

(** ** The collection *)
Record GCResult := {
  gc_retained : list ustr;
  gc_marked_objects : Z;
  gc_candidates : list ustr;
  gc_eligible : list ustr;
  gc_deleted : list ustr;
  gc_dry_run : bool;
}.
Inductive gc_end := Finished (result : GCResult) | GCPartialFailure (deleted_count : Z) | Refused (e : exn).
(** What a collection leaves behind: the table, the paths it deleted, how it ended. *)
Record gc_outcome := { go_table : gc_table; go_deleted : list ustr; go_end : gc_end }.

Definition check_arguments (retain grace_days : Z) (pointer_path : posix_path) : res unit :=
  let! _ := raise_if ((retain <? 1) || (grace_days <? 1)) (ValueError "retention and grace must be positive") in
  let! candidate_channel := channel_pointer_path (us "candidate-v1.0.11") in
  raise_if (negb (bool_decide (pointer_path ∈ [STABLE_POINTER_PATH; candidate_channel])))
    (GCError "remote garbage collection is restricted to the stable or candidate-v1.0.11 channel").

(** The table after the mark phase, and the paths whose grace is over, in the order
    of deletion. *)
Definition note_candidates (candidates : gset ustr) (observed_at : Z) (t : gc_table) : gc_table :=
  clear_unreferenced_except candidates (fold_left (fun t path => note_unreferenced path observed_at t) (sorted_set candidates) t).
Definition expired (t : gc_table) (threshold : Z) (path : ustr) : bool :=
  match first_seen t path with Some seen => seen <=? threshold | None => false end.
Definition eligible_paths (candidates : gset ustr) (observed_at grace_days : Z) (t : gc_table) : res (list ustr) :=
  let threshold := observed_at - grace_days * DAY in
  let! _ := raise_if ((999999999 <? grace_days) || (threshold <? MIN_DATETIME)) (Raised "OverflowError" "date value out of range") in
  deletion_order (filter (fun path => expired t threshold path = true) (sorted_set candidates)).

Definition collect_garbage {codec : ControlCodec} (r : remote) (env : sweep_env) (t : gc_table) (apply : bool)
    (retain grace_days observed_at : Z) (pointer_path : posix_path) : gc_outcome :=
  match (let! _ := check_arguments retain grace_days pointer_path in mark_phase r retain pointer_path) with
  | Err e => {| go_table := t; go_deleted := []; go_end := Refused e |}
  | Ok mark =>
      let t := note_candidates (mk_candidates mark) observed_at t in
      match eligible_paths (mk_candidates mark) observed_at grace_days t with
      | Err e => {| go_table := t; go_deleted := []; go_end := Refused e |}
      | Ok eligible =>
          let result deleted := Finished {|
            gc_retained := map gm_generation_id (mk_manifests mark);
            gc_marked_objects := zlen (filter (fun p => startswith (us "v1/objects/") p = true) (elements (mk_marked mark)));
            gc_candidates := sorted_set (mk_candidates mark); gc_eligible := eligible; gc_deleted := deleted; gc_dry_run := negb apply |} in
          if apply && negb (bool_decide (eligible = [])) then
            match (let! head := se_fence env in of_option (GCError "required control object is missing") head) with
            | Err e => {| go_table := t; go_deleted := []; go_end := Refused e |}
            | Ok body =>
                if negb (bool_decide (body = mk_pointer_body mark))
                then {| go_table := t; go_deleted := []; go_end := Refused (GCDeletionError "stable pointer changed during GC; deleted 0 objects") |}
                else
                  let '(t, deleted, failure) := sweep env (mk_pointer_body mark) 0 eligible t [] in
                  {| go_table := t; go_deleted := deleted;
                     go_end := match failure with
                               | None => result deleted
                               | Some e =>
                                   if negb (bool_decide (deleted = [])) then GCPartialFailure (zlen deleted)
                                   else Refused (if is_gc_error e then e else GCDeletionError "first remote DELETE failed")
                               end |}
            end
          else {| go_table := t; go_deleted := []; go_end := result [] |}
      end
  end.
