(* ===== verification/GcProof.v ===== *)
(** The mark phase of the garbage collection: the shapes of the paths it marks and of
    the candidates it finds, and that no candidate is a marked path or a directory
    above one. *)
From S2P Require Export Gc.

(** ** Paths as texts *)
(** Deleting a path deletes what is below it. *)
Definition removes (d q : ustr) : Prop := q = d \/ startswith (d ++ us "/") q = true.

Lemma startswith_app p t : startswith p t = true -> exists s, t = p ++ s.
Proof.
  revert t. induction p as [|c p IH]; intros t; [by exists t|]. destruct t as [|d t]; [done|]. cbn.
  intros [->%N.eqb_eq (s & ->)%IH]%andb_true_iff. by exists s.
Qed.

Lemma removes_prefix dp qp : safe_path dp -> safe_path qp -> removes (as_posix dp) (as_posix qp) -> exists s, qp = dp ++ s.
Proof.
  intros Hd Hq [E|(s & E)%startswith_app].
  - exists []. rewrite app_nil_r. by apply as_posix_inj.
  - rewrite <- app_assoc in E. change (us "/" ++ s) with (47%N :: s) in E. apply (f_equal (split_on 47)) in E.
    rewrite split_on_app, !safe_path_split in E by done. by exists (split_on 47 s).
Qed.

(** ** Listings *)
Lemma sorted_paths_elem p l : p ∈ sorted_paths l <-> p ∈ l.
Proof. unfold sorted_paths. by rewrite sorted_by_Permutation, elem_of_remove_dups. Qed.

Lemma list_children_safe r path children : list_children r path = Ok children -> Forall safe_path children.
Proof.
  unfold list_children. intros H. apply bind_ok in H as (hrefs & _ & H). apply bind_ok in H as (l & Hl & [= <-]).
  apply mapM_res_ok in Hl. apply Forall_forall. intros p Hp. rewrite sorted_paths_elem in Hp. apply list_elem_of_filter in Hp as [_ Hp].
  apply list_elem_of_lookup in Hp as [i Hi]. destruct (Forall2_lookup_r _ _ _ _ _ Hl Hi) as (x & _ & Hx).
  by apply validate_relative_path_ok in Hx as [? _].
Qed.

Lemma optional_children_safe r path children : optional_children r path = Ok children -> Forall safe_path children.
Proof.
  unfold optional_children. destruct (list_children r path) as [l|e] eqn:E.
  - intros [= <-]. by eapply list_children_safe.
  - destruct (is_not_found e); [|done]. intros [= <-]. constructor.
Qed.

Lemma child_of p root : safe_path p -> posix_parent p = root -> p = root ++ [posix_name p].
Proof.
  intros [Hne _] <-. unfold posix_parent, posix_name. destruct (exists_last Hne) as (l & x & ->).
  by rewrite removelast_last, last_last.
Qed.

Lemma posix_name_safe p : safe_path p -> safe_segment (posix_name p).
Proof.
  intros [Hne Hp]. unfold posix_name. destruct (exists_last Hne) as (l & x & ->). rewrite last_last.
  apply Forall_app in Hp as [_ Hp]. by apply Forall_inv in Hp.
Qed.

Lemma keyed_shape prefix path : safe_path path -> is_keyed prefix path = true ->
  path = prefix ++ [posix_name path] /\ posix_name prefix = slice (posix_name path) 0 2.
Proof. unfold is_keyed. intros Hs H. bsplit. split; [by apply child_of|done]. Qed.

Lemma prefix_shape root prefix : safe_path prefix -> is_prefix_of root prefix = true -> prefix = root ++ [posix_name prefix].
Proof. unfold is_prefix_of. intros Hs H. bsplit. by apply child_of. Qed.

(** ** Results of loops *)
Lemma elem_of_concat {A} (x : A) ll : x ∈ concat ll <-> exists l, l ∈ ll /\ x ∈ l.
Proof.
  induction ll as [|l ll IH]; cbn [concat].
  - split; [by intros ?%not_elem_of_nil|by intros (? & ?%not_elem_of_nil & _)].
  - rewrite elem_of_app, IH. setoid_rewrite elem_of_cons. naive_solver.
Qed.

(** ** Artifacts *)
Lemma check_artifact_path a : check_artifact a = Ok tt -> exists p, safe_path p /\ ar_path a = as_posix p.
Proof.
  unfold check_artifact. intros H. apply bind_ok in H as (? & _ & H). apply bind_ok in H as (? & _ & H).
  apply bind_ok in H as (p & Hp & H). apply bind_ok in H as (? & Hb & _). apply raise_if_ok in Hb. bsplit.
  apply validate_relative_path_ok in Hp as [Hp _]. by exists p.
Qed.

Definition object_shape (p : posix_path) : Prop := exists d, p = [us "v1"; us "objects"; us "sha256"; slice d 0 2; d].

Lemma uses_object_path_shape a m : check_artifact a = Ok tt -> uses_object_path a m = Ok tt ->
  exists p, safe_path p /\ ar_path a = as_posix p /\ object_shape p.
Proof.
  intros (p & Hp & E)%check_artifact_path H. unfold uses_object_path in H. apply bind_ok in H as (o & Ho & H).
  apply raise_if_ok in H. bsplit. apply object_path_shape in Ho as [Hs Ho]. rewrite E, path_of_safe in H by done. subst o.
  exists p. split; [done|]. split; [done|]. by eexists.
Qed.

Lemma check_ocr_output_shape a : check_ocr_output a = Ok tt -> exists p, safe_path p /\ ar_path a = as_posix p /\ object_shape p.
Proof. unfold check_ocr_output. intros H. apply bind_ok in H as ([] & H1 & H2). by eapply uses_object_path_shape. Qed.

Lemma forM_elem {A} (f : A -> res unit) l a : forM f l = Ok tt -> a ∈ l -> f a = Ok tt.
Proof.
  intros H Ha. apply forM_ok in H. rewrite Forall_forall in H. by apply H.
Qed.

Lemma check_document_shape d : check_document d = Ok tt ->
  Forall (fun a => exists p, safe_path p /\ ar_path a = as_posix p /\ object_shape p) (gd_pdf d :: option_list (gd_ocr d)).
Proof.
  unfold check_document, artifact_contracts_are_cas_bound. intros H. apply bind_ok in H as ([] & H1 & H).
  apply bind_ok in H as ([] & H2 & H). apply bind_ok in H as ([] & _ & H). apply bind_ok in H as ([] & H3 & H).
  apply bind_ok in H as ([] & H4 & _). constructor; [by eapply uses_object_path_shape|].
  destruct (gd_ocr d) as [ocr|]; cbn; [|constructor]. apply bind_ok in H4 as ([] & _ & H4).
  apply Forall_singleton. by eapply uses_object_path_shape.
Qed.

(** ** The retained generations *)
Definition generation_ok (m : GenerationManifest) : Prop :=
  check_manifest_paths m = Ok tt /\
  match gm_vector_sidecar m with
  | Some s => exists v, generation_vectors_path (gm_generation_id m) = Ok v /\ ar_path s = as_posix v
  | None => True
  end.

(** Each retained generation is the predecessor the one before it names. *)
Fixpoint linked (id : option ustr) (ms : list GenerationManifest) : Prop :=
  match ms with
  | [] => True
  | m :: ms => id = Some (gm_generation_id m) /\ linked (gm_previous_generation_id m) ms
  end.

Section Marks.
Context {codec : ControlCodec} (r : remote).

Lemma canonical_ok msg b u : canonical msg b = Ok u -> b = true.
Proof. unfold canonical. intros H%raise_if_ok. by apply negb_false_iff. Qed.

Lemma read_generation_ok p id m : read_generation r p id = Ok m -> generation_ok m /\ gm_generation_id m = id.
Proof.
  unfold read_generation. intros H. apply bind_ok in H as (mp & _ & H). apply bind_ok in H as (mb & _ & H).
  apply bind_ok in H as (rp & _ & H). apply bind_ok in H as (rb & _ & H).
  apply bind_ok in H as ([m1 mc] & Hm & H). apply bind_ok in H as ([rd rc] & _ & H).
  apply bind_ok in H as (u1 & _ & H). apply bind_ok in H as (u2 & Hag & H). apply canonical_ok in Hag.
  apply bind_ok in H as (u3 & Hv & H). apply bind_ok in H as (u4 & _ & [= ->]).
  unfold parsed in Hm. apply of_option_ok, parsed_manifest_valid in Hm. bsplit. split; [|done]. split; [done|].
  destruct (has_vectors _).
  - destruct (gm_vector_sidecar m) as [s|]; [|done]. destruct (negb _); [done|].
    apply bind_ok in Hv as (v & Hv & Hp). apply canonical_ok in Hp. bsplit. exists v. split; [|done].
    match goal with H : gm_generation_id m = id |- _ => by rewrite H end.
  - apply canonical_ok in Hv. bsplit. by destruct (gm_vector_sidecar m).
Qed.

Lemma chain_from_ok n : forall seen p id ms, chain_from r n seen p id = Ok ms ->
  Forall generation_ok ms /\ linked id ms /\ (length ms <= n)%nat /\ NoDup (map gm_generation_id ms) /\
  Forall (fun m => gm_generation_id m ∉ seen) ms.
Proof.
  induction n as [|n IH]; intros seen p id ms H; cbn in H; [injection H as <-; repeat constructor|].
  destruct id as [id|]; [|injection H as <-; cbn; repeat constructor; lia].
  apply bind_ok in H as (u & Hseen & H). apply raise_if_ok in Hseen. bsplit.
  apply bind_ok in H as (m & Hm & H). apply bind_ok in H as (rest & Hrest & [= <-]).
  apply read_generation_ok in Hm as [Hok Hid]. destruct (IH _ _ _ _ Hrest) as (H1 & H2 & H3 & H4 & H5).
  split; [by constructor|]. split; [cbn; by rewrite Hid|]. split; [cbn; lia|]. split.
  - cbn. constructor; [|done]. rewrite Hid. intros (x & E & Hx)%list_elem_of_fmap. rewrite Forall_forall in H5.
    apply (H5 x Hx). rewrite <- E. by left.
  - constructor; [by rewrite Hid|]. eapply Forall_impl; [exact H5|]. intros x Hx Hin. apply Hx. by right.
Qed.

(** ** The shapes of marked paths *)
Inductive mark_shape (retained : list ustr) (visits : list cache_visit) : posix_path -> Prop :=
| shape_channel x : mark_shape retained visits [us "v1"; us "channels"; x]
| shape_generation g f : g ∈ retained -> mark_shape retained visits [us "v1"; us "generations"; g; f]
| shape_object p : object_shape p -> mark_shape retained visits p
| shape_content p : mark_shape retained visits (us "v1" :: us "ocr-cache" :: us "content" :: p)
| shape_index x : mark_shape retained visits [us "v1"; us "ocr-cache"; us "content-index"; x]
| shape_cache v f : v ∈ visits -> cv_kept v <> None -> mark_shape retained visits (cv_root v ++ [f]).
Definition well_marked (retained : list ustr) (visits : list cache_visit) (q : ustr) : Prop :=
  exists p, safe_path p /\ q = as_posix p /\ mark_shape retained visits p.

(** What a generation refers to. *)
Definition document_paths (d : GenerationDocument) : list ustr := map ar_path (gd_pdf d :: option_list (gd_ocr d)).
Definition generation_paths (m : GenerationManifest) : list ustr :=
  map (fun name => us "v1/generations/" ++ gm_generation_id m ++ us "/" ++ name) [us "index.sqlite3"; us "manifest.json"; us "READY.json"].
Definition manifest_references (m : GenerationManifest) : list ustr :=
  generation_paths m ++ option_list (ar_path <$> gm_vector_sidecar m) ++ concat (map document_paths (gm_documents m)).

Lemma mark_paths_marked paths f : rf_marked (mark_paths paths f) = rf_marked f ∪ list_to_set paths.
Proof. done. Qed.

Lemma refer_document_marked f d f' : refer_document f d = Ok f' -> rf_marked f' = rf_marked f ∪ list_to_set (document_paths d).
Proof.
  unfold refer_document, document_paths. intros H. destruct (gd_ocr d) as [ocr|]; [|by injection H as <-].
  assert (rf_marked f' = rf_marked (mark_paths [ar_path ocr] (mark_paths [ar_path (gd_pdf d)] f))) as ->.
  2: { rewrite !mark_paths_marked, <- (assoc_L (∪)), <- list_to_set_app_L. done. }
  destruct (gd_ocr_cache_kind d) as [kind|]; [|by injection H as <-]. destruct (gd_ocr_reuse_key d) as [key|]; [|by injection H as <-].
  case_bool_decide; [|by injection H as <-]. apply bind_ok in H as (v & _ & H). by apply bind_ok in H as (u & _ & [= <-]).
Qed.

Lemma refer_documents_marked ds : forall f f', foldM refer_document f ds = Ok f' ->
  rf_marked f' = rf_marked f ∪ list_to_set (concat (map document_paths ds)).
Proof.
  induction ds as [|d ds IH]; intros f f' H; cbn in H; [injection H as <-; cbn; set_solver|].
  apply bind_ok in H as (f1 & H1 & H). rewrite (IH _ _ H), (refer_document_marked _ _ _ H1). cbn [map concat]. by rewrite list_to_set_app_L, (assoc_L (∪)).
Qed.

Lemma generation_file_path m name p (path : ustr -> res posix_path) :
  safe_segment name -> (forall g, path g = (let! root := generation_root_path g in Ok (path_join root name))) ->
  path (gm_generation_id m) = Ok p -> safe_path p /\ p = [us "v1"; us "generations"; gm_generation_id m; name].
Proof.
  intros Hname Hpath H. rewrite Hpath in H. apply bind_ok in H as (root & Hroot & [= <-]).
  apply generation_root_safe in Hroot as [Hs ->]. split; [by apply safe_path_snoc|]. by rewrite path_join_safe.
Qed.

Lemma refer_manifest_marked f m f' : refer_manifest f m = Ok f' ->
  rf_marked f' = rf_marked f ∪ list_to_set (manifest_references m).
Proof.
  unfold refer_manifest. intros H. apply bind_ok in H as (db & Hdb & H). apply bind_ok in H as (mf & Hmf & H).
  apply bind_ok in H as (rd & Hrd & H). apply refer_documents_marked in H. rewrite H.
  apply (generation_file_path m (us "index.sqlite3")) in Hdb as [_ ->]; [|done|done].
  apply (generation_file_path m (us "manifest.json")) in Hmf as [_ ->]; [|done|done].
  apply (generation_file_path m (us "READY.json")) in Hrd as [_ ->]; [|done|done].
  unfold manifest_references. rewrite !list_to_set_app_L.
  change [as_posix [us "v1"; us "generations"; gm_generation_id m; us "index.sqlite3"];
          as_posix [us "v1"; us "generations"; gm_generation_id m; us "manifest.json"];
          as_posix [us "v1"; us "generations"; gm_generation_id m; us "READY.json"]] with (generation_paths m).
  generalize (list_to_set (concat (map document_paths (gm_documents m))) : gset ustr) as D. intros D.
  destruct (gm_vector_sidecar m); cbn [option_list fmap option_fmap option_map]; rewrite !mark_paths_marked.
  - by rewrite !(assoc_L (∪)).
  - change (list_to_set (option_list None) : gset ustr) with (∅ : gset ustr). by rewrite (union_empty_l_L D), (assoc_L (∪)).
Qed.

Lemma generation_path_text m name : us "v1/generations/" ++ gm_generation_id m ++ us "/" ++ name =
  as_posix [us "v1"; us "generations"; gm_generation_id m; name].
Proof. reflexivity. Qed.

Lemma manifest_id_safe m : check_manifest_paths m = Ok tt -> safe_segment (gm_generation_id m).
Proof. unfold check_manifest_paths. intros H. apply bind_ok in H as (u & Hid & _). by apply identifier_safe in Hid as [-> ?]. Qed.

Lemma manifest_documents m : check_manifest_paths m = Ok tt -> forM check_document (gm_documents m) = Ok tt.
Proof.
  unfold check_manifest_paths. intros H. do 6 apply bind_ok in H as (? & _ & H). by apply bind_ok in H as ([] & Hd & _).
Qed.

Lemma manifest_references_shape m retained visits q :
  generation_ok m -> gm_generation_id m ∈ retained -> q ∈ manifest_references m -> well_marked retained visits q.
Proof.
  intros [Hc Hv] Hr. unfold manifest_references. rewrite !elem_of_app. intros [H|[H|H]].
  - apply list_elem_of_fmap in H as (name & -> & Hname). rewrite generation_path_text.
    exists [us "v1"; us "generations"; gm_generation_id m; name]. split; [|split; [done|by constructor]].
    split; [done|]. repeat constructor; [by apply manifest_id_safe|].
    revert Hname. rewrite !elem_of_cons. intros [->|[->|[->|[]%not_elem_of_nil]]]; done.
  - destruct (gm_vector_sidecar m) as [s|]; cbn in H; [|by apply not_elem_of_nil in H]. apply list_elem_of_singleton in H as ->.
    destruct Hv as (v & Hv & ->). apply (generation_file_path m (us "vectors.f32")) in Hv as [Hs ->]; [|done|done].
    eexists. split; [exact Hs|]. split; [done|by constructor].
  - apply elem_of_concat in H as (l & Hl & Hq). apply list_elem_of_fmap in Hl as (d & -> & Hd).
    unfold document_paths in Hq. apply list_elem_of_fmap in Hq as (a & -> & Ha).
    pose proof (forM_elem _ _ _ (manifest_documents m Hc) Hd) as Hdoc. apply check_document_shape in Hdoc.
    rewrite Forall_forall in Hdoc. destruct (Hdoc a Ha) as (p & Hs & E & Ho). exists p. split; [done|]. split; [done|by constructor].
Qed.

Lemma refer_marked ptr ms f : refer ptr ms = Ok f ->
  rf_marked f = {[as_posix ptr]} ∪ list_to_set (concat (map manifest_references ms)).
Proof.
  unfold refer. set (f0 := {| rf_marked := _ |}). change {[as_posix ptr]} with (rf_marked f0). generalize f0. clear f0. revert f.
  induction ms as [|m ms IH]; intros f f0 H; cbn in H.
  - injection H as <-. cbn. by rewrite (union_empty_r_L (rf_marked f0)).
  - apply bind_ok in H as (f1 & H1 & H). rewrite (IH _ _ H), (refer_manifest_marked _ _ _ H1).
    cbn [map concat]. rewrite list_to_set_app_L. by rewrite (assoc_L (∪)).
Qed.

(** ** Content variants and caches *)
Lemma verify_variant_shape indexed variants key root v retained visits :
  Forall safe_path indexed -> Forall (fun e => is_index_entry e = true) indexed ->
  safe_path root -> (exists s, root = us "v1" :: us "ocr-cache" :: us "content" :: s) ->
  verify_variant r indexed variants key root = Ok v -> Forall (well_marked retained visits) (vm_paths v).
Proof.
  intros Hsafe Hindex Hroot [s Es] H. unfold verify_variant in H.
  apply bind_ok in H as (mb & _ & H). apply bind_ok in H as (rb & _ & H). apply bind_ok in H as (m & Hm & H).
  apply of_option_ok in Hm. apply bind_ok in H as ([ready rc] & _ & H). apply bind_ok in H as (u1 & Hi & H).
  apply raise_if_ok in Hi. bsplit. do 7 apply bind_ok in H as (? & _ & H). injection H as <-. cbn [vm_paths].
  assert (forall name, safe_segment name -> well_marked retained visits (as_posix (path_join root name))) as Hin.
  { intros name Hn. exists (path_join root name). split; [by apply safe_path_snoc|]. split; [done|].
    rewrite path_join_safe, Es by done. apply (shape_content _ _ (s ++ [name])). }
  apply Forall_cons. split; [by apply Hin|]. apply Forall_cons. split; [by apply Hin|]. apply Forall_cons. split.
  - rewrite Forall_forall in Hsafe, Hindex. specialize (Hsafe _ Hi). specialize (Hindex _ Hi).
    exists (content_index_path m). split; [done|]. split; [done|]. unfold is_index_entry in Hindex. bsplit.
    match goal with H : posix_parent _ = _ |- _ => rewrite (child_of _ _ Hsafe H) end. exact (shape_index _ _ _).
  - apply Forall_singleton. apply parsed_content_manifest_valid, check_ocr_output_shape in Hm as (p & Hp & E & Ho).
    exists p. split; [done|]. split; [done|by constructor].
Qed.

Lemma child_shape root p s0 : safe_path p -> posix_parent p = root -> (exists s, root = s0 ++ s) -> exists s, p = s0 ++ s.
Proof. intros Hp Hpar [s ->]. exists (s ++ [posix_name p]). rewrite app_assoc. by apply child_of. Qed.

Lemma mark_reuse_root_shape indexed variants prefix root vs retained visits :
  Forall safe_path indexed -> Forall (fun e => is_index_entry e = true) indexed ->
  safe_path root -> (exists s, prefix = CONTENT_ROOT ++ s) ->
  mark_reuse_root r indexed variants prefix root = Ok vs -> Forall (fun v => Forall (well_marked retained visits) (vm_paths v)) vs.
Proof.
  intros Hsafe Hindex Hroot Hprefix H. unfold mark_reuse_root in H. apply bind_ok in H as (u1 & Hk & H).
  apply raise_if_ok, negb_false_iff in Hk. unfold is_keyed in Hk. bsplit.
  apply bind_ok in H as (ch & _ & H). apply bind_ok in H as (u2 & _ & H). apply bind_ok in H as (roots & Hroots & H).
  apply list_children_safe in Hroots. apply Forall_forall. intros v Hv. destruct (mapM_res_elem _ _ _ _ H Hv) as (vroot & Hin & Hm).
  rewrite Forall_forall in Hroots. specialize (Hroots vroot Hin). unfold mark_variant in Hm.
  apply bind_ok in Hm as (u3 & Hpar & Hm). apply raise_if_ok in Hpar. bsplit.
  apply bind_ok in Hm as (ch2 & _ & Hm). apply bind_ok in Hm as (u4 & _ & Hm).
  destruct (verify_variant _ _ _ _ _) as [v'|e] eqn:Ev; [|done]. injection Hm as ->.
  eapply verify_variant_shape; [done..| |exact Ev].
  apply (child_shape (path_join root (us "variants")) vroot CONTENT_ROOT Hroots); [done|].
  rewrite path_join_safe by done.
  match goal with H : posix_parent root = prefix |- _ => destruct (child_shape _ _ CONTENT_ROOT Hroot H Hprefix) as [s ->] end.
  exists (s ++ [us "variants"]). by rewrite <- app_assoc.
Qed.

Lemma content_variants_shape variants marks retained visits :
  mark_content_variants r variants = Ok marks -> Forall (fun v => Forall (well_marked retained visits) (vm_paths v)) marks.
Proof.
  unfold mark_content_variants. intros H. apply bind_ok in H as (indexed & Hindexed & H).
  apply bind_ok in H as (u1 & _ & H). apply bind_ok in H as (u2 & Hentries & H). apply raise_if_ok, negb_false_iff in Hentries.
  apply forallb_Forall in Hentries. apply optional_children_safe in Hindexed.
  apply bind_ok in H as (prefixes & Hprefixes & H). apply optional_children_safe in Hprefixes. apply bind_ok in H as (u3 & _ & H).
  apply bind_ok in H as (groups & Hgroups & H). apply bind_ok in H as (u4 & _ & [= <-]).
  apply Forall_forall. intros v (g & Hg & Hv)%elem_of_concat. destruct (mapM_res_elem _ _ _ _ Hgroups Hg) as (prefix & Hp & H).
  rewrite Forall_forall in Hprefixes. specialize (Hprefixes prefix Hp).
  unfold mark_content_prefix in H. apply bind_ok in H as (u5 & Hpre & H). apply raise_if_ok, negb_false_iff in Hpre.
  apply bind_ok in H as (roots & Hroots & H). apply list_children_safe in Hroots. apply bind_ok in H as (ms & Hms & [= <-]).
  apply elem_of_concat in Hv as (g2 & Hg2 & Hv). destruct (mapM_res_elem _ _ _ _ Hms Hg2) as (root & Hroot & H).
  rewrite Forall_forall in Hroots. specialize (Hroots root Hroot).
  apply (mark_reuse_root_shape _ _ _ _ _ retained visits Hindexed Hentries Hroots) in H; [rewrite Forall_forall in H; by apply H|].
  eexists. by apply prefix_shape.
Qed.

(** Cache directories: where they are, and that their fate depends on their key only. *)
Definition visit_ok (retained required : gset (cache_key * binding)) (v : cache_visit) : Prop :=
  (cv_key v).1 ∈ [us "native"; us "adopted"] /\ safe_path (cv_root v) /\
  cv_root v = [us "v1"; us "ocr-cache"; (cv_key v).1; slice (cv_key v).2 0 2; (cv_key v).2] /\
  visit_cache r retained required (cv_key v).1 (cv_key v).2 (cv_root v) = Ok (cv_kept v).

Lemma mark_ocr_caches_ok retained required visits :
  mark_ocr_caches r retained required = Ok visits -> Forall (visit_ok retained required) visits.
Proof.
  unfold mark_ocr_caches. intros H. apply bind_ok in H as (groups & Hgroups & H). apply bind_ok in H as (u & _ & [= <-]).
  apply Forall_forall. intros v (g & Hg & Hv)%elem_of_concat. destruct (mapM_res_elem _ _ _ _ Hgroups Hg) as (kind & Hkind & H).
  unfold mark_cache_kind in H. apply bind_ok in H as (prefixes & Hp & H). apply optional_children_safe in Hp.
  apply bind_ok in H as (groups2 & Hg2 & [= <-]). apply elem_of_concat in Hv as (g2 & Hin2 & Hv).
  destruct (mapM_res_elem _ _ _ _ Hg2 Hin2) as (prefix & Hprefix & H). rewrite Forall_forall in Hp. specialize (Hp prefix Hprefix).
  unfold mark_cache_prefix in H. apply bind_ok in H as (u1 & Hpre & H). apply raise_if_ok, negb_false_iff in Hpre.
  apply bind_ok in H as (roots & Hroots & H). apply list_children_safe in Hroots.
  destruct (mapM_res_elem _ _ _ _ H Hv) as (root & Hroot & Hm). rewrite Forall_forall in Hroots. specialize (Hroots root Hroot).
  unfold mark_cache_root in Hm. apply bind_ok in Hm as (u2 & Hk & Hm). apply raise_if_ok, negb_false_iff in Hk.
  apply bind_ok in Hm as (kept & Hvisit & [= <-]). unfold visit_ok. cbn [cv_key cv_root cv_kept fst snd].
  split; [done|]. split; [done|]. split; [|done]. destruct (keyed_shape _ _ Hroots Hk) as [E1 E2].
  apply prefix_shape in Hpre; [|done]. rewrite E1 at 1. rewrite Hpre, E2.
  assert (Forall safe_segment [us "v1"; us "ocr-cache"; kind]) as Hs.
  { repeat constructor. revert Hkind. rewrite !elem_of_cons. by intros [->|[->|[]%not_elem_of_nil]]. }
  by rewrite PurePosixPath_safe.
Qed.

Lemma visit_cache_kept retained required kind key root paths :
  visit_cache r retained required kind key root = Ok (Some paths) ->
  exists mp rp p, ocr_manifest_path key kind = Ok mp /\ ocr_ready_path key kind = Ok rp /\ object_shape p /\ safe_path p /\
    paths = [as_posix mp; as_posix rp; as_posix p].
Proof.
  unfold visit_cache. intros H. apply bind_ok in H as (mp & Hmp & H). apply bind_ok in H as (rp & Hrp & H).
  apply bind_ok in H as (ch & _ & H). apply bind_ok in H as (u1 & _ & H). apply bind_ok in H as (mb & _ & H). apply bind_ok in H as (rb & _ & H).
  assert (forall msg, (let! _ := raise_if (referred retained (kind, key)) (GCMarkVerificationError msg) in Ok None) <> Ok (Some paths)) as Hin
    by (intros msg; by destruct (referred _ _)).
  destruct rb as [rb|]; [|done]. destruct mb as [mb|]; [|by apply Hin in H].
  destruct (parse_ocr_manifest kind mb) as [[m mc]|] eqn:Hm; [|by apply Hin in H].
  destruct (parse_ocr_ready rb) as [[rd rc]|]; [|by apply Hin in H].
  destruct (negb _); [by apply Hin in H|]. destruct (negb _); [by apply Hin in H|]. destruct (referred retained _); [|done].
  apply bind_ok in H as (u2 & _ & H). apply bind_ok in H as (u3 & _ & [= <-]).
  apply parsed_ocr_manifest_valid, check_ocr_output_shape in Hm as (p & Hp & -> & Ho). by exists mp, rp, p.
Qed.

Lemma kept_paths_shape retained required visits gens :
  Forall (visit_ok retained required) visits -> Forall (well_marked gens visits) (kept_paths visits).
Proof.
  intros Hv. rewrite Forall_forall in Hv. apply Forall_forall. intros q (l & Hl & Hq)%elem_of_concat.
  apply list_elem_of_omap in Hl as (v & Hin & Hk). destruct (Hv v Hin) as (_ & Hs & Hroot & Hvisit). rewrite Hk in Hvisit.
  destruct (visit_cache_kept _ _ _ _ _ _ Hvisit) as (mp & rp & p & Hmp & Hrp & Ho & Hp & ->).
  assert (forall name path, safe_segment name ->
    (let! root := ocr_cache_root_path (cv_key v).2 (cv_key v).1 in Ok (path_join root name)) = Ok path -> well_marked gens visits (as_posix path)) as Hin2.
  { intros name path Hn H. apply bind_ok in H as (root & Hr & [= <-]). apply ocr_cache_root_shape in Hr as [Hsr ->].
    rewrite <- Hroot in *. exists (path_join (cv_root v) name). split; [by apply safe_path_snoc|]. split; [done|].
    rewrite path_join_safe by done. constructor; [done|by rewrite Hk]. }
  revert Hq. rewrite !elem_of_cons. intros [->|[->|[->|[]%not_elem_of_nil]]].
  - by apply (Hin2 (us "manifest.json")).
  - by apply (Hin2 (us "READY.json")).
  - exists p. split; [done|]. split; [done|by constructor].
Qed.

(** ** The shapes of candidates *)
Inductive candidate_shape (retained : list ustr) (visits : list cache_visit) (marked : gset ustr) : posix_path -> Prop :=
| candidate_generation g : g ∉ retained -> candidate_shape retained visits marked [us "v1"; us "generations"; g]
| candidate_object p : object_shape p -> as_posix p ∉ marked -> candidate_shape retained visits marked p
| candidate_cache v : v ∈ visits -> cv_kept v = None -> candidate_shape retained visits marked (cv_root v)
| candidate_leaf a b : candidate_shape retained visits marked [us "v1"; us ".incoming"; a; b].

Lemma generation_ids_shape ids : list_generation_ids r = Ok ids -> Forall safe_segment ids.
Proof.
  unfold list_generation_ids. intros H. apply bind_ok in H as (children & Hc & H). apply list_children_safe in Hc.
  apply bind_ok in H as (l & H & [= <-]).
  apply Forall_forall. intros id Hid. rewrite (sorted_by_Permutation ustr_leb) in Hid. destruct (mapM_res_elem _ _ _ _ H Hid) as (p & Hp & Hg). rewrite Forall_forall in Hc.
  unfold list_generation in Hg. apply bind_ok in Hg as (u1 & _ & Hg). apply bind_ok in Hg as (u2 & _ & Hg).
  apply bind_ok in Hg as (ch & _ & Hg). apply bind_ok in Hg as (u3 & _ & [= <-]). by apply posix_name_safe, Hc.
Qed.

Lemma cas_objects_shape objects : list_cas_objects r = Ok objects -> Forall (fun p => safe_path p /\ object_shape p) objects.
Proof.
  unfold list_cas_objects. intros H. apply bind_ok in H as (prefixes & Hp & H). apply list_children_safe in Hp.
  apply bind_ok in H as (u & Hall & H). apply raise_if_ok, negb_false_iff, forallb_Forall in Hall.
  apply bind_ok in H as (groups & Hg & [= <-]). apply Forall_forall. intros o Ho. rewrite (sorted_by_Permutation path_leb) in Ho.
  apply elem_of_concat in Ho as (g & Hin & Ho).
  destruct (mapM_res_elem _ _ _ _ Hg Hin) as (prefix & Hprefix & H). rewrite Forall_forall in Hp, Hall.
  specialize (Hp prefix Hprefix). specialize (Hall prefix Hprefix). unfold list_prefix in H.
  apply bind_ok in H as (children & Hc & H). apply list_children_safe in Hc. apply bind_ok in H as (u1 & Hk & [= <-]).
  apply raise_if_ok, negb_false_iff, forallb_Forall in Hk. rewrite Forall_forall in Hc, Hk.
  specialize (Hc o Ho). specialize (Hk o Ho). split; [done|]. exists (posix_name o).
  destruct (keyed_shape _ _ Hc Hk) as [E1 E2]. apply prefix_shape in Hall; [|done]. rewrite E1 at 1. by rewrite Hall, E2.
Qed.

Lemma temp_leaf_shape p : is_incoming_temp_leaf p = true -> exists a b, p = [us "v1"; us ".incoming"; a; b].
Proof.
  unfold is_incoming_temp_leaf. intros H. bsplit. destruct p as [|x [|y [|a [|b [|]]]]]; try done.
  exists a, b. match goal with H : take 2 _ = _ |- _ => by injection H as -> -> end.
Qed.

Lemma leaves_shape leaves : list_incoming_temp_leaves r = Ok leaves ->
  Forall (fun p => safe_path p /\ is_incoming_temp_leaf p = true) leaves.
Proof.
  unfold list_incoming_temp_leaves. intros H. apply bind_ok in H as (ns & _ & H). apply bind_ok in H as (u1 & _ & H).
  apply bind_ok in H as (u2 & _ & H). apply bind_ok in H as (groups & Hg & [= <-]).
  apply Forall_forall. intros p Hp. rewrite sorted_paths_elem, elem_of_concat in Hp. destruct Hp as (g & Hin & Hp).
  destruct (mapM_res_elem _ _ _ _ Hg Hin) as (root & _ & H). unfold list_namespace in H.
  apply bind_ok in H as (children & Hc & H). apply list_children_safe in Hc. apply bind_ok in H as (u3 & _ & H).
  apply bind_ok in H as (kept & Hk & [= <-]). apply elem_of_concat in Hp as (l & Hl & Hp).
  destruct (mapM_res_elem _ _ _ _ Hk Hl) as (path & Hpath & H). apply bind_ok in H as (u4 & Hleaf & H).
  apply raise_if_ok in Hleaf. bsplit. apply bind_ok in H as (safe & _ & [= <-]). destruct safe; [|by apply not_elem_of_nil in Hp].
  apply list_elem_of_singleton in Hp as ->. rewrite Forall_forall in Hc. split; [by apply Hc|done].
Qed.

(** ** The mark phase, taken apart *)
Definition channel_path (p : posix_path) : Prop := safe_path p /\ exists x, p = [us "v1"; us "channels"; x].

Lemma check_arguments_channel retain grace ptr u : check_arguments retain grace ptr = Ok u -> channel_path ptr.
Proof.
  unfold check_arguments. intros H. apply bind_ok in H as (u1 & _ & H). apply bind_ok in H as (c & Hc & H).
  apply raise_if_ok in H. bsplit. assert (c = [us "v1"; us "channels"; us "candidate-v1.0.11.json"]) as ->.
  { vm_compute in Hc. injection Hc as <-. by vm_compute. }
  revert H. rewrite !elem_of_cons. intros [->|[->|[]%not_elem_of_nil]]; (split; [split; [done|by repeat constructor]|by eexists]).
Qed.

Record mark_parts (retain : Z) (ptr : posix_path) (mark : gc_mark) (visits : list cache_visit) : Prop := {
  mp_generations : Forall generation_ok (mk_manifests mark);
  mp_pointer : get_bytes r ptr = Ok (Some (mk_pointer_body mark));
  mp_linked : exists p, parse_pointer (mk_pointer_body mark) = Some (p, mk_pointer_body mark) /\ linked (Some (gp_generation p)) (mk_manifests mark);
  mp_length : (length (mk_manifests mark) <= Z.to_nat retain)%nat;
  mp_distinct : NoDup (map gm_generation_id (mk_manifests mark));
  mp_visits : exists retained required, Forall (visit_ok retained required) visits;
  mp_shapes : forall q, q ∈ mk_marked mark -> well_marked (map gm_generation_id (mk_manifests mark)) visits q;
  mp_references : forall m q, m ∈ mk_manifests mark -> q ∈ manifest_references m -> q ∈ mk_marked mark;
  mp_channel : as_posix ptr ∈ mk_marked mark;
  mp_candidates : forall d, d ∈ mk_candidates mark -> exists p, safe_path p /\ d = as_posix p /\
    candidate_shape (map gm_generation_id (mk_manifests mark)) visits (mk_marked mark) p;
}.

Lemma generation_chain_ok retain ptr body ms : generation_chain r retain ptr = Ok (body, ms) ->
  Forall generation_ok ms /\ get_bytes r ptr = Ok (Some body) /\
  (exists p, parse_pointer body = Some (p, body) /\ linked (Some (gp_generation p)) ms) /\
  (length ms <= Z.to_nat retain)%nat /\ NoDup (map gm_generation_id ms).
Proof.
  unfold generation_chain. intros H. apply bind_ok in H as (pb & Hb & H). apply bind_ok in H as ([p pc] & Hp & H).
  apply bind_ok in H as (u & Hc & H). apply canonical_ok in Hc. bsplit. apply bind_ok in H as (l & Hl & [= <- <-]).
  destruct (chain_from_ok _ _ _ _ _ Hl) as (H1 & H2 & H3 & H4 & _). unfold parsed in Hp. apply of_option_ok in Hp.
  unfold required_bytes in Hb. apply bind_ok in Hb as (o & Hget & Hsome). apply of_option_ok in Hsome as ->.
  subst. repeat (split; [done|]). split; [by exists p|]. by split.
Qed.

Lemma candidates_shape retained visits marked ids objects leaves d :
  Forall safe_segment ids -> Forall (fun p => safe_path p /\ object_shape p) objects ->
  Forall (fun p => safe_path p /\ is_incoming_temp_leaf p = true) leaves ->
  Forall (fun v => safe_path (cv_root v)) visits ->
  d ∈ ((list_to_set (map (fun id => us "v1/generations/" ++ id) (filter (fun id => id ∉ retained) ids))
       ∪ list_to_set (filter (fun p => p ∉ marked) (map as_posix objects))
       ∪ list_to_set (inactive_roots visits) ∪ list_to_set (map as_posix leaves)) : gset ustr) ->
  exists p, safe_path p /\ d = as_posix p /\ candidate_shape retained visits marked p.
Proof.
  intros Hids Hobj Hleaves Hvisits. rewrite !elem_of_union, !elem_of_list_to_set. intros [[[H|H]|H]|H].
  - apply list_elem_of_fmap in H as (g & -> & H). apply list_elem_of_filter in H as [Hg Hin].
    exists [us "v1"; us "generations"; g]. split; [|split; [reflexivity|by constructor]]. split; [done|].
    rewrite Forall_forall in Hids. repeat constructor. by apply Hids.
  - apply list_elem_of_filter in H as [Hm H]. apply list_elem_of_fmap in H as (p & -> & Hin).
    rewrite Forall_forall in Hobj. destruct (Hobj p Hin) as [Hs Ho]. exists p. split; [done|]. split; [done|by apply candidate_object].
  - apply list_elem_of_fmap in H as (v & -> & H). apply list_elem_of_filter in H as [Hk Hin].
    rewrite Forall_forall in Hvisits. exists (cv_root v). split; [by apply Hvisits|]. split; [done|by constructor].
  - apply list_elem_of_fmap in H as (p & -> & Hin). rewrite Forall_forall in Hleaves. destruct (Hleaves p Hin) as [Hs Hl].
    exists p. split; [done|]. split; [done|]. apply temp_leaf_shape in Hl as (a & b & ->). apply candidate_leaf.
Qed.

Lemma mark_phase_parts retain ptr mark : mark_phase r retain ptr = Ok mark -> channel_path ptr ->
  exists visits, mark_parts retain ptr mark visits.
Proof.
  intros H [Hptr [x Ex]]. unfold mark_phase in H. apply bind_ok in H as ([body ms] & Hchain & H).
  destruct (generation_chain_ok _ _ _ _ Hchain) as (Hok & Hbody & Hlinked & Hlen & Hnd).
  apply bind_ok in H as (f & Hf & H). apply bind_ok in H as (variants & Hvar & H). apply bind_ok in H as (visits & Hvis & H).
  apply bind_ok in H as (ids & Hids & H). apply bind_ok in H as (objects & Hobj & H). apply bind_ok in H as (leaves & Hleaves & [= <-]).
  apply refer_marked in Hf. apply mark_ocr_caches_ok in Hvis. exists visits.
  split; cbn [mk_manifests mk_pointer_body mk_marked mk_candidates]; try done.
  - by eexists _, _.
  - intros q. rewrite !elem_of_union, Hf, elem_of_union, elem_of_singleton, !elem_of_list_to_set. intros [[[->|Hq]|Hq]|Hq].
    + exists ptr. split; [done|]. split; [done|]. rewrite Ex. constructor.
    + apply elem_of_concat in Hq as (l & Hl & Hq). apply list_elem_of_fmap in Hl as (m & -> & Hm).
      rewrite Forall_forall in Hok. eapply manifest_references_shape; [by apply Hok| |done]. apply list_elem_of_fmap. by exists m.
    + apply elem_of_concat in Hq as (l & Hl & Hq). apply list_elem_of_fmap in Hl as (v & -> & Hv).
      apply (content_variants_shape _ _ (map gm_generation_id ms) visits) in Hvar. rewrite Forall_forall in Hvar.
      specialize (Hvar v Hv). rewrite Forall_forall in Hvar. by apply Hvar.
    + apply (kept_paths_shape _ _ _ (map gm_generation_id ms)) in Hvis. rewrite Forall_forall in Hvis. by apply Hvis.
  - intros m q Hm Hq. rewrite !elem_of_union. left. left. rewrite Hf, elem_of_union, elem_of_list_to_set. right.
    apply elem_of_concat. exists (manifest_references m). split; [|done]. apply list_elem_of_fmap. by exists m.
  - rewrite !elem_of_union. left. left. rewrite Hf. apply elem_of_union_l. by apply elem_of_singleton.
  - intros d. apply candidates_shape; [by eapply generation_ids_shape|by apply cas_objects_shape|by apply leaves_shape|].
    eapply Forall_impl; [exact Hvis|]. by intros v (_ & Hs & _).
Qed.

Lemma other_kinds : us "content" ∉ [us "native"; us "adopted"].
Proof. apply (bool_decide_unpack _); vm_compute; exact I. Qed.

(** No candidate is a marked path or a directory above one. *)
Lemma candidate_spares_marks retained required generations visits marked dp qp s :
  Forall (visit_ok retained required) visits ->
  candidate_shape generations visits marked dp -> mark_shape generations visits qp -> as_posix qp ∈ marked -> qp <> dp ++ s.
Proof.
  intros Hvisits Hd Hq Hmarked E. rewrite Forall_forall in Hvisits.
  destruct Hd as [g Hg|p [d ->] Hp|v Hv Hk|a b].
  - destruct Hq as [x|g' f Hg'|p [d ->]|p|x|v f Hv Hk]; try done; cbn [app] in E.
    + injection E as -> _. done.
    + destruct (Hvisits v Hv) as (_ & _ & Hr & _). by rewrite Hr in E.
  - destruct Hq as [x|g' f Hg'|p [d' ->]|p|x|v f Hv Hk]; try done; cbn [app] in E.
    + apply Hp. injection E as E1 E2 ->. by rewrite <- E1, <- E2 in *.
    + destruct (Hvisits v Hv) as (_ & _ & Hr & _). by rewrite Hr in E.
  - destruct (Hvisits v Hv) as (Hkind & _ & Hr & Hvisit). rewrite Hr in E.
    destruct Hq as [x|g' f Hg'|p [d' ->]|p|x|v' f Hv' Hk']; try done; cbn [app] in E.
    + injection E as E1 _. rewrite <- E1 in Hkind. by apply other_kinds in Hkind.
    + destruct (Hvisits v' Hv') as (_ & _ & Hr' & Hvisit'). rewrite Hr' in E. cbn [app] in E. injection E as E1 E2 E3 _.
      apply Hk'. assert (cv_key v = cv_key v') as E4 by (destruct (cv_key v), (cv_key v'); cbn in *; congruence).
      rewrite <- E4 in *. rewrite <- Hr in Hr'. rewrite Hr', Hvisit in Hvisit'. congruence.
  - destruct Hq as [x|g' f Hg'|p [d' ->]|p|x|v' f Hv' Hk']; try done; cbn [app] in E.
    destruct (Hvisits v' Hv') as (_ & _ & Hr' & _). by rewrite Hr' in E.
Qed.
End Marks.
