(* ===== verification/GcSafety.v ===== *)
(** Garbage collection is safe: no deletion removes a path that the retained
    generations or the live caches refer to, nothing is deleted before its grace is
    over, and a failure before the sweep deletes nothing. *)
From S2P Require Export GcProof.

(** ** The sweep *)
Definition rank_le (x y : ustr) : Prop :=
  match deletion_rank x, deletion_rank y with Ok a, Ok b => a <= b | _, _ => False end.

Lemma deletion_leb_total a b : deletion_leb a b = true \/ deletion_leb b a = true.
Proof.
  unfold deletion_leb. destruct (Z.lt_trichotomy a.1 b.1) as [H|[H|H]].
  - left. apply Z.ltb_lt in H as ->. done.
  - rewrite H, Z.ltb_irrefl, Z.eqb_refl. cbn. apply ustr_leb_total.
  - right. apply Z.ltb_lt in H as ->. done.
Qed.

Lemma deletion_leb_rank a b : deletion_leb a b = true -> a.1 <= b.1.
Proof. unfold deletion_leb. rewrite orb_true_iff, andb_true_iff, Z.ltb_lt, Z.eqb_eq. lia. Qed.

Lemma deletion_leb_trans a b c : deletion_leb a b = true -> deletion_leb b c = true -> deletion_leb a c = true.
Proof.
  unfold deletion_leb. rewrite !orb_true_iff, !andb_true_iff, !Z.ltb_lt, !Z.eqb_eq. intros [H1|[H1 H2]] [H3|[H3 H4]]; [left; lia|left; lia|left; lia|].
  right. split; [lia|]. by eapply ustr_leb_trans.
Qed.

Lemma deletion_order_ok paths l : deletion_order paths = Ok l -> (forall p, p ∈ l <-> p ∈ paths) /\ StronglySorted rank_le l.
Proof.
  unfold deletion_order. intros H. apply bind_ok in H as (keyed & Hk & [= <-]). apply mapM_res_ok in Hk.
  assert (Forall2 (fun p kv => kv.2 = p /\ deletion_rank p = Ok kv.1) paths keyed) as Hk'.
  { eapply Forall2_impl; [exact Hk|]. intros p kv H. by apply bind_ok in H as (rank & Hr & [= <-]). }
  assert (map snd keyed = paths) as Hsnd by (clear Hk; induction Hk' as [|p kv ps kvs [Hp _] _ IH]; cbn; congruence).
  assert (Forall (fun kv => deletion_rank kv.2 = Ok kv.1) keyed) as Hrank
    by (clear Hk Hsnd; induction Hk' as [|p kv ps kvs [<- Hr] _ IH]; by constructor).
  split.
  - intros p. rewrite <- Hsnd. rewrite !list_elem_of_fmap. by setoid_rewrite (sorted_by_Permutation deletion_leb keyed).
  - pose proof (sorted_by_sorted deletion_leb deletion_leb_total deletion_leb_trans keyed) as Hs.
    assert (Forall (fun kv => deletion_rank kv.2 = Ok kv.1) (sorted_by deletion_leb keyed)) as Hr by by rewrite (sorted_by_Permutation deletion_leb keyed).
    induction Hs as [|kv l Hl IH Hall]; cbn; [constructor|]. apply Forall_cons in Hr as [Hkv Hr]. constructor; [by apply IH|].
    apply Forall_map. rewrite !Forall_forall in *. intros kv' Hin. unfold rank_le. rewrite Hkv, (Hr kv' Hin).
    by apply deletion_leb_rank, Hall.
Qed.

(** One path of the sweep: deleted behind an unchanged pointer. *)
Definition fenced (env : sweep_env) (body : list N) (i : nat) (path : ustr) : Prop :=
  se_pointer env i = Ok (Some body) /\ se_delete env i = Ok tt /\
  (is_incoming_temp_leaf (path_of path) = true -> se_leaf env i = Ok []).

Lemma sweep_path_true env body i path : sweep_path env body i path = Ok true -> fenced env body i path.
Proof.
  unfold sweep_path. intros H. apply bind_ok in H as (head & Hh & H). apply bind_ok in H as (b & Hb & H).
  apply of_option_ok in Hb as ->. apply bind_ok in H as (u & Hu & H). apply raise_if_ok in Hu. bsplit. subst b.
  apply bind_ok in H as (gone & Hg & H). destruct gone; [done|]. apply bind_ok in H as ([] & Hd & _).
  split; [done|]. split; [done|]. intros Hl. rewrite Hl in Hg. apply bind_ok in Hg as (safe & Hs & [= Hn]).
  apply negb_false_iff in Hn as ->. unfold leaf_answer in Hs. rewrite Hl in Hs. cbn [negb raise_if res_bind] in Hs.
  destruct (se_leaf env i) as [[|c l]|e]; [done|done|]. by destruct (is_not_found e).
Qed.

Lemma sweep_spec env body eligible : forall i t deleted t' deleted' failure,
  sweep env body i eligible t deleted = (t', deleted', failure) ->
  exists done, deleted' = deleted ++ done /\ sublist done eligible /\
    Forall (fun p => exists k, fenced env body k p) done /\
    (forall p, t' !! p = t !! p \/ t' !! p = None).
Proof.
  induction eligible as [|path rest IH]; intros i t deleted t' deleted' failure H; cbn in H.
  - injection H as <- <- _. exists []. rewrite app_nil_r. split; [done|]. split; [constructor|]. split; [constructor|]. by left.
  - destruct (sweep_path env body i path) as [d|e] eqn:E.
    + destruct (IH _ _ _ _ _ _ H) as (l & -> & Hsub & Hf & Ht).
      exists (if d then path :: l else l). split; [destruct d; by rewrite <- ?app_assoc|].
      split; [destruct d; by constructor|]. split.
      * destruct d; [|done]. constructor; [|done]. exists i. by apply sweep_path_true.
      * intros p. destruct (Ht p) as [->| ->]; [|by right]. unfold clear_unreferenced.
        destruct (decide (p = path)) as [->|Hne]; [right; apply lookup_delete_eq|left; by apply lookup_delete_ne].
    + injection H as <- <- _. exists []. rewrite app_nil_r. split; [done|]. split; [apply sublist_nil_l|]. split; [constructor|]. by left.
Qed.

Lemma sublist_sorted {A} (R : A -> A -> Prop) l1 l2 : sublist l1 l2 -> StronglySorted R l2 -> StronglySorted R l1.
Proof.
  induction 1 as [|x l1 l2 Hs IH|x l1 l2 Hs IH]; intros H; [constructor| |].
  - apply StronglySorted_inv in H as [H Hx]. constructor; [by apply IH|]. rewrite Forall_forall in *. intros y Hy. apply Hx.
    by eapply elem_of_sublist.
  - apply StronglySorted_inv in H as [H _]. by apply IH.
Qed.

(** ** The table *)
Lemma note_all_lookup paths observed_at : forall t p,
  fold_left (fun t path => note_unreferenced path observed_at t) paths t !! p =
  if decide (p ∈ paths) then Some (default observed_at (first_seen t p), observed_at) else t !! p.
Proof.
  induction paths as [|path paths IH]; intros t p; cbn [fold_left].
  - by rewrite decide_False by apply not_elem_of_nil.
  - rewrite IH. unfold first_seen, note_unreferenced. destruct (decide (p = path)) as [->|Hne].
    + rewrite lookup_insert_eq, (decide_True (P := path ∈ path :: paths)) by left.
      destruct (decide _); destruct (t !! path) as [[f l]|]; done.
    + rewrite lookup_insert_ne by done.
      destruct (decide (p ∈ paths)); [rewrite decide_True by (by right)|rewrite decide_False by by rewrite elem_of_cons; intros [?|?]]; done.
Qed.

Lemma note_candidates_lookup candidates observed_at t p :
  note_candidates candidates observed_at t !! p =
  if decide (p ∈ candidates) then Some (default observed_at (first_seen t p), observed_at) else None.
Proof.
  unfold note_candidates, clear_unreferenced_except. rewrite map_lookup_filter, note_all_lookup.
  destruct (decide (p ∈ candidates)) as [H|H].
  - rewrite decide_True by by apply sorted_set_elem. cbn. by rewrite option_guard_True.
  - rewrite decide_False by by rewrite sorted_set_elem. destruct (t !! p); [|done]. cbn. by rewrite option_guard_False.
Qed.

Section Collect.
Context {codec : ControlCodec} (r : remote) (env : sweep_env) (t : gc_table) (apply : bool) (retain grace now : Z) (ptr : posix_path).
Let o := collect_garbage r env t apply retain grace now ptr.

(** A collection whose mark phase ended. *)
Lemma collect_marked mark :
  check_arguments retain grace ptr = Ok tt -> mark_phase r retain ptr = Ok mark ->
  let t1 := note_candidates (mk_candidates mark) now t in
  (forall p, go_table o !! p = t1 !! p \/ go_table o !! p = None) /\
  (go_deleted o = [] \/
   apply = true /\ se_fence env = Ok (Some (mk_pointer_body mark)) /\
   exists eligible, eligible_paths (mk_candidates mark) now grace t1 = Ok eligible /\ sublist (go_deleted o) eligible /\
     Forall (fun p => exists k, fenced env (mk_pointer_body mark) k p) (go_deleted o)).
Proof.
  intros Ha Hm. cbv zeta. unfold o, collect_garbage. rewrite Ha. cbn [res_bind]. rewrite Hm.
  destruct (eligible_paths _ _ _ _) as [eligible|e]; [|split; [by left|by left]].
  destruct (apply && _) eqn:Eapply; [|split; [by left|by left]]. apply andb_true_iff in Eapply as [-> _].
  destruct (let! head := se_fence env in _) as [body|e] eqn:Ef; [|split; [by left|by left]].
  destruct (negb _) eqn:Eb; [split; [by left|by left]|]. bsplit. subst body.
  destruct (sweep _ _ _ _ _ _) as [[t2 deleted] failure] eqn:Es. destruct (sweep_spec _ _ _ _ _ _ _ _ _ Es) as (l & -> & Hsub & Hf & Ht).
  cbn [go_table go_deleted app]. split; [done|]. right. split; [done|]. split.
  - apply bind_ok in Ef as (head & -> & Hh). by apply of_option_ok in Hh as ->.
  - by exists eligible.
Qed.

Lemma collect_unmarked e :
  (let! _ := check_arguments retain grace ptr in mark_phase r retain ptr) = Err e ->
  o = {| go_table := t; go_deleted := []; go_end := Refused e |}.
Proof. intros H. unfold o, collect_garbage. by rewrite H. Qed.

Lemma collect_deleted d : d ∈ go_deleted o ->
  exists mark eligible, check_arguments retain grace ptr = Ok tt /\ mark_phase r retain ptr = Ok mark /\ apply = true /\
    se_fence env = Ok (Some (mk_pointer_body mark)) /\
    eligible_paths (mk_candidates mark) now grace (note_candidates (mk_candidates mark) now t) = Ok eligible /\
    sublist (go_deleted o) eligible /\ Forall (fun p => exists k, fenced env (mk_pointer_body mark) k p) (go_deleted o).
Proof.
  intros Hd. destruct (check_arguments retain grace ptr) as [[]|e] eqn:Ha.
  - destruct (mark_phase r retain ptr) as [mark|e] eqn:Hm.
    + destruct (collect_marked mark Ha Hm) as [_ [E|(H1 & H2 & el & H3 & H4 & H5)]]; [rewrite E in Hd; by apply not_elem_of_nil in Hd|].
      by exists mark, el.
    + assert (o = {| go_table := t; go_deleted := []; go_end := Refused e |}) as E by (apply collect_unmarked; by rewrite Ha).
      rewrite E in Hd. by apply not_elem_of_nil in Hd.
  - assert (o = {| go_table := t; go_deleted := []; go_end := Refused e |}) as E by (apply collect_unmarked; by rewrite Ha).
    rewrite E in Hd. by apply not_elem_of_nil in Hd.
Qed.
End Collect.

Lemma eligible_paths_elem candidates now grace t l d : eligible_paths candidates now grace t = Ok l -> d ∈ l ->
  d ∈ candidates /\ exists seen, first_seen t d = Some seen /\ seen <= now - grace * DAY.
Proof.
  unfold eligible_paths. intros H Hd. apply bind_ok in H as (u & _ & H). apply deletion_order_ok in H as [H _].
  apply H, list_elem_of_filter in Hd as [He Hin]. split; [by apply sorted_set_elem|]. unfold expired in He.
  destruct (first_seen t d) as [seen|]; [|done]. exists seen. split; [done|lia].
Qed.

(** ** The history of the table *)
Record gc_run := { run_at : Z; run_candidates : gset ustr }.

(** The tables reachable by collections, with the runs whose mark phase ended. *)
Inductive gc_history {codec : ControlCodec} : list gc_run -> gc_table -> Prop :=
| history_start : gc_history [] ∅
| history_refused h t r env apply retain grace now ptr e :
    gc_history h t -> (let! _ := check_arguments retain grace ptr in mark_phase r retain ptr) = Err e ->
    gc_history h (go_table (collect_garbage r env t apply retain grace now ptr))
| history_run h t r env apply retain grace now ptr mark :
    gc_history h t -> check_arguments retain grace ptr = Ok tt -> mark_phase r retain ptr = Ok mark ->
    gc_history (h ++ [{| run_at := now; run_candidates := mk_candidates mark |}])
      (go_table (collect_garbage r env t apply retain grace now ptr)).

(** Since some run at [seen] the path was unreferenced in every run. *)
Definition unreferenced_since (h : list gc_run) (seen : Z) (d : ustr) : Prop :=
  exists h1 run h2, h = h1 ++ run :: h2 /\ run_at run = seen /\ d ∈ run_candidates run /\ Forall (fun x => d ∈ run_candidates x) h2.

Lemma noted_since {codec : ControlCodec} h t candidates now d seen :
  (forall d seen, first_seen t d = Some seen -> unreferenced_since h seen d) ->
  first_seen (note_candidates candidates now t) d = Some seen ->
  unreferenced_since (h ++ [{| run_at := now; run_candidates := candidates |}]) seen d.
Proof.
  intros Hinv H. unfold first_seen in H at 1. rewrite note_candidates_lookup in H. destruct (decide (d ∈ candidates)) as [Hd|]; [|done].
  injection H as H. cbn in H. destruct (first_seen t d) as [s|] eqn:Es; cbn in H; subst.
  - destruct (Hinv _ _ Es) as (h1 & run & h2 & -> & Hat & Hin & Hall). exists h1, run, (h2 ++ [{| run_at := now; run_candidates := candidates |}]).
    split; [by rewrite <- app_assoc|]. split; [done|]. split; [done|]. apply Forall_app. split; [done|by apply Forall_singleton].
  - exists h, {| run_at := seen; run_candidates := candidates |}, []. by repeat split.
Qed.

Lemma history_since {codec : ControlCodec} h t : gc_history h t -> forall d seen, first_seen t d = Some seen -> unreferenced_since h seen d.
Proof.
  induction 1 as [|h t r env apply retain grace now ptr e _ IH Hm|h t r env apply retain grace now ptr mark _ IH Ha Hm]; intros d seen Hs.
  - done.
  - rewrite (collect_unmarked _ _ _ _ _ _ _ _ _ Hm) in Hs. by apply IH.
  - destruct (collect_marked r env t apply retain grace now ptr mark Ha Hm) as [Ht _].
    apply (noted_since h t (mk_candidates mark) now d seen IH). unfold first_seen in *. destruct (Ht d) as [E|E]; rewrite E in Hs; done.
Qed.

(** ** The properties *)

(** C3: garbage collection spares everything that is referred to.  A deleted path is
    neither a path of a retained generation (its files, the PDF and OCR objects of
    its documents), nor a path marked for the pointer or a live OCR cache, nor a
    directory above one; the retained generations are the chain of predecessors from
    the pointer, each checked against its READY file. *)
Theorem gc_keeps_references {codec : ControlCodec} r env t apply retain grace now ptr d :
  d ∈ go_deleted (collect_garbage r env t apply retain grace now ptr) ->
  exists mark pointer, mark_phase r retain ptr = Ok mark /\
    get_bytes r ptr = Ok (Some (mk_pointer_body mark)) /\ parse_pointer (mk_pointer_body mark) = Some (pointer, mk_pointer_body mark) /\
    linked (Some (gp_generation pointer)) (mk_manifests mark) /\ Forall generation_ok (mk_manifests mark) /\
    (length (mk_manifests mark) <= Z.to_nat retain)%nat /\
    (forall m q, m ∈ mk_manifests mark -> q ∈ manifest_references m -> ~ removes d q) /\
    (forall q, q ∈ mk_marked mark -> ~ removes d q).
Proof.
  intros Hd. destruct (collect_deleted _ _ _ _ _ _ _ _ _ Hd) as (mark & el & Ha & Hm & _ & _ & Hel & Hsub & _).
  apply check_arguments_channel in Ha. destruct (mark_phase_parts _ _ _ _ Hm Ha) as (visits & Hp).
  destruct (mp_linked _ _ _ _ _ Hp) as (p & Hpp & Hl). exists mark, p.
  destruct (eligible_paths_elem _ _ _ _ _ d Hel ltac:(by eapply elem_of_sublist)) as [Hc _].
  assert (forall q, q ∈ mk_marked mark -> ~ removes d q) as Hspare.
  { intros q Hq Hr. destruct (mp_shapes _ _ _ _ _ Hp q Hq) as (qp & Hqs & -> & Hshape).
    destruct (mp_candidates _ _ _ _ _ Hp d Hc) as (dp & Hds & -> & Hcand). destruct (removes_prefix _ _ Hds Hqs Hr) as [s E].
    destruct (mp_visits _ _ _ _ _ Hp) as (retained & required & Hv). by eapply candidate_spares_marks. }
  split; [done|]. split; [apply (mp_pointer _ _ _ _ _ Hp)|]. split; [done|]. split; [done|].
  split; [apply (mp_generations _ _ _ _ _ Hp)|]. split; [apply (mp_length _ _ _ _ _ Hp)|]. split; [|done].
  intros m q Hin Hq. by apply Hspare, (mp_references _ _ _ _ _ Hp m).
Qed.

(** C31: the grace is observed.  Whatever collections went before, a deleted path was
    unreferenced in a run at least the grace ago, and in every run since, this one
    included. *)
Theorem gc_grace {codec : ControlCodec} h r env t apply retain grace now ptr d :
  gc_history h t -> d ∈ go_deleted (collect_garbage r env t apply retain grace now ptr) ->
  exists mark h1 run h2, mark_phase r retain ptr = Ok mark /\ d ∈ mk_candidates mark /\
    h = h1 ++ run :: h2 /\ run_at run <= now - grace * DAY /\ d ∈ run_candidates run /\ Forall (fun x => d ∈ run_candidates x) h2.
Proof.
  intros Hh Hd. destruct (collect_deleted _ _ _ _ _ _ _ _ _ Hd) as (mark & el & Ha & Hm & _ & _ & Hel & Hsub & _).
  destruct (eligible_paths_elem _ _ _ _ _ d Hel ltac:(by eapply elem_of_sublist)) as (Hc & seen & Hs & Hle).
  assert (0 < grace) as Hg.
  { unfold check_arguments in Ha. apply bind_ok in Ha as (u & Hu & _). apply raise_if_ok, orb_false_iff in Hu as [_ Hu]. lia. }
  unfold first_seen in Hs. rewrite note_candidates_lookup, decide_True in Hs by done. injection Hs as Hs. cbn in Hs.
  destruct (first_seen t d) as [s|] eqn:Es; cbn in Hs; [subst s|unfold DAY in Hle; lia].
  destruct (history_since _ _ Hh _ _ Es) as (h1 & run & h2 & -> & <- & Hin & Hall). by exists mark, h1, run, h2.
Qed.

(** C38: how a collection ends.  Deletions happen only when asked for, after the pointer
    was seen unchanged, each directly behind another look at the pointer; uploads go
    first, then generations, caches and objects.  A refusal deleted nothing, and
    before the end of the mark phase it leaves the table alone; a partial failure
    counts what was deleted. *)
Theorem gc_outcome_spec {codec : ControlCodec} r env t apply retain grace now ptr :
  let o := collect_garbage r env t apply retain grace now ptr in
  match go_end o with
  | Finished result => gc_deleted result = go_deleted o /\ gc_dry_run result = negb apply
  | GCPartialFailure n => n = zlen (go_deleted o) /\ 1 <= n
  | Refused e => go_deleted o = []
  end /\
  (forall e, (let! _ := check_arguments retain grace ptr in mark_phase r retain ptr) = Err e -> go_end o = Refused e /\ go_table o = t) /\
  StronglySorted rank_le (go_deleted o) /\
  (go_deleted o <> [] -> apply = true /\ exists mark, mark_phase r retain ptr = Ok mark /\
     se_fence env = Ok (Some (mk_pointer_body mark)) /\ Forall (fun p => exists k, fenced env (mk_pointer_body mark) k p) (go_deleted o)).
Proof.
  cbv zeta. split; [|split; [intros e H; by rewrite (collect_unmarked _ _ _ _ _ _ _ _ _ H)|]].
  - unfold collect_garbage. destruct (let! _ := check_arguments retain grace ptr in mark_phase r retain ptr) as [mark|e]; [|done].
    destruct (eligible_paths _ _ _ _) as [eligible|e]; [|done]. destruct (apply && _) eqn:Ea; [|done].
    apply andb_true_iff in Ea as [-> _]. destruct (let! head := se_fence env in _) as [body|e]; [|done]. destruct (negb _); [done|].
    destruct (sweep _ _ _ _ _ _) as [[t2 deleted] failure]. destruct failure as [e|]; [|done]. cbn [go_end go_deleted].
    destruct deleted as [|d l]; [done|]. cbn [negb bool_decide]. rewrite bool_decide_eq_false_2 by done. cbn [negb].
    split; [done|]. rewrite zlen_cons. pose proof (zlen_nonneg l). lia.
  - destruct (go_deleted (collect_garbage r env t apply retain grace now ptr)) as [|d l] eqn:E; [by split; [constructor|]|].
    rewrite <- E. destruct (collect_deleted r env t apply retain grace now ptr d ltac:(rewrite E; left)) as (mark & el & Ha & Hm & Happ & Hf & Hel & Hsub & Hfen).
    split.
    + unfold eligible_paths in Hel. apply bind_ok in Hel as (u & _ & Hel). apply deletion_order_ok in Hel as [_ Hs]. by eapply sublist_sorted.
    + intros _. split; [done|]. by exists mark.
Qed.

(** ** A sample store *)
Definition sample_sha (c : N) : ustr := replicate 64 c.
Definition sample_object (c : N) : ustr := us "v1/objects/sha256/" ++ [c; c; 47%N] ++ sample_sha c.
Definition sample_database : ArtifactRef :=
  {| ar_sha256 := sample_sha 99; ar_size_bytes := 10; ar_media_type := us "application/vnd.sqlite3"; ar_path := us "v1/generations/g2/index.sqlite3" |}.
Definition sample_pdf : ArtifactRef :=
  {| ar_sha256 := sample_sha 97; ar_size_bytes := 10; ar_media_type := us "application/pdf"; ar_path := sample_object 97 |}.
Definition sample_document : GenerationDocument :=
  {| gd_pdf := sample_pdf; gd_ocr := None; gd_ocr_cache_kind := None; gd_ocr_reuse_key := None; gd_ocr_variant_id := None;
     gd_availability := None; gd_ocr_failure := None |}.
Definition sample_manifest : GenerationManifest :=
  {| gm_schema_version := us "cardrag.generation.v3"; gm_generation_id := us "g2"; gm_serving_database := sample_database;
     gm_documents := [sample_document]; gm_vector_sidecar := None; gm_previous_generation_id := Some (us "g1") |}.
Definition sample_ready : GenerationReady :=
  {| gr_generation_id := us "g2"; gr_manifest_sha256 := sha256_bytes [1%N]; gr_serving_database_sha256 := sample_sha 99;
     gr_serving_database_size_bytes := 10; gr_vector_sidecar_sha256 := None; gr_vector_sidecar_size_bytes := None |}.
Definition sample_pointer : GenerationPointer :=
  {| gp_generation := us "g2"; gp_manifest_sha256 := sha256_bytes [1%N]; gp_ready_sha256 := sha256_bytes [2%N] |}.

Definition sample_stable_pointer : GenerationPointer :=
  {| gp_generation := us "g1"; gp_manifest_sha256 := sample_sha 100; gp_ready_sha256 := sample_sha 101 |}.

Lemma sample_manifest_valid : check_manifest_paths sample_manifest = Ok tt.
Proof. by vm_compute. Qed.

(** A codec that knows three control files. *)
#[export, refine] Instance sample_codec : ControlCodec := {
  parse_manifest b := if bool_decide (b = [1%N]) then Some (sample_manifest, [1%N]) else None;
  parse_ready b := if bool_decide (b = [2%N]) then Some (sample_ready, [2%N]) else None;
  parse_pointer b := if bool_decide (b = [3%N]) then Some (sample_pointer, [3%N])
    else if bool_decide (b = [4%N]) then Some (sample_stable_pointer, [4%N]) else None;
  parse_ocr_manifest _ _ := None;
  parse_ocr_ready _ := None;
  parse_content_manifest _ := None;
  parse_content_ready _ := None;
}.
Proof.
  - intros b m c H. destruct (bool_decide (b = [1%N])); [|done]. injection H as <- <-. exact sample_manifest_valid.
  - done.
  - done.
Defined.

Definition sample_listings : list (ustr * list ustr) :=
  [(us "v1/generations", [us "v1/generations"; us "v1/generations/g1"; us "v1/generations/g2"]);
   (us "v1/generations/g1", [us "v1/generations/g1/manifest.json"]);
   (us "v1/generations/g2", [us "v1/generations/g2/manifest.json"; us "v1/generations/g2/READY.json"; us "v1/generations/g2/index.sqlite3"]);
   (us "v1/objects/sha256", [us "v1/objects/sha256/aa"; us "v1/objects/sha256/bb"]);
   (us "v1/objects/sha256/aa", [sample_object 97]);
   (us "v1/objects/sha256/bb", [sample_object 98])].
Definition sample_files : list (ustr * list N) :=
  [(us "v1/channels/stable.json", [3%N]); (us "v1/generations/g2/manifest.json", [1%N]); (us "v1/generations/g2/READY.json", [2%N])].
Definition sample_remote : remote :=
  {| propfind := fun path => of_option (WebDAVHTTPError "404") (dict_get (as_posix path) sample_listings);
     get_bytes := fun path => Ok (dict_get (as_posix path) sample_files) |}.
Definition sample_env : sweep_env :=
  {| se_fence := Ok (Some [3%N]); se_pointer := fun _ => Ok (Some [3%N]); se_leaf := fun _ => Err (WebDAVHTTPError "404"); se_delete := fun _ => Ok tt |}.
Notation sample_run t now := (collect_garbage sample_remote sample_env t true 1 30 now STABLE_POINTER_PATH).
Definition sample_noted : gc_table := go_table (sample_run ∅ 0).
Definition sample_old : ustr := us "v1/generations/g1".

Lemma sample_deletes : go_deleted (sample_run sample_noted (31 * DAY)) = [sample_old; sample_object 98].
Proof. by vm_compute. Qed.
Lemma sample_old_deleted : sample_old ∈ go_deleted (sample_run sample_noted (31 * DAY)).
Proof. rewrite sample_deletes. left. Qed.

(** A day is not enough, and a moved pointer stops the sweep. *)
Example sample_waits : go_deleted (sample_run sample_noted (29 * DAY)) = [].
Proof. by vm_compute. Qed.
Example sample_moved_pointer :
  let o := collect_garbage sample_remote {| se_fence := Ok (Some [3%N]); se_pointer := fun i => Ok (Some (match i with O => [3%N] | _ => [4%N] end));
             se_leaf := fun _ => Ok []; se_delete := fun _ => Ok tt |} sample_noted true 1 30 (31 * DAY) STABLE_POINTER_PATH in
  go_deleted o = [sample_old] /\ go_end o = GCPartialFailure 1.
Proof. by vm_compute. Qed.

Lemma sample_mark_ok : is_ok (mark_phase sample_remote 1 STABLE_POINTER_PATH) = true.
Proof. by vm_compute. Qed.
Lemma sample_history : exists candidates, gc_history [{| run_at := 0; run_candidates := candidates |}] sample_noted.
Proof.
  destruct (mark_phase sample_remote 1 STABLE_POINTER_PATH) as [mark|e] eqn:E; [|pose proof sample_mark_ok as H; by rewrite E in H].
  exists (mk_candidates mark). unfold sample_noted.
  apply (history_run [] ∅ sample_remote sample_env true 1 30 0 STABLE_POINTER_PATH mark history_start); [by vm_compute|done].
Qed.

(** The references of one channel only are marked.  The stable pointer of this store
    names the generation g1, and a collection for the candidate channel, whose pointer
    names g2, deletes g1 when its grace is over. *)
Definition sample_channels : remote :=
  {| propfind := propfind sample_remote;
     get_bytes := fun path => Ok (dict_get (as_posix path)
       ((us "v1/channels/stable.json", [4%N]) :: (us "v1/channels/candidate-v1.0.11.json", [3%N]) :: List.tl sample_files)) |}.
Definition sample_candidate_path : posix_path := [us "v1"; us "channels"; us "candidate-v1.0.11.json"].
Example candidate_channel_deletes_stable :
  let run t now := collect_garbage sample_channels sample_env t true 1 30 now sample_candidate_path in
  get_bytes sample_channels STABLE_POINTER_PATH = Ok (Some [4%N]) /\
  parse_pointer [4%N] = Some (sample_stable_pointer, [4%N]) /\
  generation_root_path (gp_generation sample_stable_pointer) = Ok [us "v1"; us "generations"; us "g1"] /\
  us "v1/generations/g1" ∈ go_deleted (run (go_table (run ∅ 0)) (31 * DAY)).
Proof.
  split; [done|]. split; [done|]. split; [done|]. apply (bool_decide_unpack _). vm_compute. exact I.
Qed.

(** ** Witnesses *)
Lemma gc_keeps_references_witness :
  sample_old ∈ go_deleted (sample_run sample_noted (31 * DAY)) /\
  exists mark, mark_phase sample_remote 1 STABLE_POINTER_PATH = Ok mark /\ forall q, q ∈ mk_marked mark -> ~ removes sample_old q.
Proof.
  split; [exact sample_old_deleted|].
  destruct (gc_keeps_references sample_remote sample_env sample_noted true 1 30 (31 * DAY) STABLE_POINTER_PATH sample_old sample_old_deleted)
    as (mark & p & Hm & _ & _ & _ & _ & _ & _ & H).
  exists mark. split; [exact Hm|exact H].
Defined.

Lemma gc_grace_witness :
  exists candidates, gc_history [{| run_at := 0; run_candidates := candidates |}] sample_noted /\
  exists run, run_at run <= 31 * DAY - 30 * DAY /\ sample_old ∈ run_candidates run.
Proof.
  destruct sample_history as [candidates H]. exists candidates. split; [exact H|].
  destruct (gc_grace _ sample_remote sample_env sample_noted true 1 30 (31 * DAY) STABLE_POINTER_PATH sample_old H sample_old_deleted)
    as (mark & h1 & run & h2 & _ & _ & _ & Hat & Hin & _).
  exists run. split; [exact Hat|exact Hin].
Defined.
