(* ===== verification/Bounded.v ===== *)
(** Bounded concurrent work ([cardrag_worker/bounded.py]): a pool of workers takes the
    items from queues, one per group, in turn.

    The tasks of an event loop interleave only where they wait, so the pool is a step
    relation: one step is what one worker does under the condition, or the end of one
    operation.  An operation is a relation between an item and its outcomes.  The
    cancellation of the whole call from outside is not modelled. *)
From S2P Require Export Unicode.

Definition CancelledError : exn := Raised "CancelledError" "".
Inductive outcome (R : Type) := Returns (r : R) | Raises (e : exn).
Arguments Returns {R} _.
Arguments Raises {R} _.

(** A worker: about to look for an item, waiting for a change, running an operation,
    about to leave the group of its item, or ended.  It leaves to take the next item, with
    [_WorkerFailed], or with the [CancelledError] it re-raises. *)
Inductive departure := Continues | Failed | Cancelled.
#[export] Instance departure_eq_dec : EqDecision departure.
Proof. solve_decision. Defined.
Inductive worker :=
| Ready
| Waiting
| Busy (key : ustr) (index : nat)
| Leaving (key : ustr) (how : departure)
| Ended.
#[export] Instance worker_eq_dec : EqDecision worker.
Proof. solve_decision. Defined.

(** [condition.notify_all()] *)
Definition notify_all (ws : list worker) : list worker := map (fun w => match w with Waiting => Ready | w => w end) ws.

Abbreviation queues := (gmap ustr (list nat)).
Abbreviation counters := (gmap ustr nat).
Definition queue (pending : queues) (key : ustr) : list nat := default [] (pending !! key).
Definition count (active : counters) (key : ustr) : nat := default O (active !! key).

(** The loop over the groups: the first group, in rotation, that has an item and room. *)
Fixpoint admit_from_groups (n : nat) (groups : list ustr) (pending : queues) (active : counters) (per_group : nat)
  : list ustr * option (ustr * nat) :=
  match n, groups with
  | S n, key :: rest =>
      let groups := rest ++ [key] in
      match queue pending key with
      | index :: _ => if bool_decide (count active key < per_group)%nat then (groups, Some (key, index))
                      else admit_from_groups n groups pending active per_group
      | [] => admit_from_groups n groups pending active per_group
      end
  | _, _ => (groups, None)
  end.
Definition drained (pending : queues) : bool := bool_decide (map_Forall (fun _ q => q = []) pending).

Section Pool.
Context {T R : Type} (items : list T) (operation : T -> outcome R -> Prop) (group_key : T -> ustr) (per_group : nat).

Record pool := {
  p_groups : list ustr;
  p_pending : queues;
  p_active : counters;
  p_results : list (option R);
  p_failures : list exn;
  p_workers : list worker;
  p_aborting : bool;
}.

(** [pending.setdefault(key, deque()).append((index, item))] *)
Definition enqueue (groups_pending : list ustr * queues) (entry : nat * T) : list ustr * queues :=
  let '(groups, pending) := groups_pending in
  let key := group_key entry.2 in
  (match pending !! key with Some _ => groups | None => groups ++ [key] end,
   <[key := queue pending key ++ [entry.1]]> pending).
Definition enqueue_all : list ustr * queues := fold_left enqueue (imap pair items) ([], ∅).

Definition initial (concurrency : nat) : pool :=
  let '(groups, pending) := enqueue_all in
  {| p_groups := groups; p_pending := pending; p_active := (fun _ => O) <$> pending;
     p_results := replicate (length items) None; p_failures := [];
     p_workers := replicate (Nat.min concurrency (length items)) Ready; p_aborting := false |}.

Definition set_worker (s : nat) (w : worker) (p : pool) : pool :=
  {| p_groups := p_groups p; p_pending := p_pending p; p_active := p_active p; p_results := p_results p;
     p_failures := p_failures p; p_workers := <[s := w]> (p_workers p); p_aborting := p_aborting p |}.
Definition take_item (s : nat) (groups : list ustr) (key : ustr) (index : nat) (p : pool) : pool :=
  {| p_groups := groups; p_pending := <[key := List.tl (queue (p_pending p) key)]> (p_pending p);
     p_active := <[key := S (count (p_active p) key)]> (p_active p); p_results := p_results p;
     p_failures := p_failures p; p_workers := <[s := Busy key index]> (p_workers p); p_aborting := p_aborting p |}.
Definition store_result (s : nat) (key : ustr) (index : nat) (r : R) (p : pool) : pool :=
  {| p_groups := p_groups p; p_pending := p_pending p; p_active := p_active p; p_results := <[index := Some r]> (p_results p);
     p_failures := p_failures p; p_workers := <[s := Leaving key Continues]> (p_workers p); p_aborting := p_aborting p |}.
Definition store_failure (s : nat) (key : ustr) (e : exn) (p : pool) : pool :=
  {| p_groups := p_groups p; p_pending := p_pending p; p_active := p_active p; p_results := p_results p;
     p_failures := p_failures p ++ [e]; p_workers := <[s := Leaving key Failed]> (p_workers p); p_aborting := p_aborting p |}.
(** The [finally] block.  A worker whose exception passes it ends; [_WorkerFailed] makes
    the task group abort, a cancellation does not. *)
Definition leave (s : nat) (key : ustr) (how : departure) (p : pool) : pool :=
  {| p_groups := p_groups p; p_pending := p_pending p; p_active := <[key := Nat.pred (count (p_active p) key)]> (p_active p);
     p_results := p_results p; p_failures := p_failures p;
     p_workers := notify_all (<[s := match how with Continues => Ready | _ => Ended end]> (p_workers p));
     p_aborting := match how with Failed => true | _ => p_aborting p end |}.

Definition admission (p : pool) : list ustr * option (ustr * nat) :=
  admit_from_groups (length (p_groups p)) (p_groups p) (p_pending p) (p_active p) per_group.

Inductive step (p : pool) : pool -> Prop :=
| step_stop s : p_workers p !! s = Some Ready -> p_failures p <> [] -> step p (set_worker s Ended p)
| step_admit s groups key index :
    p_workers p !! s = Some Ready -> p_failures p = [] -> admission p = (groups, Some (key, index)) ->
    step p (take_item s groups key index p)
| step_exhausted s groups :
    p_workers p !! s = Some Ready -> p_failures p = [] -> admission p = (groups, None) -> drained (p_pending p) = true ->
    step p (set_worker s Ended p)
| step_wait s groups :
    p_workers p !! s = Some Ready -> p_failures p = [] -> admission p = (groups, None) -> drained (p_pending p) = false ->
    step p (set_worker s Waiting p)
| step_return s key index item r :
    p_workers p !! s = Some (Busy key index) -> items !! index = Some item -> operation item (Returns r) ->
    step p (store_result s key index r p)
| step_raise s key index item e :
    p_workers p !! s = Some (Busy key index) -> items !! index = Some item -> operation item (Raises e) ->
    e <> CancelledError \/ p_failures p = [] -> step p (store_failure s key e p)
| step_cancelled s key index item :
    p_workers p !! s = Some (Busy key index) -> items !! index = Some item -> p_failures p <> [] ->
    p_aborting p = true \/ operation item (Raises CancelledError) -> step p (set_worker s (Leaving key Cancelled) p)
| step_leave s key how :
    p_workers p !! s = Some (Leaving key how) -> step p (leave s key how p)
| step_abort s w :
    p_aborting p = true -> p_workers p !! s = Some w ->
    match w with Ready | Waiting | Leaving _ _ => True | _ => False end -> step p (set_worker s Ended p).

Definition all_ended (p : pool) : Prop := Forall (fun w => w = Ended) (p_workers p).

(** After the task group. *)
Definition finish (p : pool) : res (list R) :=
  match p_failures p with
  | e :: _ => Err e
  | [] => of_option (Raised "RuntimeError" "bounded work completed without every input result") (mapM id (p_results p))
  end.

(** [concurrency == 1]: the operations one after the other. *)
Inductive in_sequence : list T -> res (list R) -> Prop :=
| sequence_nil : in_sequence [] (Ok [])
| sequence_raise item rest e : operation item (Raises e) -> in_sequence (item :: rest) (Err e)
| sequence_cons item rest r out :
    operation item (Returns r) -> in_sequence rest out ->
    in_sequence (item :: rest) (let! rs := out in Ok (r :: rs)).
End Pool.

Arguments pool : clear implicits.

Definition group_limit (concurrency : Z) (per_group : option Z) : Z := default concurrency per_group.
Definition check_concurrency (concurrency : Z) (per_group : option Z) : res unit :=
  let! _ := raise_if (concurrency <? 1) (ValueError "concurrency must be a positive integer") in
  raise_if (group_limit concurrency per_group <? 1) (ValueError "per-group concurrency must be a positive integer").

Inductive bounded_ordered_map {T R} (items : list T) (operation : T -> outcome R -> Prop) (group_key : T -> ustr)
    (concurrency : Z) (per_group : option Z) : res (list R) -> Prop :=
| map_refused e : check_concurrency concurrency per_group = Err e -> bounded_ordered_map items operation group_key concurrency per_group (Err e)
| map_sequence out :
    check_concurrency concurrency per_group = Ok tt -> concurrency = 1 -> in_sequence operation items out ->
    bounded_ordered_map items operation group_key concurrency per_group out
| map_pool p :
    check_concurrency concurrency per_group = Ok tt -> concurrency <> 1 ->
    rtc (step items operation (Z.to_nat (group_limit concurrency per_group))) (initial items group_key (Z.to_nat concurrency)) p ->
    all_ended p -> bounded_ordered_map items operation group_key concurrency per_group (finish p).
