(* ===== verification/BoundedProof.v ===== *)
(** The pool of [Bounded]: its invariant, that the outcome is the one of the operations in
    the order of the items, that it ends, and the limits it keeps.

    Every quantity is a sum over the workers, so a step is a change of one summand. *)
From S2P Require Import Bounded.

(** ** Sums over the workers *)
Definition workers_sum (f : worker -> nat) (ws : list worker) : nat := sum_list_with f ws.
Definition indicator (P : Prop) `{Decision P} : nat := if decide P then 1%nat else O.

Lemma indicator_le P `{Decision P} : (indicator P <= 1)%nat.
Proof. unfold indicator. case_decide; lia. Qed.
Lemma indicator_true P `{Decision P} : P -> indicator P = 1%nat.
Proof. unfold indicator. by case_decide. Qed.
Lemma indicator_false P `{Decision P} : ~ P -> indicator P = O.
Proof. unfold indicator. by case_decide. Qed.

Lemma workers_sum_insert f ws s w w' :
  ws !! s = Some w -> (workers_sum f (<[s := w']> ws) + f w = workers_sum f ws + f w')%nat.
Proof.
  revert s. induction ws as [|w0 ws IH]; intros [|s] Hs; simpl in *; simplify_eq; [lia|].
  specialize (IH _ Hs). unfold workers_sum in *. lia.
Qed.

Lemma workers_sum_notify f ws : f Waiting = f Ready -> workers_sum f (notify_all ws) = workers_sum f ws.
Proof.
  intros Hf. unfold workers_sum, notify_all. induction ws as [|w ws IH]; [done|]. simpl. rewrite IH.
  destruct w; simpl; congruence.
Qed.

Lemma workers_sum_pos f ws : (0 < workers_sum f ws)%nat <-> exists w, w ∈ ws /\ (0 < f w)%nat.
Proof.
  unfold workers_sum. induction ws as [|w ws IH]; simpl.
  - split; [lia|]. intros (w & Hw & _). by apply elem_of_nil in Hw.
  - split.
    + intros H. destruct (decide (0 < f w)%nat) as [Hw|]; [exists w; split; [constructor|done]|].
      destruct IH as [IH _]. destruct IH as (w' & ? & ?); [lia|]. exists w'. split; [by constructor|done].
    + intros (w' & [->|Hin]%elem_of_cons & Hpos); [lia|].
      assert (0 < sum_list_with f ws)%nat by (apply IH; eauto). lia.
Qed.

Lemma workers_sum_elem f ws s w : ws !! s = Some w -> (f w <= workers_sum f ws)%nat.
Proof.
  unfold workers_sum. revert s. induction ws as [|w0 ws IH]; intros [|s] Hs; simpl in *; simplify_eq; [lia|].
  specialize (IH _ Hs). lia.
Qed.

Lemma notify_lookup ws s w : notify_all ws !! s = Some w -> ws !! s = Some w \/ (w = Ready /\ ws !! s = Some Waiting).
Proof.
  unfold notify_all. rewrite list_lookup_fmap. destruct (ws !! s) as [[]|] eqn:Hs; simpl; intros ?; simplify_eq; eauto.
Qed.
Lemma notify_no_waiting ws s : notify_all ws !! s <> Some Waiting.
Proof. unfold notify_all. rewrite list_lookup_fmap. by destruct (ws !! s) as [[]|]. Qed.
Lemma notify_length ws : length (notify_all ws) = length ws.
Proof. apply length_map. Qed.

Lemma insert_lookup_cases {A} (l : list A) s s' a b : <[s := a]> l !! s' = Some b -> (s' = s /\ b = a) \/ (s' <> s /\ l !! s' = Some b).
Proof.
  destruct (decide (s' = s)) as [->|Hne].
  - intros H. left. split; [done|]. apply list_lookup_insert_Some in H as [(? & ? & ?)|(? & ?)]; congruence.
  - rewrite list_lookup_insert_ne by done. eauto.
Qed.

(** ** The admission *)
Lemma queue_insert pending key q key' :
  queue (<[key := q]> pending) key' = if decide (key = key') then q else queue pending key'.
Proof.
  unfold queue. case_decide as H; [subst; by rewrite lookup_insert_eq|by rewrite lookup_insert_ne by done].
Qed.
Lemma count_insert (active : counters) key n key' :
  count (<[key := n]> active) key' = if decide (key = key') then n else count active key'.
Proof.
  unfold count. case_decide as H; [subst; by rewrite lookup_insert_eq|by rewrite lookup_insert_ne by done].
Qed.

Lemma admit_groups n groups pending active per_group : fst (admit_from_groups n groups pending active per_group) ≡ₚ groups.
Proof.
  revert groups. induction n as [|n IH]; intros [|key rest]; simpl; try done.
  assert (rest ++ [key] ≡ₚ key :: rest) as Hp by (rewrite (Permutation_app_comm rest [key]); done).
  destruct (queue pending key) as [|index q]; [by rewrite IH|]. case_bool_decide; [done|by rewrite IH].
Qed.

Lemma admit_some n groups pending active per_group groups' key index :
  admit_from_groups n groups pending active per_group = (groups', Some (key, index)) ->
  (exists q, queue pending key = index :: q) /\ (count active key < per_group)%nat.
Proof.
  revert groups. induction n as [|n IH]; intros [|key0 rest]; simpl; try done.
  destruct (queue pending key0) as [|index0 q] eqn:Hq; [apply IH|].
  case_bool_decide; [|apply IH]. intros [= <- <- <-]. eauto.
Qed.

Lemma admit_none n groups pending active per_group groups' :
  (n <= length groups)%nat -> admit_from_groups n groups pending active per_group = (groups', None) ->
  forall key, key ∈ take n groups -> queue pending key = [] \/ (per_group <= count active key)%nat.
Proof.
  revert groups. induction n as [|n IH]; intros [|key0 rest] Hn Had key Hkey; simpl in *; try (by apply elem_of_nil in Hkey).
  assert (admit_from_groups n (rest ++ [key0]) pending active per_group = (groups', None) -> key ∈ take n rest ->
    queue pending key = [] \/ (per_group <= count active key)%nat) as Hrest.
  { intros Hrest Hin. eapply (IH (rest ++ [key0])); [rewrite length_app; simpl; lia|exact Hrest|].
    rewrite take_app_le by lia. exact Hin. }
  apply elem_of_cons in Hkey. destruct (queue pending key0) as [|index0 q] eqn:Hq.
  - destruct Hkey as [->|Hin]; [by left|]. by apply Hrest.
  - case_bool_decide as Hc; [done|]. destruct Hkey as [->|Hin]; [right; lia|]. by apply Hrest.
Qed.

Lemma drained_queue pending : drained pending = true <-> forall key, queue pending key = [].
Proof.
  unfold drained, queue. rewrite bool_decide_eq_true. split.
  - intros H key. destruct (pending !! key) as [q|] eqn:Hq; [exact (H _ _ Hq)|done].
  - intros H key q Hq. specialize (H key). by rewrite Hq in H.
Qed.

Lemma not_drained_queue pending : drained pending = false -> exists key, queue pending key <> [].
Proof.
  unfold drained, queue. rewrite bool_decide_eq_false. intros H.
  apply map_not_Forall in H; [|apply _]. destruct H as (key & q & Hq & Hne). exists key. by rewrite Hq.
Qed.

(** ** The invariant *)
Definition running (key : ustr) (w : worker) : nat :=
  match w with Busy k _ | Leaving k _ => indicator (k = key) | _ => O end.
Definition holding (i : nat) (w : worker) : nat := match w with Busy _ j => indicator (j = i) | _ => O end.
Definition in_flight (w : worker) : nat := match w with Busy _ _ | Leaving _ _ => 1%nat | _ => O end.
Definition queued (i : nat) (q : list nat) : nat := sum_list_with (fun j => indicator (j = i)) q.
Definition stored {R} (i : nat) (rs : list (option R)) : nat := match rs !! i with Some (Some _) => 1%nat | _ => O end.

Lemma queued_pos i q : (0 < queued i q)%nat <-> i ∈ q.
Proof.
  unfold queued. induction q as [|j q IH]; simpl.
  - split; [lia|]. intros H. by apply elem_of_nil in H.
  - rewrite elem_of_cons, <- IH. unfold indicator. case_decide; [|split; [right; lia|intros [?|?]; [congruence|lia]]].
    split; [by left|lia].
Qed.

Lemma queued_app i q1 q2 : queued i (q1 ++ q2) = (queued i q1 + queued i q2)%nat.
Proof. unfold queued. apply sum_list_with_app. Qed.

(** What a step does to the workers, as sums. *)
Lemma sum_after_insert f ws s w w' n :
  ws !! s = Some w -> workers_sum f (<[s := w']> ws) = n -> (n + f w = workers_sum f ws + f w')%nat.
Proof. intros Hs <-. by apply workers_sum_insert. Qed.

Ltac pool_simpl := unfold set_worker, take_item, store_result, store_failure, leave in *; simpl in *.

(** What changes of an item's place. *)
Ltac sums Hs :=
  repeat match goal with
  | |- context [workers_sum ?f (<[?s := ?w']> ?ws)] =>
      let n := fresh "n" in let Hn := fresh "Hn" in
      remember (workers_sum f (<[s := w']> ws)) as n eqn:Hn; symmetry in Hn; apply (sum_after_insert _ _ _ _ _ _ Hs) in Hn; simpl in Hn
  end.

(** The parts a step leaves as they are need no argument; [sums] accounts for the worker. *)
Ltac step_cases Hstep :=
  destruct Hstep as [s Hs Hf|s groups key0 index Hs Hf Had|s groups Hs Hf Had Hd|s groups Hs Hf Had Hd|s key0 index item r Hs Hi Hop
    |s key0 index item e Hs Hi Hop He|s key0 index item Hs Hi Hf Hc|s key0 how Hs|s w Ha Hs Hw]; pool_simpl.

(** [simplify_lookups] sorts a worker of the state after a step into the one that moved
    and the others. *)
Ltac simplify_lookups :=
  repeat match goal with
  | H : notify_all _ !! _ = Some _ |- _ => apply notify_lookup in H as [H|[? H]]
  | H : <[_ := _]> _ !! _ = Some _ |- _ => apply insert_lookup_cases in H as [[? ?]|[? H]]
  end; simplify_eq.

Section Invariant.
Context {T R : Type} (items : list T) (operation : T -> outcome R -> Prop) (group_key : T -> ustr) (per_group : nat).
Hypothesis Hlimit : (1 <= per_group)%nat.

Definition owner_group (i : nat) (key : ustr) : Prop := exists item, items !! i = Some item /\ group_key item = key.

(** Where an item is: in the queue of its group, with a worker, or done. *)
Definition occurrences (p : pool R) (i : nat) (key : ustr) : nat :=
  (queued i (queue (p_pending p) key) + workers_sum (holding i) (p_workers p) + stored i (p_results p))%nat.

Record items_inv (p : pool R) : Prop := {
  inv_queue key i : i ∈ queue (p_pending p) key -> owner_group i key;
  inv_busy s key i : p_workers p !! s = Some (Busy key i) -> owner_group i key;
  inv_once i key : owner_group i key -> (occurrences p i key <= 1)%nat /\ (p_failures p = [] -> occurrences p i key = 1%nat);
  inv_groups key : queue (p_pending p) key <> [] -> key ∈ p_groups p;
  inv_length : length (p_results p) = length items;
}.

Definition limits_inv (p : pool R) : Prop :=
  forall key, (workers_sum (running key) (p_workers p) <= count (p_active p) key <= per_group)%nat /\
    (p_failures p = [] -> count (p_active p) key = workers_sum (running key) (p_workers p)).

Record outcome_inv (p : pool R) : Prop := {
  inv_results i r : p_results p !! i = Some (Some r) -> exists item, items !! i = Some item /\ operation item (Returns r);
  inv_failures e : e ∈ p_failures p -> exists item, item ∈ items /\ operation item (Raises e);
  inv_aborting : p_aborting p = true -> p_failures p <> [];
  inv_leaving s key how : p_workers p !! s = Some (Leaving key how) -> how <> Continues -> p_failures p <> [];
  inv_ended s : p_workers p !! s = Some Ended -> p_failures p = [] -> drained (p_pending p) = true;
}.

Definition waiting_inv (p : pool R) : Prop :=
  forall s, p_workers p !! s = Some Waiting ->
    p_aborting p = true \/ (0 < workers_sum in_flight (p_workers p))%nat.

Abbreviation pool_step := (step items operation per_group).

Lemma admission_some (p : pool R) groups key index :
  admission per_group p = (groups, Some (key, index)) ->
  groups ≡ₚ p_groups p /\ (exists q, queue (p_pending p) key = index :: q) /\ (count (p_active p) key < per_group)%nat.
Proof.
  intros H. pose proof (admit_groups (length (p_groups p)) (p_groups p) (p_pending p) (p_active p) per_group) as Hg.
  unfold admission in H. rewrite H in Hg. split; [exact Hg|]. by eapply admit_some.
Qed.

Lemma admission_none (p : pool R) groups :
  admission per_group p = (groups, None) ->
  forall key, key ∈ p_groups p -> queue (p_pending p) key = [] \/ (per_group <= count (p_active p) key)%nat.
Proof.
  intros H key Hkey. eapply (admit_none (length (p_groups p)) (p_groups p)); [done|exact H|].
  by rewrite firstn_all.
Qed.

Lemma limits_step p p' : outcome_inv p -> limits_inv p -> pool_step p p' -> limits_inv p'.
Proof.
  intros O I Hstep key. destruct (I key) as [I1 I2]. step_cases Hstep.
  - sums Hs. split; [lia|done].
  - sums Hs. apply admission_some in Had as (_ & _ & Hcap). rewrite count_insert. specialize (I2 Hf). unfold indicator in *. repeat case_decide; simplify_eq; lia.
  - sums Hs. split; [lia|]. intros. specialize (I2 ltac:(done)). lia.
  - sums Hs. split; [lia|]. intros. specialize (I2 ltac:(done)). lia.
  - sums Hs. split; [lia|]. intros. specialize (I2 ltac:(done)). lia.
  - sums Hs. split; [lia|]. intros []%app_nil. done.
  - sums Hs. split; [lia|done].
  - rewrite workers_sum_notify by done. sums Hs. rewrite count_insert. unfold indicator in *.
    (split; [|intros Hf; specialize (I2 Hf)]); destruct how; repeat case_decide; simplify_eq; simpl in *; lia.
  - sums Hs. pose proof (inv_aborting _ O Ha). split; [lia|done].
Qed.

Lemma waiting_step p p' : items_inv p -> limits_inv p -> waiting_inv p -> pool_step p p' -> waiting_inv p'.
Proof.
  intros J L I Hstep s' Hs'.
  step_cases Hstep; try (by apply notify_no_waiting in Hs'); simplify_lookups; try (right; sums Hs; destruct (I _ Hs'); lia);
    try (destruct (I _ Hs') as [?|?]; [by left|right; sums Hs; lia]).
  - right. sums Hs. apply not_drained_queue in Hd as (key & Hkey).
    destruct (admission_none _ _ Had key (inv_groups _ J _ Hkey)) as [?|Hfull]; [done|].
    destruct (L key) as [_ L2]. specialize (L2 Hf).
    assert (0 < workers_sum (running key) (p_workers p))%nat as Hpos by lia.
    apply workers_sum_pos in Hpos as (w & Hw & Hrun). enough (0 < workers_sum in_flight (p_workers p))%nat by lia.
    apply workers_sum_pos. exists w. split; [done|]. destruct w; simpl in *; lia.
  - by left.
Qed.

Lemma outcome_step p p' : outcome_inv p -> pool_step p p' -> outcome_inv p'.
Proof.
  intros I Hstep. split.
  - intros i r0. pose proof (inv_results _ I i r0) as HI. step_cases Hstep; try done.
    intros [[? ?]|[? ?]]%insert_lookup_cases; simplify_eq; eauto.
  - intros e0. pose proof (inv_failures _ I e0) as HI. step_cases Hstep; try done.
    intros [?|He0]%elem_of_app; [auto|]. apply list_elem_of_singleton in He0 as ->. exists item. split; [by eapply list_elem_of_lookup_2|done].
  - pose proof (inv_aborting _ I) as HI. step_cases Hstep; try done; [intros _ []%app_nil; done|].
    destruct how; try done. intros _. by apply (inv_leaving _ I _ _ _ Hs).
  - intros s' key how' Hs' Hhow. pose proof (inv_leaving _ I s' key how') as HI.
    step_cases Hstep; try (intros []%app_nil; done); simplify_lookups; eauto; try done.
    by destruct how.
  - intros s' Hs' Hf'. pose proof (inv_ended _ I s') as HI.
    step_cases Hstep; simplify_lookups; try done; eauto; try (by apply app_nil in Hf' as [_ ?]);
      try (by destruct (inv_aborting _ I Ha)).
    + apply admission_some in Had as (_ & (q & Hq) & _).
      specialize (HI ltac:(done) ltac:(done)). rewrite drained_queue in HI. by rewrite HI in Hq.
    + destruct how; try done; by destruct (inv_leaving _ I _ _ _ Hs).
Qed.

Lemma owner_group_unique i k k' : owner_group i k -> owner_group i k' -> k = k'.
Proof. intros (? & ? & ?) (? & ? & ?). congruence. Qed.

Lemma stored_insert i index (r : R) rs :
  (index < length rs)%nat -> stored i (<[index := Some r]> rs) = if decide (index = i) then 1%nat else stored i rs.
Proof.
  intros Hlt. unfold stored. case_decide as H; [subst; by rewrite list_lookup_insert_eq by done|].
  by rewrite list_lookup_insert_ne by done.
Qed.

(** Each item stays in one place; a failure or a cancellation may lose it. *)
Lemma once_step p p' i key :
  items_inv p -> outcome_inv p -> pool_step p p' -> owner_group i key ->
  (occurrences p' i key <= 1)%nat /\ (p_failures p' = [] -> occurrences p' i key = 1%nat).
Proof.
  intros J O Hstep Hown. destruct (inv_once _ J _ _ Hown) as [I1 I2].
  step_cases Hstep; unfold occurrences in *; simpl in *.
  - sums Hs. split; [lia|done].
  - apply admission_some in Had as (_ & (q & Hq) & _). sums Hs. specialize (I2 Hf).
    assert (owner_group index key0) as Hown0 by (apply (inv_queue _ J); rewrite Hq; constructor).
    rewrite queue_insert. destruct (decide (key0 = key)) as [Hk|Hk]; [subst key0; rewrite Hq in I1, I2 |- *; simpl in *; lia|].
    rewrite (indicator_false (index = i)) in Hn by (intros ->; by apply Hk, (owner_group_unique i)). lia.
  - sums Hs. specialize (I2 Hf). lia.
  - sums Hs. specialize (I2 Hf). lia.
  - assert (index < length (p_results p))%nat as Hlt by (rewrite (inv_length _ J); by eapply lookup_lt_Some).
    rewrite (stored_insert _ _ _ _ Hlt). sums Hs. unfold indicator in *.
    case_decide; simplify_eq; (split; [lia|]); intros Hf; specialize (I2 Hf); lia.
  - sums Hs. split; [lia|]. by intros [_ ?]%app_nil.
  - sums Hs. split; [lia|done].
  - rewrite workers_sum_notify by done. sums Hs. destruct how; simpl in *; (split; [lia|]); intros Hf; specialize (I2 Hf); lia.
  - sums Hs. pose proof (inv_aborting _ O Ha). split; [lia|done].
Qed.

Lemma items_step p p' : items_inv p -> outcome_inv p -> pool_step p p' -> items_inv p'.
Proof.
  intros J O Hstep. split; [| |intros; by apply (once_step p p')| |].
  - intros key i. pose proof (inv_queue _ J key i) as HJ. step_cases Hstep; try done.
    rewrite queue_insert. case_decide; [subst key0|done]. intros Hin. apply HJ.
    apply admission_some in Had as (_ & (q & Hq) & _). rewrite Hq in Hin |- *. by constructor.
  - intros s' key i Hs'. pose proof (inv_busy _ J s' key i) as HJ. step_cases Hstep; simplify_lookups; auto; try done.
    + apply (inv_queue _ J). apply admission_some in Had as (_ & (q & ->) & _). constructor.
    + by destruct how.
  - intros key. pose proof (inv_groups _ J key) as HJ. step_cases Hstep; try done.
    apply admission_some in Had as (-> & (q & Hq) & _). rewrite queue_insert.
    case_decide; [subst key0|done]. intros _. apply HJ. by rewrite Hq.
  - pose proof (inv_length _ J) as HJ. step_cases Hstep; try done. by rewrite length_insert.
Qed.

(** *** The start *)
Lemma enqueue_all_last l item :
  enqueue_all (l ++ [item]) group_key = enqueue group_key (enqueue_all l group_key) (length l, item).
Proof. unfold enqueue_all. rewrite imap_app, fold_left_app. simpl. by rewrite Nat.add_0_r. Qed.
End Invariant.

Section Start.
Context {T R : Type} (group_key : T -> ustr).

Lemma owner_group_last (l : list T) item i key :
  owner_group (l ++ [item]) group_key i key <->
  owner_group l group_key i key \/ (i = length l /\ key = group_key item).
Proof.
  unfold owner_group. split.
  - intros (x & Hx & Hk). apply lookup_app_Some in Hx as [Hx|[? Hx]]; [left; eauto|].
    apply list_lookup_singleton_Some in Hx as [? ?]. right. split; [lia|congruence].
  - intros [(x & Hx & Hk)|[-> ->]]; [exists x; split; [by apply lookup_app_l_Some|done]|].
    exists item. split; [|done]. by rewrite lookup_app_r, Nat.sub_diag by lia.
Qed.

Lemma enqueue_all_spec (l : list T) groups pending :
  enqueue_all l group_key = (groups, pending) ->
  (forall i key, i ∈ queue pending key -> owner_group l group_key i key) /\
  (forall i key, owner_group l group_key i key -> queued i (queue pending key) = 1%nat) /\
  (forall key, is_Some (pending !! key) -> key ∈ groups).
Proof.
  revert groups pending. induction l as [|item l IH] using rev_ind; intros groups pending.
  { intros [= <- <-]. unfold queue. split_and!; intros *; rewrite ?lookup_empty; [intros H; by apply elem_of_nil in H|by intros (? & ? & ?)|by intros []]. }
  rewrite enqueue_all_last. destruct (enqueue_all l group_key) as [groups0 pending0]. simpl.
  intros [= <- <-]. destruct (IH _ _ eq_refl) as (I1 & I2 & I3). clear IH.
  split_and!.
  - intros i key Hi. apply owner_group_last. rewrite queue_insert in Hi. case_decide as Hk; [|left; auto].
    subst key. apply elem_of_app in Hi as [Hi|Hi]; [left; auto|right]. by apply list_elem_of_singleton in Hi.
  - intros i key Hown. apply owner_group_last in Hown. rewrite queue_insert.
    assert (owner_group l group_key (length l) key -> False) as Hlast.
    { intros (x & Hx & _). apply lookup_lt_Some in Hx. lia. }
    destruct Hown as [Hown|[-> ->]].
    + case_decide as Hk; [subst key|auto]. rewrite queued_app, (I2 _ _ Hown). simpl. unfold queued. simpl.
      rewrite indicator_false; [done|]. by intros <-.
    + rewrite decide_True, queued_app by done. unfold queued at 2. simpl. rewrite indicator_true by done.
      destruct (decide (0 < queued (length l) (queue pending0 (group_key item)))%nat) as [Hq|]; [|lia].
      by apply queued_pos, I1, Hlast in Hq.
  - intros key Hkey. destruct (decide (group_key item = key)) as [<-|Hk].
    + destruct (pending0 !! group_key item) eqn:Hp; [by apply I3; eexists|]. apply elem_of_app. right. constructor.
    + rewrite lookup_insert_ne in Hkey by done. apply I3 in Hkey. destruct (pending0 !! group_key item); [done|].
      apply elem_of_app. by left.
Qed.
End Start.

(** ** Every reachable state *)
Section Reachable.
Context {T R : Type} (items : list T) (operation : T -> outcome R -> Prop) (group_key : T -> ustr).
Context (per_group concurrency : nat).
Hypothesis Hlimit : (1 <= per_group)%nat.

Record pool_inv (p : pool R) : Prop := {
  pool_items : items_inv items group_key p;
  pool_outcome : outcome_inv items operation p;
  pool_limits : limits_inv per_group p;
  pool_waiting : waiting_inv p;
  pool_workers : length (p_workers p) = Nat.min concurrency (length items);
}.

Lemma replicate_workers n s w : replicate n Ready !! s = Some w -> w = Ready.
Proof. by intros [? _]%lookup_replicate. Qed.
Lemma workers_sum_replicate f n : f Ready = O -> workers_sum f (replicate n Ready) = O.
Proof. intros Hf. unfold workers_sum. induction n; simpl; lia. Qed.

Lemma pool_inv_initial : pool_inv (initial items group_key concurrency).
Proof.
  unfold initial. destruct (enqueue_all items group_key) as [groups pending] eqn:Henq.
  destruct (enqueue_all_spec _ _ _ _ Henq) as (I1 & I2 & I3). split; simpl.
  - split; simpl.
    + auto.
    + by intros s key i Hs%replicate_workers.
    + intros i key Hown. unfold occurrences, stored; simpl. rewrite (I2 _ _ Hown), workers_sum_replicate by done.
      destruct (replicate _ None !! i) as [[]|] eqn:Hi; [apply lookup_replicate in Hi as [? _]; congruence|done..].
    + intros key Hq. apply I3. unfold queue in Hq. by destruct (pending !! key).
    + apply length_replicate.
  - split; simpl; try done.
    + intros i r [? _]%lookup_replicate. congruence.
    + intros e []%elem_of_nil.
    + by intros s key how Hs%replicate_workers.
    + by intros s Hs%replicate_workers.
  - intros key. simpl. rewrite workers_sum_replicate by done. unfold count. rewrite lookup_fmap.
    destruct (pending !! key); simpl; lia.
  - by intros s Hs%replicate_workers.
  - apply length_replicate.
Qed.

Lemma step_workers p p' : step items operation per_group p p' -> length (p_workers p') = length (p_workers p).
Proof. intros Hstep. step_cases Hstep; rewrite ?notify_length; apply length_insert. Qed.

Lemma pool_inv_step p p' : pool_inv p -> step items operation per_group p p' -> pool_inv p'.
Proof.
  intros [J O L W N] Hstep. split.
  - by eapply items_step.
  - by eapply outcome_step.
  - by eapply limits_step.
  - by eapply waiting_step.
  - by rewrite (step_workers _ _ Hstep).
Qed.

Lemma pool_inv_reachable p : rtc (step items operation per_group) (initial items group_key concurrency) p -> pool_inv p.
Proof.
  intros H. pattern p. revert p H. apply rtc_ind_r; [apply pool_inv_initial|]. intros p p' _ Hstep I. by eapply pool_inv_step.
Qed.

(** *** It ends *)
Definition weight (workers : nat) (w : worker) : nat :=
  match w with Ended => 0 | Waiting => 1 | Ready => 2 | Leaving _ _ => workers + 3 | Busy _ _ => workers + 4 end%nat.
Definition backlog (p : pool R) : nat := sum_list_with (fun key => length (queue (p_pending p) key)) (p_groups p).
Definition remaining (p : pool R) : nat :=
  let n := length (p_workers p) in ((n + 4) * backlog p + workers_sum (weight n) (p_workers p))%nat.

Lemma backlog_take (groups : list ustr) pending key index q :
  key ∈ groups -> queue pending key = index :: q ->
  (sum_list_with (fun k => length (queue (<[key := q]> pending) k)) groups
   < sum_list_with (fun k => length (queue pending k)) groups)%nat.
Proof.
  intros Hkey Hq.
  assert (forall l, sum_list_with (fun k => length (queue (<[key := q]> pending) k)) l
                    <= sum_list_with (fun k => length (queue pending k)) l)%nat as Hle.
  { induction l as [|k l IH]; simpl; [lia|]. rewrite queue_insert. case_decide; [subst k; rewrite Hq; simpl|]; lia. }
  apply list_elem_of_split in Hkey as (l1 & l2 & ->). rewrite !sum_list_with_app. simpl.
  rewrite queue_insert, decide_True, Hq by done. simpl. specialize (Hle l1) as H1. specialize (Hle l2). lia.
Qed.

Lemma workers_sum_notify_le n ws : (workers_sum (weight n) (notify_all ws) <= workers_sum (weight n) ws + length ws)%nat.
Proof. unfold workers_sum. induction ws as [|w ws IH]; simpl; [lia|]. destruct w; simpl in *; lia. Qed.

Lemma step_decreases p p' : pool_inv p -> step items operation per_group p p' -> (remaining p' < remaining p)%nat.
Proof.
  intros I Hstep. unfold remaining. rewrite (step_workers _ _ Hstep).
  remember (length (p_workers p)) as n eqn:Hn0. unfold backlog. step_cases Hstep; try (sums Hs; lia).
  - apply admission_some in Had as (Hperm & (q & Hq) & _).
    assert (key0 ∈ p_groups p) as Hkey by (apply (inv_groups _ _ _ (pool_items _ I)); by rewrite Hq).
    rewrite Hperm, Hq. simpl. pose proof (backlog_take _ _ _ _ _ Hkey Hq) as Hlt. sums Hs. nia.
  - match goal with |- context [notify_all ?ws] => pose proof (workers_sum_notify_le n ws) as Hle end.
    rewrite length_insert, <- Hn0 in Hle.
    pose proof (workers_sum_insert (weight n) _ _ _ (match how with Continues => Ready | _ => Ended end) Hs) as Hsum.
    simpl in Hsum. destruct how; simpl in *; lia.
  - destruct w; try done; sums Hs; lia.
Qed.

Lemma remaining_acc p : pool_inv p -> Acc (fun p2 p1 => step items operation per_group p1 p2) p.
Proof.
  remember (remaining p) as n eqn:Hn. revert p Hn. induction n as [n IH] using lt_wf_ind. intros p -> I.
  constructor. intros p' Hstep. by eapply IH; [eapply step_decreases| |eapply pool_inv_step].
Qed.

Definition responsive : Prop := forall item, item ∈ items -> exists o, operation item o.

Lemma ready_steps p s : p_workers p !! s = Some Ready -> exists p', step items operation per_group p p'.
Proof.
  intros Hs. destruct (decide (p_failures p = [])) as [Hf|Hf]; [|eexists; by eapply step_stop].
  destruct (admission per_group p) as [groups [[key index]|]] eqn:Had; [eexists; by eapply step_admit|].
  destruct (drained (p_pending p)) eqn:Hd; eexists; [by eapply step_exhausted|by eapply step_wait].
Qed.

Lemma flying_steps p s w :
  responsive -> pool_inv p -> p_workers p !! s = Some w -> (0 < in_flight w)%nat -> exists p', step items operation per_group p p'.
Proof.
  intros Hresp I Hs Hw. destruct w as [| |key i|key how|]; simpl in Hw; try lia; [|eexists; by eapply step_leave].
  destruct (inv_busy _ _ _ (pool_items _ I) _ _ _ Hs) as (item & Hi & _).
  destruct (Hresp item) as [[r|e] Ho]; [by eapply list_elem_of_lookup_2|eexists; by eapply step_return|].
  destruct (decide (p_failures p = [])) as [Hf|Hf]; [eexists; eapply step_raise; eauto|].
  destruct (decide (e = CancelledError)) as [->|He]; eexists; [eapply step_cancelled|eapply step_raise]; eauto.
Qed.

Lemma pool_progress p : responsive -> pool_inv p -> all_ended p \/ exists p', step items operation per_group p p'.
Proof.
  intros Hresp I. destruct (decide (Forall (fun w => w = Ended) (p_workers p))) as [|Hall]; [by left|right].
  apply (not_Forall_Exists _) in Hall. apply Exists_exists in Hall as (w & Hin & Hw).
  apply list_elem_of_lookup in Hin as (s & Hs). destruct w as [| |key i|key how|].
  - by eapply ready_steps.
  - destruct (pool_waiting _ I _ Hs) as [Ha|Hfly]; [eexists; by eapply step_abort|].
    apply workers_sum_pos in Hfly as (w' & Hin' & Hw'). apply list_elem_of_lookup in Hin' as (s' & Hs'). by eapply flying_steps.
  - eapply flying_steps; eauto; simpl; lia.
  - eapply flying_steps; eauto; simpl; lia.
  - by destruct Hw.
Qed.

(** *** What it returns *)
Lemma ended_sum_holding (p : pool R) i : all_ended p -> workers_sum (holding i) (p_workers p) = O.
Proof. intros H. unfold workers_sum. induction H as [|w ws -> _ IH]; simpl; lia. Qed.

Lemma ended_all_stored p i :
  (1 <= concurrency)%nat -> pool_inv p -> all_ended p -> p_failures p = [] -> (i < length items)%nat -> exists r, p_results p !! i = Some (Some r).
Proof.
  intros Hc I Hended Hf Hi. destruct (lookup_lt_is_Some_2 _ _ Hi) as [item Hitem].
  assert (0 < length (p_workers p))%nat as Hws by (rewrite (pool_workers _ I); lia).
  destruct (lookup_lt_is_Some_2 _ _ Hws) as [w Hw]. pose proof (proj1 (Forall_lookup _ _) Hended _ _ Hw) as ->.
  pose proof (inv_ended _ _ _ (pool_outcome _ I) _ Hw Hf) as Hd. rewrite drained_queue in Hd.
  destruct (inv_once _ _ _ (pool_items _ I) i (group_key item)) as [_ H1]; [by exists item|]. specialize (H1 Hf).
  unfold occurrences in H1. rewrite Hd, ended_sum_holding in H1 by done. unfold queued, stored in H1. simpl in H1.
  destruct (p_results p !! i) as [[r|]|]; [eauto|done..].
Qed.

Lemma finish_spec p :
  (1 <= concurrency)%nat -> pool_inv p -> all_ended p ->
  match finish p with
  | Ok rs => Forall2 (fun item r => operation item (Returns r)) items rs
  | Err e => exists item, item ∈ items /\ operation item (Raises e)
  end.
Proof.
  intros Hc I Hended. pose proof (ended_all_stored p) as Hstored. unfold finish.
  destruct (p_failures p) as [|e fs] eqn:Hf; [|apply (inv_failures _ _ _ (pool_outcome _ I)); rewrite Hf; constructor].
  destruct (mapM id (p_results p)) as [rs|] eqn:Hrs; simpl.
  - apply mapM_Some in Hrs. pose proof (Forall2_length _ _ _ Hrs) as Hlen. rewrite (inv_length _ _ _ (pool_items _ I)) in Hlen.
    apply Forall2_same_length_lookup_2; [done|]. intros i item r Hitem Hr.
    destruct (Forall2_lookup_r _ _ _ _ _ Hrs Hr) as (o & Ho & Hor). simpl in Hor. subst o.
    destruct (inv_results _ _ _ (pool_outcome _ I) _ _ Ho) as (item' & ? & ?). by simplify_eq.
  - apply mapM_None, Exists_exists in Hrs as (o & Hin & Ho). apply list_elem_of_lookup in Hin as (i & Hi).
    assert (i < length items)%nat as Hlt by (rewrite <- (inv_length _ _ _ (pool_items _ I)); by eapply lookup_lt_Some).
    destruct (Hstored i Hc I Hended eq_refl Hlt) as [r Hr]. rewrite Hr in Hi. by simplify_eq.
Qed.
End Reachable.

Lemma sequence_spec {T R} (operation : T -> outcome R -> Prop) items out :
  in_sequence operation items out ->
  match out with
  | Ok rs => Forall2 (fun item r => operation item (Returns r)) items rs
  | Err e => exists item, item ∈ items /\ operation item (Raises e)
  end.
Proof.
  induction 1 as [|item rest e He|item rest r out Hr _ IH]; [constructor|exists item; by split; [constructor|]|].
  destruct out as [rs|e]; simpl; [by constructor|]. destruct IH as (x & ? & ?). exists x. split; [by constructor|done].
Qed.

Lemma check_concurrency_ok concurrency per_group :
  check_concurrency concurrency per_group = Ok tt -> 1 <= concurrency /\ 1 <= group_limit concurrency per_group.
Proof. unfold check_concurrency. intros H. inv_res H. bsplit. lia. Qed.

(** *** Who runs what *)
Lemma running_filter key ws : length (filter (fun w => running key w = 1%nat) ws) = workers_sum (running key) ws.
Proof.
  unfold workers_sum. induction ws as [|w ws IH]; [done|]. rewrite filter_cons. simpl.
  assert (running key w = O \/ running key w = 1%nat) as [Hw|Hw].
  { destruct w; simpl; try (by left); unfold indicator; case_decide; auto. }
  all: rewrite Hw; simpl; lia.
Qed.

Lemma workers_sum_two f ws s s' w w' :
  f Ended = O -> s <> s' -> ws !! s = Some w -> ws !! s' = Some w' -> (f w + f w' <= workers_sum f ws)%nat.
Proof.
  intros Hf Hne Hs Hs'. pose proof (workers_sum_insert f ws s w Ended Hs) as H.
  assert (<[s:=Ended]> ws !! s' = Some w') as Hin by (by rewrite list_lookup_insert_ne).
  apply (workers_sum_elem f) in Hin. lia.
Qed.

Lemma busy_alone {T R} (items : list T) (group_key : T -> ustr) (p : pool R) s key i :
  items_inv items group_key p -> p_workers p !! s = Some (Busy key i) ->
  p_results p !! i = Some None /\ i ∉ queue (p_pending p) key /\
  forall s' key', p_workers p !! s' = Some (Busy key' i) -> s' = s.
Proof.
  intros J Hs. pose proof (inv_busy _ _ _ J _ _ _ Hs) as Hown. destruct (inv_once _ _ _ J _ _ Hown) as [H1 _].
  pose proof (workers_sum_elem (holding i) _ _ _ Hs) as Hsum. unfold occurrences in H1.
  simpl in Hsum. rewrite indicator_true in Hsum by done. split_and!.
  - destruct Hown as (item & Hitem & _). apply lookup_lt_Some in Hitem. rewrite <- (inv_length _ _ _ J) in Hitem.
    apply lookup_lt_is_Some_2 in Hitem as [[r|] Hr]; [|done]. unfold stored in H1. rewrite Hr in H1. lia.
  - rewrite <- queued_pos. lia.
  - intros s' key' Hs'. destruct (decide (s = s')) as [|Hne]; [done|].
    pose proof (workers_sum_two (holding i) _ _ _ _ _ eq_refl Hne Hs Hs') as Htwo. simpl in Htwo.
    rewrite indicator_true in Htwo by done. lia.
Qed.

(** ** The properties *)

(** C16: The outcome of [bounded_ordered_map] is the operations' own, whatever the
    interleaving of the workers.  If it returns, the results are one per item, in the order
    of the items, each one that its operation returned; if it raises, the limits were
    refused or an operation of an item raised that exception.  In particular the last
    check, that every result arrived, cannot fail. *)
Theorem bounded_correct {T R} (items : list T) (operation : T -> outcome R -> Prop) group_key concurrency per_group out :
  bounded_ordered_map items operation group_key concurrency per_group out ->
  match out with
  | Ok rs => Forall2 (fun item r => operation item (Returns r)) items rs
  | Err e => check_concurrency concurrency per_group = Err e \/ exists item, item ∈ items /\ operation item (Raises e)
  end.
Proof.
  intros [e He|out' _ _ Hseq|p Hlim Hne Hrun Hended]; [by left| |].
  - apply sequence_spec in Hseq. destruct out'; [done|by right].
  - apply check_concurrency_ok in Hlim as [Hc Hg].
    assert (pool_inv items operation group_key (Z.to_nat (group_limit concurrency per_group)) (Z.to_nat concurrency) p) as I.
    { apply pool_inv_reachable; [lia|done]. }
    apply finish_spec in I; [|lia|lia|done]. by destruct (finish p); [|right].
Qed.

(** C27: The pool always drains.  From any state it reaches, no run of the workers is
    infinite, and a state where no worker can take a step is one where every worker has
    ended: no waiting worker is forgotten, provided that every operation of an item ends,
    with a result or an exception. *)
Theorem bounded_finishes {T R} (items : list T) (operation : T -> outcome R -> Prop) group_key per_group concurrency p :
  (1 <= per_group)%nat -> responsive items operation ->
  rtc (step items operation per_group) (initial items group_key concurrency) p ->
  Acc (fun p2 p1 => step items operation per_group p1 p2) p /\
  (all_ended p \/ exists p', step items operation per_group p p').
Proof.
  intros Hlimit Hresp Hrun. eapply pool_inv_reachable in Hrun; [|done].
  split; [by eapply remaining_acc|by eapply pool_progress].
Qed.

(** C32: At every moment at most [per_group] workers are in one group, so many operations of
    one issuer run at once, no more workers than [concurrency] exist, each runs an item of
    its group, and no item is with two workers or run again after its result. *)
Theorem bounded_limits {T R} (items : list T) (operation : T -> outcome R -> Prop) group_key per_group concurrency p :
  (1 <= per_group)%nat ->
  rtc (step items operation per_group) (initial items group_key concurrency) p ->
  (length (p_workers p) <= concurrency)%nat /\
  (forall key, (length (filter (fun w => running key w = 1%nat) (p_workers p)) <= per_group)%nat) /\
  (forall s key i, p_workers p !! s = Some (Busy key i) ->
     owner_group items group_key i key /\ p_results p !! i = Some None /\ i ∉ queue (p_pending p) key /\
     forall s' key', p_workers p !! s' = Some (Busy key' i) -> s' = s).
Proof.
  intros Hlimit Hrun. eapply pool_inv_reachable in Hrun as I; [|done]. split_and!.
  - rewrite (pool_workers _ _ _ _ _ _ I). lia.
  - intros key. rewrite running_filter. destruct (pool_limits _ _ _ _ _ _ I key). lia.
  - intros s key i Hs. pose proof (inv_busy _ _ _ (pool_items _ _ _ _ _ _ I) _ _ _ Hs) as Hown.
    split; [done|]. by eapply busy_alone; [exact (pool_items _ _ _ _ _ _ I)|].
Qed.

(** *** A run: two items of two groups *)
Definition sample_group (b : bool) : ustr := if b then us "a" else us "b".
Definition sample_operation (b : bool) (o : outcome bool) : Prop := o = Returns (negb b).
Abbreviation sample_start := (initial (R:=bool) [true; false] sample_group 2).
Abbreviation sample_step := (step [true; false] sample_operation 1).

Lemma sample_responsive : responsive [true; false] sample_operation.
Proof. intros item _. eexists. reflexivity. Qed.

Lemma sample_two_busy : exists p, rtc sample_step sample_start p /\ p_workers p = [Busy (us "a") 0; Busy (us "b") 1]%nat.
Proof.
  eexists. split.
  - eapply rtc_l; [eapply (step_admit _ _ _ _ 0%nat); vm_compute; reflexivity|].
    eapply rtc_l; [eapply (step_admit _ _ _ _ 1%nat); vm_compute; reflexivity|]. apply rtc_refl.
  - vm_compute. reflexivity.
Qed.

Lemma sample_pool_run : bounded_ordered_map [true; false] sample_operation sample_group 2 (Some 1) (Ok [false; true]).
Proof.
  eassert (Ok [false; true] = finish _) as ->; [|apply map_pool; [reflexivity|done| |]].
  2: { eapply rtc_l; [eapply (step_admit _ _ _ _ 0%nat); vm_compute; reflexivity|].
    eapply rtc_l; [eapply (step_admit _ _ _ _ 1%nat); vm_compute; reflexivity|].
    eapply rtc_l; [eapply (step_return _ _ _ _ 1%nat); vm_compute; reflexivity|].
    eapply rtc_l; [eapply (step_leave _ _ _ _ 1%nat); vm_compute; reflexivity|].
    eapply rtc_l; [eapply (step_return _ _ _ _ 0%nat); vm_compute; reflexivity|].
    eapply rtc_l; [eapply (step_exhausted _ _ _ _ 1%nat); vm_compute; reflexivity|].
    eapply rtc_l; [eapply (step_leave _ _ _ _ 0%nat); vm_compute; reflexivity|].
    eapply rtc_l; [eapply (step_exhausted _ _ _ _ 0%nat); vm_compute; reflexivity|]. apply rtc_refl. }
  - vm_compute. reflexivity.
  - vm_compute. repeat constructor.
Qed.

Example bounded_correct_witness :
  bounded_ordered_map [true; false] sample_operation sample_group 2 (Some 1) (Ok [false; true]) /\
  Forall2 (fun item r => sample_operation item (Returns r)) [true; false] [false; true].
Proof. split; [apply sample_pool_run|]. exact (bounded_correct _ _ _ _ _ _ sample_pool_run). Defined.

Example bounded_finishes_witness :
  responsive [true; false] sample_operation /\
  (all_ended sample_start \/ exists p', sample_step sample_start p').
Proof.
  split; [apply sample_responsive|].
  exact (proj2 (bounded_finishes _ _ _ _ _ _ (le_n 1) sample_responsive (rtc_refl _ _))).
Defined.

Example bounded_limits_witness :
  exists p, rtc sample_step sample_start p /\ p_workers p !! 0%nat = Some (Busy (us "a") 0) /\ p_results p !! 0%nat = Some None.
Proof.
  destruct sample_two_busy as (p & Hrun & Hws). exists p.
  assert (p_workers p !! 0%nat = Some (Busy (us "a") 0)) as H0 by (rewrite Hws; reflexivity).
  split; [exact Hrun|split; [exact H0|]].
  exact (proj1 (proj2 (proj2 (proj2 (bounded_limits _ _ _ _ _ _ (le_n 1) Hrun)) _ _ _ H0))).
Defined.
