(* ===== verification/Revision.v ===== *)
(** The revision history of a product ([cardrag_worker/revision_history_v5.py]): which
    contract revisions the durable PDF history proves, and which one each replaced.

    A set the code iterates over only where the order cannot be seen (the result is sorted
    by a key with the unique [revision_id]) is a list in the order of insertion. *)
From S2P Require Export CorpusDiff.

(** ** Durable rows ([state.py]) and identities *)
Record PDFSourceRevisionRow := {
  rr_revision_id : Z;
  rr_previous_revision_id : option Z;
  rr_source_id : ustr;
  rr_issuer : ustr;
  rr_product_code : ustr;
  rr_document_type : ustr;
  rr_source_url : ustr;
  rr_source_version : ustr;
  rr_source_post_id : ustr;
  rr_discovery_sha256 : ustr;
  rr_pdf_sha256 : ustr;
  rr_pdf_size_bytes : Z;
  rr_page_count : Z;
  rr_relative_path : ustr;
  rr_final_url : ustr;
  rr_etag : option ustr;
  rr_last_modified : option ustr;
  rr_source_first_observed_at : ustr;
  rr_source_last_observed_at : ustr;
  rr_revision_first_observed_at : ustr;
  rr_revision_last_observed_at : ustr;
  rr_verified_at : ustr;
  rr_superseded_at : option ustr;
  rr_superseded_by_source_id : option ustr;
  rr_source_superseded_at : option ustr;
}.

Definition RevisionHistoryV5Error (message : string) : exn := Raised "RevisionHistoryV5Error" message.

(** A revision of a contract: the source and the bytes it served. *)
Abbreviation contract_identity := (ustr * ustr)%type.
Definition row_identity (r : PDFSourceRevisionRow) : contract_identity := (rr_source_id r, rr_pdf_sha256 r).

Definition _source_identity (r : PDFSourceRevisionRow) : list ustr :=
  [rr_source_id r; rr_issuer r; rr_product_code r; rr_document_type r; rr_source_url r; rr_source_version r;
   rr_source_post_id r; rr_discovery_sha256 r].

(** [PDFSourceIdentity.from_source_record]: its own check, that [source_id] carries the
    hash of the discovery payload, holds by the definition of [source_id]. *)
Definition _record_identity (s : SourceRecord) : list ustr :=
  [source_id s; sr_issuer s; sr_product_code s; sr_document_type s; sr_source_url s; sr_source_version s;
   sr_source_post_id s; canonical_sha256 (discovery_payload s)].

Definition row_lineage (r : PDFSourceRevisionRow) : ustr * ustr * ustr := (rr_issuer r, rr_product_code r, rr_document_type r).
Definition source_lineage (s : SourceRecord) : ustr * ustr * ustr := (sr_issuer s, sr_product_code s, sr_document_type s).

(** [==] of Python on decoded values: a boolean equals the integer it is, members compare
    without their order. *)
Definition number_of (v : json) : option Z :=
  match v with JBool b => Some (if b then 1 else 0) | JInt z => Some z | _ => None end.
Fixpoint py_eq (a b : json) : bool :=
  match a, b with
  | JNull, JNull => true
  | JStr s, JStr t => bool_decide (s = t)
  | JArr l, JArr m =>
      (fix all2 (l m : list json) : bool :=
         match l, m with [], [] => true | x :: l, y :: m => py_eq x y && all2 l m | _, _ => false end) l m
  | JObj l, JObj m =>
      (length l =? length m)%nat &&
      forallb (fun kv => match dict_get kv.1 m with Some w => py_eq kv.2 w | None => false end) l
  | (JBool _ | JInt _), (JBool _ | JInt _) => bool_decide (number_of a = number_of b)
  | _, _ => false
  end.

(** [_timestamp] on the strings the state database stores, which [isoformat] printed. *)
Definition _timestamp (value : ustr) (field : string) : res utc_datetime :=
  match datetime_fromisoformat value with
  | Some parsed => Ok parsed
  | None =>
      Err (RevisionHistoryV5Error (String.append "historical " (String.append field
        (if datetime_fromisoformat (value ++ us "+00:00") then " is timezone-naive" else " is invalid"))))
  end.

(** ** The plan *)
Inductive TemporalStatusV5 := Current | Superseded | Ambiguous.
#[export] Instance temporal_status_eq_dec : EqDecision TemporalStatusV5.
Proof. solve_decision. Defined.

Record RevisionHistoryCandidateV5 := {
  rc_source : SourceRecord;
  rc_revision : PDFSourceRevisionRow;
  rc_temporal_status : TemporalStatusV5;
  rc_supersedes_document_id : option ustr;
}.
Definition candidate_document_id (c : RevisionHistoryCandidateV5) : res ustr :=
  document_id (rc_source c) (rr_pdf_sha256 (rc_revision c)).

Inductive UnresolvedRevisionReasonV5 := DocumentIdentityCollision | PdfCacheObjectUnavailable | SourceMetadataUnresolved.
Record UnresolvedRevisionIdentityV5 := {
  ur_source_id : ustr;
  ur_pdf_sha256 : ustr;
  ur_reason_code : UnresolvedRevisionReasonV5;
}.
Definition check_unresolved (u : UnresolvedRevisionIdentityV5) : res UnresolvedRevisionIdentityV5 :=
  let! _ := raise_if (negb (fullmatch re_SOURCE_ID (ur_source_id u)) || negb (fullmatch re_hex64 (ur_pdf_sha256 u)))
              (ValueError "unresolved revision identity is invalid") in
  Ok u.

Record RevisionHistoryPlanV5 := {
  hp_candidates : list RevisionHistoryCandidateV5;
  hp_unresolved_revisions : list UnresolvedRevisionIdentityV5;
}.

(** [d[k].append(row)] of a [defaultdict(list)] *)
Definition dict_append {K V} `{EqDecision K} (k : K) (v : V) (d : list (K * list V)) : list (K * list V) :=
  dict_set k (default [] (dict_get k d) ++ [v]) d.
(** [d[k].add(x)] of a [defaultdict(set)], the set in the order of insertion. *)
Definition dict_add {K V} `{EqDecision K, EqDecision V} (k : K) (v : V) (d : list (K * list V)) : list (K * list V) :=
  let old := default [] (dict_get k d) in
  dict_set k (if decide (v ∈ old) then old else old ++ [v]) d.

Record history := {
  h_row_by_id : list (Z * PDFSourceRevisionRow);
  h_rows_by_identity : list (contract_identity * list PDFSourceRevisionRow);
  h_source_rows : list (ustr * list PDFSourceRevisionRow);
  h_source_static_identity : list (ustr * list ustr);
}.
Definition no_history : history :=
  {| h_row_by_id := []; h_rows_by_identity := []; h_source_rows := []; h_source_static_identity := [] |}.

Definition check_timestamps (r : PDFSourceRevisionRow) : res unit :=
  let! _ := forM (fun fv => let! _ := _timestamp fv.2 fv.1 in Ok tt)
              [("source_first_observed_at"%string, rr_source_first_observed_at r);
               ("source_last_observed_at"%string, rr_source_last_observed_at r);
               ("revision_first_observed_at"%string, rr_revision_first_observed_at r);
               ("revision_last_observed_at"%string, rr_revision_last_observed_at r);
               ("verified_at"%string, rr_verified_at r)] in
  let! _ := match rr_superseded_at r with Some t => let! _ := _timestamp t "superseded_at" in Ok tt | None => Ok tt end in
  match rr_source_superseded_at r with Some t => let! _ := _timestamp t "source_superseded_at" in Ok tt | None => Ok tt end.

(** The loop over the rows. *)
Definition add_row (lineage : ustr * ustr * ustr) (h : history) (r : PDFSourceRevisionRow) : res history :=
  let! _ := raise_if (bool_decide (is_Some (dict_get (rr_revision_id r) (h_row_by_id h))))
              (RevisionHistoryV5Error "historical PDF revision_id is duplicated") in
  let! _ := raise_if (negb (bool_decide (row_lineage r = lineage)))
              (RevisionHistoryV5Error "historical PDF revision crosses a product lineage") in
  let! _ := raise_if (match rr_previous_revision_id r with Some q => rr_revision_id r <=? q | None => false end)
              (RevisionHistoryV5Error "historical PDF revision order is not forward-only") in
  let! _ := check_timestamps r in
  let prior := default (_source_identity r) (dict_get (rr_source_id r) (h_source_static_identity h)) in
  let! _ := raise_if (negb (bool_decide (prior = _source_identity r)))
              (RevisionHistoryV5Error "historical source identity changes across byte revisions") in
  Ok {| h_row_by_id := dict_set (rr_revision_id r) r (h_row_by_id h);
        h_rows_by_identity := dict_append (row_identity r) r (h_rows_by_identity h);
        h_source_rows := dict_append (rr_source_id r) r (h_source_rows h);
        h_source_static_identity := dict_set (rr_source_id r) prior (h_source_static_identity h) |}.

(** The sources whose metadata a snapshot retained. *)
Definition resolve_source (lineage : ustr * ustr * ustr) (static : list (ustr * list ustr))
    (resolved : list (ustr * SourceRecord)) (known : ustr * SourceRecord) : res (list (ustr * SourceRecord)) :=
  let '(id, source) := known in
  if negb (bool_decide (source_lineage source = lineage)) then Ok resolved
  else match dict_get id static with
       | None => Ok resolved
       | Some persisted =>
           let! _ := raise_if (negb (bool_decide (_record_identity source = persisted)))
                       (RevisionHistoryV5Error "snapshot source payload conflicts with PDF cache history") in
           Ok (dict_set id source resolved)
       end.

(** ** Predecessors *)
Abbreviation predecessors := (list (contract_identity * list contract_identity)).

(** The byte revisions of one source: the row before each row. *)
Definition add_previous (row_by_id : list (Z * PDFSourceRevisionRow)) (found : predecessors)
    (entry : contract_identity * PDFSourceRevisionRow) : res predecessors :=
  let '(identity, r) := entry in
  match rr_previous_revision_id r with
  | None => Ok found
  | Some previous_id =>
      let error := RevisionHistoryV5Error "historical previous_revision_id is missing or cross-source" in
      let! previous := of_option error (dict_get previous_id row_by_id) in
      let! _ := raise_if (negb (bool_decide (rr_source_id previous = rr_source_id r))) error in
      Ok (if decide (row_identity previous = identity) then found else dict_add identity (row_identity previous) found)
  end.

(** The sources that point at each source as their successor. *)
Definition add_successor (found : list (ustr * list ustr)) (entry : ustr * list PDFSourceRevisionRow)
  : res (list (ustr * list ustr)) :=
  let '(id, source_rows) := entry in
  match remove_dups (map rr_superseded_by_source_id source_rows) with
  | [None] => Ok found
  | [Some successor] => Ok (dict_add successor id found)
  | _ => Err (RevisionHistoryV5Error "historical source successor changes across byte revisions")
  end.

(** [min] and [max] by [revision_id] *)
Definition earliest (first : PDFSourceRevisionRow) (rest : list PDFSourceRevisionRow) : PDFSourceRevisionRow :=
  fold_left (fun best r => if rr_revision_id r <? rr_revision_id best then r else best) rest first.
Definition latest (first : PDFSourceRevisionRow) (rest : list PDFSourceRevisionRow) : PDFSourceRevisionRow :=
  fold_left (fun best r => if rr_revision_id best <? rr_revision_id r then r else best) rest first.
Definition select (pick : PDFSourceRevisionRow -> list PDFSourceRevisionRow -> PDFSourceRevisionRow)
    (rows : list PDFSourceRevisionRow) : res PDFSourceRevisionRow :=
  match rows with r :: rest => Ok (pick r rest) | [] => Err (ValueError "iterable argument is empty") end.

(** A source that alone points at a source precedes it: its last revision precedes the
    first one of the other, unless both are the same document. *)
Definition add_transition (source_rows : list (ustr * list PDFSourceRevisionRow)) (resolved : list (ustr * SourceRecord))
    (found : predecessors) (entry : ustr * list ustr) : res predecessors :=
  let '(id, prior_ids) := entry in
  match prior_ids, dict_get id source_rows with
  | [predecessor_id], Some rows =>
      let! target := select earliest rows in
      let! predecessor_rows := of_option KeyError (dict_get predecessor_id source_rows) in
      let! predecessor := select latest predecessor_rows in
      if decide (row_identity target = row_identity predecessor) then Ok found
      else
        let! distinct :=
          match dict_get predecessor_id resolved, dict_get id resolved with
          | Some before, Some after =>
              let! a := document_id after (rr_pdf_sha256 target) in
              let! b := document_id before (rr_pdf_sha256 predecessor) in
              Ok (negb (bool_decide (a = b)))
          | _, _ => Ok true
          end in
        Ok (if distinct : bool then dict_add (row_identity target) (row_identity predecessor) found else found)
  | _, _ => Ok found
  end.

(** ** Candidates *)
Definition is_superseded (r : PDFSourceRevisionRow) : bool :=
  bool_decide (is_Some (rr_superseded_at r)) || bool_decide (is_Some (rr_source_superseded_at r)).

Definition temporal_status (current identity : contract_identity) (rows : list PDFSourceRevisionRow) : TemporalStatusV5 :=
  if decide (identity = current) then Current else if existsb is_superseded rows then Superseded else Ambiguous.

Definition supersedes (resolved : list (ustr * SourceRecord)) (included : list contract_identity) (found : predecessors)
    (identity : contract_identity) (source : SourceRecord) : res (option ustr) :=
  match filter (fun p => p ∈ included) (default [] (dict_get identity found)) with
  | [predecessor] =>
      let! before := of_option KeyError (dict_get predecessor.1 resolved) in
      let! predecessor_doc_id := document_id before predecessor.2 in
      let! candidate_doc_id := document_id source identity.2 in
      Ok (if decide (predecessor_doc_id = candidate_doc_id) then None else Some predecessor_doc_id)
  | _ => Ok None
  end.

Definition plan_candidate (current : contract_identity) (resolved : list (ustr * SourceRecord))
    (included : list contract_identity) (found : predecessors)
    (entry : contract_identity * list PDFSourceRevisionRow) : res RevisionHistoryCandidateV5 :=
  let '(identity, rows) := entry in
  let! representative := select latest rows in
  let! source := of_option KeyError (dict_get identity.1 resolved) in
  let! superseded := supersedes resolved included found identity source in
  Ok {| rc_source := source; rc_revision := representative; rc_temporal_status := temporal_status current identity rows;
        rc_supersedes_document_id := superseded |}.

Definition candidate_leb (a b : RevisionHistoryCandidateV5) : bool :=
  let ra := rc_revision a in
  let rb := rc_revision b in
  let ta := rr_revision_first_observed_at ra in
  let tb := rr_revision_first_observed_at rb in
  if decide (ta = tb) then
    if rr_revision_id ra =? rr_revision_id rb then
      if decide (source_id (rc_source a) = source_id (rc_source b)) then ustr_leb (rr_pdf_sha256 ra) (rr_pdf_sha256 rb)
      else ustr_leb (source_id (rc_source a)) (source_id (rc_source b))
    else rr_revision_id ra <=? rr_revision_id rb
  else ustr_leb ta tb.

Definition identity_leb (a b : contract_identity) : bool :=
  if decide (a.1 = b.1) then ustr_leb a.2 b.2 else ustr_leb a.1 b.1.

Definition is_resolved (resolved : list (ustr * SourceRecord)) (identity : contract_identity) : bool :=
  bool_decide (is_Some (dict_get identity.1 resolved)).

(** The current source joins the known ones, or has to be the one known. *)
Definition add_current (current_source : SourceRecord) (known : list (ustr * SourceRecord)) : res (list (ustr * SourceRecord)) :=
  match dict_get (source_id current_source) known with
  | None => Ok (dict_set (source_id current_source) current_source known)
  | Some s =>
      let! _ := raise_if (negb (py_eq (discovery_payload s) (discovery_payload current_source)))
                  (RevisionHistoryV5Error "current source payload conflicts with snapshot history") in
      Ok known
  end.

Definition is_active (r : PDFSourceRevisionRow) : bool := negb (is_superseded r).
Definition no_unique_current : exn := RevisionHistoryV5Error "revision plan does not contain exactly one current contract".

Definition plan_revision_history_v5 (current_source : SourceRecord) (current_pdf_sha256 : ustr)
    (rows : list PDFSourceRevisionRow) (known_sources : list (ustr * SourceRecord)) : res RevisionHistoryPlanV5 :=
  let! known := add_current current_source known_sources in
  let lineage := source_lineage current_source in
  let current := (source_id current_source, current_pdf_sha256) in
  let! _ := raise_if (bool_decide (rows = [])) (RevisionHistoryV5Error "current lineage has no durable PDF revision history") in
  let! h := foldM (add_row lineage) no_history rows in
  let by_identity := h_rows_by_identity h in
  let! _ := raise_if (negb (existsb is_active (default [] (dict_get current by_identity))))
              (RevisionHistoryV5Error "current discovery/PDF is not the active durable revision") in
  let! resolved := foldM (resolve_source lineage (h_source_static_identity h)) [] known in
  let included := filter (fun i => is_resolved resolved i = true) by_identity.*1 in
  let! unresolved :=
    mapM_res (fun i => check_unresolved {| ur_source_id := i.1; ur_pdf_sha256 := i.2; ur_reason_code := SourceMetadataUnresolved |})
      (sorted_by identity_leb (filter (fun i => i ∉ included) by_identity.*1)) in
  let! found := foldM (add_previous (h_row_by_id h)) [] (concat (map (fun e => map (pair e.1) e.2) by_identity)) in
  let! successors := foldM add_successor [] (h_source_rows h) in
  let! found := foldM (add_transition (h_source_rows h) resolved) found successors in
  let! planned := mapM_res (plan_candidate current resolved included found)
                    (filter (fun e => is_resolved resolved e.1 = true) by_identity) in
  let planned := sorted_by candidate_leb planned in
  let! _ := raise_if (negb (length (filter (fun c => rc_temporal_status c = Current) planned) =? 1)%nat) no_unique_current in
  Ok {| hp_candidates := planned; hp_unresolved_revisions := unresolved |}.
