(* ===== verification/RevisionProof.v ===== *)
(** What the revision plan promises: one candidate or one unresolved entry per revision of
    the history, exactly one current candidate, and links to candidates of the plan.

    The loop over the rows groups them; [grouped] says what the dictionaries then hold. *)
From S2P Require Import Revision.

(** ** Rows in groups *)
Section Groups.
Context {K V : Type} `{EqDecision K} (key : V -> K).

Definition grouped (l : list V) (d : list (K * list V)) : Prop :=
  NoDup d.*1 /\ forall k, dict_get k d = match filter (fun v => key v = k) l with [] => None | vs => Some vs end.

Lemma grouped_nil : grouped [] [].
Proof. split; [constructor|done]. Qed.

Lemma dict_append_get (k k' : K) (v : V) d :
  dict_get k (dict_append k' v d) = if decide (k = k') then Some (default [] (dict_get k' d) ++ [v]) else dict_get k d.
Proof. apply dict_get_set. Qed.

Lemma grouped_append l d v : grouped l d -> grouped (l ++ [v]) (dict_append (key v) v d).
Proof.
  intros [Hnd Hget]. split; [by apply dict_set_NoDup|]. intros k. rewrite dict_append_get, filter_app, (Hget k).
  destruct (decide (k = key v)) as [->|Hne].
  - rewrite Hget, filter_cons_True by done. rewrite filter_nil. by destruct (filter _ l).
  - rewrite filter_cons_False by congruence. rewrite filter_nil, app_nil_r. done.
Qed.

Lemma grouped_elem l d k vs : grouped l d -> (k, vs) ∈ d -> vs = filter (fun v => key v = k) l /\ vs <> [].
Proof.
  intros [Hnd Hget] Hin. pose proof (dict_get_of_elem _ _ _ Hnd Hin) as H. rewrite Hget in H.
  destruct (filter _ l) eqn:Hf; [done|]. by injection H as <-.
Qed.

Lemma grouped_key l d k : grouped l d -> k ∈ d.*1 <-> exists v, v ∈ l /\ key v = k.
Proof.
  intros [Hnd Hget]. split.
  - intros Hk. destruct (dict_get k d) as [vs|] eqn:Hd; [|by apply dict_get_None in Hd].
    rewrite Hget in Hd. destruct (filter _ l) as [|v vs'] eqn:Hf; [done|].
    assert (v ∈ filter (fun v => key v = k) l) as Hv by (rewrite Hf; constructor). apply list_elem_of_filter in Hv as [? ?]. eauto.
  - intros (v & Hv & Hk). destruct (decide (k ∈ d.*1)) as [|Hn]; [done|]. apply dict_get_None in Hn. rewrite Hget in Hn.
    assert (v ∈ filter (fun v => key v = k) l) as Hin by (apply list_elem_of_filter; eauto).
    destruct (filter _ l); [by apply elem_of_nil in Hin|done].
Qed.
End Groups.

(** ** The history the rows make *)
Record history_inv (lineage : ustr * ustr * ustr) (l : list PDFSourceRevisionRow) (h : history) : Prop := {
  hi_identity : grouped row_identity l (h_rows_by_identity h);
  hi_lineage r : r ∈ l -> row_lineage r = lineage;
  hi_static r : r ∈ l -> dict_get (rr_source_id r) (h_source_static_identity h) = Some (_source_identity r);
  hi_static_known id x : dict_get id (h_source_static_identity h) = Some x -> exists r, r ∈ l /\ id = rr_source_id r /\ x = _source_identity r;
  hi_ids : (h_row_by_id h).*1 = map rr_revision_id l;
  hi_unique : NoDup (map rr_revision_id l);
}.

Lemma add_row_ok lineage l h r h' :
  history_inv lineage l h -> add_row lineage h r = Ok h' -> history_inv lineage (l ++ [r]) h'.
Proof.
  intros I H. unfold add_row in H.
  apply bind_ok in H as (? & Hid & H). apply raise_if_ok in Hid.
  apply bind_ok in H as (? & Hl & H). apply raise_if_ok in Hl.
  apply bind_ok in H as (? & _ & H). apply bind_ok in H as (? & _ & H). cbv zeta in H.
  apply bind_ok in H as (? & Hs & H). apply raise_if_ok in Hs. injection H as <-. bsplit. simplify_eq.
  assert (rr_revision_id r ∉ (h_row_by_id h).*1) as Hfresh.
  { apply dict_get_None. apply eq_None_not_Some. done. }
  split; cbn [h_row_by_id h_rows_by_identity h_source_rows h_source_static_identity].
  - apply grouped_append, I.
  - intros r' [Hr'|Hr']%elem_of_app; [by apply (hi_lineage _ _ _ I)|]. by apply list_elem_of_singleton in Hr' as ->.
  - intros r' Hr'. rewrite dict_get_set. apply elem_of_app in Hr' as [Hr'|Hr'].
    + pose proof (hi_static _ _ _ I _ Hr') as Hd. case_decide as Heq; [|done]. rewrite Heq in Hd. rewrite Hd in Hs. simpl in Hs.
      rewrite Hd. simpl. done.
    + apply list_elem_of_singleton in Hr' as ->. rewrite decide_True by done. congruence.
  - intros id identity. rewrite dict_get_set. case_decide as Heq.
    + intros [= <-]. exists r. split; [apply elem_of_app; right; constructor|]. split; congruence.
    + intros Hd. destruct (hi_static_known _ _ _ I _ _ Hd) as (r' & ? & ?). exists r'. split; [apply elem_of_app; by left|done].
  - rewrite dict_set_fresh by done. rewrite fmap_app, map_app, (hi_ids _ _ _ I). done.
  - rewrite map_app. apply NoDup_app. rewrite <- (hi_ids _ _ _ I). split_and!; [rewrite (hi_ids _ _ _ I); apply I| |apply NoDup_singleton].
    intros q Hq Hq'. apply list_elem_of_singleton in Hq' as ->. done.
Qed.

Lemma add_rows_ok lineage rows h : foldM (add_row lineage) no_history rows = Ok h -> history_inv lineage rows h.
Proof.
  apply (foldM_ok_invariant _ (history_inv lineage)).
  - split; cbn; try done; [apply grouped_nil|intros r Hr; by apply elem_of_nil in Hr|intros r Hr; by apply elem_of_nil in Hr|constructor].
  - intros done a rest st st' _ I Hst. by eapply add_row_ok.
Qed.

(** ** Sources *)
Definition sources_inv (lineage : ustr * ustr * ustr) (static : list (ustr * list ustr)) (l resolved : list (ustr * SourceRecord)) : Prop :=
  (forall id s, dict_get id resolved = Some s -> source_id s = id) /\
  (forall id s, (id, s) ∈ l -> source_lineage s = lineage -> is_Some (dict_get id static) -> is_Some (dict_get id resolved)).

Lemma resolve_sources_ok lineage rows h known resolved :
  history_inv lineage rows h -> foldM (resolve_source lineage (h_source_static_identity h)) [] known = Ok resolved ->
  sources_inv lineage (h_source_static_identity h) known resolved.
Proof.
  intros I. apply (foldM_ok_invariant _ (sources_inv lineage (h_source_static_identity h))).
  - split; [done|]. intros id s Hin. by apply elem_of_nil in Hin.
  - intros seen [id s] rest st st' _ [I1 I2] H. unfold resolve_source in H.
    assert (st' = st -> (source_lineage s = lineage -> ~ is_Some (dict_get id (h_source_static_identity h))) ->
      sources_inv lineage (h_source_static_identity h) (seen ++ [(id, s)]) st') as Hskip.
    { intros -> Hno. split; [done|]. intros id' s' [Hin|Hin]%elem_of_app; [eauto|].
      apply list_elem_of_singleton in Hin as [= -> ->]. intros Hl Hs. by destruct (Hno Hl). }
    destruct (negb (bool_decide (source_lineage s = lineage))) eqn:Hlin.
    { injection H as <-. apply Hskip; [done|]. bsplit. by intros. }
    destruct (dict_get id (h_source_static_identity h)) as [persisted|] eqn:Hp; [|injection H as <-; by apply Hskip; [|intros _ []]].
    apply bind_ok in H as (? & Hid & H). apply raise_if_ok in Hid. injection H as <-. bsplit.
    destruct (hi_static_known _ _ _ I _ _ Hp) as (r & _ & -> & ->). injection Hid as Hid _.
    split.
    + intros id' s'. rewrite dict_get_set. case_decide as Heq; [intros [= <-]; congruence|apply I1].
    + intros id' s' Hin Hl Hs. rewrite dict_get_set. case_decide as Heq; [by eexists|].
      apply elem_of_app in Hin as [Hin|Hin]; [eauto|]. apply list_elem_of_singleton in Hin as [= -> ->]. done.
Qed.

Lemma py_eq_member l m k v w : py_eq (JObj l) (JObj m) = true -> (k, v) ∈ l -> dict_get k m = Some w -> py_eq v w = true.
Proof.
  cbn [py_eq]. intros [_ H]%andb_true_iff Hin Hw. apply forallb_Forall in H. rewrite Forall_forall in H.
  specialize (H _ Hin). cbn [fst snd] in H. by rewrite Hw in H.
Qed.

Lemma py_eq_payload a b : py_eq (discovery_payload a) (discovery_payload b) = true -> source_lineage a = source_lineage b.
Proof.
  intros H. unfold discovery_payload in H. unfold source_lineage.
  pose proof (fun k v w => py_eq_member _ _ k v w H) as Hm. clear H.
  f_equal; [f_equal|].
  - specialize (Hm (us "issuer") (JStr (sr_issuer a)) (JStr (sr_issuer b))). cbn [py_eq] in Hm.
    apply bool_decide_eq_true in Hm; [done| |reflexivity]. do 4 right. left.
  - specialize (Hm (us "product_code") (JStr (sr_product_code a)) (JStr (sr_product_code b))). cbn [py_eq] in Hm.
    apply bool_decide_eq_true in Hm; [done| |reflexivity]. do 6 right. left.
  - specialize (Hm (us "document_type") (JStr (sr_document_type a)) (JStr (sr_document_type b))). cbn [py_eq] in Hm.
    apply bool_decide_eq_true in Hm; [done| |reflexivity]. right. left.
Qed.

Lemma add_current_known current known known' :
  add_current current known = Ok known' ->
  exists s, (source_id current, s) ∈ known' /\ source_lineage s = source_lineage current.
Proof.
  unfold add_current. destruct (dict_get (source_id current) known) as [s|] eqn:Hs; intros H.
  - apply bind_ok in H as (? & Heq & H). apply raise_if_ok in Heq. injection H as <-. apply negb_false_iff in Heq.
    exists s. split; [by apply dict_get_elem|by apply py_eq_payload].
  - injection H as <-. exists current. split; [|done]. apply dict_get_elem. rewrite dict_get_set. by rewrite decide_True.
Qed.

(** ** Candidates *)
Lemma latest_spec first rest :
  latest first rest ∈ first :: rest /\ forall r, r ∈ first :: rest -> rr_revision_id r <= rr_revision_id (latest first rest).
Proof.
  unfold latest. revert first. induction rest as [|x rest IH]; intros first; cbn [fold_left].
  - split; [constructor|]. intros r Hr. by apply list_elem_of_singleton in Hr as ->.
  - destruct (rr_revision_id first <? rr_revision_id x) eqn:Hlt.
    + destruct (IH x) as [I1 I2]. split; [by right|]. intros r [->|Hr]%elem_of_cons; [|auto].
      pose proof (I2 x (list_elem_of_here _ _)). lia.
    + destruct (IH first) as [I1 I2]. split.
      * apply elem_of_cons in I1 as [->|I1]; [left|do 2 right; done].
      * intros r [->|[->|Hr]%elem_of_cons]%elem_of_cons; [apply I2; constructor| |apply I2; by right].
        pose proof (I2 first (list_elem_of_here _ _)). lia.
Qed.

Lemma filter_unique {A B} (f : A -> B) (P : A -> Prop) `{!forall x, Decision (P x)} l x :
  NoDup (map f l) -> x ∈ l -> (forall y, y ∈ l -> P y <-> f y = f x) -> filter P l = [x].
Proof.
  intros Hnd Hx HP. apply Permutation_singleton_r, NoDup_Permutation; [|apply NoDup_singleton|].
  - apply NoDup_filter. by eapply NoDup_fmap_1.
  - intros y. rewrite list_elem_of_filter, list_elem_of_singleton. split.
    + intros [Hy Hin]. apply HP in Hy; [|done]. by eapply map_NoDup_inj.
    + intros ->. split; [by apply HP|done].
Qed.

Definition candidate_identity (c : RevisionHistoryCandidateV5) : contract_identity := row_identity (rc_revision c).
Definition unresolved_identity (u : UnresolvedRevisionIdentityV5) : contract_identity := (ur_source_id u, ur_pdf_sha256 u).

(** What the plan says of one candidate. *)
Record candidate_spec (current : contract_identity) (rows : list PDFSourceRevisionRow) (c : RevisionHistoryCandidateV5) : Prop := {
  cs_source : source_id (rc_source c) = rr_source_id (rc_revision c);
  cs_row : rc_revision c ∈ rows;
  cs_latest r : r ∈ rows -> row_identity r = candidate_identity c -> rr_revision_id r <= rr_revision_id (rc_revision c);
  cs_current : rc_temporal_status c = Current <-> candidate_identity c = current;
}.

Section Plan.
Context (lineage : ustr * ustr * ustr) (rows : list PDFSourceRevisionRow) (h : history).
Context (resolved : list (ustr * SourceRecord)) (current : contract_identity) (found : predecessors).
Hypothesis (Hh : history_inv lineage rows h).
Hypothesis (Hsources : forall id s, dict_get id resolved = Some s -> source_id s = id).

Abbreviation entries := (filter (fun e => is_resolved resolved e.1 = true) (h_rows_by_identity h)).
Abbreviation included := (filter (fun i => is_resolved resolved i = true) (h_rows_by_identity h).*1).

Lemma entries_identities : entries.*1 = included.
Proof.
  induction (h_rows_by_identity h) as [|[i rs] d IH]; [done|]. rewrite filter_cons, fmap_cons, filter_cons. cbn [fst].
  case_decide; rewrite <- IH; done.
Qed.
Lemma entries_NoDup : NoDup entries.*1.
Proof. rewrite entries_identities. apply NoDup_filter, (hi_identity _ _ _ Hh). Qed.

Lemma supersedes_ok identity source d :
  supersedes resolved included found identity source = Ok (Some d) ->
  exists p before, p ∈ included /\ dict_get p.1 resolved = Some before /\ document_id before p.2 = Ok d /\
    exists d', document_id source identity.2 = Ok d' /\ d' <> d.
Proof.
  unfold supersedes. destruct (filter _ (default [] (dict_get identity found))) as [|p [|p' ps]] eqn:Hf; try done. intros H.
  assert (p ∈ filter (fun p => p ∈ included) (default [] (dict_get identity found))) as Hp by (rewrite Hf; constructor).
  apply list_elem_of_filter in Hp as [Hp _].
  apply bind_ok in H as (before & Hb & H). apply of_option_ok in Hb.
  apply bind_ok in H as (b & Hd & H). apply bind_ok in H as (a & Ha & H). injection H as H.
  destruct (decide (b = a)) as [|Hne]; [done|]. injection H as <-. exists p, before. split_and!; try done. eauto.
Qed.

Lemma plan_candidate_ok e c :
  e ∈ entries -> plan_candidate current resolved included found e = Ok c ->
  candidate_identity c = e.1 /\ candidate_spec current rows c /\ dict_get e.1.1 resolved = Some (rc_source c) /\
  supersedes resolved included found e.1 (rc_source c) = Ok (rc_supersedes_document_id c).
Proof.
  destruct e as [identity rs]. intros [_ Hin]%list_elem_of_filter H. unfold plan_candidate in H.
  destruct (grouped_elem _ _ _ _ _ (hi_identity _ _ _ Hh) Hin) as [Hrs _].
  apply bind_ok in H as (representative & Hrep & H). apply bind_ok in H as (source & Hsource & H). apply of_option_ok in Hsource.
  apply bind_ok in H as (superseded & Hsup & H). injection H as <-.
  destruct rs as [|first rest]; [done|]. injection Hrep as <-. destruct (latest_spec first rest) as [Hl1 Hl2].
  rewrite Hrs in Hl1. apply list_elem_of_filter in Hl1 as [Hid Hrow].
  unfold candidate_identity. cbn [rc_revision rc_source rc_supersedes_document_id rc_temporal_status fst].
  split; [done|]. split; [|done]. split; unfold candidate_identity; cbn [rc_revision rc_source rc_temporal_status].
  - change (rr_source_id (latest first rest)) with (row_identity (latest first rest)).1. rewrite Hid. by apply Hsources.
  - done.
  - intros r Hr Hri. apply Hl2. rewrite Hrs. apply list_elem_of_filter. split; [congruence|done].
  - unfold temporal_status. rewrite Hid. case_decide; [done|]. split; [|done]. by destruct (existsb _ _).
Qed.

Context (planned : list RevisionHistoryCandidateV5).
Hypothesis (Hplanned : mapM_res (plan_candidate current resolved included found) entries = Ok planned).

Lemma planned_spec c : c ∈ planned -> candidate_spec current rows c.
Proof. intros Hc. destruct (mapM_res_elem _ _ _ _ Hplanned Hc) as (e & He & Hf). by apply plan_candidate_ok in Hf as (_ & ? & _). Qed.

Lemma planned_identities : map candidate_identity planned = included.
Proof.
  rewrite <- entries_identities. apply (mapM_res_map _ _ _ _ _ Hplanned). intros e c He Hf.
  by apply plan_candidate_ok in Hf as (? & _).
Qed.

Lemma planned_elem i : i ∈ included -> exists c, c ∈ planned /\ candidate_identity c = i.
Proof. rewrite <- planned_identities. intros (c & -> & Hc)%list_elem_of_fmap. eauto. Qed.

Lemma planned_NoDup : NoDup (map candidate_identity planned).
Proof. rewrite planned_identities, <- entries_identities. apply entries_NoDup. Qed.

Lemma planned_current : current ∈ included ->
  exists c, filter (fun c => rc_temporal_status c = Current) planned = [c] /\ candidate_identity c = current.
Proof.
  intros Hcur. destruct (planned_elem _ Hcur) as (c & Hc & Hi). exists c. split; [|done].
  apply (filter_unique candidate_identity); [apply planned_NoDup|done|]. intros y Hy. rewrite Hi.
  apply (cs_current _ _ _ (planned_spec _ Hy)).
Qed.

Lemma planned_supersedes c d :
  c ∈ planned -> rc_supersedes_document_id c = Some d ->
  candidate_document_id c <> Ok d /\ exists c', c' ∈ planned /\ candidate_document_id c' = Ok d.
Proof.
  intros Hc Hd. destruct (mapM_res_elem _ _ _ _ Hplanned Hc) as (e & He & Hf).
  apply plan_candidate_ok in Hf as (Hi & Hspec & _ & Hsup); [|done]. rewrite Hd in Hsup.
  apply supersedes_ok in Hsup as (p & before & Hp & Hb & Hdoc & d' & Hd' & Hne). rewrite <- Hi in Hd'.
  unfold candidate_document_id. split.
  - unfold candidate_identity, row_identity in Hd'. cbn [snd] in Hd'. rewrite Hd'. congruence.
  - destruct (planned_elem _ Hp) as (c' & Hc' & Hi'). exists c'. split; [done|].
    destruct (mapM_res_elem _ _ _ _ Hplanned Hc') as (e' & He' & Hf'). apply plan_candidate_ok in Hf' as (Hi2 & _ & Hs & _); [|done].
    rewrite <- Hi2, Hi' in Hs. rewrite <- Hi' in Hdoc. unfold candidate_identity in Hdoc. cbn [row_identity snd] in Hdoc. congruence.
Qed.
End Plan.

Abbreviation never e := (raises (fun e' => e' <> e)).
Ltac never := raises ltac:(cbv beta; discriminate).

(** ** The plan *)
Lemma unresolved_ok (ids : list contract_identity) entries :
  mapM_res (fun i => check_unresolved {| ur_source_id := i.1; ur_pdf_sha256 := i.2; ur_reason_code := SourceMetadataUnresolved |}) ids = Ok entries ->
  map unresolved_identity entries = ids.
Proof.
  intros H. rewrite <- (map_id ids). apply (mapM_res_map _ _ _ _ _ H). intros [a b] u _ Hu.
  unfold check_unresolved in Hu. apply bind_ok in Hu as (? & _ & Hu). by injection Hu as <-.
Qed.

Lemma existsb_active_row lineage rows h current :
  history_inv lineage rows h -> existsb is_active (default [] (dict_get current (h_rows_by_identity h))) = true ->
  current ∈ (h_rows_by_identity h).*1.
Proof.
  intros I H. destruct (dict_get current (h_rows_by_identity h)) as [rs|] eqn:Hrs; [|done].
  apply dict_get_elem in Hrs. apply list_elem_of_fmap. by exists (current, rs).
Qed.

(** The current revision is in the history, and its source is retained. *)
Lemma current_included current_source pdf rows known known' h resolved :
  history_inv (source_lineage current_source) rows h -> add_current current_source known = Ok known' ->
  existsb is_active (default [] (dict_get (source_id current_source, pdf) (h_rows_by_identity h))) = true ->
  (forall id s, (id, s) ∈ known' -> source_lineage s = source_lineage current_source ->
     is_Some (dict_get id (h_source_static_identity h)) -> is_Some (dict_get id resolved)) ->
  (source_id current_source, pdf) ∈ filter (fun i => is_resolved resolved i = true) (h_rows_by_identity h).*1.
Proof.
  intros Hh Hknown Hactive Hall. apply (existsb_active_row _ _ _ _ Hh) in Hactive.
  apply list_elem_of_filter. split; [|done]. unfold is_resolved. apply bool_decide_eq_true. cbn [fst].
  destruct (add_current_known _ _ _ Hknown) as (s & Hs & Hl). eapply Hall; [done|done|].
  apply (grouped_key _ _ _ _ (hi_identity _ _ _ Hh)) in Hactive as (r & Hr & Hi). injection Hi as <- _.
  eexists. by apply (hi_static _ _ _ Hh).
Qed.

(** The included identities and the others, together. *)
Lemma identities_elem (P : contract_identity -> bool) ids i :
  i ∈ filter (fun i => P i = true) ids ++ filter (fun i => i ∉ filter (fun i => P i = true) ids) ids <-> i ∈ ids.
Proof.
  rewrite elem_of_app, !list_elem_of_filter. destruct (P i); naive_solver.
Qed.
Lemma identities_NoDup (P : contract_identity -> bool) ids :
  NoDup ids -> NoDup (filter (fun i => P i = true) ids ++ filter (fun i => i ∉ filter (fun i => P i = true) ids) ids).
Proof.
  intros H. apply NoDup_app. split_and!; [by apply NoDup_filter| |by apply NoDup_filter].
  intros i Hi Hi'. apply list_elem_of_filter in Hi' as [Hn _]. by apply Hn.
Qed.

Lemma never_document_id s pdf : never no_unique_current (document_id s pdf).
Proof. unfold document_id. never. Qed.
#[export] Hint Resolve never_document_id : raises.
Lemma never_timestamps r : never no_unique_current (check_timestamps r).
Proof. unfold check_timestamps, _timestamp. never. Qed.
#[export] Hint Resolve never_timestamps : raises.
Lemma never_add_row lineage h r : never no_unique_current (add_row lineage h r).
Proof. unfold add_row. never. Qed.
#[export] Hint Resolve never_add_row : raises.
Lemma never_resolve lineage static resolved known : never no_unique_current (resolve_source lineage static resolved known).
Proof. unfold resolve_source. never. Qed.
#[export] Hint Resolve never_resolve : raises.
Lemma never_add_previous by_id found entry : never no_unique_current (add_previous by_id found entry).
Proof. unfold add_previous. never. Qed.
#[export] Hint Resolve never_add_previous : raises.
Lemma never_add_successor found entry : never no_unique_current (add_successor found entry).
Proof. unfold add_successor. never. Qed.
#[export] Hint Resolve never_add_successor : raises.
Lemma never_add_transition source_rows resolved found entry : never no_unique_current (add_transition source_rows resolved found entry).
Proof. unfold add_transition, select. never. Qed.
#[export] Hint Resolve never_add_transition : raises.
Lemma never_plan_candidate current resolved included found entry :
  never no_unique_current (plan_candidate current resolved included found entry).
Proof. unfold plan_candidate, supersedes, select. never. Qed.
#[export] Hint Resolve never_plan_candidate : raises.
Lemma never_add_current s known : never no_unique_current (add_current s known).
Proof. unfold add_current. never. Qed.
Lemma never_check_unresolved u : never no_unique_current (check_unresolved u).
Proof. unfold check_unresolved. never. Qed.
#[export] Hint Resolve never_add_current never_check_unresolved : raises.

(** The next step of a computation: it fails with another exception, or goes on. *)
Ltac next x H :=
  match goal with |- context [res_bind ?m _] =>
    let Hn := fresh in assert (never no_unique_current m) as Hn by never;
    destruct m as [x|] eqn:H; cbn [res_bind]; [clear Hn|exact (Hn _ eq_refl)]
  end.

(** C14: A revision plan accounts for the whole history.  The candidates and the unresolved
    entries are together the identities of the rows, each once.  A candidate carries the
    last row of its identity and the retained source that discovered it; exactly one
    candidate is current, the one of the source and the bytes now served, so the last check
    of the function cannot fail; and a candidate that supersedes a document supersedes that
    of another candidate of the plan. *)
Theorem revision_plan_accounts current_source current_pdf_sha256 rows known_sources :
  match plan_revision_history_v5 current_source current_pdf_sha256 rows known_sources with
  | Err e => e <> no_unique_current
  | Ok plan =>
      let identities := map candidate_identity (hp_candidates plan) ++ map unresolved_identity (hp_unresolved_revisions plan) in
      NoDup identities /\ (forall i, i ∈ identities <-> exists r, r ∈ rows /\ row_identity r = i) /\
      Forall (candidate_spec (source_id current_source, current_pdf_sha256) rows) (hp_candidates plan) /\
      (exists c, filter (fun c => rc_temporal_status c = Current) (hp_candidates plan) = [c] /\
         candidate_identity c = (source_id current_source, current_pdf_sha256)) /\
      (forall c d, c ∈ hp_candidates plan -> rc_supersedes_document_id c = Some d ->
         candidate_document_id c <> Ok d /\ exists c', c' ∈ hp_candidates plan /\ candidate_document_id c' = Ok d)
  end.
Proof.
  unfold plan_revision_history_v5. next known Hknown. next u1 Hne. next h Hrows.
  next u2 Hactive. next resolved Hresolved. next unresolved Hunresolved. next found1 Hfound1. next successors Hsucc.
  next found Hfound. next planned Hplanned. clear Hfound1 Hsucc Hfound.
  apply add_rows_ok in Hrows as Hh. apply raise_if_ok, negb_false_iff in Hactive.
  apply (resolve_sources_ok _ _ _ _ _ Hh) in Hresolved as [Hsources Hall].
  pose proof (current_included _ _ _ _ _ _ _ Hh Hknown Hactive Hall) as Hcur.
  pose proof (sorted_by_Permutation candidate_leb planned) as Hperm.
  destruct (planned_current _ _ _ _ _ _ Hh Hsources _ Hplanned Hcur) as (c & Hc & Hid).
  assert (filter (fun c => rc_temporal_status c = Current) (sorted_by candidate_leb planned) = [c]) as Hone.
  { apply Permutation_singleton_r. by rewrite Hperm, Hc. }
  rewrite Hone. cbn [length Nat.eqb negb raise_if res_bind hp_candidates hp_unresolved_revisions].
  rewrite (unresolved_ok _ _ Hunresolved). split_and!.
  - rewrite Hperm, sorted_by_Permutation, (planned_identities _ _ _ _ _ _ Hh Hsources _ Hplanned).
    apply identities_NoDup, (hi_identity _ _ _ Hh).
  - intros i. rewrite Hperm, sorted_by_Permutation, (planned_identities _ _ _ _ _ _ Hh Hsources _ Hplanned), identities_elem.
    apply (grouped_key _ _ _ _ (hi_identity _ _ _ Hh)).
  - rewrite Hperm. apply Forall_forall. by apply (planned_spec _ _ _ _ _ _ Hh Hsources _ Hplanned).
  - by exists c.
  - intros c' d. rewrite Hperm. setoid_rewrite Hperm. by apply (planned_supersedes _ _ _ _ _ _ Hh Hsources _ Hplanned).
Qed.

(** *** Bytes that come back

    A source that served [a], then [b], then [a] again: the state database keeps three
    rows, and the two revisions of the plan supersede each other. *)
Definition returning_source : SourceRecord :=
  {| sr_issuer := us "issuer"; sr_product_code := us "P1"; sr_product_name := us "Card"; sr_effective_date := (2026, 1, 2);
     sr_source_version := us "1"; sr_source_url := us "https://example.test/p1"; sr_source_post_id := []; sr_file_name := us "p1.pdf";
     sr_category := us "credit"; sr_metadata := []; sr_document_type := us "product_description" |}.
Definition returning_row (id : Z) (previous : option Z) (bytes : N) (superseded : option ustr) : PDFSourceRevisionRow :=
  let s := returning_source in
  let seen := us "2026-01-02T00:00:00+00:00" in
  {| rr_revision_id := id; rr_previous_revision_id := previous; rr_source_id := source_id s; rr_issuer := sr_issuer s;
     rr_product_code := sr_product_code s; rr_document_type := sr_document_type s; rr_source_url := sr_source_url s;
     rr_source_version := sr_source_version s; rr_source_post_id := sr_source_post_id s;
     rr_discovery_sha256 := canonical_sha256 (discovery_payload s); rr_pdf_sha256 := repeat bytes 64; rr_pdf_size_bytes := 10;
     rr_page_count := 1; rr_relative_path := us "x"; rr_final_url := sr_source_url s; rr_etag := None; rr_last_modified := None;
     rr_source_first_observed_at := seen; rr_source_last_observed_at := seen; rr_revision_first_observed_at := seen;
     rr_revision_last_observed_at := seen; rr_verified_at := seen; rr_superseded_at := superseded;
     rr_superseded_by_source_id := None; rr_source_superseded_at := None |}.
Definition returning_rows : list PDFSourceRevisionRow :=
  let later := Some (us "2026-01-03T00:00:00+00:00") in
  [returning_row 1 None 97%N later; returning_row 2 (Some 1) 98%N later; returning_row 3 (Some 2) 97%N None].

Example returning_bytes_supersede_each_other :
  match plan_revision_history_v5 returning_source (repeat 97%N 64) returning_rows [] with
  | Ok plan =>
      match hp_candidates plan with
      | [b; a] => Ok <$> rc_supersedes_document_id a = Some (candidate_document_id b) /\
                  Ok <$> rc_supersedes_document_id b = Some (candidate_document_id a)
      | _ => False
      end
  | Err _ => False
  end.
Proof. vm_compute. split; reflexivity. Qed.
