(* ===== verification/Compact.v ===== *)
(** The clause groups of a compact search result ([cardrag_mcp/compact.py]) over the
    structure nodes of a served contract ([models.py], and the tree the validation of
    [schema_v5.py] admits).

    The code iterates over sets of links and of children, whose order Python leaves open;
    the loop over the links takes their order as an argument. *)
From S2P Require Export StructureModel.

(** ** Served nodes *)
Record SourceSpan := {
  ss_node_id : ustr;
  ss_page : Z;
  ss_source_start : Z;
  ss_source_end : Z;
  ss_text_sha256 : ustr;
  ss_span_ordinal : Z;
  ss_text : ustr;
}.
Record StructureNodeLink := { ln_from_node_id : ustr; ln_to_node_id : ustr; ln_link_type : LinkType }.
#[export] Instance structure_node_link_eq_dec : EqDecision StructureNodeLink.
Proof. solve_decision. Defined.

(** [StructureNode] of [models.py] *)
Record ServedNode := {
  nd_node_id : ustr;
  nd_contract_revision_id : ustr;
  nd_parent_id : option ustr;
  nd_node_type : NodeType;
  nd_major_class : MajorClass;
  nd_raw_heading : option ustr;
  nd_ordinal : Z;
  nd_display_text : ustr;
  nd_spans : list SourceSpan;
  nd_links : list StructureNodeLink;
  nd_table_headers : list ustr;
  nd_table_cells : list ustr;
  nd_table_role : option TableRole;
}.

(** The tree checks of [schema_v5.py] on the nodes of a revision, in the order of their
    ordinals: one root, and every other node after its parent. *)
Definition is_root (n : ServedNode) : bool := bool_decide (nd_node_type n = ROOT).
Definition parent_precedes (nodes : list ServedNode) (n : ServedNode) : bool :=
  match nd_parent_id n with
  | None => is_root n
  | Some p =>
      match dict_get p (dict_of (map (fun n => (nd_node_id n, n)) nodes)) with
      | Some parent => nd_ordinal parent <? nd_ordinal n
      | None => false
      end
  end.
Definition canonical_tree (nodes : list ServedNode) : bool :=
  bool_decide (map nd_ordinal nodes = seqZ 0 (zlen nodes)) &&
  match filter (fun n => is_root n = true) nodes with
  | [root] => (nd_ordinal root =? 0) && bool_decide (nd_parent_id root = None)
  | _ => false
  end &&
  forallb (parent_precedes nodes) nodes.

(** ** [clause_group] *)
Section Clause.
Context (nodes : list ServedNode).

Definition served_node (id : ustr) : option ServedNode := dict_get id (dict_of (map (fun n => (nd_node_id n, n)) nodes)).
Definition served_children (id : ustr) : list ustr :=
  remove_dups (map nd_node_id (filter (fun n => nd_parent_id n = Some id) nodes)).

(** The walk to the root: the nodes passed are selected, the first item and the first
    table are remembered. *)
Record ascent := { as_selected : gset ustr; as_item : option ustr; as_table : option ustr }.
Definition pass (id : ustr) (node : ServedNode) (a : ascent) : ascent :=
  let first (t : NodeType) (o : option ustr) :=
    match o with Some _ => o | None => if decide (nd_node_type node = t) then Some id else None end in
  {| as_selected := {[id]} ∪ as_selected a; as_item := first ITEM (as_item a); as_table := first TABLE (as_table a) |}.
Fixpoint ascend (fuel : nat) (current : option ustr) (a : ascent) : res ascent :=
  match current with
  | None => Ok a
  | Some id =>
      match served_node id with
      | None => Ok a
      | Some node =>
          match fuel with
          | O => Err OutOfFuel
          | S fuel => ascend fuel (nd_parent_id node) (pass id node a)
          end
      end
  end.

Record clause_state := { cl_selected : gset ustr; cl_substantive : gset ustr }.

(** The subtree of the anchor. *)
Fixpoint expand (fuel : nat) (pending : list ustr) (st : clause_state) : res clause_state :=
  match pending with
  | [] => Ok st
  | current :: pending =>
      match fuel with
      | O => Err OutOfFuel
      | S fuel =>
          if decide (current ∈ cl_substantive st) then expand fuel pending st
          else expand fuel (served_children current ++ pending)
                 {| cl_selected := {[current]} ∪ cl_selected st; cl_substantive := {[current]} ∪ cl_substantive st |}
      end
  end.

Definition add_clause (id : ustr) (st : clause_state) : res clause_state :=
  match served_node id with
  | None => Ok st
  | Some _ =>
      let! a := ascend (length nodes) (Some id) {| as_selected := cl_selected st; as_item := None; as_table := None |} in
      let anchor := match as_item a, as_table a with Some i, _ => i | None, Some t => t | None, None => id end in
      expand (S (length nodes)) [anchor] {| cl_selected := as_selected a; cl_substantive := cl_substantive st |}
  end.

Definition follow_link (st : clause_state) (link : StructureNodeLink) : res clause_state :=
  match ln_link_type link with
  | APPLIES_TO => if decide (ln_to_node_id link ∈ cl_selected st) then add_clause (ln_from_node_id link) st else Ok st
  | FOOTNOTE_OF | CONTINUATION_OF =>
      if decide (ln_from_node_id link ∈ cl_substantive st \/ ln_to_node_id link ∈ cl_substantive st)
      then let! st := add_clause (ln_from_node_id link) st in add_clause (ln_to_node_id link) st
      else Ok st
  | PREVIOUS | NEXT => Ok st
  end.

(** [while True] until a round over the links adds nothing. *)
Fixpoint link_rounds (fuel : nat) (links : list StructureNodeLink) (st : clause_state) : res clause_state :=
  match fuel with
  | O => Err OutOfFuel
  | S fuel =>
      let! st' := foldM follow_link st links in
      if decide (size (cl_substantive st') = size (cl_substantive st)) then Ok st' else link_rounds fuel links st'
  end.

Definition keep_links (selected : gset ustr) (n : ServedNode) : ServedNode :=
  {| nd_node_id := nd_node_id n; nd_contract_revision_id := nd_contract_revision_id n; nd_parent_id := nd_parent_id n;
     nd_node_type := nd_node_type n; nd_major_class := nd_major_class n; nd_raw_heading := nd_raw_heading n;
     nd_ordinal := nd_ordinal n; nd_display_text := nd_display_text n; nd_spans := nd_spans n;
     nd_links := filter (fun l => ln_from_node_id l ∈ selected /\ ln_to_node_id l ∈ selected) (nd_links n);
     nd_table_headers := nd_table_headers n; nd_table_cells := nd_table_cells n; nd_table_role := nd_table_role n |}.
Definition restrict (selected : gset ustr) : list ServedNode :=
  map (keep_links selected) (filter (fun n => nd_node_id n ∈ selected) nodes).

Definition is_seed (n : ServedNode) : bool := negb (bool_decide (nd_node_type n = ROOT \/ nd_node_type n = MAJOR_SECTION)).

(** [links] is the set of the links, in the order Python happens to visit them. *)
Definition clause_group_by (links : list StructureNodeLink) (initial_id : ustr) : res (list ServedNode) :=
  match served_node initial_id with
  | None => Ok []
  | Some seed =>
      if is_seed seed then
        let! st := add_clause initial_id {| cl_selected := ∅; cl_substantive := ∅ |} in
        let! st := link_rounds (S (length nodes)) links st in
        Ok (restrict (cl_selected st))
      else Ok []
  end.

Definition links_of : list StructureNodeLink := remove_dups (nodes ≫= nd_links).
End Clause.

Definition clause_group (nodes : list ServedNode) (initial_id : ustr) : res (list ServedNode) :=
  clause_group_by nodes (links_of nodes) initial_id.
