(* ===== verification/CompactProof.v ===== *)
(** A clause group is the least set of nodes closed under the rules of the code, whatever
    the order in which the links are visited, and the loops that compute it end. *)
From S2P Require Import Compact.

(** ** The rules *)
Section Rules.
Context (nodes : list ServedNode).

(** One step towards the root, inside the contract. *)
Definition up (x y : ustr) : Prop :=
  exists n, served_node nodes x = Some n /\ nd_parent_id n = Some y /\ is_Some (served_node nodes y).
Definition above : ustr -> ustr -> Prop := rtc up.
Definition has_type (t : NodeType) (x : ustr) : Prop := exists n, served_node nodes x = Some n /\ nd_node_type n = t.
Definition nearest (t : NodeType) (x a : ustr) : Prop :=
  above x a /\ has_type t a /\ forall b, above x b -> has_type t b -> above a b.
Definition none_above (t : NodeType) (x : ustr) : Prop := forall b, above x b -> ~ has_type t b.

(** The clause of a node: its item, else its table, else the node itself. *)
Definition is_anchor (x a : ustr) : Prop :=
  nearest ITEM x a \/ (none_above ITEM x /\ nearest TABLE x a) \/ (none_above ITEM x /\ none_above TABLE x /\ a = x).

Context (links : list StructureNodeLink) (seed : ustr).

Definition is_atomic (t : LinkType) : Prop := t = FOOTNOTE_OF \/ t = CONTINUATION_OF.

(** Nodes the group has to contain: [added] for a reason, [substantive] with the clause of
    an added node, [chosen] as such or as a heading above an added node. *)
Inductive added : ustr -> Prop :=
| added_seed : added seed
| added_condition l :
    l ∈ links -> ln_link_type l = APPLIES_TO -> chosen (ln_to_node_id l) -> is_Some (served_node nodes (ln_from_node_id l)) ->
    added (ln_from_node_id l)
| added_from l y :
    l ∈ links -> is_atomic (ln_link_type l) -> substantive y -> y = ln_from_node_id l \/ y = ln_to_node_id l ->
    is_Some (served_node nodes (ln_from_node_id l)) -> added (ln_from_node_id l)
| added_to l y :
    l ∈ links -> is_atomic (ln_link_type l) -> substantive y -> y = ln_from_node_id l \/ y = ln_to_node_id l ->
    is_Some (served_node nodes (ln_to_node_id l)) -> added (ln_to_node_id l)
with substantive : ustr -> Prop :=
| substantive_clause x a y : added x -> is_anchor x a -> above y a -> substantive y
with chosen : ustr -> Prop :=
| chosen_substantive y : substantive y -> chosen y
| chosen_heading x y : added x -> above x y -> chosen y.

Scheme added_min := Minimality for added Sort Prop
  with substantive_min := Minimality for substantive Sort Prop
  with chosen_min := Minimality for chosen Sort Prop.
Combined Scheme group_min from added_min, substantive_min, chosen_min.
End Rules.

(** ** The tree *)
Section Tree.
Context (nodes : list ServedNode).
Hypothesis (Hids : NoDup (map nd_node_id nodes)) (Htree : canonical_tree nodes = true).

Lemma by_id_keys : NoDup (map (fun n => (nd_node_id n, n)) nodes).*1.
Proof. rewrite <- list_fmap_compose. exact Hids. Qed.

Lemma served_node_spec x n : served_node nodes x = Some n <-> n ∈ nodes /\ nd_node_id n = x.
Proof.
  unfold served_node. rewrite dict_of_NoDup by apply by_id_keys. split.
  - intros H%dict_get_elem. apply list_elem_of_fmap in H as (n' & [= -> ->] & Hin). done.
  - intros [Hin <-]. apply dict_get_of_elem; [apply by_id_keys|]. apply list_elem_of_fmap. eauto.
Qed.

Definition rank (x : ustr) : nat := match served_node nodes x with Some n => Z.to_nat (nd_ordinal n) | None => O end.

Lemma tree_ordinal n : n ∈ nodes -> 0 <= nd_ordinal n < zlen nodes.
Proof.
  unfold canonical_tree in Htree. bsplit. intros Hn.
  assert (nd_ordinal n ∈ map nd_ordinal nodes) as Hin by (apply list_elem_of_fmap; eauto).
  match goal with H : map nd_ordinal nodes = _ |- _ => rewrite H in Hin end. apply elem_of_seqZ in Hin. lia.
Qed.

Lemma rank_lt x : is_Some (served_node nodes x) -> (rank x < length nodes)%nat.
Proof.
  intros [n Hn]. unfold rank. rewrite Hn. apply served_node_spec in Hn as [Hin _]. apply tree_ordinal in Hin. unfold zlen in Hin. lia.
Qed.

Lemma up_rank x y : up nodes x y -> (rank y < rank x)%nat.
Proof.
  intros (n & Hx & Hp & [m Hy]). unfold rank. rewrite Hx, Hy.
  apply served_node_spec in Hx as [Hn _]. pose proof Htree as Ht. unfold canonical_tree in Ht. bsplit.
  match goal with H : forallb _ _ = true |- _ => apply forallb_Forall in H; rewrite Forall_forall in H; specialize (H n Hn) end.
  unfold parent_precedes in *. rewrite Hp in *. change (dict_get y _) with (served_node nodes y) in *. rewrite Hy in *.
  apply served_node_spec in Hy as [Hm _]. apply tree_ordinal in Hm, Hn. lia.
Qed.

Lemma above_rank x y : above nodes x y -> x = y \/ (rank y < rank x)%nat.
Proof.
  induction 1 as [x|x z y Hxz _ IH]; [by left|]. right. apply up_rank in Hxz. destruct IH as [->|IH]; lia.
Qed.

Lemma above_antisym x y : above nodes x y -> above nodes y x -> x = y.
Proof. intros H1%above_rank H2%above_rank. destruct H1 as [|H1], H2 as [|H2]; congruence || lia. Qed.

Lemma above_found x y : above nodes x y -> is_Some (served_node nodes x) -> is_Some (served_node nodes y).
Proof. induction 1 as [|x z y (n & _ & _ & Hz) _ IH]; auto. Qed.

Lemma above_source y a : above nodes y a -> is_Some (served_node nodes a) -> is_Some (served_node nodes y).
Proof. intros H Ha. inversion H as [|? z ? (n & Hn & _)]; subst; [done|by exists n]. Qed.

(** The ancestors of a node form a chain. *)
Lemma above_up x y z : up nodes x y -> above nodes x z -> z = x \/ above nodes y z.
Proof.
  intros (n & Hx & Hp & Hy) Hz. inversion Hz as [|? w ? (n' & Hx' & Hp' & Hw) Hwz]; subst; [by left|]. right. by simplify_eq.
Qed.

Lemma above_comparable y a z : above nodes y a -> above nodes y z -> above nodes a z \/ above nodes z a.
Proof.
  intros Hya. revert z. induction Hya as [y|y w a Hyw Hwa IH]; intros z Hz; [by left|].
  destruct (above_up y w z Hyw Hz) as [->|Hwz]; [right; by eapply rtc_l|auto].
Qed.

Lemma nearest_unique t x a b : nearest nodes t x a -> nearest nodes t x b -> a = b.
Proof. intros (Ha1 & Ha2 & Ha3) (Hb1 & Hb2 & Hb3). apply above_antisym; auto. Qed.

Lemma anchor_unique x a b : is_anchor nodes x a -> is_anchor nodes x b -> a = b.
Proof.
  assert (forall t a, none_above nodes t x -> nearest nodes t x a -> False) as Hno by (intros t c H (? & ? & _); by eapply H).
  intros [Ha|[[Hn Ha]|(Hn & Hn' & ->)]] [Hb|[[Hm Hb]|(Hm & Hm' & ->)]]; try done; eauto using nearest_unique; exfalso; eauto.
Qed.

Lemma anchor_above x a : is_anchor nodes x a -> above nodes x a.
Proof. intros [(? & _)|[[_ (? & _)]|(_ & _ & ->)]]; [done|done|apply rtc_refl]. Qed.

(** ** The walk to the root *)
Definition first_spec (t : NodeType) (x : ustr) (o o' : option ustr) : Prop :=
  match o with
  | Some i => o' = Some i
  | None => match o' with Some i => nearest nodes t x i | None => none_above nodes t x end
  end.

Lemma nearest_here t x : has_type nodes t x -> nearest nodes t x x.
Proof. intros Ht. split_and!; [apply rtc_refl|done|done]. Qed.

Lemma first_up t x y o : ~ has_type nodes t x -> up nodes x y -> first_spec t y None o -> first_spec t x None o.
Proof.
  intros Hx Hup. destruct o as [i|]; simpl.
  - intros (H1 & H2 & H3). split_and!; [by eapply rtc_l|done|]. intros b Hb Ht.
    destruct (above_up x y b Hup Hb) as [->|Hb']; [done|auto].
  - intros H b Hb Ht. destruct (above_up x y b Hup Hb) as [->|Hb']; [done|by eapply H].
Qed.

Lemma top_above x y : (forall z, ~ up nodes x z) -> above nodes x y <-> y = x.
Proof. intros Htop. split; [intros H; inversion H; subst; [done|exfalso; by eapply Htop]|intros ->; apply rtc_refl]. Qed.

Lemma first_top t x : (forall z, ~ up nodes x z) -> ~ has_type nodes t x -> first_spec t x None None.
Proof. intros Htop Hx b Hb%top_above Ht; [by subst|done]. Qed.

(** What [pass] remembers, when the rest of the walk keeps [first_spec]. *)
Lemma pass_first t x n o : served_node nodes x = Some n ->
  match (match o with Some _ => o | None => if decide (nd_node_type n = t) then Some x else None end) with
  | Some i => first_spec t x o (Some i)
  | None => o = None /\ ~ has_type nodes t x
  end.
Proof.
  intros Hx. destruct o as [i|]; [done|]. destruct (decide (nd_node_type n = t)) as [Ht|Ht]; simpl.
  - apply nearest_here. by exists n.
  - split; [done|]. intros (n' & Hx' & Ht'). congruence.
Qed.

Lemma pass_end t x n o o' : served_node nodes x = Some n ->
  o' = (match o with Some _ => o | None => if decide (nd_node_type n = t) then Some x else None end) ->
  (forall z, ~ up nodes x z) -> first_spec t x o o'.
Proof.
  intros Hx -> Htop. pose proof (pass_first t x n o Hx) as H. destruct (match o with Some _ => o | None => _ end); [done|].
  destruct H as [-> H]. by apply first_top.
Qed.

Lemma pass_up t x y n o o' : served_node nodes x = Some n -> up nodes x y ->
  first_spec t y (match o with Some _ => o | None => if decide (nd_node_type n = t) then Some x else None end) o' ->
  first_spec t x o o'.
Proof.
  intros Hx Hup. pose proof (pass_first t x n o Hx) as H. destruct (match o with Some _ => o | None => _ end) as [i|]; simpl.
  - by intros ->.
  - destruct H as [-> H]. by apply first_up.
Qed.

Lemma parent_or_top n :
  (exists p, nd_parent_id n = Some p /\ is_Some (served_node nodes p)) \/
  ~ exists p, nd_parent_id n = Some p /\ is_Some (served_node nodes p).
Proof.
  destruct (nd_parent_id n) as [p|]; [|right; by intros (? & ? & _)].
  destruct (served_node nodes p) eqn:Hp; [left; eauto|]. right. intros (q & [= <-] & [? ?]). congruence.
Qed.

Lemma ascend_spec fuel x a :
  is_Some (served_node nodes x) -> (rank x < fuel)%nat ->
  exists a', ascend nodes fuel (Some x) a = Ok a' /\ (forall y, y ∈ as_selected a' <-> y ∈ as_selected a \/ above nodes x y) /\
    first_spec ITEM x (as_item a) (as_item a') /\ first_spec TABLE x (as_table a) (as_table a').
Proof.
  revert x a. induction fuel as [|fuel IH]; intros x a [n Hx] Hrank; [lia|].
  cbn [ascend]. rewrite Hx.
  destruct (parent_or_top n) as [(p & Hp & Hfound)|Htop].
  - assert (up nodes x p) as Hup by (by exists n). pose proof (up_rank _ _ Hup) as Hlt. rewrite Hp.
    destruct (IH p (pass x n a) Hfound ltac:(lia)) as (a' & -> & Hsel & Hi & Ht). exists a'. split; [done|]. split_and!.
    + intros y. rewrite Hsel. unfold pass. cbn [as_selected]. rewrite elem_of_union, elem_of_singleton. split.
      * intros [[->|?]|Hy]; [right; apply rtc_refl|by left|right; by eapply rtc_l].
      * intros [?|Hy]; [auto|]. destruct (above_up x p y Hup Hy) as [->|?]; auto.
    + by apply (pass_up _ _ _ _ _ _ Hx Hup).
    + by apply (pass_up _ _ _ _ _ _ Hx Hup).
  - assert (forall z, ~ up nodes x z) as Hnone.
    { intros z (n' & Hx' & Hp & Hf). simplify_eq. apply Htop. eauto. }
    exists (pass x n a). split_and!.
    + destruct (nd_parent_id n) as [p|] eqn:Hp; [|by destruct fuel].
      assert (served_node nodes p = None) as Hf by (apply eq_None_not_Some; intros ?; apply Htop; eauto).
      destruct fuel; cbn [ascend]; by rewrite Hf.
    + intros y. rewrite (top_above _ _ Hnone). unfold pass. cbn [as_selected]. rewrite elem_of_union, elem_of_singleton. tauto.
    + by eapply pass_end.
    + by eapply pass_end.
Qed.

(** ** The subtree of a node *)
Lemma served_children_spec x z : is_Some (served_node nodes x) -> z ∈ served_children nodes x <-> up nodes z x.
Proof.
  intros Hx. unfold served_children. rewrite elem_of_remove_dups, list_elem_of_fmap. split.
  - intros (n & -> & [Hp Hn]%list_elem_of_filter). exists n. split; [by apply served_node_spec|done].
  - intros (n & [Hn <-]%served_node_spec & Hp & _). exists n. split; [done|]. by apply list_elem_of_filter.
Qed.

(** The nodes whose parent was not expanded yet: with the pending ones they bound the loop. *)
Definition not_expanded (sub : gset ustr) (n : ServedNode) : bool :=
  match nd_parent_id n with Some p => negb (bool_decide (p ∈ sub)) | None => true end.
Definition open_count (sub : gset ustr) : nat := length (filter (fun n => not_expanded sub n = true) nodes).

Lemma open_count_expand x sub : x ∉ sub -> (open_count ({[x]} ∪ sub) + length (served_children nodes x) <= open_count sub)%nat.
Proof.
  intros Hx. unfold open_count, served_children.
  assert (length (remove_dups (map nd_node_id (filter (fun n => nd_parent_id n = Some x) nodes)))
          <= length (filter (fun n => nd_parent_id n = Some x) nodes))%nat as Hd.
  { rewrite <- (length_map nd_node_id). apply submseteq_length, NoDup_submseteq; [apply NoDup_remove_dups|].
    intros y. by rewrite elem_of_remove_dups. }
  enough (forall l, length (filter (fun n => not_expanded ({[x]} ∪ sub) n = true) l) + length (filter (fun n => nd_parent_id n = Some x) l)
          <= length (filter (fun n => not_expanded sub n = true) l))%nat as Hl by (specialize (Hl nodes); lia).
  clear Hd. assert (forall n, not_expanded ({[x]} ∪ sub) n = true -> not_expanded sub n = true /\ nd_parent_id n <> Some x) as H1.
  { intros n. unfold not_expanded. destruct (nd_parent_id n) as [p|]; [|done]. rewrite !negb_true_iff, !bool_decide_eq_false. set_solver. }
  assert (forall n, nd_parent_id n = Some x -> not_expanded sub n = true) as H2.
  { intros n Hn. unfold not_expanded. rewrite Hn. by rewrite bool_decide_eq_false_2. }
  intros l. induction l as [|n l IH]; [done|]. rewrite !filter_cons. specialize (H1 n). specialize (H2 n).
  repeat case_decide; cbn [length]; try lia; exfalso; tauto.
Qed.

Definition closed (sub : gset ustr) : Prop := forall y z, y ∈ sub -> up nodes z y -> z ∈ sub.
Record expansion (pending : list ustr) (st st' : clause_state) : Prop := {
  ex_substantive : cl_substantive st ⊆ cl_substantive st';
  ex_selected y : y ∈ cl_selected st' <-> y ∈ cl_selected st \/ (y ∈ cl_substantive st' /\ y ∉ cl_substantive st);
  ex_pending y : y ∈ pending -> y ∈ cl_substantive st';
  ex_closed : closed (cl_substantive st');
  ex_only (Q : ustr -> Prop) :
    (forall y z, Q y -> up nodes z y -> Q z) -> (forall y, y ∈ pending -> Q y) ->
    forall y, y ∈ cl_substantive st' -> y ∈ cl_substantive st \/ Q y;
}.

Lemma expand_spec fuel pending st :
  (length pending + open_count (cl_substantive st) <= fuel)%nat ->
  (forall y, y ∈ pending -> is_Some (served_node nodes y)) ->
  (forall y z, y ∈ cl_substantive st -> up nodes z y -> z ∈ cl_substantive st \/ z ∈ pending) ->
  exists st', expand nodes fuel pending st = Ok st' /\ expansion pending st st'.
Proof.
  revert pending st. induction fuel as [|fuel IH]; intros [|x pending] st Hfuel Hfound Hclosed; cbn [length] in Hfuel; try lia.
  1, 2: exists st; split; [done|]; split; try done; [set_solver|set_solver| |by left].
  1, 2: intros y z Hy Hz; destruct (Hclosed y z Hy Hz) as [|Hp]; [done|by apply elem_of_nil in Hp].
  cbn [expand]. assert (is_Some (served_node nodes x)) as Hx by (apply Hfound; left). case_decide as Hin.
  - destruct (IH pending st ltac:(lia)) as (st' & -> & E).
    { intros y Hy. apply Hfound. by right. }
    { intros y z Hy Hz. destruct (Hclosed y z Hy Hz) as [|[->|]%elem_of_cons]; auto. }
    exists st'. split; [done|]. split; try apply E.
    + intros y [->|Hy]%elem_of_cons; [by apply (ex_substantive _ _ _ E)|by apply (ex_pending _ _ _ E)].
    + intros Q HQ HQp. apply (ex_only _ _ _ E); [done|]. intros y Hy. apply HQp. by right.
  - pose proof (open_count_expand _ _ Hin) as Hcount.
    destruct (IH (served_children nodes x ++ pending)
      {| cl_selected := {[x]} ∪ cl_selected st; cl_substantive := {[x]} ∪ cl_substantive st |}) as (st' & -> & E).
    { cbn [cl_substantive]. rewrite length_app. lia. }
    { intros y [Hy|Hy]%elem_of_app; [|apply Hfound; by right]. apply served_children_spec in Hy as (n & Hn & _); [by exists n|done]. }
    { cbn [cl_substantive]. intros y z Hy Hz. rewrite elem_of_app, (served_children_spec x z Hx).
      apply elem_of_union in Hy as [->%elem_of_singleton|Hy]; [by right; left|].
      destruct (Hclosed y z Hy Hz) as [|[->|]%elem_of_cons]; set_solver. }
    pose proof (ex_substantive _ _ _ E) as Hsub. cbn [cl_substantive] in Hsub. apply union_subseteq in Hsub as [Hsub1 Hsub].
    apply singleton_subseteq_l in Hsub1. exists st'. split; [done|]. split; [done| | | |].
    + intros y. rewrite (ex_selected _ _ _ E). cbn [cl_selected cl_substantive]. rewrite !not_elem_of_union, !elem_of_union, !elem_of_singleton.
      destruct (decide (y = x)) as [->|]; tauto.
    + intros y [->|Hy]%elem_of_cons; [done|]. apply (ex_pending _ _ _ E). apply elem_of_app. by right.
    + apply E.
    + intros Q HQ HQp y Hy. destruct (ex_only _ _ _ E Q HQ) with (y := y) as [Hy'|]; [|done| |by right].
      * intros z [Hz|Hz]%elem_of_app; [|apply HQp; by right]. apply served_children_spec in Hz; [|done].
        eapply HQ; [|done]. apply HQp. left.
      * cbn [cl_substantive] in Hy'. apply elem_of_union in Hy' as [->%elem_of_singleton|?]; [right; apply HQp; left|by left].
Qed.

(** ** Adding a node *)
Record good (st : clause_state) : Prop := {
  gd_selected : cl_substantive st ⊆ cl_selected st;
  gd_closed : closed (cl_substantive st);
  gd_above y z : y ∈ cl_substantive st -> above nodes y z -> z ∈ cl_selected st;
  gd_found y : y ∈ cl_substantive st -> is_Some (served_node nodes y);
}.
Record extends (st st' : clause_state) : Prop := {
  gr_good : good st';
  gr_substantive : cl_substantive st ⊆ cl_substantive st';
  gr_selected : cl_selected st ⊆ cl_selected st';
  gr_stable : cl_substantive st' = cl_substantive st -> st' = st;
}.

Lemma extends_refl st : good st -> extends st st.
Proof. by split. Qed.
Lemma extends_trans st1 st2 st3 : extends st1 st2 -> extends st2 st3 -> extends st1 st3.
Proof.
  intros G1 G2. split; [apply G2|by etrans; apply gr_substantive|by etrans; apply gr_selected|].
  intros Heq. assert (cl_substantive st2 = cl_substantive st1) as H21.
  { apply (anti_symm (⊆)); [rewrite <- Heq; apply G2|apply G1]. }
  rewrite (gr_stable _ _ G2) by congruence. by apply G1.
Qed.

Lemma anchor_of_ascent x a :
  first_spec ITEM x None (as_item a) -> first_spec TABLE x None (as_table a) ->
  is_anchor nodes x (match as_item a, as_table a with Some i, _ => i | None, Some t => t | None, None => x end).
Proof. unfold is_anchor. intros Hi Ht. destruct (as_item a), (as_table a); simpl in *; auto. Qed.

Lemma open_count_le sub : (open_count sub <= length nodes)%nat.
Proof. unfold open_count. apply length_filter. Qed.

Lemma closed_above sub y z : closed sub -> above nodes y z -> z ∈ sub -> y ∈ sub.
Proof. intros Hc Hyz Hz. induction Hyz as [|y w z Hyw _ IH]; [done|]. by eapply Hc; [apply IH|exact Hyw]. Qed.

Lemma add_clause_spec x st :
  good st -> is_Some (served_node nodes x) ->
  exists st' a, add_clause nodes x st = Ok st' /\ is_anchor nodes x a /\ extends st st' /\
    a ∈ cl_substantive st' /\ x ∈ cl_substantive st' /\
    (forall y, y ∈ cl_substantive st' -> y ∈ cl_substantive st \/ above nodes y a) /\
    (forall y, y ∈ cl_selected st' -> y ∈ cl_selected st \/ above nodes x y \/ y ∈ cl_substantive st').
Proof.
  intros G Hx. unfold add_clause. destruct (served_node nodes x) as [n|] eqn:Hn; [|by destruct Hx].
  destruct (ascend_spec (length nodes) x {| as_selected := cl_selected st; as_item := None; as_table := None |})
    as (asc & -> & Hsel & Hi & Ht); [by eexists|apply rank_lt; by eexists|].
  cbn [res_bind]. cbn [as_selected as_item as_table] in Hsel, Hi, Ht. pose proof (anchor_of_ascent _ _ Hi Ht) as Ha.
  set (a := match as_item asc with Some i => i | None => _ end) in *. clearbody a.
  pose proof (anchor_above _ _ Ha) as Hxa.
  destruct (expand_spec (S (length nodes)) [a] {| cl_selected := as_selected asc; cl_substantive := cl_substantive st |})
    as (st' & Hst' & E).
  { cbn [length cl_substantive]. pose proof (open_count_le (cl_substantive st)). lia. }
  { intros y ->%list_elem_of_singleton. eapply above_found; [done|by eexists]. }
  { cbn [cl_substantive]. intros y z Hy Hz. left. by eapply (gd_closed _ G). }
  pose proof (ex_substantive _ _ _ E) as Hsub. pose proof (ex_selected _ _ _ E) as Hsel'. cbn [cl_selected cl_substantive] in Hsub, Hsel'.
  assert (a ∈ cl_substantive st') as Hasub by (apply (ex_pending _ _ _ E); left).
  assert (forall y, above nodes y a -> y ∈ cl_substantive st') as Hbelow.
  { intros y Hy. by eapply closed_above; [apply (ex_closed _ _ _ E)|exact Hy|]. }
  assert (forall y, y ∈ cl_substantive st' -> y ∈ cl_substantive st \/ above nodes y a) as Honly.
  { apply (ex_only _ _ _ E); [intros y z Hy Hz; by eapply rtc_l|]. intros y ->%list_elem_of_singleton. apply rtc_refl. }
  assert (cl_selected st ⊆ cl_selected st') as Hmono by (intros y Hy; apply Hsel'; left; apply Hsel; by left).
  exists st', a. split_and!; try done; [|by apply Hbelow|].
  - assert (good st') as G'.
    { split; [| apply (ex_closed _ _ _ E) | |].
      - intros y Hy. apply Hsel'. destruct (decide (y ∈ cl_substantive st)) as [Hin|Hout]; [|by right].
        left. apply Hsel. left. by apply (gd_selected _ G).
      - intros y z Hy Hz. destruct (Honly y Hy) as [Hin|Hya]; [apply Hmono; by eapply (gd_above _ G)|].
        destruct (above_comparable _ _ _ Hya Hz) as [Haz|Hza].
        + apply Hsel'. left. apply Hsel. right. by etrans.
        + apply Hbelow in Hza as Hin. apply Hsel'. destruct (decide (z ∈ cl_substantive st)) as [Hz'|]; [|by right].
          left. apply Hsel. left. by apply (gd_selected _ G).
      - intros y Hy. destruct (Honly y Hy) as [Hin|Hya]; [by apply (gd_found _ G)|]. eapply above_source; [exact Hya|]. eapply above_found; [exact Hxa|by eexists]. }
    split; [done|done|done|]. intros Heq.
    assert (cl_selected st' = cl_selected st) as Hs.
    { apply set_eq. intros y. split; [|apply Hmono]. intros Hy. apply Hsel' in Hy as [Hy|[Hy Hno]]; [|by rewrite Heq in Hy].
      apply Hsel in Hy as [Hy|Hy]; [done|]. eapply (gd_above _ G); [|exact Hy]. rewrite <- Heq. by apply Hbelow. }
    destruct st, st'; cbn in *; congruence.
  - intros y Hy. apply Hsel' in Hy as [Hy|[Hy _]]; [|by right; right]. apply Hsel in Hy as [Hy|Hy]; auto.
Qed.

(** ** Following the links *)
Context (links : list StructureNodeLink) (seed : ustr).

Definition sound (st : clause_state) : Prop :=
  (forall y, y ∈ cl_substantive st -> substantive nodes links seed y) /\ (forall y, y ∈ cl_selected st -> chosen nodes links seed y).
Definition has (x : ustr) (st : clause_state) : Prop :=
  x ∈ cl_substantive st /\ forall a, is_anchor nodes x a -> a ∈ cl_substantive st.

Lemma has_extends x st st' : has x st -> extends st st' -> has x st'.
Proof. intros [H1 H2] G. split; [by apply G|]. intros a Ha. by apply G, H2. Qed.

Lemma add_any x st :
  good st -> exists st', add_clause nodes x st = Ok st' /\ extends st st' /\ (is_Some (served_node nodes x) -> has x st') /\
    ((is_Some (served_node nodes x) -> added nodes links seed x) -> sound st -> sound st').
Proof.
  intros G. destruct (served_node nodes x) as [n|] eqn:Hn.
  - destruct (add_clause_spec x st G) as (st' & a & -> & Ha & Hg & Hin & Hx & Hsub & Hsel); [by eexists|].
    exists st'. split_and!; [done|done| |].
    + intros _. split; [done|]. intros b Hb. by rewrite (anchor_unique _ _ _ Hb Ha).
    + intros Hadd [S1 S2]. specialize (Hadd ltac:(by eexists)).
      assert (forall y, y ∈ cl_substantive st' -> substantive nodes links seed y) as S1'.
      { intros y [Hy|Hy]%Hsub; [auto|by eapply substantive_clause]. }
      split; [done|]. intros y [Hy|[Hy|Hy]]%Hsel; [auto|by eapply chosen_heading|by apply chosen_substantive, S1'].
  - exists st. unfold add_clause. rewrite Hn. split_and!; [done|by apply extends_refl|by intros [? ?]|done].
Qed.

(** A link that calls for nothing more. *)
Definition settled (st : clause_state) (l : StructureNodeLink) : Prop :=
  let from := ln_from_node_id l in
  let to := ln_to_node_id l in
  match ln_link_type l with
  | APPLIES_TO => to ∈ cl_selected st -> is_Some (served_node nodes from) -> has from st
  | FOOTNOTE_OF | CONTINUATION_OF =>
      from ∈ cl_substantive st \/ to ∈ cl_substantive st ->
      (is_Some (served_node nodes from) -> has from st) /\ (is_Some (served_node nodes to) -> has to st)
  | PREVIOUS | NEXT => True
  end.

Lemma follow_atomic l st :
  good st -> is_atomic (ln_link_type l) ->
  exists st', (if decide (ln_from_node_id l ∈ cl_substantive st \/ ln_to_node_id l ∈ cl_substantive st)
               then let! st := add_clause nodes (ln_from_node_id l) st in add_clause nodes (ln_to_node_id l) st else Ok st) = Ok st' /\
    extends st st' /\
    (ln_from_node_id l ∈ cl_substantive st \/ ln_to_node_id l ∈ cl_substantive st ->
     (is_Some (served_node nodes (ln_from_node_id l)) -> has (ln_from_node_id l) st') /\
     (is_Some (served_node nodes (ln_to_node_id l)) -> has (ln_to_node_id l) st')) /\
    (l ∈ links -> sound st -> sound st').
Proof.
  intros G Ht. case_decide as Hin; [|exists st; split_and!; [done|by apply extends_refl|done|done]].
  destruct (add_any (ln_from_node_id l) st G) as (st1 & -> & G1 & Hhas1 & Hs1). cbn [res_bind].
  destruct (add_any (ln_to_node_id l) st1 (gr_good _ _ G1)) as (st2 & -> & G2 & Hhas2 & Hs2).
  exists st2. split_and!; [done|by eapply extends_trans| |].
  - intros _. split; [|done]. intros Hf. eapply has_extends; [by apply Hhas1|done].
  - intros Hl Hsound. pose proof Hsound as [S1 _].
    assert (exists y, substantive nodes links seed y /\ (y = ln_from_node_id l \/ y = ln_to_node_id l)) as (y & Hy & Hyl).
    { destruct Hin as [Hin|Hin]; eexists; (split; [by apply S1|auto]). }
    apply Hs2; [intros Hf; by eapply added_to|]. apply Hs1; [intros Hf; by eapply added_from|done].
Qed.

Lemma follow_link_spec l st :
  good st -> exists st', follow_link nodes st l = Ok st' /\ extends st st' /\ (st' = st -> settled st l) /\ (l ∈ links -> sound st -> sound st').
Proof.
  intros G. unfold follow_link, settled. destruct (ln_link_type l) eqn:Ht.
  - destruct (follow_atomic l st G) as (st' & -> & Hg & Hhas & Hs); [by right|]. exists st'. split_and!; try done. by intros ->.
  - destruct (follow_atomic l st G) as (st' & -> & Hg & Hhas & Hs); [by left|]. exists st'. split_and!; try done. by intros ->.
  - case_decide as Hin; [|exists st; split_and!; [done|by apply extends_refl|done|done]].
    destruct (add_any (ln_from_node_id l) st G) as (st' & -> & Hg & Hhas & Hs). exists st'. split_and!; try done; [by intros -> _|].
    intros Hl [S1 S2]. apply Hs; [|done]. intros Hf. by eapply added_condition; [| |apply S2|].
  - exists st. split_and!; [done|by apply extends_refl|done|done].
  - exists st. split_and!; [done|by apply extends_refl|done|done].
Qed.

Lemma follow_links_spec ls st :
  good st -> exists st', foldM (follow_link nodes) st ls = Ok st' /\ extends st st' /\
    (st' = st -> forall l, l ∈ ls -> settled st l) /\ ((forall l, l ∈ ls -> l ∈ links) -> sound st -> sound st').
Proof.
  revert st. induction ls as [|l ls IH]; intros st G; cbn [foldM].
  { exists st. split_and!; [done|by apply extends_refl|intros _ l Hl; by apply elem_of_nil in Hl|done]. }
  destruct (follow_link_spec l st G) as (st1 & -> & G1 & Hset & Hs). cbn [res_bind].
  destruct (IH st1 (gr_good _ _ G1)) as (st2 & -> & G2 & Hset2 & Hs2). exists st2. split_and!; [done|by eapply extends_trans| |].
  - intros ->. assert (st1 = st) as ->.
    { apply (gr_stable _ _ G1). apply (anti_symm (⊆)); [apply G2|apply G1]. }
    intros l' [->|Hl']%elem_of_cons; auto.
  - intros Hls Hsound. apply Hs2; [intros; apply Hls; by right|]. apply Hs; [apply Hls; left|done].
Qed.

Lemma substantive_size st : good st -> (size (cl_substantive st) <= length nodes)%nat.
Proof.
  intros G. rewrite <- (length_map nd_node_id), <- (size_list_to_set (C := gset ustr)) by done.
  apply subseteq_size. intros y Hy. apply elem_of_list_to_set. apply (gd_found _ G) in Hy as [n [Hn <-]%served_node_spec].
  apply list_elem_of_fmap. eauto.
Qed.

Lemma link_rounds_spec fuel ls st :
  good st -> (length nodes < fuel + size (cl_substantive st))%nat ->
  exists st', link_rounds nodes fuel ls st = Ok st' /\ extends st st' /\ (forall l, l ∈ ls -> settled st' l) /\
    ((forall l, l ∈ ls -> l ∈ links) -> sound st -> sound st').
Proof.
  revert st. induction fuel as [|fuel IH]; intros st G Hfuel; [pose proof (substantive_size _ G); lia|].
  cbn [link_rounds]. destruct (follow_links_spec ls st G) as (st1 & -> & G1 & Hset & Hs). cbn [res_bind].
  pose proof (subseteq_size _ _ (gr_substantive _ _ G1)) as Hle. case_decide as Heq.
  - assert (st1 = st) as ->; [|exists st; split_and!; [done|done|by apply Hset|done]].
    apply (gr_stable _ _ G1). symmetry. apply leibniz_equiv, set_subseteq_size_equiv; [apply G1|lia].
  - destruct (IH st1 (gr_good _ _ G1)) as (st2 & -> & G2 & Hset2 & Hs2); [lia|].
    exists st2. split_and!; [done|by eapply extends_trans|done|auto].
Qed.

Lemma good_empty : good {| cl_selected := ∅; cl_substantive := ∅ |}.
Proof. split; cbn; try done; intros y **; by apply not_elem_of_empty in H. Qed.

(** When nothing more is called for, everything the rules give is there. *)
Lemma settled_complete st :
  good st -> has seed st -> (forall l, l ∈ links -> settled st l) ->
  (forall x, added nodes links seed x -> has x st) /\ (forall y, substantive nodes links seed y -> y ∈ cl_substantive st) /\
  (forall y, chosen nodes links seed y -> y ∈ cl_selected st).
Proof.
  intros G Hseed Hset.
  apply (group_min nodes links seed (fun x => has x st) (fun y => y ∈ cl_substantive st) (fun y => y ∈ cl_selected st)).
  - done.
  - intros l Hl Ht _ Hto Hf. specialize (Hset l Hl). unfold settled in Hset. rewrite Ht in Hset. auto.
  - intros l y Hl [Ht|Ht] _ Hy Hyl Hf; specialize (Hset l Hl); unfold settled in Hset; rewrite Ht in Hset;
      apply Hset; try done; destruct Hyl as [<-|<-]; auto.
  - intros l y Hl [Ht|Ht] _ Hy Hyl Hf; specialize (Hset l Hl); unfold settled in Hset; rewrite Ht in Hset;
      apply Hset; try done; destruct Hyl as [<-|<-]; auto.
  - intros x a y _ [_ Hx] Ha Hya. eapply closed_above; [apply (gd_closed _ G)|exact Hya|auto].
  - intros y _ Hy. by apply (gd_selected _ G).
  - intros x y _ [Hx _] Hxy. by eapply (gd_above _ G).
Qed.

Lemma clause_group_by_spec order n :
  served_node nodes seed = Some n -> is_seed n = true -> (forall l, l ∈ order <-> l ∈ links) ->
  exists selected, clause_group_by nodes order seed = Ok (restrict nodes selected) /\
    forall y, y ∈ selected <-> chosen nodes links seed y.
Proof.
  intros Hn Hseed Horder. unfold clause_group_by. rewrite Hn, Hseed.
  destruct (add_any seed _ good_empty) as (st & -> & G & Hhas & Hs). cbn [res_bind].
  specialize (Hhas ltac:(by eexists)).
  destruct (link_rounds_spec (S (length nodes)) order st (gr_good _ _ G)) as (st' & -> & G' & Hset & Hs'); [lia|].
  exists (cl_selected st'). split; [done|].
  assert (sound st') as [_ S2].
  { apply Hs'; [by intros l Hl; apply Horder|]. apply Hs; [intros _; apply added_seed|].
    split; cbn; intros y Hy; by apply not_elem_of_empty in Hy. }
  destruct (settled_complete st') as (_ & _ & C2); [apply G'|by eapply has_extends|by intros l Hl; apply Hset, Horder|].
  intros y. split; [apply S2|apply C2].
Qed.
End Tree.

(** ** The properties *)

(** C12: The clause group of a node is the least set of nodes that contains the node's clause
    (its item, else its table, else itself, with the whole subtree) and the headings above
    it, the clauses of the conditions that apply to a chosen node, and the clauses at the
    other end of a footnote or continuation of a substantive node, transitively.  The loops
    end, and the order in which Python visits the set of links makes no difference. *)
Theorem clause_group_least nodes order initial_id n :
  NoDup (map nd_node_id nodes) -> canonical_tree nodes = true -> (forall l, l ∈ order <-> l ∈ links_of nodes) ->
  served_node nodes initial_id = Some n -> is_seed n = true ->
  exists selected, clause_group_by nodes order initial_id = Ok (restrict nodes selected) /\
    forall y, y ∈ selected <-> chosen nodes (links_of nodes) initial_id y.
Proof. intros Hids Htree Horder Hn Hseed. by eapply clause_group_by_spec. Qed.

(** *** An item with a condition and a footnote *)
Definition served (id : string) (parent : option string) (t : NodeType) (ordinal : Z) (links : list StructureNodeLink) : ServedNode :=
  {| nd_node_id := us id; nd_contract_revision_id := us "rev"; nd_parent_id := us <$> parent; nd_node_type := t;
     nd_major_class := UNKNOWN; nd_raw_heading := None; nd_ordinal := ordinal; nd_display_text := us id; nd_spans := [];
     nd_links := links; nd_table_headers := []; nd_table_cells := []; nd_table_role := None |}.
Definition served_link (from to : string) (t : LinkType) : StructureNodeLink :=
  {| ln_from_node_id := us from; ln_to_node_id := us to; ln_link_type := t |}.
Definition served_nodes : list ServedNode :=
  [served "root" None ROOT 0 []; served "benefit" (Some "root"%string) ITEM 1 [];
   served "rate" (Some "benefit"%string) LIST_ITEM 2 []; served "limits" (Some "root"%string) ITEM 3 [served_link "limits" "benefit" APPLIES_TO];
   served "note" (Some "root"%string) FOOTNOTE 4 [served_link "note" "rate" FOOTNOTE_OF];
   served "other" (Some "root"%string) ITEM 5 [served_link "benefit" "other" NEXT]].

Example clause_group_sample :
  (map nd_node_id <$> match clause_group served_nodes (us "rate") with Ok ns => Some ns | Err _ => None end)
  = Some (map us ["root"; "benefit"; "rate"; "limits"; "note"]%string).
Proof. vm_compute. reflexivity. Qed.

Lemma served_nodes_ok :
  NoDup (map nd_node_id served_nodes) /\ canonical_tree served_nodes = true /\
  exists n, served_node served_nodes (us "rate") = Some n /\ is_seed n = true.
Proof.
  split; [refine (bool_decide_unpack _ _); vm_compute; exact I|]. split; [vm_compute; reflexivity|].
  eexists. split; vm_compute; reflexivity.
Qed.

Lemma served_order l : l ∈ reverse (links_of served_nodes) <-> l ∈ links_of served_nodes.
Proof. by rewrite reverse_Permutation. Qed.

Example clause_group_least_witness :
  exists selected, clause_group_by served_nodes (reverse (links_of served_nodes)) (us "rate") = Ok (restrict served_nodes selected) /\
    forall y, y ∈ selected <-> chosen served_nodes (links_of served_nodes) (us "rate") y.
Proof.
  destruct served_nodes_ok as (H1 & H2 & n & H3 & H4).
  exact (clause_group_least served_nodes (reverse (links_of served_nodes)) (us "rate") n H1 H2
           served_order H3 H4).
Defined.
