(* ===== verification/CompactPage.v ===== *)
(** The compact result page ([cardrag_mcp/compact.py], [_merge] and [seal_compact_page]) with
    the checks of its models ([models.py]).

    Clause groups are admitted one after the other while the encoded page stays within a
    byte budget.  [encoded_response_bytes] and [context_character_count] are lengths of what
    pydantic and [json.dumps] print and are arguments.  A match keeps its scores and views,
    floats the page only carries, in [sc_evidence]; of the coverage the fields no check and
    no update reads are left out. *)
From S2P Require Export Compact.

Definition ValidationError (message : string) : exn := Raised "ValidationError" message.

(** ** The models *)
Record ContractRevisionSummary := {
  cr_product_lineage_id : ustr;
  cr_contract_revision_id : ustr;
  cr_document_id : ustr;
  cr_issuer : ustr;
  cr_product_code : ustr;
  cr_product_name : ustr;
  cr_document_type : ustr;
  cr_source_id : ustr;
  cr_source_version : ustr;
  cr_source_url : ustr;
  cr_effective_date : option (Z * Z * Z);
  cr_temporal_status : ustr;
  cr_supersedes_revision_id : option ustr;
  cr_pdf_sha256 : ustr;
  cr_page_count : Z;
}.

Inductive SearchMode := SearchExact | SearchExhaustive.
Inductive LexicalStatus := LexicalSucceeded | LexicalFailed | LexicalDeferred.
Inductive CatalogResolution := Explicit | ExplicitMultiple | Resolved | Unresolved | AmbiguousCatalog.
Inductive ExhaustiveStatus := ExhaustiveRunning | ExhaustiveComplete.
Inductive ShadowStatus := ShadowSucceeded | ShadowFailed.
Inductive ShadowFailure :=
  ProviderRequestFailed | ProviderContractInvalid | CandidateInputInvalid | ArtifactStoreFailed | ShadowInternalError.

Record SearchCoverage := {
  sv_search_mode : SearchMode;
  sv_expected_active_contracts : Z;
  sv_scored_contracts : Z;
  sv_expected_embedding_rows : Z;
  sv_scored_embedding_rows : Z;
  sv_aggregation_sealed : bool;
  sv_aggregation_policy_max_child : bool;
  sv_sealed_profile_sha256 : option ustr;
  sv_exact_row_corpus_sha256 : option ustr;
  sv_shadow_status : option ShadowStatus;
  sv_shadow_candidate_count : option Z;
  sv_shadow_rank_change_count : option Z;
  sv_shadow_artifact_sha256 : option ustr;
  sv_shadow_failure_reason : option ShadowFailure;
  sv_lexical_additional_evidence_count : Z;
  sv_lexical_enabled : bool;
  sv_lexical_status : LexicalStatus;
  sv_lexical_error : option ustr;
  sv_lexical_global_matched_evidence_count : Z;
  sv_lexical_global_additional_evidence_count : Z;
  sv_catalog_resolution_status : CatalogResolution;
  sv_catalog_candidate_count : Z;
  sv_catalog_resolved_product_lineage_id : option ustr;
  sv_catalog_resolved_product_name : option ustr;
  sv_response_node_count : Z;
  sv_response_character_count : Z;
  sv_response_truncated : bool;
  sv_full_contract_fallback_count : Z;
  sv_exhaustive_status : option ExhaustiveStatus;
  sv_exhaustive_job_id : option ustr;
  sv_exhaustive_profile_id : option ustr;
  sv_exhaustive_completed_contracts : option Z;
  sv_exhaustive_total_contracts : option Z;
  sv_exhaustive_resumed : option bool;
  sv_exhaustive_artifact_sha256 : option ustr;
}.
Definition MAX_SEARCH_RESPONSE_NODES : Z := 2048.
Definition MAX_SEARCH_RESPONSE_CHARACTERS : Z := 1000000.

Definition is_none {A} (o : option A) : bool := match o with None => true | Some _ => false end.

(** [Field(ge=0)] and the limits. *)
Definition check_coverage_fields (v : SearchCoverage) : res unit :=
  raise_if (existsb (fun n => n <? 0)
              ([sv_expected_active_contracts v; sv_scored_contracts v; sv_expected_embedding_rows v; sv_scored_embedding_rows v;
                sv_lexical_additional_evidence_count v; sv_lexical_global_matched_evidence_count v;
                sv_lexical_global_additional_evidence_count v; sv_catalog_candidate_count v; sv_response_node_count v;
                sv_response_character_count v; sv_full_contract_fallback_count v] ++
               option_list (sv_exhaustive_completed_contracts v) ++ option_list (sv_exhaustive_total_contracts v) ++
               option_list (sv_shadow_candidate_count v) ++ option_list (sv_shadow_rank_change_count v))
            || existsb (fun n => 256 <? n) (option_list (sv_shadow_candidate_count v) ++ option_list (sv_shadow_rank_change_count v))
            || (MAX_SEARCH_RESPONSE_NODES <? sv_response_node_count v)
            || (MAX_SEARCH_RESPONSE_CHARACTERS <? sv_response_character_count v))
    (ValidationError "coverage field out of range").

Definition document_aggregation_diagnostics_are_coherent (v : SearchCoverage) : res unit :=
  if sv_aggregation_sealed v then
    raise_if (is_none (sv_sealed_profile_sha256 v) || is_none (sv_exact_row_corpus_sha256 v))
      (ValidationError "sealed aggregation coverage identity is incomplete")
  else
    raise_if (negb (sv_aggregation_policy_max_child v) || negb (is_none (sv_sealed_profile_sha256 v)))
      (ValidationError "candidate-default aggregation coverage must be max_child").

Definition reranker_shadow_diagnostics_are_coherent (v : SearchCoverage) : res unit :=
  match sv_shadow_status v with
  | None =>
      raise_if (negb (is_none (sv_shadow_candidate_count v)) || negb (is_none (sv_shadow_rank_change_count v))
                || negb (is_none (sv_shadow_artifact_sha256 v)) || negb (is_none (sv_shadow_failure_reason v)))
        (ValidationError "reranker shadow diagnostics require a status")
  | Some status =>
      let! candidates := of_option (ValidationError "reranker shadow status requires a candidate count") (sv_shadow_candidate_count v) in
      match status with
      | ShadowSucceeded =>
          let error := ValidationError "successful reranker shadow diagnostics are incomplete" in
          let! changes := of_option error (sv_shadow_rank_change_count v) in
          let! _ := raise_if (is_none (sv_shadow_artifact_sha256 v) || negb (is_none (sv_shadow_failure_reason v))) error in
          raise_if (candidates <? changes) (ValidationError "reranker shadow rank changes exceed its candidates")
      | ShadowFailed =>
          let error := ValidationError "failed reranker shadow diagnostics are incomplete" in
          let! _ := raise_if (negb (is_none (sv_shadow_rank_change_count v))) error in
          let! reason := of_option error (sv_shadow_failure_reason v) in
          raise_if (match reason with ProviderRequestFailed | ProviderContractInvalid => is_none (sv_shadow_artifact_sha256 v) | _ => false end)
            (ValidationError "provider failure requires a reranker shadow artifact")
      end
  end.

(** [not name], for a text that may be absent. *)
Definition no_text (o : option ustr) : bool := match o with None | Some [] => true | _ => false end.

Definition lexical_catalog_and_response_diagnostics_are_coherent (v : SearchCoverage) : res unit :=
  let failed := match sv_lexical_status v with LexicalFailed => true | _ => false end in
  let succeeded := match sv_lexical_status v with LexicalSucceeded => true | _ => false end in
  let! _ := if failed then raise_if (is_none (sv_lexical_error v)) (ValidationError "failed lexical audit requires a bounded error reason")
            else raise_if (negb (is_none (sv_lexical_error v))) (ValidationError "successful or deferred lexical audit cannot declare an error") in
  let! _ := raise_if (negb (sv_lexical_enabled v) && negb failed) (ValidationError "disabled lexical audit must fail closed with a reason") in
  let! _ := raise_if ((sv_lexical_global_matched_evidence_count v <? sv_lexical_global_additional_evidence_count v)
                      || (sv_lexical_global_additional_evidence_count v <? sv_lexical_additional_evidence_count v))
              (ValidationError "lexical additional evidence exceeds its global matched audit") in
  let! _ := raise_if (negb succeeded && negb ((sv_lexical_additional_evidence_count v =? 0)
                        && (sv_lexical_global_matched_evidence_count v =? 0) && (sv_lexical_global_additional_evidence_count v =? 0)))
              (ValidationError "failed or deferred lexical audits cannot expose evidence counts") in
  let status := sv_catalog_resolution_status v in
  let! _ := match status with
            | Explicit | Resolved =>
                raise_if (negb (sv_catalog_candidate_count v =? 1) || is_none (sv_catalog_resolved_product_lineage_id v))
                  (ValidationError "resolved catalog diagnostics require exactly one lineage")
            | _ => raise_if (negb (is_none (sv_catalog_resolved_product_lineage_id v)))
                     (ValidationError "unresolved catalog diagnostics cannot declare a lineage")
            end in
  let! _ := match status with
            | Resolved => raise_if (no_text (sv_catalog_resolved_product_name v)) (ValidationError "catalog resolution requires the matched product name")
            | Explicit => Ok tt
            | _ => raise_if (negb (no_text (sv_catalog_resolved_product_name v)))
                     (ValidationError "only resolved catalog diagnostics can declare a product name")
            end in
  match status with
  | Unresolved => raise_if (negb (sv_catalog_candidate_count v =? 0)) (ValidationError "unresolved catalog diagnostics cannot declare candidates")
  | AmbiguousCatalog => raise_if (sv_catalog_candidate_count v <? 2) (ValidationError "ambiguous catalog diagnostics require multiple candidates")
  | ExplicitMultiple => raise_if (sv_catalog_candidate_count v <? 1) (ValidationError "explicit product list must declare candidates")
  | _ => Ok tt
  end.

Definition exhaustive_diagnostics_are_complete_or_absent (v : SearchCoverage) : res unit :=
  match sv_search_mode v with
  | SearchExact =>
      raise_if (negb (is_none (sv_exhaustive_status v) && is_none (sv_exhaustive_job_id v) && is_none (sv_exhaustive_profile_id v)
                      && is_none (sv_exhaustive_completed_contracts v) && is_none (sv_exhaustive_total_contracts v)
                      && is_none (sv_exhaustive_resumed v) && is_none (sv_exhaustive_artifact_sha256 v)))
        (ValidationError "exact search cannot declare an exhaustive audit job")
  | SearchExhaustive =>
      let error := ValidationError "exhaustive search requires complete audit diagnostics" in
      let! status := of_option error (sv_exhaustive_status v) in
      let! completed := of_option error (sv_exhaustive_completed_contracts v) in
      let! total := of_option error (sv_exhaustive_total_contracts v) in
      let! _ := raise_if (is_none (sv_exhaustive_job_id v) || is_none (sv_exhaustive_profile_id v) || is_none (sv_exhaustive_resumed v)) error in
      match status with
      | ExhaustiveRunning => raise_if ((total <=? completed) || negb (is_none (sv_exhaustive_artifact_sha256 v)))
                               (ValidationError "running exhaustive audit has invalid progress diagnostics")
      | ExhaustiveComplete => raise_if (negb (completed =? total) || is_none (sv_exhaustive_artifact_sha256 v))
                                (ValidationError "complete exhaustive audit is missing its artifact or contracts")
      end
  end.

Definition score_coverage_is_complete_or_a_bound_progress_prefix (v : SearchCoverage) : res unit :=
  let! _ := raise_if ((sv_expected_active_contracts v <? sv_scored_contracts v) || (sv_expected_embedding_rows v <? sv_scored_embedding_rows v))
              (ValidationError "scored coverage cannot exceed its expected corpus") in
  let complete := raise_if (negb (sv_scored_contracts v =? sv_expected_active_contracts v)
                            || negb (sv_scored_embedding_rows v =? sv_expected_embedding_rows v))
                    (ValidationError "complete search must score every expected contract and row") in
  match sv_search_mode v with
  | SearchExact => complete
  | SearchExhaustive =>
      let! _ := raise_if (match sv_exhaustive_completed_contracts v, sv_exhaustive_total_contracts v with
                          | Some completed, Some total =>
                              negb (total =? sv_expected_active_contracts v) || negb (completed =? sv_scored_contracts v)
                          | _, _ => true
                          end) (ValidationError "exhaustive progress counters differ from scored coverage") in
      match sv_exhaustive_status v with
      | Some ExhaustiveComplete => complete
      | _ => raise_if ((sv_expected_active_contracts v <=? sv_scored_contracts v) || (sv_expected_embedding_rows v <=? sv_scored_embedding_rows v))
               (ValidationError "running exhaustive coverage is not a strict scored prefix")
      end
  end.

Definition check_coverage (v : SearchCoverage) : res unit :=
  let! _ := check_coverage_fields v in
  let! _ := document_aggregation_diagnostics_are_coherent v in
  let! _ := reranker_shadow_diagnostics_are_coherent v in
  let! _ := lexical_catalog_and_response_diagnostics_are_coherent v in
  let! _ := exhaustive_diagnostics_are_complete_or_absent v in
  score_coverage_is_complete_or_a_bound_progress_prefix v.

Definition COMPACT_RESPONSE_BYTES : Z := 65536.
Inductive OmissionReason := ResponseByteLimit | CandidateLimit | CoarseView.
Record CompactSearchDiagnostics := {
  cd_response_bytes : Z;
  cd_ranked_candidate_contracts : Z;
  cd_candidate_clause_groups : Z;
  cd_returned_clause_groups : Z;
  cd_omitted_clause_groups : Z;
  cd_omitted_contracts : Z;
  cd_omission_reasons : list OmissionReason;
  cd_omitted_group_sample : list ustr;
  cd_omitted_group_sample_complete : bool;
}.
Definition check_diagnostics (d : CompactSearchDiagnostics) : res unit :=
  raise_if (existsb (fun n => n <? 0)
              [cd_response_bytes d; cd_ranked_candidate_contracts d; cd_candidate_clause_groups d; cd_returned_clause_groups d;
               cd_omitted_clause_groups d; cd_omitted_contracts d]
            || (COMPACT_RESPONSE_BYTES <? cd_response_bytes d) || (8 <? zlen (cd_omitted_group_sample d)))
    (ValidationError "compact diagnostics out of range").

Section Page.
Context {evidence : Type}.

Record ScoredStructureNode := { sc_node : ServedNode; sc_evidence : evidence; sc_lexical_only : bool }.
Record ContractEvidenceBundle := {
  eb_contract : ContractRevisionSummary;
  eb_matches : list ScoredStructureNode;
  eb_nodes : list ServedNode;
  eb_linked_notice_count : Z;
  eb_parent_expansion_count : Z;
}.

Record ContractSearchPage := {
  pg_generation_id : ustr;
  pg_bundles : list ContractEvidenceBundle;
  pg_coverage : SearchCoverage;
  pg_compact : option CompactSearchDiagnostics;
}.

Context (encoded_response_bytes : ContractSearchPage -> Z) (context_character_count : ContractEvidenceBundle -> Z).

Definition sum_of {A} (f : A -> Z) (l : list A) : Z := fold_right (fun a acc => f a + acc) 0 l.
Definition node_count (bundles : list ContractEvidenceBundle) : Z := sum_of (fun b => zlen (eb_nodes b)) bundles.
Definition character_count (bundles : list ContractEvidenceBundle) : Z := sum_of context_character_count bundles.

Definition bundles_respect_the_sealed_response_budget (p : ContractSearchPage) : res unit :=
  let! _ := raise_if (negb (node_count (pg_bundles p) =? sv_response_node_count (pg_coverage p))
                      || negb (character_count (pg_bundles p) =? sv_response_character_count (pg_coverage p)))
              (ValidationError "contract bundles differ from response budget diagnostics") in
  raise_if (match sv_exhaustive_status (pg_coverage p) with Some ExhaustiveRunning => negb (bool_decide (pg_bundles p = [])) | _ => false end)
    (ValidationError "running exhaustive audit cannot expose partial bundles").

(** ** [_merge] *)
Definition revision_of (b : ContractEvidenceBundle) : ustr := cr_contract_revision_id (eb_contract b).
Definition link_leb (a b : StructureNodeLink) : bool :=
  if decide (ln_from_node_id a = ln_from_node_id b) then
    if decide (ln_to_node_id a = ln_to_node_id b) then ustr_leb (link_type_str (ln_link_type a)) (link_type_str (ln_link_type b))
    else ustr_leb (ln_to_node_id a) (ln_to_node_id b)
  else ustr_leb (ln_from_node_id a) (ln_from_node_id b).
Definition with_links (links : list StructureNodeLink) (n : ServedNode) : ServedNode :=
  {| nd_node_id := nd_node_id n; nd_contract_revision_id := nd_contract_revision_id n; nd_parent_id := nd_parent_id n;
     nd_node_type := nd_node_type n; nd_major_class := nd_major_class n; nd_raw_heading := nd_raw_heading n;
     nd_ordinal := nd_ordinal n; nd_display_text := nd_display_text n; nd_spans := nd_spans n; nd_links := links;
     nd_table_headers := nd_table_headers n; nd_table_cells := nd_table_cells n; nd_table_role := nd_table_role n |}.

Definition merge_node (nodes : list (ustr * ServedNode)) (n : ServedNode) : list (ustr * ServedNode) :=
  let n := match dict_get (nd_node_id n) nodes with
           | Some old => with_links (sorted_by link_leb (remove_dups (nd_links old ++ nd_links n))) n
           | None => n
           end in
  dict_set (nd_node_id n) n nodes.
Definition nodes_dict (ns : list ServedNode) : list (ustr * ServedNode) := dict_of (map (fun n => (nd_node_id n, n)) ns).
Definition node_leb (a b : ServedNode) : bool :=
  if decide (nd_ordinal a = nd_ordinal b) then ustr_leb (nd_node_id a) (nd_node_id b) else nd_ordinal a <=? nd_ordinal b.

(** The ends of the conditions, which have to be nodes of the bundle. *)
Definition condition_ends (ns : list ServedNode) : list ustr :=
  ns ≫= fun n => filter (fun l => ln_link_type l = APPLIES_TO) (nd_links n) ≫= fun l => [ln_from_node_id l; ln_to_node_id l].
Definition is_notice_node (n : ServedNode) : bool := match nd_major_class n with NOTICE | MIXED => true | _ => false end.
Definition linked_notice_ids (nodes : list (ustr * ServedNode)) (ns : list ServedNode) : res (gset ustr) :=
  foldM (fun found id => let! n := of_option KeyError (dict_get id nodes) in Ok (if is_notice_node n then {[id]} ∪ found else found))
    ∅ (condition_ends ns).

Definition match_id (m : ScoredStructureNode) : ustr := nd_node_id (sc_node m).
Definition refresh_match (nodes : list (ustr * ServedNode)) (m : ScoredStructureNode) : res ScoredStructureNode :=
  let! n := of_option KeyError (dict_get (match_id m) nodes) in
  Ok {| sc_node := n; sc_evidence := sc_evidence m; sc_lexical_only := sc_lexical_only m |}.

Definition merge_bundle (previous group : ContractEvidenceBundle) : res ContractEvidenceBundle :=
  let nodes := fold_left merge_node (eb_nodes group) (nodes_dict (eb_nodes previous)) in
  let matches := dict_of (map (fun m => (match_id m, m)) (eb_matches previous ++ eb_matches group)) in
  let merged_nodes := sorted_by node_leb nodes.*2 in
  let! notices := linked_notice_ids nodes merged_nodes in
  let! refreshed := mapM_res (refresh_match nodes) matches.*2 in
  Ok {| eb_contract := eb_contract previous; eb_matches := refreshed; eb_nodes := merged_nodes;
        eb_linked_notice_count := Z.of_nat (size notices);
        eb_parent_expansion_count := Z.max 0 (zlen nodes - zlen matches) |}.

Fixpoint _merge (bundles : list ContractEvidenceBundle) (group : ContractEvidenceBundle) : res (list ContractEvidenceBundle) :=
  match bundles with
  | [] => Ok [group]
  | previous :: rest =>
      if decide (revision_of previous = revision_of group) then let! merged := merge_bundle previous group in Ok (merged :: rest)
      else let! rest := _merge rest group in Ok (previous :: rest)
  end.

(** ** [seal_compact_page] *)
Record seal_inputs := {
  si_page : ContractSearchPage;
  si_groups : list ContractEvidenceBundle;
  si_ranked_candidate_contracts : Z;
  si_coarse_count : Z;
  si_candidate_limit_count : Z;
}.
Context (si : seal_inputs).

Definition candidates : Z := zlen (si_groups si) + si_coarse_count si + si_candidate_limit_count si.
Definition group_contracts : Z := zlen (remove_dups (map revision_of (si_groups si))).
Definition truthy (n : Z) : bool := negb (n =? 0).
Definition candidates_limited : bool := truthy (si_candidate_limit_count si) || (group_contracts <? si_ranked_candidate_contracts si).

Definition diagnostics (bundles : list ContractEvidenceBundle) (accepted : Z) (omitted : list ustr) : CompactSearchDiagnostics :=
  {| cd_response_bytes := 0; cd_ranked_candidate_contracts := si_ranked_candidate_contracts si;
     cd_candidate_clause_groups := candidates; cd_returned_clause_groups := accepted;
     cd_omitted_clause_groups := candidates - accepted;
     cd_omitted_contracts := si_ranked_candidate_contracts si - zlen bundles;
     cd_omission_reasons := (if bool_decide (omitted = []) then [] else [ResponseByteLimit]) ++
                            (if candidates_limited then [CandidateLimit] else []) ++
                            (if truthy (si_coarse_count si) then [CoarseView] else []);
     cd_omitted_group_sample := take 8 omitted;
     cd_omitted_group_sample_complete :=
       (zlen omitted <=? 8) && negb (truthy (si_coarse_count si)) && negb (truthy (si_candidate_limit_count si))
       && (si_ranked_candidate_contracts si <=? group_contracts) |}.

Definition sealed_coverage (bundles : list ContractEvidenceBundle) (accepted : Z) : SearchCoverage :=
  let v := pg_coverage (si_page si) in
  {| sv_search_mode := sv_search_mode v; sv_expected_active_contracts := sv_expected_active_contracts v;
     sv_scored_contracts := sv_scored_contracts v; sv_expected_embedding_rows := sv_expected_embedding_rows v;
     sv_scored_embedding_rows := sv_scored_embedding_rows v; sv_aggregation_sealed := sv_aggregation_sealed v;
     sv_aggregation_policy_max_child := sv_aggregation_policy_max_child v; sv_sealed_profile_sha256 := sv_sealed_profile_sha256 v;
     sv_exact_row_corpus_sha256 := sv_exact_row_corpus_sha256 v; sv_shadow_status := sv_shadow_status v;
     sv_shadow_candidate_count := sv_shadow_candidate_count v; sv_shadow_rank_change_count := sv_shadow_rank_change_count v;
     sv_shadow_artifact_sha256 := sv_shadow_artifact_sha256 v; sv_shadow_failure_reason := sv_shadow_failure_reason v;
     sv_lexical_additional_evidence_count :=
       sum_of (fun b => sum_of (fun m => if sc_lexical_only m then 1 else 0) (eb_matches b)) bundles;
     sv_lexical_enabled := sv_lexical_enabled v; sv_lexical_status := sv_lexical_status v; sv_lexical_error := sv_lexical_error v;
     sv_lexical_global_matched_evidence_count := sv_lexical_global_matched_evidence_count v;
     sv_lexical_global_additional_evidence_count := sv_lexical_global_additional_evidence_count v;
     sv_catalog_resolution_status := sv_catalog_resolution_status v; sv_catalog_candidate_count := sv_catalog_candidate_count v;
     sv_catalog_resolved_product_lineage_id := sv_catalog_resolved_product_lineage_id v;
     sv_catalog_resolved_product_name := sv_catalog_resolved_product_name v;
     sv_response_node_count := node_count bundles; sv_response_character_count := character_count bundles;
     sv_response_truncated := truthy (candidates - accepted) || (zlen bundles <? si_ranked_candidate_contracts si);
     sv_full_contract_fallback_count := 0; sv_exhaustive_status := sv_exhaustive_status v;
     sv_exhaustive_job_id := sv_exhaustive_job_id v; sv_exhaustive_profile_id := sv_exhaustive_profile_id v;
     sv_exhaustive_completed_contracts := sv_exhaustive_completed_contracts v;
     sv_exhaustive_total_contracts := sv_exhaustive_total_contracts v; sv_exhaustive_resumed := sv_exhaustive_resumed v;
     sv_exhaustive_artifact_sha256 := sv_exhaustive_artifact_sha256 v |}.

Definition with_response_bytes (size : Z) (d : CompactSearchDiagnostics) : CompactSearchDiagnostics :=
  {| cd_response_bytes := size; cd_ranked_candidate_contracts := cd_ranked_candidate_contracts d;
     cd_candidate_clause_groups := cd_candidate_clause_groups d; cd_returned_clause_groups := cd_returned_clause_groups d;
     cd_omitted_clause_groups := cd_omitted_clause_groups d; cd_omitted_contracts := cd_omitted_contracts d;
     cd_omission_reasons := cd_omission_reasons d; cd_omitted_group_sample := cd_omitted_group_sample d;
     cd_omitted_group_sample_complete := cd_omitted_group_sample_complete d |}.
Definition with_compact (d : CompactSearchDiagnostics) (p : ContractSearchPage) : ContractSearchPage :=
  {| pg_generation_id := pg_generation_id p; pg_bundles := pg_bundles p; pg_coverage := pg_coverage p; pg_compact := Some d |}.

(** [for _ in range(6)]: the byte count is part of what it counts. *)
Fixpoint settle_bytes (rounds : nat) (p : ContractSearchPage) : res ContractSearchPage :=
  match rounds with
  | O => Ok p
  | S rounds =>
      let size := encoded_response_bytes p in
      let! current := of_option (Raised "RuntimeError" "compact diagnostics disappeared") (pg_compact p) in
      if size =? cd_response_bytes current then Ok p else settle_bytes rounds (with_compact (with_response_bytes size current) p)
  end.

Definition build (bundles : list ContractEvidenceBundle) (accepted : Z) (omitted : list ustr) : res ContractSearchPage :=
  let d := diagnostics bundles accepted omitted in
  let! _ := check_diagnostics d in
  let p := {| pg_generation_id := pg_generation_id (si_page si); pg_bundles := bundles;
              pg_coverage := sealed_coverage bundles accepted; pg_compact := Some d |} in
  let! _ := bundles_respect_the_sealed_response_budget p in
  settle_bytes 6 p.

Definition group_label (g : ContractEvidenceBundle) : res ustr :=
  let! first := of_option IndexError (head (eb_matches g)) in
  Ok (revision_of g ++ us "/" ++ match_id first).

(** [len(json.dumps(value))] of a text, in ASCII. *)
Definition ascii_json_length (t : ustr) : Z :=
  2 + sum_of (fun c => if (c =? 34)%N || (c =? 92)%N || (c =? 8)%N || (c =? 9)%N || (c =? 10)%N || (c =? 12)%N || (c =? 13)%N then 2
                       else if (32 <=? c)%N && (c <? 127)%N then 1 else if (c <? 65536)%N then 6 else 12) t.

Record sealing := { sl_bundles : list ContractEvidenceBundle; sl_accepted : Z; sl_omitted : list ustr }.
Definition admit_group (reserve : list ustr) (st : sealing) (g : ContractEvidenceBundle) : res sealing :=
  let! proposed := _merge (sl_bundles st) g in
  let! trial := build proposed (sl_accepted st + 1) reserve in
  if COMPACT_RESPONSE_BYTES <? encoded_response_bytes trial then
    let! label := group_label g in
    Ok {| sl_bundles := sl_bundles st; sl_accepted := sl_accepted st; sl_omitted := sl_omitted st ++ [label] |}
  else Ok {| sl_bundles := proposed; sl_accepted := sl_accepted st + 1; sl_omitted := sl_omitted st |}.

Definition exceeds_budget : exn := Raised "RuntimeError" "compact response metadata exceeds the sealed byte budget".
Definition seal_compact_page : res ContractSearchPage :=
  let! labels := mapM_res group_label (si_groups si) in
  let reserve := take 8 (sorted_by (fun a b => ascii_json_length b <=? ascii_json_length a) labels) in
  let! st := foldM (admit_group reserve) {| sl_bundles := []; sl_accepted := 0; sl_omitted := [] |} (si_groups si) in
  let! result := build (sl_bundles st) (sl_accepted st) (sl_omitted st) in
  let! _ := raise_if (COMPACT_RESPONSE_BYTES <? encoded_response_bytes result) exceeds_budget in
  let! _ := check_coverage (pg_coverage result) in
  let! _ := match pg_compact result with Some d => check_diagnostics d | None => Ok tt end in
  let! _ := bundles_respect_the_sealed_response_budget result in
  Ok result.
End Page.
