(* ===== verification/CompactPageProof.v ===== *)
(** A sealed compact page keeps its promise: whole clause groups, the byte budget, and
    counts that account for every candidate. *)
From S2P Require Import CompactPage.

(** ** Merging nodes *)
Section Merge.
Context {evidence : Type}.
Abbreviation bundle := (ContractEvidenceBundle (evidence := evidence)).

(** A node without its links, which alone differ between the groups of a contract. *)
Definition core (n : ServedNode) : ServedNode := with_links [] n.
Lemma core_id n : nd_node_id (core n) = nd_node_id n.
Proof. done. Qed.

Definition ids (ns : list ServedNode) : list ustr := map nd_node_id ns.

(** A group is whole: the ends of its links and its matches are nodes of its own. *)
Record whole (g : bundle) : Prop := {
  wh_ids : NoDup (ids (eb_nodes g));
  wh_links n l : n ∈ eb_nodes g -> l ∈ nd_links n -> ln_from_node_id l ∈ ids (eb_nodes g) /\ ln_to_node_id l ∈ ids (eb_nodes g);
  wh_matches m : m ∈ eb_matches g -> match_id m ∈ ids (eb_nodes g);
  wh_match : eb_matches g <> [];
}.

(** The nodes of a dictionary, by their ids. *)
Definition keyed (d : list (ustr * ServedNode)) : Prop := NoDup d.*1 /\ forall k n, (k, n) ∈ d -> k = nd_node_id n.

Lemma nodes_dict_eq ns : NoDup (ids ns) -> nodes_dict ns = map (fun n => (nd_node_id n, n)) ns.
Proof. intros H. unfold nodes_dict. apply dict_of_NoDup. rewrite <- list_fmap_compose. exact H. Qed.

Lemma nodes_dict_keyed ns : NoDup (ids ns) -> keyed (nodes_dict ns).
Proof.
  intros H. rewrite nodes_dict_eq by done. split; [rewrite <- list_fmap_compose; exact H|].
  intros k n Hin. apply list_elem_of_fmap in Hin as (n' & [= -> ->] & _). done.
Qed.

Lemma dict_set_elem {K V} `{EqDecision K} (k : K) (v : V) d k' v' :
  NoDup d.*1 -> (k', v') ∈ dict_set k v d <-> (k' = k /\ v' = v) \/ (k' <> k /\ (k', v') ∈ d).
Proof.
  intros Hnd. split.
  - intros Hin. apply dict_get_of_elem in Hin; [|by apply dict_set_NoDup]. rewrite dict_get_set in Hin.
    case_decide as Hk; [injection Hin as <-; by left|]. right. split; [done|]. by apply dict_get_elem.
  - intros [[-> ->]|[Hk Hin]]; apply dict_get_elem; rewrite dict_get_set; [by rewrite decide_True|].
    rewrite decide_False by done. by apply dict_get_of_elem.
Qed.

Lemma sorted_by_elem {A} (leb : A -> A -> bool) l x : x ∈ sorted_by leb l <-> x ∈ l.
Proof. by rewrite sorted_by_Permutation. Qed.

(** One node enters the dictionary: nothing is lost, nothing else comes. *)
Lemma merge_node_keyed d n : keyed d -> keyed (merge_node d n).
Proof.
  intros [Hnd Hk]. unfold merge_node. split; [by apply dict_set_NoDup|]. intros k m [[-> ->]|[_ Hin]]%dict_set_elem; [done|auto|done].
Qed.

Lemma merge_node_elem d n k m :
  keyed d -> (k, m) ∈ merge_node d n ->
  (k <> nd_node_id n /\ (k, m) ∈ d) \/
  (k = nd_node_id n /\ core m = core n /\ nd_links n ⊆ nd_links m /\
   (forall old, (k, old) ∈ d -> nd_links old ⊆ nd_links m) /\
   forall l, l ∈ nd_links m -> l ∈ nd_links n \/ exists old, (k, old) ∈ d /\ l ∈ nd_links old).
Proof.
  intros [Hnd Hkey] Hin. unfold merge_node in Hin.
  destruct (dict_get (nd_node_id n) d) as [old|] eqn:Hold; cbn [with_links nd_node_id] in Hin;
    (apply dict_set_elem in Hin as [[-> ->]|[Hk Hin]]; [right|by left|done]).
  - split; [done|]. split; [done|]. cbn [with_links nd_links]. split_and!.
    + intros l Hl. apply sorted_by_elem, elem_of_remove_dups, elem_of_app. by right.
    + intros old' Hin l Hl. apply dict_get_of_elem in Hin; [|done]. rewrite Hold in Hin. injection Hin as <-.
      apply sorted_by_elem, elem_of_remove_dups, elem_of_app. by left.
    + intros l [Hl|Hl]%sorted_by_elem%elem_of_remove_dups%elem_of_app; [right|by left]. exists old. split; [by apply dict_get_elem|done].
  - split_and!; try done; [|intros l Hl; by left]. intros old Hin. apply dict_get_of_elem in Hin; [congruence|done].
Qed.

Lemma merge_node_keys d n k : k ∈ (merge_node d n).*1 <-> k = nd_node_id n \/ k ∈ d.*1.
Proof. unfold merge_node. rewrite dict_set_keys. by destruct (dict_get _ d). Qed.

(** What a node list says of the nodes it was put together from. *)
Record combined (sources ns : list ServedNode) : Prop := {
  cb_ids : NoDup (ids ns);
  cb_same k : k ∈ ids ns <-> k ∈ ids sources;
  cb_core m : m ∈ ns -> exists n, n ∈ sources /\ nd_node_id n = nd_node_id m /\ core m = core n;
  cb_links m n : m ∈ ns -> n ∈ sources -> nd_node_id n = nd_node_id m -> nd_links n ⊆ nd_links m;
  cb_only m l : m ∈ ns -> l ∈ nd_links m -> exists n, n ∈ sources /\ nd_node_id n = nd_node_id m /\ l ∈ nd_links n;
}.

Lemma ids_elem k ns : k ∈ ids ns <-> exists n, n ∈ ns /\ nd_node_id n = k.
Proof. unfold ids. rewrite list_elem_of_fmap. naive_solver. Qed.

Lemma keyed_ids d : keyed d -> d.*1 = ids d.*2.
Proof.
  intros [_ Hk]. unfold ids. rewrite <- list_fmap_compose. apply list_fmap_ext. intros i [k n] Hin. cbn.
  apply Hk. by eapply list_elem_of_lookup_2.
Qed.

Lemma keyed_elem d n : keyed d -> n ∈ d.*2 <-> (nd_node_id n, n) ∈ d.
Proof.
  intros [_ Hk]. rewrite list_elem_of_fmap. split; [|intros H; by exists (nd_node_id n, n)].
  intros ([k m] & -> & Hin). cbn. by rewrite <- (Hk _ _ Hin).
Qed.

Lemma combined_self ns : NoDup (ids ns) -> combined ns ns.
Proof.
  intros Hnd. split; [done|done|by eauto| |by eauto]. intros m n Hm Hn Heq. by rewrite (map_NoDup_inj nd_node_id ns n m).
Qed.

Lemma combined_merge_node sources d n :
  keyed d -> combined sources d.*2 -> combined (sources ++ [n]) (merge_node d n).*2.
Proof.
  intros Hd C. pose proof (merge_node_keyed d n Hd) as Hd'. split.
  - rewrite <- keyed_ids by done. apply Hd'.
  - intros k. rewrite <- keyed_ids, merge_node_keys, keyed_ids, (cb_same _ _ C) by done.
    unfold ids. rewrite map_app, elem_of_app. cbn [map]. rewrite list_elem_of_singleton. tauto.
  - intros m Hm. apply (keyed_elem _ _ Hd') in Hm. apply merge_node_elem in Hm as [[Hk Hin]|(Hk & Hc & _)]; [| |done].
    + apply (keyed_elem _ _ Hd) in Hin. destruct (cb_core _ _ C _ Hin) as (n' & ? & ?). exists n'. split; [apply elem_of_app; by left|done].
    + exists n. split; [apply elem_of_app; right; left|]. split; [congruence|done].
  - intros m n' Hm Hn' Heq. apply (keyed_elem _ _ Hd') in Hm. apply merge_node_elem in Hm as [[Hk Hin]|(Hk & _ & Hl & Hold & _)]; [| |done].
    + apply (keyed_elem _ _ Hd) in Hin. apply elem_of_app in Hn' as [Hn'|Hn']; [by eapply (cb_links _ _ C)|].
      apply list_elem_of_singleton in Hn' as ->. congruence.
    + apply elem_of_app in Hn' as [Hn'|Hn']; [|by apply list_elem_of_singleton in Hn' as ->].
      assert (nd_node_id m ∈ ids d.*2) as Hin by (apply (cb_same _ _ C), ids_elem; eauto).
      apply ids_elem in Hin as (old & Hin & Hid). etrans; [|apply (Hold old); rewrite <- Hid; by apply keyed_elem].
      apply (cb_links _ _ C); [done|done|congruence].
  - intros m l Hm Hl. apply (keyed_elem _ _ Hd') in Hm. apply merge_node_elem in Hm as [[Hk Hin]|(Hk & _ & _ & _ & Honly)]; [| |done].
    + apply (keyed_elem _ _ Hd) in Hin. destruct (cb_only _ _ C _ _ Hin Hl) as (n' & ? & ?). exists n'. split; [apply elem_of_app; by left|done].
    + destruct (Honly l Hl) as [Hln|(old & Hin & Hlo)]; [exists n; split; [apply elem_of_app; right; left|done]|].
      assert (nd_node_id old = nd_node_id m) as Hid by (symmetry; by apply Hd). rewrite <- Hid in Hin. apply (keyed_elem _ _ Hd) in Hin.
      destruct (cb_only _ _ C _ _ Hin Hlo) as (n' & ? & ? & ?). exists n'. split; [apply elem_of_app; by left|]. split; [congruence|done].
Qed.

Lemma combined_merge_nodes ns sources d :
  keyed d -> combined sources d.*2 ->
  keyed (fold_left merge_node ns d) /\ combined (sources ++ ns) (fold_left merge_node ns d).*2.
Proof.
  revert sources d. induction ns as [|n ns IH]; intros sources d Hd C; cbn [fold_left]; [by rewrite app_nil_r|].
  rewrite cons_middle, app_assoc. apply IH; [by apply merge_node_keyed|by apply combined_merge_node].
Qed.

Lemma combined_perm sources ns ns' : ns ≡ₚ ns' -> combined sources ns -> combined sources ns'.
Proof.
  intros Hp [C1 C2 C3 C4 C5]. split; unfold ids in *; setoid_rewrite <- Hp; done.
Qed.

(** ** Merging a group into the bundle of its contract *)
Lemma dict_set_elem_weak {K V} `{EqDecision K} (k : K) (v : V) d x : x ∈ dict_set k v d -> x = (k, v) \/ x ∈ d.
Proof.
  induction d as [|[k' v'] d IH]; cbn; [rewrite list_elem_of_singleton; auto|].
  case_decide; rewrite !elem_of_cons; [tauto|]. intros [?|?%IH]; tauto.
Qed.

Lemma dict_of_elem {K V} `{EqDecision K} (l : list (K * V)) x : x ∈ dict_of l -> x ∈ l.
Proof.
  unfold dict_of. enough (forall d, x ∈ fold_left (fun d kv => dict_set kv.1 kv.2 d) l d -> x ∈ d \/ x ∈ l) as H.
  { intros [Hin|?]%H; [by apply elem_of_nil in Hin|done]. }
  induction l as [|[k v] l IH]; intros d Hin; cbn in *; [by left|].
  apply IH in Hin as [[->|?]%dict_set_elem_weak|?]; rewrite elem_of_cons; auto.
Qed.

Lemma linked_notice_total nodes ns :
  (forall id, id ∈ condition_ends ns -> is_Some (dict_get id nodes)) -> exists found, linked_notice_ids nodes ns = Ok found.
Proof. intros H. apply foldM_total. intros found id Hid. destruct (H id Hid) as [n ->]. by eexists. Qed.

Lemma condition_ends_elem ns id :
  id ∈ condition_ends ns -> exists n l, n ∈ ns /\ l ∈ nd_links n /\ (id = ln_from_node_id l \/ id = ln_to_node_id l).
Proof.
  unfold condition_ends. intros (n & Hn & Hin)%list_elem_of_bind. apply list_elem_of_bind in Hn as (l & Hl & Hln).
  apply list_elem_of_filter in Hln as [_ Hln]. exists n, l. split; [done|]. split; [done|].
  apply elem_of_cons in Hl as [->|Hl]; [by left|]. apply list_elem_of_singleton in Hl as ->. by right.
Qed.

Definition matches_in (b : bundle) : Prop := forall m, m ∈ eb_matches b -> match_id m ∈ ids (eb_nodes b).
Definition ends_in (ns : list ServedNode) : Prop :=
  forall n l, n ∈ ns -> l ∈ nd_links n -> ln_from_node_id l ∈ ids ns /\ ln_to_node_id l ∈ ids ns.

Lemma merge_bundle_spec sources previous g :
  combined sources (eb_nodes previous) -> ends_in sources -> matches_in previous -> whole g ->
  exists b, merge_bundle previous g = Ok b /\ eb_contract b = eb_contract previous /\
    combined (sources ++ eb_nodes g) (eb_nodes b) /\ matches_in b.
Proof.
  intros C Hends Hmatch W. unfold merge_bundle.
  pose proof (nodes_dict_keyed _ (cb_ids _ _ C)) as Hd.
  assert ((nodes_dict (eb_nodes previous)).*2 = eb_nodes previous) as Hd2.
  { rewrite nodes_dict_eq by apply C. rewrite <- list_fmap_compose. apply list_fmap_id. }
  destruct (combined_merge_nodes (eb_nodes g) sources _ Hd) as [Hk CD]; [by rewrite Hd2|].
  set (D := fold_left merge_node (eb_nodes g) (nodes_dict (eb_nodes previous))) in *. clearbody D. cbv zeta.
  assert (forall k, k ∈ ids (sources ++ eb_nodes g) -> is_Some (dict_get k D)) as Hget.
  { intros k Hin. rewrite <- (cb_same _ _ CD), <- keyed_ids in Hin by done.
    destruct (dict_get k D) eqn:Hg; [by eexists|]. by apply dict_get_None in Hg. }
  assert (forall k, k ∈ ids sources -> k ∈ ids (sources ++ eb_nodes g)) as Hleft by (intros k; unfold ids; rewrite map_app, elem_of_app; auto).
  assert (forall k, k ∈ ids (eb_nodes g) -> k ∈ ids (sources ++ eb_nodes g)) as Hright by (intros k; unfold ids; rewrite map_app, elem_of_app; auto).
  destruct (linked_notice_total D (sorted_by node_leb D.*2)) as (notices & ->).
  { intros id (m & l & Hm & Hl & Hid)%condition_ends_elem. apply Hget. apply sorted_by_elem in Hm.
    destruct (cb_only _ _ CD _ _ Hm Hl) as (n & Hn & _ & Hln). apply elem_of_app in Hn as [Hn|Hn].
    - destruct (Hends _ _ Hn Hln) as [? ?]. destruct Hid as [->| ->]; auto.
    - destruct (wh_links _ W _ _ Hn Hln) as [? ?]. destruct Hid as [->| ->]; auto. }
  cbn [res_bind]. set (entries := (dict_of _).*2).
  destruct (mapM_res_total (refresh_match D) (fun m => match_id m ∈ ids D.*2) entries) as (ms & -> & Hms).
  { intros m ([k m'] & -> & Hin)%list_elem_of_fmap. apply dict_of_elem, list_elem_of_fmap in Hin as (m'' & [= -> ->] & Hin). cbn [snd].
    destruct (Hget (match_id m'')) as [n Hn].
    { apply elem_of_app in Hin as [Hin|Hin]; [apply Hleft, (cb_same _ _ C); by apply Hmatch|apply Hright; by apply (wh_matches _ W)]. }
    unfold refresh_match. rewrite Hn. eexists. split; [done|]. unfold match_id. cbn [sc_node].
    apply dict_get_elem in Hn. apply ids_elem. exists n. split; [|done]. apply list_elem_of_fmap. by exists (match_id m'', n). }
  eexists. split; [done|]. cbn [eb_contract eb_nodes eb_matches].
  pose proof (sorted_by_Permutation node_leb D.*2) as Hp. split; [done|]. split.
  - by eapply combined_perm; [symmetry; exact Hp|].
  - intros m Hm. cbn [eb_matches eb_nodes] in *. rewrite Forall_forall in Hms. unfold ids. rewrite Hp. by apply Hms.
Qed.

(** ** Merging groups into the page *)
Definition nodes_of (revision : ustr) (groups : list bundle) : list ServedNode :=
  filter (fun g => revision_of g = revision) groups ≫= eb_nodes.

Lemma nodes_of_elem revision groups n : n ∈ nodes_of revision groups <-> exists g, g ∈ groups /\ revision_of g = revision /\ n ∈ eb_nodes g.
Proof.
  unfold nodes_of. rewrite list_elem_of_bind. split.
  - intros (g & Hn & [? ?]%list_elem_of_filter). eauto.
  - intros (g & ? & ? & ?). exists g. split; [done|]. by apply list_elem_of_filter.
Qed.

Lemma nodes_of_last revision groups g :
  nodes_of revision (groups ++ [g]) = nodes_of revision groups ++ (if decide (revision_of g = revision) then eb_nodes g else []).
Proof.
  unfold nodes_of. rewrite filter_app, bind_app, filter_cons. f_equal. case_decide; cbn; by rewrite ?app_nil_r.
Qed.

Lemma nodes_of_ends revision groups : Forall whole groups -> ends_in (nodes_of revision groups).
Proof.
  intros W n l (g & Hg & Hr & Hn)%nodes_of_elem Hl. rewrite Forall_forall in W.
  destruct (wh_links _ (W g Hg) _ _ Hn Hl) as [H1 H2]. rewrite !ids_elem in *.
  destruct H1 as (n1 & ? & ?), H2 as (n2 & ? & ?). split; [exists n1|exists n2]; (split; [apply nodes_of_elem; exists g; done|done]).
Qed.

(** The bundles of a page, against the groups admitted so far. *)
Record page_inv (accepted bundles : list bundle) : Prop := {
  pi_contracts : NoDup (map revision_of bundles);
  pi_same c : c ∈ map revision_of bundles <-> c ∈ map revision_of accepted;
  pi_nodes b : b ∈ bundles -> combined (nodes_of (revision_of b) accepted) (eb_nodes b);
  pi_matches b : b ∈ bundles -> matches_in b;
}.

Lemma merge_list_spec accepted bundles g :
  Forall whole accepted -> whole g -> NoDup (map revision_of bundles) ->
  (forall b, b ∈ bundles -> combined (nodes_of (revision_of b) accepted) (eb_nodes b) /\ matches_in b) ->
  exists bundles', _merge bundles g = Ok bundles' /\
    map revision_of bundles' = map revision_of bundles ++ (if decide (revision_of g ∈ map revision_of bundles) then [] else [revision_of g]) /\
    forall b, b ∈ bundles' ->
      (b ∈ bundles /\ revision_of b <> revision_of g) \/
      (b = g /\ revision_of g ∉ map revision_of bundles) \/
      (revision_of b = revision_of g /\ combined (nodes_of (revision_of g) accepted ++ eb_nodes g) (eb_nodes b) /\ matches_in b).
Proof.
  intros W Wg. induction bundles as [|previous bundles IH]; cbn [_merge map]; intros Hnd Hb.
  { exists [g]. split; [done|]. split; [done|]. intros b ->%list_elem_of_singleton. right; left. split; [done|]. apply not_elem_of_nil. }
  apply NoDup_cons in Hnd as [Hout Hnd]. destruct (Hb previous (list_elem_of_here _ _)) as [C M].
  destruct (decide (revision_of previous = revision_of g)) as [Heq|Hne].
  - clear IH. destruct (merge_bundle_spec _ previous g C (nodes_of_ends _ _ W) M Wg) as (b & -> & Hcontract & Cb & Mb). cbn [res_bind].
    assert (revision_of b = revision_of g) as Hbg by (unfold revision_of in *; congruence).
    exists (b :: bundles). split; [done|]. split.
    + case_decide as Hin; [|exfalso; apply Hin; apply elem_of_cons; by left]. cbn [map]. rewrite app_nil_r. congruence.
    + intros b' [->|Hin]%elem_of_cons; [right; right; rewrite Heq in Cb; done|]. left. split; [by right|].
      intros Hr. apply Hout. rewrite Heq, <- Hr. apply list_elem_of_fmap. eauto.
  - destruct (IH Hnd) as (bundles' & -> & Hmap & Hall); [intros; apply Hb; by right|]. clear IH. cbn [res_bind].
    exists (previous :: bundles'). split; [done|]. cbn [map]. rewrite Hmap. split.
    + f_equal. f_equal. do 2 case_decide; try done; exfalso; rewrite elem_of_cons in *; naive_solver.
    + intros b' [->|Hin]%elem_of_cons; [left; split; [left|done]|]. destruct (Hall b' Hin) as [[? ?]|[[-> Hno]|Hlast]]; [|right; left|by right; right].
      * left. split; [by right|done].
      * split; [done|]. intros [?|?]%elem_of_cons; congruence.
Qed.

Lemma merge_page accepted bundles g :
  page_inv accepted bundles -> Forall whole accepted -> whole g ->
  exists bundles', _merge bundles g = Ok bundles' /\ page_inv (accepted ++ [g]) bundles'.
Proof.
  intros I W Wg. destruct (merge_list_spec accepted bundles g W Wg (pi_contracts _ _ I)) as (bundles' & -> & Hmap & Hall).
  { intros b Hb. split; [by apply (pi_nodes _ _ I)|by apply (pi_matches _ _ I)]. }
  exists bundles'. split; [done|]. pose proof (pi_same _ _ I) as Hsame. split.
  - rewrite Hmap. apply NoDup_app. split; [apply I|]. case_decide as Hin; (split; [|constructor]).
    + intros c _ Hc. by apply elem_of_nil in Hc.
    + intros c Hc ->%list_elem_of_singleton. done.
    + apply not_elem_of_nil.
    + constructor.
  - intros c. rewrite Hmap, map_app, !elem_of_app, Hsame. cbn [map]. case_decide as Hin; rewrite list_elem_of_singleton, ?elem_of_nil.
    + apply Hsame in Hin. split; [tauto|]. intros [?| ->]; by left.
    + done.
  - intros b Hb. rewrite nodes_of_last. destruct (Hall b Hb) as [[Hin Hr]|[[-> Hno]|(Hr & C & _)]].
    + rewrite decide_False, app_nil_r by congruence. by apply (pi_nodes _ _ I).
    + rewrite decide_True by done. assert (nodes_of (revision_of g) accepted = []) as ->.
      { apply elem_of_nil_inv. intros n (g' & Hg' & Hr & _)%nodes_of_elem. apply Hno, Hsame. rewrite <- Hr. apply list_elem_of_fmap. eauto. }
      apply combined_self, Wg.
    + rewrite Hr, decide_True by done. done.
  - intros b Hb. destruct (Hall b Hb) as [[Hin _]|[[-> _]|(_ & _ & M)]]; [by apply (pi_matches _ _ I)| |done].
    intros m Hm. by apply (wh_matches _ Wg).
Qed.
End Merge.

(** ** Sealing *)
Definition sealed_error (e : exn) : Prop := e = exceeds_budget \/ exists message, e = ValidationError message.
Ltac sealed_raises := raises ltac:(cbv beta; first [by left|right; by eexists]).

Lemma check_coverage_raises v : raises sealed_error (check_coverage v).
Proof.
  unfold check_coverage, check_coverage_fields, document_aggregation_diagnostics_are_coherent,
    reranker_shadow_diagnostics_are_coherent, lexical_catalog_and_response_diagnostics_are_coherent,
    exhaustive_diagnostics_are_complete_or_absent, score_coverage_is_complete_or_a_bound_progress_prefix.
  sealed_raises.
Qed.
#[export] Hint Resolve check_coverage_raises : raises.
Lemma check_diagnostics_raises d : raises sealed_error (check_diagnostics d).
Proof. unfold check_diagnostics. sealed_raises. Qed.
#[export] Hint Resolve check_diagnostics_raises : raises.

Section Seal.
Context {evidence : Type}.
Abbreviation page := (ContractSearchPage (evidence := evidence)).
Context (encoded : page -> Z) (characters : ContractEvidenceBundle (evidence := evidence) -> Z) (si : seal_inputs (evidence := evidence)).

Lemma check_page_raises p : raises sealed_error (bundles_respect_the_sealed_response_budget characters p).
Proof. unfold bundles_respect_the_sealed_response_budget. sealed_raises. Qed.

(** Counting the bytes changes the byte count only. *)
Lemma settle_bytes_spec n p d :
  pg_compact p = Some d ->
  exists p' d', settle_bytes encoded n p = Ok p' /\ pg_bundles p' = pg_bundles p /\ pg_compact p' = Some d' /\
    with_response_bytes 0 d' = with_response_bytes 0 d.
Proof.
  revert p d. induction n as [|n IH]; intros p d Hd; cbn [settle_bytes]; [by exists p, d|].
  rewrite Hd. cbn [of_option res_bind]. destruct (_ =? _); [by exists p, d|].
  destruct (IH (with_compact (with_response_bytes (encoded p) d) p) (with_response_bytes (encoded p) d) eq_refl) as (p' & d' & H).
  by exists p', d'.
Qed.

(** The page that [build] makes of [bundles]. *)
Definition built (bundles : list ContractEvidenceBundle) (accepted : Z) (p : page) : Prop :=
  pg_bundles p = bundles /\
  exists d, pg_compact p = Some d /\ cd_returned_clause_groups d = accepted /\
    cd_candidate_clause_groups d = candidates si /\ cd_omitted_clause_groups d = candidates si - accepted /\
    cd_omitted_contracts d = si_ranked_candidate_contracts si - zlen bundles.

Lemma build_ok bundles accepted omitted p : build encoded characters si bundles accepted omitted = Ok p -> built bundles accepted p.
Proof.
  unfold build. intros H. apply bind_ok in H as (u1 & _ & H). apply bind_ok in H as (u2 & _ & H).
  match type of H with settle_bytes _ _ ?q = _ => destruct (settle_bytes_spec 6 q _ eq_refl) as (p' & d' & Hs & Hb & Hc & Hd) end.
  rewrite H in Hs. injection Hs as <-. split; [done|]. exists d'. split; [done|].
  unfold with_response_bytes, diagnostics in Hd. destruct d'. cbn in *. injection Hd. intros. by subst.
Qed.

Lemma build_raises bundles accepted omitted : raises sealed_error (build encoded characters si bundles accepted omitted).
Proof.
  unfold build. apply raises_bind; [apply check_diagnostics_raises|]. intros _ _. apply raises_bind; [apply check_page_raises|].
  intros _ _. match goal with |- raises _ (settle_bytes _ _ ?q) => destruct (settle_bytes_spec 6 q _ eq_refl) as (p' & d' & -> & _) end.
  apply raises_ok.
Qed.

Lemma group_label_whole (g : ContractEvidenceBundle (evidence := evidence)) : whole g -> exists label, group_label g = Ok label.
Proof. intros W. unfold group_label. destruct (eb_matches g) as [|m ms] eqn:Hm; [by destruct (wh_match _ W)|]. by eexists. Qed.

(** The groups admitted so far, a subsequence of those seen. *)
Lemma admit_groups_spec reserve groups accepted st :
  Forall whole accepted -> Forall whole groups -> page_inv accepted (sl_bundles st) -> sl_accepted st = zlen accepted ->
  match foldM (admit_group encoded characters si reserve) st groups with
  | Ok st' => exists more, more `sublist_of` groups /\ page_inv (accepted ++ more) (sl_bundles st') /\ sl_accepted st' = zlen (accepted ++ more)
  | Err e => sealed_error e
  end.
Proof.
  revert accepted st. induction groups as [|g groups IH]; intros accepted st W Wg I Hlen; cbn [foldM].
  { exists []. rewrite app_nil_r. split; [constructor|done]. }
  apply Forall_cons in Wg as [Wg Wgs]. unfold admit_group at 1.
  destruct (merge_page accepted (sl_bundles st) g I W Wg) as (bundles' & -> & I'). cbn [res_bind].
  destruct (build encoded characters si bundles' (sl_accepted st + 1) reserve) as [trial|e] eqn:Hb; cbn [res_bind];
    [|by apply build_raises in Hb].
  destruct (COMPACT_RESPONSE_BYTES <? encoded trial).
  - destruct (group_label_whole g Wg) as [label ->]. cbn [res_bind].
    match goal with |- context [foldM _ ?s groups] => specialize (IH accepted s W Wgs I Hlen) end.
    destruct (foldM _ _ groups); [|done]. destruct IH as (more & Hsub & HI). exists more. split; [by constructor|done].
  - cbn [res_bind]. match goal with |- context [foldM _ ?s groups] => specialize (IH (accepted ++ [g]) s) end.
    specialize (IH ltac:(apply Forall_app; split; [done|by constructor]) Wgs I').
    assert (sl_accepted st + 1 = zlen (accepted ++ [g])) as Hlen' by (rewrite zlen_app, Hlen; done). specialize (IH Hlen').
    destruct (foldM _ _ groups); [|done]. destruct IH as (more & Hsub & HI). exists (g :: more).
    split; [by constructor|]. by rewrite cons_middle, app_assoc.
Qed.

Lemma page_inv_nil : page_inv (evidence := evidence) [] [].
Proof. split; [constructor|done|..]; intros b Hb; by apply elem_of_nil in Hb. Qed.
End Seal.

(** C18: The compact page holds whole clause groups within its byte budget.  Its bundles are the
    merge of a subsequence of the groups, one bundle per contract: the nodes of a bundle
    are those of its admitted groups, each once, with all their links and no other; the
    encoded page is at most 65,536 bytes; and the counts account for every candidate.  The
    only failures are a refusal by the models and metadata beyond the budget: a whole
    group never makes a lookup fail. *)
Theorem compact_page_whole {evidence} (encoded : ContractSearchPage (evidence := evidence) -> Z) characters si :
  Forall whole (si_groups si) ->
  match seal_compact_page encoded characters si with
  | Err e => sealed_error e
  | Ok page =>
      encoded page <= COMPACT_RESPONSE_BYTES /\
      exists accepted d, accepted `sublist_of` si_groups si /\ page_inv accepted (pg_bundles page) /\ pg_compact page = Some d /\
        cd_returned_clause_groups d = zlen accepted /\
        cd_returned_clause_groups d + cd_omitted_clause_groups d = candidates si /\
        cd_omitted_contracts d + zlen (pg_bundles page) = si_ranked_candidate_contracts si
  end.
Proof.
  intros W. unfold seal_compact_page.
  destruct (mapM_res_total group_label (fun _ => True) (si_groups si)) as (labels & -> & _).
  { intros g Hg. rewrite Forall_forall in W. destruct (group_label_whole g (W g Hg)) as [l Hl]. by exists l. }
  cbn [res_bind].
  match goal with |- context [foldM (admit_group _ _ _ ?r) ?s _] =>
    pose proof (admit_groups_spec encoded characters si r (si_groups si) [] s) as H end.
  specialize (H (Forall_nil_2 _) W page_inv_nil eq_refl).
  destruct (foldM _ _ (si_groups si)) as [st|e]; cbn [res_bind]; [|done]. destruct H as (accepted & Hsub & I & Hlen). cbn [app] in I, Hlen.
  destruct (build encoded characters si _ _ _) as [page|e] eqn:Hb; cbn [res_bind]; [|by apply build_raises in Hb].
  destruct (COMPACT_RESPONSE_BYTES <? encoded page) eqn:Hsize; cbn [raise_if res_bind]; [by left|].
  destruct (check_coverage (pg_coverage page)) as [u1|e] eqn:Hc; cbn [res_bind]; [|by apply check_coverage_raises in Hc].
  apply build_ok in Hb as (Hbundles & d & Hd & Hret & Hcand & Hom & Hcontracts). rewrite Hd.
  destruct (check_diagnostics d) as [u2|e] eqn:Hdiag; cbn [res_bind]; [|by apply check_diagnostics_raises in Hdiag].
  destruct (bundles_respect_the_sealed_response_budget characters page) as [u3|e] eqn:Hp; cbn [res_bind]; [|by apply check_page_raises in Hp].
  split; [lia|]. exists accepted, d. rewrite Hbundles. split_and!; try done; [congruence|lia|lia].
Qed.

(** *** Pages of one-node groups *)
Definition page_coverage : SearchCoverage :=
  {| sv_search_mode := SearchExact; sv_expected_active_contracts := 20; sv_scored_contracts := 20; sv_expected_embedding_rows := 20;
     sv_scored_embedding_rows := 20; sv_aggregation_sealed := false; sv_aggregation_policy_max_child := true;
     sv_sealed_profile_sha256 := None; sv_exact_row_corpus_sha256 := None; sv_shadow_status := None; sv_shadow_candidate_count := None;
     sv_shadow_rank_change_count := None; sv_shadow_artifact_sha256 := None; sv_shadow_failure_reason := None;
     sv_lexical_additional_evidence_count := 0; sv_lexical_enabled := true; sv_lexical_status := LexicalSucceeded; sv_lexical_error := None;
     sv_lexical_global_matched_evidence_count := 0; sv_lexical_global_additional_evidence_count := 0;
     sv_catalog_resolution_status := Unresolved; sv_catalog_candidate_count := 0; sv_catalog_resolved_product_lineage_id := None;
     sv_catalog_resolved_product_name := None; sv_response_node_count := 0; sv_response_character_count := 0;
     sv_response_truncated := false; sv_full_contract_fallback_count := 0; sv_exhaustive_status := None; sv_exhaustive_job_id := None;
     sv_exhaustive_profile_id := None; sv_exhaustive_completed_contracts := None; sv_exhaustive_total_contracts := None;
     sv_exhaustive_resumed := None; sv_exhaustive_artifact_sha256 := None |}.
Definition page_node (id : N) : ServedNode :=
  {| nd_node_id := [id]; nd_contract_revision_id := [id]; nd_parent_id := None; nd_node_type := ITEM; nd_major_class := BENEFIT;
     nd_raw_heading := None; nd_ordinal := 1; nd_display_text := []; nd_spans := []; nd_links := []; nd_table_headers := [];
     nd_table_cells := []; nd_table_role := None |}.
Definition page_group (id : N) : ContractEvidenceBundle (evidence := unit) :=
  {| eb_contract := {| cr_product_lineage_id := [id]; cr_contract_revision_id := [id]; cr_document_id := [id]; cr_issuer := us "kb";
                       cr_product_code := us "p"; cr_product_name := us "Card"; cr_document_type := us "product_description";
                       cr_source_id := us "s"; cr_source_version := us "1"; cr_source_url := us "u"; cr_effective_date := None;
                       cr_temporal_status := us "current"; cr_supersedes_revision_id := None; cr_pdf_sha256 := us "h"; cr_page_count := 1 |};
     eb_matches := [{| sc_node := page_node id; sc_evidence := tt; sc_lexical_only := false |}]; eb_nodes := [page_node id];
     eb_linked_notice_count := 0; eb_parent_expansion_count := 0 |}.
Definition page_inputs (groups : list N) : seal_inputs (evidence := unit) :=
  {| si_page := {| pg_generation_id := us "g"; pg_bundles := []; pg_coverage := page_coverage; pg_compact := None |};
     si_groups := map page_group groups; si_ranked_candidate_contracts := zlen groups; si_coarse_count := 0;
     si_candidate_limit_count := 0 |}.

Lemma page_groups_whole groups : Forall whole (si_groups (page_inputs groups)).
Proof.
  apply Forall_forall. intros g (id & -> & _)%list_elem_of_fmap. split; cbn.
  - apply NoDup_singleton.
  - intros n l ->%list_elem_of_singleton Hl. by apply elem_of_nil in Hl.
  - intros m ->%list_elem_of_singleton. left.
  - done.
Qed.

(** An encoding in which a second bundle does not fit. *)
Definition one_bundle_fits (p : ContractSearchPage (evidence := unit)) : Z :=
  if (length (pg_bundles p) <=? 1)%nat
  then 65532 + match pg_compact p with Some d => if cd_omitted_group_sample_complete d then 4 else 5 | None => 0 end
  else 70000.

Example compact_page_whole_witness :
  Forall whole (si_groups (page_inputs [65; 66]%N)) /\
  exists page, seal_compact_page one_bundle_fits (fun _ => 1) (page_inputs [65; 66]%N) = Ok page /\ one_bundle_fits page <= COMPACT_RESPONSE_BYTES.
Proof.
  split; [apply page_groups_whole|].
  pose proof (compact_page_whole one_bundle_fits (fun _ => 1) (page_inputs [65; 66]%N) (page_groups_whole _)) as H.
  destruct (seal_compact_page one_bundle_fits (fun _ => 1) (page_inputs [65; 66]%N)) as [page|e] eqn:Hs; [|vm_compute in Hs; discriminate Hs].
  exists page. split; [reflexivity|exact (proj1 H)].
Defined.

(** The diagnostics reserved for a group under trial say that the sample of omitted groups
    is complete; with more than eight groups omitted the sealed page says [false], one
    byte more, and a page that fitted exactly is refused. *)
Example reserve_one_byte_short :
  seal_compact_page one_bundle_fits (fun _ => 1) (page_inputs (map (fun n => 65 + N.of_nat n)%N (seq 0 10))) = Err exceeds_budget.
Proof. vm_compute. reflexivity. Qed.
