(* ===== verification/Store.v ===== *)
(** The local generations of the server ([cardrag_mcp/store.py], and the shared audit usage
    of [cardrag_mcp/quota.py]): activation, pinning and eviction.

    The state root is a record of finite maps ([Disk]): the generation directories, the
    content addressed PDFs, the durable roots, the incoming directory and the pointer.  What
    a process keeps in memory is a heap of entries ([Process]), because the code compares
    entries by identity.  An operation runs in a monad that keeps the state when it raises:
    a release that fails has still dropped its pin.  The two locks make every operation
    atomic; the interleavings are those of [StoreSafety].

    A database carries the outcome of its own schema validation (mcp/schema.py and
    schema_v5.py are queries over SQLite) and the rows the store reads; a vector file its
    digest, its size and whether its rows are normalised.  Links in the object tree, the
    lock file and failures of single system calls are left out. *)
From S2P Require Export Monad Paths Quota.

Definition RuntimeError (message : string) : exn := Raised "RuntimeError" message.

(** ** Patterns and constants *)
Definition GENERATION_ID : regex := Seq (Chr is_alnum) (upto 127 (Chr is_id_char)).
Definition LOCAL_POINTER_SCHEMA : ustr := us "cardrag.mcp-local-pointer.v1".
Definition GENERATION_GC_ROOT_SCHEMA : ustr := us "cardrag.mcp-generation-gc-root.v1".
Definition GENERATION_GC_ROOT_OWNER : regex := Seq (lit (us "map-reduce-")) re_hex64.
Definition GENERATION_GC_ROOT_TEMP : regex :=
  Seq (lit (us ".generation-gc-root.")) (between 1 128 (Chr (fun c => is_alnum c || (c =? 95)%N || (c =? 45)%N))).
Definition MAXIMUM_GENERATION_GC_ROOT_BYTES : Z := 4 * 1024.
Definition MAXIMUM_GENERATION_GC_ROOT_TEMPS : Z := 64.
Definition re_cas_prefix : regex := times 2 (Chr is_hex).
Definition EMBEDDING_DIMENSION : Z := 1536.
Definition QWEN3_EMBEDDING_DIMENSION : Z := 4096.
Definition V5_SCHEMAS : list ustr := [us "cardrag.serving-db.v5"; us "cardrag.serving-db.v6"].
Definition V4_SCHEMAS : list ustr := us "cardrag.serving-db.v4" :: V5_SCHEMAS.

(** ** A generation on disk *)
Record ServingMetadata := {
  schema_id : ustr;
  generation_id : ustr;
  corpus_sha256 : ustr;
  contract_sha256 : ustr;
  embedding_provider : ustr;
  embedding_model : ustr;
  embedding_dimension : Z;
  embedding_count : Z;
  vector_sidecar_sha256 : option ustr;
  vector_sidecar_size_bytes : option Z;
  exact_row_corpus_sha256 : option ustr;
  document_aggregation_status : ustr;
  document_aggregation_policy : ustr;
  sealed_profile_sha256 : option ustr;
}.

(** A row of [documents], or of [contract_revisions] with its lineage. *)
Record Document := {
  document_id : ustr;
  doc_issuer : ustr;
  doc_page_count : Z;
  pdf_sha256 : ustr;
  pdf_size_bytes : Z;
}.
Record FailedProduct := { failed_document : Document; reason_code : ustr; reason : ustr; attempts : Z }.

(** A row of [embedding_profiles], also as a manifest declares it (core/manifests.py). *)
Record EmbeddingProfile := {
  profile_id : ustr;
  profile_provider : ustr;
  profile_model : ustr;
  profile_provider_id : ustr;
  profile_dimension : Z;
  profile_dtype : ustr;
  profile_normalization : ustr;
  profile_document_policy : ustr;
  profile_query_policy : ustr;
  profile_maximum_tokens : Z;
}.
#[export] Instance embedding_profile_eq_dec : EqDecision EmbeddingProfile.
Proof. solve_decision. Defined.

(** [index.sqlite3]; a table that does not exist is [None]. *)
Record Database := {
  db_size_bytes : Z;
  db_schema_row : option ustr;
  db_validation : res ServingMetadata;
  db_embeddings_normalized : bool;
  db_embedding_views : Z;
  db_contract_revisions : option (list Document);
  db_documents : option (list Document);
  db_ocr_failed_products : option (list FailedProduct);
  db_issuers : list ustr;
  db_products : Z;
  db_pages : Z;
  db_evidence : Z;
  db_metadata : list (ustr * ustr);
  db_profiles : list EmbeddingProfile;
  db_view_counts : list (ustr * Z);
}.
Record Sidecar := { sidecar_sha256 : ustr; sidecar_size_bytes : Z; sidecar_rows_normalized : bool }.
(** A plain directory of a generation; the digest of its database file comes with it. *)
Record GenerationDir := {
  st_mtime_ns : Z;
  gd_database : option Database;
  gd_database_sha256 : ustr;
  gd_sidecar : option Sidecar;
}.
Inductive dir_entry : Type := PlainDirectory (g : GenerationDir) | NotADirectory.

(** ** The state root *)

(** A small file: its inode, its bytes, and what strict [json.loads] makes of them. *)
Record small_file := { f_inode : Z; f_bytes : list N; f_json : option json }.
Inductive file_entry_of : Type := PlainFile (f : small_file) | NotAFile.
Inductive incoming_entry : Type := IncomingDirectory (g : GenerationDir) | IncomingFile (f : small_file) | IncomingOther.
Inductive cas_item : Type := CasFile (content : list N) | CasOther.
Inductive cas_prefix : Type := PrefixDirectory (items : gmap ustr cas_item) | PrefixOther.
Inductive pointer_entry : Type :=
| PointerAbsent
| PointerFile (links : Z) (f : small_file)
| PointerLink (target : option small_file)
| PointerSpecial.

Record Disk := {
  generations : gmap ustr dir_entry;
  objects_sha256 : option (gmap ustr cas_prefix);
  incoming : gmap ustr incoming_entry;
  generation_gc_roots : gmap ustr file_entry_of;
  current_path : pointer_entry;
  audit_jobs : option fs_entry;
  map_reduce_jobs : option fs_entry;
  provider_coordination : option fs_entry;
}.
Definition set_generations (d : Disk) (m : gmap ustr dir_entry) : Disk :=
  {| generations := m; objects_sha256 := objects_sha256 d; incoming := incoming d; generation_gc_roots := generation_gc_roots d;
     current_path := current_path d; audit_jobs := audit_jobs d; map_reduce_jobs := map_reduce_jobs d;
     provider_coordination := provider_coordination d |}.
Definition set_objects (d : Disk) (m : option (gmap ustr cas_prefix)) : Disk :=
  {| generations := generations d; objects_sha256 := m; incoming := incoming d; generation_gc_roots := generation_gc_roots d;
     current_path := current_path d; audit_jobs := audit_jobs d; map_reduce_jobs := map_reduce_jobs d;
     provider_coordination := provider_coordination d |}.
Definition set_incoming (d : Disk) (m : gmap ustr incoming_entry) : Disk :=
  {| generations := generations d; objects_sha256 := objects_sha256 d; incoming := m; generation_gc_roots := generation_gc_roots d;
     current_path := current_path d; audit_jobs := audit_jobs d; map_reduce_jobs := map_reduce_jobs d;
     provider_coordination := provider_coordination d |}.
Definition set_roots (d : Disk) (m : gmap ustr file_entry_of) : Disk :=
  {| generations := generations d; objects_sha256 := objects_sha256 d; incoming := incoming d; generation_gc_roots := m;
     current_path := current_path d; audit_jobs := audit_jobs d; map_reduce_jobs := map_reduce_jobs d;
     provider_coordination := provider_coordination d |}.
Definition set_current (d : Disk) (p : pointer_entry) : Disk :=
  {| generations := generations d; objects_sha256 := objects_sha256 d; incoming := incoming d;
     generation_gc_roots := generation_gc_roots d; current_path := p; audit_jobs := audit_jobs d;
     map_reduce_jobs := map_reduce_jobs d; provider_coordination := provider_coordination d |}.

(** ** A loaded generation and the memory of a process *)
Inductive location : Type := InGenerations | InIncoming | Elsewhere.
#[export] Instance location_eq_dec : EqDecision location.
Proof. solve_decision. Defined.

Record Vectors := { matrix_nbytes : Z; matrix_memmap : bool; matrix_shape : Z * Z; norms_nbytes : Z }.
Record GenerationHandle := {
  h_generation_id : ustr;
  h_location : location;
  h_metadata : ServingMetadata;
  h_vectors : Vectors;
  h_has_sidecar : bool;
}.
Record HandleEntry := { handle : GenerationHandle; references : Z }.
(** [_entries] and [_active] hold references into the heap of entries ever made. *)
Record Process := {
  os_pid : Z;
  lifecycle_pid : Z;
  heap : list HandleEntry;
  entries : gmap ustr nat;
  active : option nat;
}.
Record Store := { disk : Disk; proc : Process }.

Definition _handle_resident_vector_bytes (h : GenerationHandle) : Z :=
  (if matrix_memmap (h_vectors h) then 0 else matrix_nbytes (h_vectors h)) + norms_nbytes (h_vectors h).

(** ** The monad: an exception keeps the state reached *)
Notation M := (ST Store).
Definition getD : M Disk := fun s => (Ok (disk s), s).
Definition getP : M Process := fun s => (Ok (proc s), s).
Definition putD (d : Disk) : M unit := fun s => (Ok tt, {| disk := d; proc := proc s |}).
Definition putP (p : Process) : M unit := fun s => (Ok tt, {| disk := disk s; proc := p |}).

Definition entry_at (p : Process) (r : nat) : option HandleEntry := heap p !! r.
Definition references_at (p : Process) (r : nat) : Z := match heap p !! r with Some e => references e | None => 0 end.
Definition add_references (p : Process) (r : nat) (n : Z) : Process :=
  {| os_pid := os_pid p; lifecycle_pid := lifecycle_pid p;
     heap := alter (fun e => {| handle := handle e; references := references e + n |}) r (heap p);
     entries := entries p; active := active p |}.
Definition set_entries (p : Process) (m : gmap ustr nat) : Process :=
  {| os_pid := os_pid p; lifecycle_pid := lifecycle_pid p; heap := heap p; entries := m; active := active p |}.
Definition set_active (p : Process) (a : option nat) : Process :=
  {| os_pid := os_pid p; lifecycle_pid := lifecycle_pid p; heap := heap p; entries := entries p; active := a |}.
(** [_HandleEntry(handle)] stored under its generation. *)
Definition new_entry (p : Process) (g : ustr) (h : GenerationHandle) : nat * Process :=
  let r := length (heap p) in
  (r, {| os_pid := os_pid p; lifecycle_pid := lifecycle_pid p;
         heap := heap p ++ [{| handle := h; references := 0 |}];
         entries := <[g := r]> (entries p); active := active p |}).

(** ** Limits of a store ([GenerationStore.__init__]) *)
Record StoreLimits := {
  maximum_vector_bytes : Z;
  maximum_vector_sidecar_bytes : Z;
  maximum_resident_vector_bytes : Z;
  maximum_pdf_bytes : Z;
  maximum_database_bytes : Z;
  maximum_generation_download_bytes : Z;
  store_maximum_state_bytes : Z;
  store_audit_max_jobs : Z;
  store_audit_max_total_bytes : Z;
  store_reranker_max_jobs : Z;
  retention : Z;
}.
Definition check_store_limits (l : StoreLimits) : res unit :=
  let! _ := raise_if (retention l <? 2) (ValueError "local retention must be at least two") in
  let! _ := forM (fun lv : string * Z => let! _ := validate_byte_limit lv.2 lv.1 false in Ok tt)
    [("maximum vector bytes"%string, maximum_vector_bytes l); ("maximum vector sidecar bytes"%string, maximum_vector_sidecar_bytes l);
     ("maximum resident vector bytes"%string, maximum_resident_vector_bytes l); ("maximum PDF bytes"%string, maximum_pdf_bytes l);
     ("maximum serving database bytes"%string, maximum_database_bytes l);
     ("maximum generation download bytes"%string, maximum_generation_download_bytes l)] in
  let! _ := validate_count_limit (store_audit_max_jobs l) "maximum exhaustive audit jobs" in
  let! _ := validate_count_limit (store_reranker_max_jobs l) "maximum reranker audit jobs" in
  let! _ := raise_if (maximum_generation_download_bytes l <? maximum_database_bytes l)
              (ValueError "serving database cap exceeds generation download quota") in
  let! _ := raise_if (maximum_generation_download_bytes l <? maximum_vector_sidecar_bytes l)
              (ValueError "vector sidecar cap exceeds generation download quota") in
  let! _ := raise_if (maximum_generation_download_bytes l <? maximum_pdf_bytes l)
              (ValueError "PDF cap exceeds generation download quota") in
  raise_if (store_maximum_state_bytes l <? maximum_generation_download_bytes l)
    (ValueError "generation download quota exceeds state quota").

(** ** PDFs *)
Definition FileNotFoundError : exn := Raised "FileNotFoundError" "".
Definition PDF_MAGIC : list N := string_bytes "%PDF-".
Definition cas_path (digest : ustr) : res (ustr * ustr) :=
  let! _ := raise_if (negb (fullmatch re_hex64 digest)) (ValueError "invalid CAS digest") in
  Ok (slice digest 0 2, digest).
Definition cas_item_at (d : Disk) (at_ : ustr * ustr) : option cas_item :=
  match objects_sha256 d ≫= lookup at_.1 with
  | Some (PrefixDirectory items) => items !! at_.2
  | _ => None
  end.
Definition pdf_path (d : Disk) (doc : Document) : res (list N) :=
  let! candidate := cas_path (pdf_sha256 doc) in
  let! item := of_option FileNotFoundError (cas_item_at d candidate) in
  match item with
  | CasFile content => Ok content
  | CasOther => Err (RuntimeError "PDF CAS object is not a regular file")
  end.
Definition verify_pdf_for_handle (d : Disk) (doc : Document) (maximum_bytes : Z) : res unit :=
  let! _ := raise_if (maximum_bytes <? pdf_size_bytes doc) (RuntimeError "PDF exceeds the configured 100 MiB bound") in
  let! content := pdf_path d doc in
  let! _ := raise_if (negb (zlen content =? pdf_size_bytes doc)) (RuntimeError "PDF size mismatches from serving metadata") in
  let! _ := raise_if (negb (bool_decide (take 5 content = PDF_MAGIC))) (RuntimeError "source object is not application/pdf") in
  raise_if (negb (bool_decide (sha256_bytes content = pdf_sha256 doc))) (RuntimeError "PDF hash mismatches from serving metadata").

(** The directory a handle was loaded from, as it is now; [connect] fails when the
    database is gone. *)
Definition OperationalError : exn := Raised "OperationalError" "".
Definition generation_at (d : Disk) (l : location) (g : ustr) : option GenerationDir :=
  match l with
  | InGenerations => match generations d !! g with Some (PlainDirectory dir) => Some dir | _ => None end
  | InIncoming => match incoming d !! g with Some (IncomingDirectory dir) => Some dir | _ => None end
  | Elsewhere => None
  end.
Definition connect (d : Disk) (h : GenerationHandle) : res Database :=
  of_option OperationalError (generation_at d (h_location h) (h_generation_id h) ≫= gd_database).
Definition is_v5 (schema : ustr) : bool := bool_decide (schema ∈ V5_SCHEMAS).
Definition document_leb (a b : Document) : bool := ustr_leb (document_id a) (document_id b).
Definition handle_documents (schema : ustr) (db : Database) : res (list Document) :=
  let! rows := of_option OperationalError (if is_v5 schema then db_contract_revisions db else db_documents db) in
  let! failed := if bool_decide (schema ∈ V4_SCHEMAS) then of_option OperationalError (db_ocr_failed_products db) else Ok [] in
  Ok (sorted_by document_leb (rows ++ map failed_document failed)).
Definition verify_handle_pdfs (lim : StoreLimits) (d : Disk) (h : GenerationHandle) : res unit :=
  let! db := connect d h in
  let! rows := handle_documents (schema_id (h_metadata h)) db in
  forM (fun doc => verify_pdf_for_handle d doc (maximum_pdf_bytes lim)) rows.

(** ** Loading a generation *)
Definition ServingDatabaseError (message : string) : exn := Raised "ServingDatabaseError" message.
Definition ServingDatabaseV5Error (message : string) : exn := Raised "ServingDatabaseV5Error" message.
Definition load_vectors_v5 (metadata : ServingMetadata) (sidecar : option Sidecar) (maximum_sidecar_bytes views : Z) : res Vectors :=
  let! file := of_option (ServingDatabaseV5Error "v5 vector sidecar is missing or unsafe") sidecar in
  let expected_size := embedding_count metadata * (QWEN3_EMBEDDING_DIMENSION * 4) in
  let! _ := raise_if (maximum_sidecar_bytes <? expected_size) (ServingDatabaseV5Error "v5 vector sidecar exceeds the promotion limit") in
  let! _ := raise_if (negb (bool_decide (vector_sidecar_sha256 metadata = Some (sidecar_sha256 file)))
                      || negb (bool_decide (vector_sidecar_size_bytes metadata = Some (sidecar_size_bytes file)))
                      || negb (sidecar_size_bytes file =? expected_size))
              (ServingDatabaseV5Error "v5 vector sidecar hash or size mismatches from metadata") in
  let! _ := raise_if (negb (sidecar_rows_normalized file)) (ServingDatabaseV5Error "v5 vector sidecar contains a non-normalized row") in
  let! _ := raise_if (negb (views =? embedding_count metadata)) (ServingDatabaseV5Error "embedding views changed while loading sidecar") in
  Ok {| matrix_nbytes := expected_size; matrix_memmap := true; matrix_shape := (embedding_count metadata, QWEN3_EMBEDDING_DIMENSION);
        norms_nbytes := embedding_count metadata * 4 |}.
Definition load_vectors (db : Database) (expected_count maximum_bytes : Z) : res Vectors :=
  let required_bytes := expected_count * (EMBEDDING_DIMENSION * 4) in
  let! _ := raise_if (maximum_bytes <? required_bytes) (ServingDatabaseError "embedding matrix exceeds the promotion limit") in
  let! _ := raise_if (negb (db_evidence db =? expected_count)) (ServingDatabaseError "evidence count changed while loading vectors") in
  let! _ := raise_if (negb (db_embeddings_normalized db)) (ServingDatabaseError "evidence embeddings are not L2 normalized") in
  Ok {| matrix_nbytes := required_bytes; matrix_memmap := false; matrix_shape := (expected_count, EMBEDDING_DIMENSION);
        norms_nbytes := expected_count * 4 |}.

Definition resident_estimate (m : ServingMetadata) : Z :=
  embedding_count m * 4 + (if is_v5 (schema_id m) then 0 else embedding_count m * embedding_dimension m * 4).

Definition mismatches {A} `{EqDecision A} (expected : option A) (value : A) : bool :=
  match expected with Some e => negb (bool_decide (value = e)) | None => false end.

(** The directory [g] below [generations] or [.incoming], as it is on disk. *)
Definition load_generation_handle (lim : StoreLimits) (d : Disk) (l : location) (g : ustr)
    (expected_generation_id expected_embedding_model : option ustr) (expected_embedding_count : option Z) : res GenerationHandle :=
  let! _ := forM (fun lv : string * Z => let! _ := validate_byte_limit lv.2 lv.1 false in Ok tt)
    [("maximum vector bytes"%string, maximum_vector_bytes lim); ("maximum vector sidecar bytes"%string, maximum_vector_sidecar_bytes lim);
     ("maximum resident vector bytes"%string, maximum_resident_vector_bytes lim);
     ("maximum serving database bytes"%string, maximum_database_bytes lim)] in
  let! dir := of_option FileNotFoundError (generation_at d l g) in
  let! _ := raise_if (negb (fullmatch GENERATION_ID g)) (RuntimeError "invalid local generation ID") in
  let! db := of_option (RuntimeError "generation database is missing or unsafe") (gd_database dir) in
  let! _ := raise_if (maximum_database_bytes lim <? db_size_bytes db) (RuntimeError "generation database exceeds the configured hard cap") in
  let! metadata := db_validation db in
  let! _ := raise_if (negb (bool_decide (generation_id metadata = g))) (RuntimeError "database generation ID mismatches from its directory") in
  let! _ := raise_if (mismatches expected_generation_id (generation_id metadata))
              (RuntimeError "database generation ID mismatches from manifest") in
  let! _ := raise_if (mismatches expected_embedding_model (embedding_model metadata))
              (RuntimeError "database embedding model mismatches from manifest") in
  let! _ := raise_if (mismatches expected_embedding_count (embedding_count metadata))
              (RuntimeError "database embedding count mismatches from manifest") in
  let! _ := raise_if (maximum_resident_vector_bytes lim <? resident_estimate metadata)
              (RuntimeError "generation vector arrays exceed the configured resident memory limit") in
  let v5 := is_v5 (schema_id metadata) in
  let! vectors := if v5 then load_vectors_v5 metadata (gd_sidecar dir) (maximum_vector_sidecar_bytes lim) (db_embedding_views db)
                  else load_vectors db (embedding_count metadata) (maximum_vector_bytes lim) in
  Ok {| h_generation_id := g; h_location := l; h_metadata := metadata; h_vectors := vectors; h_has_sidecar := v5 |}.

(** ** The interface of the state quota

    A reservation is held while bytes arrive and released after; here only whether it is
    granted counts. *)
Class StateQuota := {
  state_quota_guard : Disk -> Z -> Z -> res unit;
  state_quota_transaction : Disk -> res unit;
  state_quota_reserve : Disk -> Z -> res unit;
}.
Definition is_storage_quota_error (e : exn) : bool := match e with Raised c _ => bool_decide (c = "StorageQuotaError"%string) | _ => false end.

(** ** Durable roots *)
Definition canonical_line (v : json) : list N := canonical_json_bytes v ++ [10%N].
Definition generation_gc_root_payload (owner gid : ustr) : json :=
  JObj [(us "schema_version", JStr GENERATION_GC_ROOT_SCHEMA); (us "owner_id", JStr owner); (us "generation_id", JStr gid)].
Definition _canonical_generation_gc_root (owner gid : ustr) : list N := canonical_line (generation_gc_root_payload owner gid).
Definition root_name (owner : ustr) : ustr := owner ++ us ".json".

(** The number of names of an inode, among the roots and the incoming files. *)
Definition has_inode (i : Z) (f : small_file) : bool := f_inode f =? i.
Definition root_links (i : Z) (d : Disk) : list ustr :=
  map fst (List.filter (fun nf => match nf.2 with PlainFile f => has_inode i f | NotAFile => false end) (map_to_list (generation_gc_roots d))).
Definition incoming_links (i : Z) (d : Disk) : list ustr :=
  map fst (List.filter (fun nf => match nf.2 with IncomingFile f => has_inode i f | _ => false end) (map_to_list (incoming d))).
Definition st_nlink (i : Z) (d : Disk) : Z := zlen (root_links i d) + zlen (incoming_links i d).

(** A member that is not a string has no canonical form equal to the bytes read: its
    string form is written back with quotes. *)
Definition string_member (k : ustr) (members : list (ustr * json)) : option ustr :=
  match member k members with Some (JStr s) => Some s | _ => None end.
Definition _read_generation_gc_root (d : Disk) (name : ustr) (e : file_entry_of) (allowed_links : list Z) : res (ustr * ustr) :=
  match e with
  | NotAFile => Err (RuntimeError "generation GC root is missing or unsafe")
  | PlainFile f =>
      let size := zlen (f_bytes f) in
      let! _ := raise_if (negb (bool_decide (st_nlink (f_inode f) d ∈ allowed_links)) || (size <? 1)
                          || (MAXIMUM_GENERATION_GC_ROOT_BYTES <? size))
                  (RuntimeError "generation GC root has an invalid size or type") in
      match f_json f with
      | Some (JObj members) =>
          let! _ := raise_if (negb (has_fields members [us "schema_version"; us "owner_id"; us "generation_id"]))
                      (RuntimeError "generation GC root is not strict JSON") in
          let! schema := of_option (RuntimeError "generation GC root is not canonical JSON") (string_member (us "schema_version") members) in
          let! owner := of_option (RuntimeError "generation GC root is not canonical JSON") (string_member (us "owner_id") members) in
          let! gid := of_option (RuntimeError "generation GC root is not canonical JSON") (string_member (us "generation_id") members) in
          let payload := JObj [(us "schema_version", JStr schema); (us "owner_id", JStr owner); (us "generation_id", JStr gid)] in
          let! _ := raise_if (negb (bool_decide (f_bytes f = canonical_line payload)))
                      (RuntimeError "generation GC root is not canonical JSON") in
          let! _ := raise_if (negb (bool_decide (schema = GENERATION_GC_ROOT_SCHEMA)) || negb (fullmatch GENERATION_GC_ROOT_OWNER owner)
                              || negb (fullmatch GENERATION_ID gid) || negb (bool_decide (name = root_name owner)))
                      (RuntimeError "generation GC root identity is invalid") in
          Ok (owner, gid)
      | _ => Err (RuntimeError "generation GC root is not strict JSON")
      end
  end.

(** ** The operations of a store *)
Section Operations.
Context {quota : StateQuota} (lim : StoreLimits).

Definition _ensure_process_identity : M unit :=
  let* p := getP in
  if lifecycle_pid p =? os_pid p then ret tt
  else putP {| os_pid := os_pid p; lifecycle_pid := os_pid p; heap := heap p; entries := ∅; active := None |}.

Definition is_temporary (name : ustr) : bool := fullmatch GENERATION_GC_ROOT_TEMP name.
Definition companions (i : Z) (d : Disk) : list (ustr * file_entry_of) :=
  List.filter (fun nf : ustr * file_entry_of => match nf.2 with PlainFile f => has_inode i f | NotAFile => false end)
    (sorted_by key_leb (map_to_list (generation_gc_roots d))).
Definition reconcile_temporary (name : ustr) : M unit :=
  let* d := getD in
  match incoming d !! name with
  | Some (IncomingFile f) =>
      let links := st_nlink (f_inode f) d in
      let* _ := lift (raise_if ((MAXIMUM_GENERATION_GC_ROOT_BYTES <? zlen (f_bytes f)) || negb (bool_decide (links ∈ [1; 2])))
                        (RuntimeError "generation GC root temporary is unsafe")) in
      let* _ := lift (if links =? 2 then
                        match companions (f_inode f) d with
                        | [(root, e)] => let! _ := _read_generation_gc_root d root e [2] in Ok tt
                        | _ => Err (RuntimeError "generation GC root temporary link is ambiguous")
                        end
                      else Ok tt) in
      putD (set_incoming d (delete name (incoming d)))
  | _ => throw (RuntimeError "generation GC root temporary is unsafe")
  end.
Definition temporaries (d : Disk) : list ustr :=
  sorted_by ustr_leb (List.filter is_temporary (map fst (map_to_list (incoming d)))).
Definition _reconcile_generation_gc_root_temporaries_locked : M unit :=
  let* d := getD in
  let candidates := temporaries d in
  let* _ := lift (raise_if (MAXIMUM_GENERATION_GC_ROOT_TEMPS <? zlen candidates)
                    (RuntimeError "generation GC root temporary count exceeds its cap")) in
  match candidates with
  | [] => ret tt
  | _ => let* _ := lift (state_quota_transaction d) in iterM reconcile_temporary candidates
  end.

Definition is_plain_directory (d : Disk) (g : ustr) : bool :=
  match generations d !! g with Some (PlainDirectory _) => true | _ => false end.
Definition read_root (d : Disk) (acc : list (ustr * ustr)) (nf : ustr * file_entry_of) : res (list (ustr * ustr)) :=
  let! payload := _read_generation_gc_root d nf.1 nf.2 [1] in
  let! _ := raise_if (negb (is_plain_directory d payload.2)) (RuntimeError "generation GC root references a missing generation") in
  Ok (dict_set payload.1 payload.2 acc).
Definition sorted_roots (d : Disk) : list (ustr * file_entry_of) := sorted_by key_leb (map_to_list (generation_gc_roots d)).
Definition _durable_generation_roots_locked : M (list (ustr * ustr)) :=
  let* _ := _reconcile_generation_gc_root_temporaries_locked in
  let* d := getD in
  lift (foldM (read_root d) [] (sorted_roots d)).

(** ** Eviction *)
Definition newer_leb (a b : Z * ustr) : bool :=
  (b.1 <? a.1) || ((a.1 =? b.1) && ustr_leb b.2 a.2).
Definition eviction_candidates (d : Disk) : list (Z * ustr) :=
  sorted_by newer_leb
    (omap (fun ne : ustr * dir_entry =>
             match ne.2 with
             | PlainDirectory dir => if fullmatch GENERATION_ID ne.1 then Some (st_mtime_ns dir, ne.1) else None
             | NotADirectory => None
             end) (map_to_list (generations d))).
Definition active_generation (p : Process) : option ustr :=
  match active p with Some r => (fun e => h_generation_id (handle e)) <$> entry_at p r | None => None end.
Definition retained_names (d : Disk) (p : Process) (roots : list (ustr * ustr)) : list ustr :=
  map snd (take (Z.to_nat (retention lim)) (eviction_candidates d))
  ++ (match active_generation p with Some g => [g] | None => [] end) ++ map snd roots.
Definition is_pinned (p : Process) (g : ustr) : bool :=
  match entries p !! g with Some r => 0 <? references_at p r | None => false end.
Definition is_inactive (p : Process) (g : ustr) : bool :=
  match entries p !! g with Some r => negb (bool_decide (active p = Some r)) | None => false end.
Definition prune_one (retained : list ustr) (s : Store) (g : ustr) : Store :=
  let p := proc s in
  let pinned := is_pinned p g in
  let p' := if is_inactive p g && negb pinned then set_entries p (delete g (entries p)) else p in
  if bool_decide (g ∈ retained) || pinned then {| disk := disk s; proc := p' |}
  else {| disk := set_generations (disk s) (delete g (generations (disk s))); proc := set_entries p' (delete g (entries p')) |}.

(** The digests a database mentions; [None] when one of the queries fails. *)
Definition marked_digests (db : Database) : option (list ustr) :=
  let v5 := match db_schema_row db with Some schema => is_v5 schema | None => false end in
  match (if v5 then db_contract_revisions db else db_documents db) with
  | None => None
  | Some rows => Some (map pdf_sha256 rows ++ match db_ocr_failed_products db with
                                               | Some failed => map (fun f => pdf_sha256 (failed_document f)) failed
                                               | None => []
                                               end)
  end.
Definition mark_generation (ne : ustr * dir_entry) : option (list ustr) :=
  match ne.2 with
  | PlainDirectory dir => if fullmatch GENERATION_ID ne.1 then gd_database dir ≫= marked_digests else Some []
  | NotADirectory => Some []
  end.
Definition referenced_digests (d : Disk) : option (list ustr) := mjoin <$> mapM mark_generation (map_to_list (generations d)).
Definition keeps_item (referenced : list ustr) (ni : ustr * cas_item) : Prop :=
  match ni.2 with CasOther => True | CasFile _ => fullmatch re_hex64 ni.1 = true -> ni.1 ∈ referenced end.
#[export] Instance keeps_item_dec referenced ni : Decision (keeps_item referenced ni).
Proof. unfold keeps_item. destruct ni.2; apply _. Defined.
Definition sweep_prefix (referenced : list ustr) (name : ustr) (p : cas_prefix) : option cas_prefix :=
  match p with
  | PrefixOther => Some PrefixOther
  | PrefixDirectory items =>
      if fullmatch re_cas_prefix name then
        let kept := filter (keeps_item referenced) items in
        if bool_decide (kept = ∅) then None else Some (PrefixDirectory kept)
      else Some (PrefixDirectory items)
  end.
Definition _prune_cas_locked (d : Disk) : Disk :=
  match referenced_digests d with
  | None => d
  | Some referenced =>
      match objects_sha256 d with
      | None => d
      | Some prefixes => set_objects d (Some (map_imap (sweep_prefix referenced) prefixes))
      end
  end.
Definition prune_with (roots : list (ustr * ustr)) (s : Store) : Store :=
  let s' := fold_left (prune_one (retained_names (disk s) (proc s) roots)) (map snd (eviction_candidates (disk s))) s in
  {| disk := _prune_cas_locked (disk s'); proc := proc s' |}.
Definition _prune_locked (durable_roots : option (list (ustr * ustr))) : M unit :=
  let* roots := match durable_roots with Some roots => ret roots | None => _durable_generation_roots_locked end in
  fun s => (Ok tt, prune_with roots s).

(** ** Reading *)
Definition active_generation_id : M (option ustr) :=
  let* _ := _ensure_process_identity in let* p := getP in ret (active_generation p).
Definition handle_bytes_at (p : Process) (r : nat) : Z :=
  match entry_at p r with Some e => _handle_resident_vector_bytes (handle e) | None => 0 end.
Definition sum_bytes (p : Process) (m : gmap ustr nat) : Z := foldr Z.add 0 (map (fun gr => handle_bytes_at p gr.2) (map_to_list m)).
Definition resident_vector_bytes : M Z :=
  let* _ := _ensure_process_identity in let* p := getP in ret (sum_bytes p (entries p)).

(** Python's [str] of a JSON value; that of an array or object starts with a bracket. *)
Definition python_str (v : json) : ustr :=
  match v with
  | JStr s => s
  | JInt n => str_of_Z n
  | JBool b => if b then us "True" else us "False"
  | JNull => us "None"
  | JArr _ => us "["
  | JObj _ => us "{"
  end.
(** [load_current]: any failure is [False].  A pointer with duplicate keys counts as one
    that does not parse. *)
Definition pointer_content (c : pointer_entry) : option small_file :=
  match c with PointerFile _ f => Some f | PointerLink target => target | _ => None end.
Definition pointed_generation (f : small_file) : res ustr :=
  match f_json f with
  | Some (JObj members) =>
      let! _ := raise_if (negb (has_fields members [us "schema_version"; us "generation_id"])) (ValueError "") in
      let! _ := raise_if (negb (bool_decide (string_member (us "schema_version") members = Some LOCAL_POINTER_SCHEMA))) (ValueError "") in
      let! v := of_option KeyError (member (us "generation_id") members) in
      let! _ := raise_if (negb (fullmatch GENERATION_ID (python_str v))) (ValueError "") in
      Ok (python_str v)
  | _ => Err (ValueError "")
  end.
Definition read_current (d : Disk) : res GenerationHandle :=
  let! f := of_option FileNotFoundError (pointer_content (current_path d)) in
  let! gid := pointed_generation f in
  let! h := load_generation_handle lim d InGenerations gid (Some gid) None None in
  let! _ := verify_handle_pdfs lim d h in
  Ok h.
Definition load_current : M bool :=
  let* _ := _ensure_process_identity in
  let* d := getD in
  let* p := getP in
  match read_current d with
  | Err _ => ret false
  | Ok h =>
      let '(r, p') := new_entry p (h_generation_id h) h in
      let* _ := putP (set_active p' (Some r)) in
      ret true
  end.

(** ** Pins: what [__enter__] returns, and the [finally] of both context managers *)
Definition pinned_entry (r : nat) : M (nat * GenerationHandle) :=
  let* p := getP in
  let* _ := putP (add_references p r 1) in
  match entry_at p r with Some e => ret (r, handle e) | None => throw IndexError end.
Definition pin : M (nat * GenerationHandle) :=
  let* _ := _ensure_process_identity in
  let* p := getP in
  match active p with
  | None => throw (RuntimeError "no serving generation is active")
  | Some r => pinned_entry r
  end.
Definition pin_generation (gid : ustr) : M (nat * GenerationHandle) :=
  let* _ := lift (raise_if (negb (fullmatch GENERATION_ID gid)) (RuntimeError "requested generation ID is invalid")) in
  let* _ := _ensure_process_identity in
  let* d := getD in
  let* p := getP in
  match entries p !! gid with
  | Some r => pinned_entry r
  | None =>
      let* _ := lift (raise_if (negb (is_plain_directory d gid)) (RuntimeError "requested generation is missing or unsafe")) in
      match (let! h := load_generation_handle lim d InGenerations gid (Some gid) None None in
             let! _ := verify_handle_pdfs lim d h in Ok h) with
      | Err _ => throw (RuntimeError "requested generation failed exact validation")
      | Ok h =>
          let resident_bytes := sum_bytes p (entries p) + _handle_resident_vector_bytes h in
          let* _ := lift (raise_if (maximum_resident_vector_bytes lim <? resident_bytes)
                            (RuntimeError "requested generation exceeds the resident vector memory limit")) in
          let '(r, p') := new_entry p gid h in
          let* _ := putP p' in
          pinned_entry r
      end
  end.
Definition unpin (r : nat) : M unit :=
  let* _ := _ensure_process_identity in
  let* p := getP in
  let p' := add_references p r (-1) in
  let* _ := putP p' in
  if negb (bool_decide (active p' = Some r)) && (references_at p' r =? 0) then _prune_locked None else ret tt.

(** ** Activation; [inode] is that of the temporary file that replaces the pointer *)
Definition local_pointer (gid : ustr) : json :=
  JObj [(us "schema_version", JStr LOCAL_POINTER_SCHEMA); (us "generation_id", JStr gid)].
Definition current_size (c : pointer_entry) : Z := match c with PointerFile _ f => zlen (f_bytes f) | _ => 0 end.
Definition activate (h : GenerationHandle) (inode : Z) : M unit :=
  let* _ := lift (raise_if (negb (bool_decide (h_location h = InGenerations)))
                    (ValueError "generation is outside the local generation root")) in
  let* _ := _ensure_process_identity in
  let* durable_roots := _durable_generation_roots_locked in
  let* d := getD in
  let* p := getP in
  let gid := h_generation_id h in
  let entry := entries p !! gid in
  let prospective_resident_bytes :=
    sum_bytes p (delete gid (entries p))
    + match entry with Some r => handle_bytes_at p r | None => _handle_resident_vector_bytes h end in
  let* _ := lift (raise_if (maximum_resident_vector_bytes lim <? prospective_resident_bytes)
                    (RuntimeError "candidate plus resident/pinned vector memory exceeds the resident limit")) in
  let pointer_bytes := canonical_line (local_pointer gid) in
  let* _ := lift (match current_path d with
                  | PointerLink _ => Err (RuntimeError "local generation pointer must not be a symlink")
                  | PointerSpecial => Err (RuntimeError "local generation pointer is not a regular file")
                  | _ => Ok tt
                  end) in
  let logical_growth := Z.max 0 (zlen pointer_bytes - current_size (current_path d)) in
  let* _ := lift (state_quota_guard d logical_growth (zlen pointer_bytes)) in
  let* _ := putD (set_current d (PointerFile 1 {| f_inode := inode; f_bytes := pointer_bytes; f_json := Some (local_pointer gid) |})) in
  let '(r, p') := match entry with Some r => (r, p) | None => new_entry p gid h end in
  let* _ := putP (set_active p' (Some r)) in
  _prune_locked (Some durable_roots).

(** ** Durable roots: the shared audit usage ([safe_shared_exhaustive_audit_usage]) *)
Definition subtree_usage (e : option fs_entry) : res Z :=
  match e with
  | None => Ok 0
  | Some SymLink => Err (StorageQuotaError "storage quota subtree must not be a symlink")
  | Some (Directory l) => directory_usage l
  | Some _ => Err (StorageQuotaError "storage quota subtree escaped its root")
  end.
Definition job_directory (identity : regex) (e : option fs_entry) : res (list ustr * Z) :=
  match e with
  | None => Ok ([], 0)
  | Some SymLink => Err (StorageQuotaError "shared exhaustive audit subtree is a symlink")
  | Some (Directory l) =>
      let! ids := mapM_res (fun ne : ustr * fs_entry =>
          match ne.2 with
          | Directory _ => let! _ := raise_if (negb (fullmatch identity ne.1))
                                       (StorageQuotaError "shared exhaustive audit subtree has an unsafe entry") in Ok ne.1
          | _ => Err (StorageQuotaError "shared exhaustive audit subtree has an unsafe entry")
          end) (sorted_by key_leb l) in
      let! used := directory_usage l in
      Ok (ids, used)
  | Some _ => Err (StorageQuotaError "shared exhaustive audit subtree escaped its root")
  end.
Definition quota_root_file (d : Disk) (acc : list ustr * Z) (nf : ustr * file_entry_of) : res (list ustr * Z) :=
  match nf.2 with
  | NotAFile => Err (StorageQuotaError "state quota coordination file is unsafe")
  | PlainFile f =>
      let size := zlen (f_bytes f) in
      let! _ := raise_if (negb (st_nlink (f_inode f) d =? 1) || (size <? 1) || (MAXIMUM_COORDINATION_FILE_BYTES <? size))
                  (StorageQuotaError "state quota coordination file has an invalid size") in
      match f_json f with
      | None => Err (StorageQuotaError "state quota coordination file is not strict JSON")
      | Some (JObj members) =>
          let! _ := raise_if (negb (bool_decide (f_bytes f = canonical_line (JObj members))))
                      (StorageQuotaError "state quota coordination file is not canonical JSON") in
          let! _ := raise_if (negb (has_fields members [us "schema_version"; us "owner_id"; us "generation_id"]))
                      (StorageQuotaError "map-reduce generation root fields are invalid") in
          match string_member (us "owner_id") members, string_member (us "generation_id") members with
          | Some owner, Some gid =>
              let! _ := raise_if (negb (bool_decide (string_member (us "schema_version") members = Some GENERATION_GC_ROOT_SCHEMA))
                                  || negb (fullmatch MAP_REDUCE_JOB owner) || negb (fullmatch GENERATION_ID gid)
                                  || negb (bool_decide (nf.1 = root_name owner)))
                          (StorageQuotaError "map-reduce generation root identity is invalid") in
              let! total := checked_add acc.2 size "shared exhaustive audit usage" in
              Ok (acc.1 ++ [owner], total)
          | _, _ => Err (StorageQuotaError "map-reduce generation root identity is invalid")
          end
      | Some _ => Err (StorageQuotaError "state quota coordination file is not canonical JSON")
      end
  end.
Definition prospective_job (identity : regex) (message : string) (job : option ustr) (ids : list ustr) : res (list ustr) :=
  match job with
  | None => Ok ids
  | Some id => let! _ := raise_if (negb (fullmatch identity id)) (StorageQuotaError message) in Ok (ids ++ [id])
  end.
Definition safe_shared_exhaustive_audit_usage (d : Disk) (prospective_audit_job_id prospective_map_job_id : option ustr) : res (Z * Z) :=
  let! audits := job_directory AUDIT_JOB (audit_jobs d) in
  let! total := checked_add 0 audits.2 "shared exhaustive audit usage" in
  let! maps := job_directory MAP_REDUCE_JOB (map_reduce_jobs d) in
  let! total := checked_add total maps.2 "shared exhaustive audit usage" in
  let! roots := foldM (quota_root_file d) (maps.1, total) (sorted_roots d) in
  let! coordination := subtree_usage (provider_coordination d) in
  let! total := checked_add roots.2 coordination "shared exhaustive audit usage" in
  let! audit_ids := prospective_job AUDIT_JOB "prospective exhaustive audit job ID is invalid" prospective_audit_job_id audits.1 in
  let! map_ids := prospective_job MAP_REDUCE_JOB "prospective map-reduce job ID is invalid" prospective_map_job_id roots.1 in
  Ok (total, zlen (remove_dups audit_ids) + zlen (remove_dups map_ids)).

(** ** Durable roots: acquisition, claim and release *)
Definition quota_rejection (m : res unit) : res unit :=
  match m with
  | Err e => if is_storage_quota_error e then Err (RuntimeError "MCP state quota rejected generation GC root") else Err e
  | Ok _ => Ok tt
  end.
Definition root_admission (d : Disk) (owner : ustr) (size : Z) : res unit :=
  let! _ := state_quota_guard d size (2 * size) in
  let! usage := safe_shared_exhaustive_audit_usage d None (Some owner) in
  let! _ := raise_if ((store_audit_max_total_bytes lim <? usage.1) || (store_audit_max_total_bytes lim - usage.1 <? size)
                      || (store_audit_max_total_bytes lim - usage.1 <? 2 * size))
              (RuntimeError "shared exhaustive audit total quota rejected generation root") in
  raise_if (store_audit_max_jobs lim <? usage.2)
    (RuntimeError "shared exhaustive audit job quota rejected generation root").
(** [inode] is that of the temporary file that is linked to the root's name; the flock is
    held from the test of the name to the link, which so finds no file there. *)
Definition _acquire_generation_gc_root_locked (owner gid : ustr) (roots : list (ustr * ustr)) (inode : Z) : M unit :=
  let encoded := _canonical_generation_gc_root owner gid in
  let* d := getD in
  let* _ := lift (raise_if (negb (is_plain_directory d gid)) (RuntimeError "generation GC root references a missing generation")) in
  match generation_gc_roots d !! root_name owner with
  | Some e =>
      let* existing := lift (_read_generation_gc_root d (root_name owner) e [1]) in
      lift (raise_if (negb (bool_decide (existing = (owner, gid))) || negb (bool_decide (dict_get owner roots = Some gid)))
              (RuntimeError "generation GC root already binds another generation"))
  | None =>
      let* _ := lift (quota_rejection (root_admission d owner (zlen encoded))) in
      putD (set_roots d (<[root_name owner := PlainFile {| f_inode := inode; f_bytes := encoded;
                             f_json := Some (generation_gc_root_payload owner gid) |}]> (generation_gc_roots d)))
  end.
Definition acquire_generation_gc_root (owner gid : ustr) (inode : Z) : M unit :=
  let* _ := lift (raise_if (negb (fullmatch GENERATION_GC_ROOT_OWNER owner)) (RuntimeError "generation GC root owner is invalid")) in
  let* _ := lift (raise_if (negb (fullmatch GENERATION_ID gid)) (RuntimeError "generation GC root generation is invalid")) in
  let* _ := _ensure_process_identity in
  let* roots := _durable_generation_roots_locked in
  _acquire_generation_gc_root_locked owner gid roots inode.

Definition _durable_current_generation_id_locked (d : Disk) : res ustr :=
  match current_path d with
  | PointerFile links f =>
      let size := zlen (f_bytes f) in
      let! _ := raise_if (negb (links =? 1) || (size <? 1) || (4 * 1024 <? size)) (RuntimeError "durable current generation pointer is unsafe") in
      match f_json f with
      | None => Err (RuntimeError "durable current generation pointer is not strict JSON")
      | Some (JObj members) =>
          let! _ := raise_if (negb (has_fields members [us "schema_version"; us "generation_id"]))
                      (RuntimeError "durable current generation pointer fields are invalid") in
          let! gid := of_option (RuntimeError "durable current generation pointer identity is invalid")
                        (string_member (us "generation_id") members) in
          let! _ := raise_if (negb (bool_decide (string_member (us "schema_version") members = Some LOCAL_POINTER_SCHEMA))
                              || negb (fullmatch GENERATION_ID gid) || negb (bool_decide (f_bytes f = canonical_line (JObj members))))
                      (RuntimeError "durable current generation pointer identity is invalid") in
          let! _ := raise_if (negb (is_plain_directory d gid)) (RuntimeError "durable current generation is missing") in
          Ok gid
      | Some _ => Err (RuntimeError "durable current generation pointer fields are invalid")
      end
  | _ => Err (RuntimeError "durable current generation pointer is missing or unsafe")
  end.

(** The roots whose owner is the one the callback derives from their generation. *)
Definition match_owner (owner_for_generation : ustr -> res ustr) (acc : list (ustr * ustr)) (og : ustr * ustr) : res (list (ustr * ustr)) :=
  let! derived := owner_for_generation og.2 in
  let! _ := raise_if (negb (fullmatch GENERATION_GC_ROOT_OWNER derived)) (RuntimeError "derived generation GC root owner is invalid") in
  Ok (if bool_decide (derived = og.1) then acc ++ [og] else acc).
Definition claim_current_generation_gc_root (owner_for_generation : ustr -> res ustr) (inode : Z) : M (ustr * ustr * bool) :=
  let* _ := _ensure_process_identity in
  let* roots := _durable_generation_roots_locked in
  let* matching := lift (foldM (match_owner owner_for_generation) [] roots) in
  match matching with
  | _ :: _ :: _ => throw (RuntimeError "multiple durable jobs match one sealed query/profile")
  | [(owner, gid)] => ret (owner, gid, false)
  | [] =>
      let* d := getD in
      let* gid := lift (_durable_current_generation_id_locked d) in
      let* owner := lift (owner_for_generation gid) in
      let* _ := lift (raise_if (negb (fullmatch GENERATION_GC_ROOT_OWNER owner)) (RuntimeError "derived generation GC root owner is invalid")) in
      let* _ := _acquire_generation_gc_root_locked owner gid roots inode in
      ret (owner, gid, true)
  end.
Definition verify_generation_gc_root (owner gid : ustr) : M unit :=
  let* _ := _ensure_process_identity in
  let* roots := _durable_generation_roots_locked in
  lift (raise_if (negb (bool_decide (dict_get owner roots = Some gid)))
          (RuntimeError "nonterminal job is missing its durable generation GC root")).
Definition generation_for_gc_root (owner : ustr) : M (option ustr) :=
  let* _ := lift (raise_if (negb (fullmatch GENERATION_GC_ROOT_OWNER owner)) (RuntimeError "generation GC root owner is invalid")) in
  let* _ := _ensure_process_identity in
  let* roots := _durable_generation_roots_locked in
  ret (dict_get owner roots).
Definition generation_gc_roots_snapshot : M (list (ustr * ustr)) :=
  let* _ := _ensure_process_identity in _durable_generation_roots_locked.
Definition release_generation_gc_root (owner gid : ustr) : M unit :=
  let* _ := _ensure_process_identity in
  let* roots := _durable_generation_roots_locked in
  match dict_get owner roots with
  | None => ret tt
  | Some existing =>
      let* _ := lift (raise_if (negb (bool_decide (existing = gid))) (RuntimeError "generation GC root release identity is stale")) in
      let* d := getD in
      let* _ := lift (state_quota_transaction d) in
      putD (set_roots d (delete (root_name owner) (generation_gc_roots d)))
  end.
End Operations.

(** The quota model as the store's interface: [view] is the state root as the quota sees
    it, [free] what the file system reports. *)
Definition quota_of_view (view : Disk -> quota_state) (draws : list ustr) (inode : Z) (free : option Z) : StateQuota := {|
  state_quota_guard d logical peak := let! _ := ensure_global_state_growth (view d) logical (Some peak) inode free in Ok tt;
  state_quota_transaction d :=
    quota_transaction (view d)
      (let! _ := durable_policy_locked (view d) None inode free in let! _ := durable_reservations_locked (view d) in Ok tt);
  state_quota_reserve d size := let! _ := reserve_global_state_growth (view d) size None draws inode inode free in Ok tt;
|}.
