(* ===== verification/StoreProof.v ===== *)
(** Properties of the store's operations one at a time: what an eviction removes and keeps,
    which generations are retained, what a reading of the durable roots establishes. *)
From S2P Require Export Store.

#[local] Opaque re_cas_prefix re_hex64 GENERATION_ID GENERATION_GC_ROOT_OWNER GENERATION_GC_ROOT_TEMP MAP_REDUCE_JOB.

(** ** The rules for the two halves of the state *)
Section Ends.
Context (P : Store -> Prop).
Lemma ends_putD d s : P {| disk := d; proc := proc s |} -> ends P (putD d) s.
Proof. by intros H r s' [= <- <-]. Qed.
Lemma ends_putP p s : P {| disk := disk s; proc := p |} -> ends P (putP p) s.
Proof. by intros H r s' [= <- <-]. Qed.
Lemma ends_bind_getD {B} (k : Disk -> M B) s : ends P (k (disk s)) s -> ends P (let* d := getD in k d) s.
Proof. by intros H r s' H'; apply (H r s'). Qed.
Lemma ends_bind_getP {B} (k : Process -> M B) s : ends P (k (proc s)) s -> ends P (let* p := getP in k p) s.
Proof. by intros H r s' H'; apply (H r s'). Qed.
Lemma ends_bind_putD {B} d (k : unit -> M B) s : ends P (k tt) {| disk := d; proc := proc s |} -> ends P (let* u := putD d in k u) s.
Proof. by intros H r s' H'; apply (H r s'). Qed.
Lemma ends_bind_putP {B} p (k : unit -> M B) s : ends P (k tt) {| disk := disk s; proc := p |} -> ends P (let* u := putP p in k u) s.
Proof. by intros H r s' H'; apply (H r s'). Qed.
End Ends.

(** [ends_steps tac] goes through the code; [tac] proves [P] where an operation can stop. *)
Ltac ends_steps tac :=
  repeat first
    [ progress cbv zeta
    | apply ends_ret; solve [tac] | apply ends_throw; solve [tac] | apply ends_lift; solve [tac]
    | apply ends_bind_getD | apply ends_bind_getP | apply ends_bind_putD | apply ends_bind_putP
    | apply ends_putD | apply ends_putP
    | apply ends_bind_lift; [solve [tac]|intros ? ?]
    | match goal with |- ends _ (match ?x with _ => _ end) _ => destruct x eqn:? end ].

Section Runs.
Context {B : Type} (Q : res B -> Store -> Prop).
Lemma runs_bind_getD (k : Disk -> M B) s : runs Q (k (disk s)) s -> runs Q (let* d := getD in k d) s.
Proof. done. Qed.
Lemma runs_bind_getP (k : Process -> M B) s : runs Q (k (proc s)) s -> runs Q (let* p := getP in k p) s.
Proof. done. Qed.
Lemma runs_bind_putD d (k : unit -> M B) s : runs Q (k tt) {| disk := d; proc := proc s |} -> runs Q (let* u := putD d in k u) s.
Proof. done. Qed.
Lemma runs_bind_putP p (k : unit -> M B) s : runs Q (k tt) {| disk := disk s; proc := p |} -> runs Q (let* u := putP p in k u) s.
Proof. done. Qed.
End Runs.
Lemma runs_putD (Q : res unit -> Store -> Prop) d s : Q (Ok tt) {| disk := d; proc := proc s |} -> runs Q (putD d) s.
Proof. by intros H r s' [= <- <-]. Qed.

(** ** Eviction of directories *)
Definition deletes (retained : list ustr) (p : Process) (g : ustr) : bool := negb (bool_decide (g ∈ retained)) && negb (is_pinned p g).
Definition drops (retained : list ustr) (p : Process) (g : ustr) : bool :=
  negb (is_pinned p g) && (is_inactive p g || negb (bool_decide (g ∈ retained))).

(** Everything of a store but the generation directories and the table of entries. *)
Record same_frame (s s' : Store) : Prop := {
  frame_heap : heap (proc s') = heap (proc s);
  frame_active : active (proc s') = active (proc s);
  frame_os : os_pid (proc s') = os_pid (proc s);
  frame_pid : lifecycle_pid (proc s') = lifecycle_pid (proc s);
  frame_objects : objects_sha256 (disk s') = objects_sha256 (disk s);
  frame_incoming : incoming (disk s') = incoming (disk s);
  frame_roots : generation_gc_roots (disk s') = generation_gc_roots (disk s);
  frame_current : current_path (disk s') = current_path (disk s);
}.
Lemma same_frame_refl s : same_frame s s.
Proof. by split. Qed.
Lemma same_frame_trans s1 s2 s3 : same_frame s1 s2 -> same_frame s2 s3 -> same_frame s1 s3.
Proof. intros [] []. split; congruence. Qed.

Section PruneOne.
Context (retained : list ustr) (s : Store) (g : ustr).
Notation s' := (prune_one retained s g).

Lemma prune_one_frame : same_frame s s'.
Proof. unfold prune_one. destruct (is_inactive _ _ && _), (bool_decide _ || _); by split. Qed.
Lemma prune_one_generations g' :
  generations (disk s') !! g' = if bool_decide (g' = g) && deletes retained (proc s) g then None else generations (disk s) !! g'.
Proof.
  unfold prune_one, deletes. rewrite <- negb_orb. destruct (decide (g' = g)) as [->|Hne];
    [rewrite (bool_decide_eq_true_2 (g = g)) by done|rewrite (bool_decide_eq_false_2 (g' = g)) by done].
  - destruct (bool_decide _ || _); cbn; [done|]. by rewrite lookup_delete_eq.
  - destruct (bool_decide _ || _); cbn; [done|]. by rewrite lookup_delete_ne.
Qed.
Lemma prune_one_entries g' :
  entries (proc s') !! g' = if bool_decide (g' = g) && drops retained (proc s) g then None else entries (proc s) !! g'.
Proof.
  unfold prune_one, drops. destruct (decide (g' = g)) as [->|Hne];
    [rewrite (bool_decide_eq_true_2 (g = g)) by done|rewrite (bool_decide_eq_false_2 (g' = g)) by done].
  - destruct (is_inactive (proc s) g), (is_pinned (proc s) g), (bool_decide (g ∈ retained)); cbn;
      by rewrite ?lookup_delete_eq.
  - destruct (is_inactive (proc s) g), (is_pinned (proc s) g), (bool_decide (g ∈ retained)); cbn;
      by rewrite ?lookup_delete_ne.
Qed.
End PruneOne.

(** What a generation's fate depends on: its own entry. *)
Lemma is_pinned_frame s s' g : same_frame s s' -> entries (proc s') !! g = entries (proc s) !! g -> is_pinned (proc s') g = is_pinned (proc s) g.
Proof. intros [Hh _ _ _ _ _ _ _] He. unfold is_pinned, references_at. by rewrite He, Hh. Qed.
Lemma is_inactive_frame s s' g :
  same_frame s s' -> entries (proc s') !! g = entries (proc s) !! g -> is_inactive (proc s') g = is_inactive (proc s) g.
Proof. intros [_ Ha _ _ _ _ _ _] He. unfold is_inactive. by rewrite He, Ha. Qed.

Lemma prune_fold retained l s :
  NoDup l -> let s' := fold_left (prune_one retained) l s in
  same_frame s s' /\
  (forall g, generations (disk s') !! g = if bool_decide (g ∈ l) && deletes retained (proc s) g then None else generations (disk s) !! g) /\
  (forall g, entries (proc s') !! g = if bool_decide (g ∈ l) && drops retained (proc s) g then None else entries (proc s) !! g).
Proof.
  intros Hnd. revert s. induction Hnd as [|g0 l Hg0 Hnd IH]; intros s; cbn [fold_left].
  { split; [apply same_frame_refl|]. by split; intros g; rewrite bool_decide_eq_false_2 by apply not_elem_of_nil. }
  destruct (IH (prune_one retained s g0)) as (Hf & Hg & He). pose proof (prune_one_frame retained s g0) as Hf0.
  assert (forall g, g ≠ g0 -> entries (proc (prune_one retained s g0)) !! g = entries (proc s) !! g) as Hother.
  { intros g Hne. rewrite prune_one_entries. by rewrite bool_decide_eq_false_2. }
  split; [by eapply same_frame_trans|]. split; intros g.
  - rewrite Hg, prune_one_generations. destruct (decide (g = g0)) as [->|Hne].
    + rewrite (bool_decide_eq_false_2 (g0 ∈ l)) by done. rewrite (bool_decide_eq_true_2 (g0 ∈ g0 :: l)) by left.
      by rewrite bool_decide_eq_true_2.
    + rewrite (bool_decide_eq_false_2 (g = g0)) by done. unfold deletes. rewrite (is_pinned_frame s) by auto.
      by rewrite (bool_decide_ext (g ∈ g0 :: l) (g ∈ l)) by (rewrite elem_of_cons; tauto).
  - rewrite He, prune_one_entries. destruct (decide (g = g0)) as [->|Hne].
    + rewrite (bool_decide_eq_false_2 (g0 ∈ l)) by done. rewrite (bool_decide_eq_true_2 (g0 ∈ g0 :: l)) by left.
      by rewrite bool_decide_eq_true_2.
    + rewrite (bool_decide_eq_false_2 (g = g0)) by done. unfold drops. rewrite (is_pinned_frame s), (is_inactive_frame s) by auto.
      by rewrite (bool_decide_ext (g ∈ g0 :: l) (g ∈ l)) by (rewrite elem_of_cons; tauto).
Qed.

(** ** The candidates: the plain directories with a valid name, newest first *)
Definition is_candidate (d : Disk) (g : ustr) : bool := is_plain_directory d g && fullmatch GENERATION_ID g.
Definition candidate_of (ne : ustr * dir_entry) : option (Z * ustr) :=
  match ne.2 with
  | PlainDirectory dir => if fullmatch GENERATION_ID ne.1 then Some (st_mtime_ns dir, ne.1) else None
  | NotADirectory => None
  end.
Lemma candidates_elem d t g :
  (t, g) ∈ eviction_candidates d <->
  exists dir, generations d !! g = Some (PlainDirectory dir) /\ fullmatch GENERATION_ID g = true /\ t = st_mtime_ns dir.
Proof.
  unfold eviction_candidates. rewrite sorted_by_Permutation, list_elem_of_omap. split.
  - intros ([g' e] & Hin & H). apply elem_of_map_to_list in Hin. cbn in H. destruct e as [dir|]; [|done].
    destruct (fullmatch GENERATION_ID g') eqn:E; [|done]. injection H as <- <-. eauto.
  - intros (dir & Hg & Hm & ->). exists (g, PlainDirectory dir). cbn. rewrite Hm. split; [by apply elem_of_map_to_list|done].
Qed.
Lemma candidates_names d g : g ∈ map snd (eviction_candidates d) <-> is_candidate d g = true.
Proof.
  unfold is_candidate, is_plain_directory. rewrite andb_true_iff. split.
  - intros ([t g'] & -> & H)%list_elem_of_fmap. apply candidates_elem in H as (dir & Hg & Hm & _). cbn. by rewrite Hg.
  - intros [Hp Hm]. destruct (generations d !! g) as [[dir|]|] eqn:Hg; [|done..].
    apply list_elem_of_fmap. exists (st_mtime_ns dir, g). split; [done|]. apply candidates_elem. eauto.
Qed.
Lemma omap_fst_NoDup l : NoDup l.*1 -> NoDup (map snd (omap candidate_of l)).
Proof.
  induction l as [|[g e] l IH]; cbn; intros Hnd; [constructor|]. apply NoDup_cons in Hnd as [Hg Hnd].
  destruct e as [dir|]; cbn; [|by apply IH]. destruct (fullmatch GENERATION_ID g); cbn; [|by apply IH].
  apply NoDup_cons. split; [|by apply IH]. intros ([t g'] & Heq & Hin)%list_elem_of_fmap. cbn in Heq. subst g'. apply Hg.
  apply list_elem_of_omap in Hin as ([g1 [d1|]] & Hin & H); cbn in H; [|done]. destruct (fullmatch GENERATION_ID g1); [|done].
  injection H as _ <-. apply list_elem_of_fmap. by eexists (_, _).
Qed.
Lemma candidates_NoDup d : NoDup (map snd (eviction_candidates d)).
Proof.
  unfold eviction_candidates. rewrite (sorted_by_Permutation newer_leb). apply (omap_fst_NoDup (map_to_list (generations d))).
  apply NoDup_fst_map_to_list.
Qed.

(** ** The content addressed objects *)
Lemma referenced_digests_elem d refs g dir :
  referenced_digests d = Some refs -> generations d !! g = Some (PlainDirectory dir) -> fullmatch GENERATION_ID g = true ->
  exists db l, gd_database dir = Some db /\ marked_digests db = Some l /\ l ⊆ refs.
Proof.
  unfold referenced_digests. intros H Hg Hm. destruct (mapM _ _) as [ls|] eqn:E; [|done]. injection H as <-.
  apply mapM_Some in E. apply elem_of_map_to_list in Hg. apply list_elem_of_lookup in Hg as [i Hi].
  destruct (Forall2_lookup_l _ _ _ _ _ E Hi) as (l & Hl & Hmark). unfold mark_generation in Hmark. cbn in Hmark. rewrite Hm in Hmark.
  destruct (gd_database dir) as [db|]; [|done]. cbn in Hmark. exists db, l. repeat split; [done|].
  intros x Hx. apply list_elem_of_join. exists l. split; [done|]. by eapply list_elem_of_lookup_2.
Qed.

(** What a sweep leaves of one object. *)
Lemma prune_cas_item d pre dig :
  cas_item_at (_prune_cas_locked d) (pre, dig) =
  match referenced_digests d, cas_item_at d (pre, dig) with
  | Some refs, Some it => if fullmatch re_cas_prefix pre && negb (bool_decide (keeps_item refs (dig, it))) then None else Some it
  | _, found => found
  end.
Proof.
  unfold _prune_cas_locked. destruct (referenced_digests d) as [refs|]; [|done].
  unfold cas_item_at. destruct (objects_sha256 d) as [prefixes|] eqn:E; [|by rewrite E]. cbn.
  rewrite map_lookup_imap. destruct (prefixes !! pre) as [[items|]|]; cbn; [|done..].
  destruct (fullmatch re_cas_prefix pre); cbn; [|by destruct (items !! dig)].
  case_bool_decide as Hempty; cbn.
  - destruct (items !! dig) as [it|] eqn:Hit; [|done]. rewrite bool_decide_eq_false_2; [done|]. intros Hk.
    assert (filter (keeps_item refs) items !! dig = Some it) as Hf by (by apply map_lookup_filter_Some).
    by rewrite Hempty, lookup_empty in Hf.
  - destruct (items !! dig) as [it|] eqn:Hit.
    + destruct (decide (keeps_item refs (dig, it))) as [Hk|Hk];
      [rewrite bool_decide_eq_true_2 by done|rewrite bool_decide_eq_false_2 by done]; cbn; [by apply map_lookup_filter_Some|].
      apply map_lookup_filter_None. right. intros x Hx. by simplify_eq.
    + apply map_lookup_filter_None. by left.
Qed.
Lemma prune_cas_keeps d refs pre dig it :
  referenced_digests d = Some refs -> cas_item_at d (pre, dig) = Some it -> dig ∈ refs ->
  cas_item_at (_prune_cas_locked d) (pre, dig) = Some it.
Proof.
  intros Hr Hi Hin. rewrite prune_cas_item, Hr, Hi. rewrite (bool_decide_eq_true_2 (keeps_item _ _)); [by rewrite andb_false_r|].
  unfold keeps_item. cbn. by destruct it; [intros _|].
Qed.
Lemma prune_cas_rest d :
  generations (_prune_cas_locked d) = generations d /\ incoming (_prune_cas_locked d) = incoming d /\
  generation_gc_roots (_prune_cas_locked d) = generation_gc_roots d /\ current_path (_prune_cas_locked d) = current_path d.
Proof. unfold _prune_cas_locked. destruct (referenced_digests d); [|done]. by destruct (objects_sha256 d). Qed.

(** ** A whole eviction *)
Section Prune.
Context (lim : StoreLimits) (roots : list (ustr * ustr)) (s : Store).
Notation retained := (retained_names lim (disk s) (proc s) roots).
Notation s' := (prune_with lim roots s).

Lemma prune_generations g :
  generations (disk s') !! g = if is_candidate (disk s) g && deletes retained (proc s) g then None else generations (disk s) !! g.
Proof.
  destruct (prune_fold retained _ s (candidates_NoDup (disk s))) as (_ & Hg & _). unfold prune_with. cbn [disk].
  destruct (prune_cas_rest (disk (fold_left (prune_one retained) (map snd (eviction_candidates (disk s))) s))) as (-> & _). rewrite Hg.
  destruct (is_candidate (disk s) g) eqn:E; [by rewrite bool_decide_eq_true_2 by by apply candidates_names|].
  rewrite bool_decide_eq_false_2; [done|]. rewrite candidates_names. by rewrite E.
Qed.
Lemma prune_entries g :
  entries (proc s') !! g = if is_candidate (disk s) g && drops retained (proc s) g then None else entries (proc s) !! g.
Proof.
  destruct (prune_fold retained _ s (candidates_NoDup (disk s))) as (_ & _ & He). unfold prune_with. cbn [proc]. rewrite He.
  destruct (is_candidate (disk s) g) eqn:E; [by rewrite bool_decide_eq_true_2 by by apply candidates_names|].
  rewrite bool_decide_eq_false_2; [done|]. rewrite candidates_names. by rewrite E.
Qed.
Lemma prune_process : heap (proc s') = heap (proc s) /\ active (proc s') = active (proc s) /\
  os_pid (proc s') = os_pid (proc s) /\ lifecycle_pid (proc s') = lifecycle_pid (proc s).
Proof. by destruct (prune_fold retained _ s (candidates_NoDup (disk s))) as ([] & _). Qed.
Lemma prune_disk : incoming (disk s') = incoming (disk s) /\ generation_gc_roots (disk s') = generation_gc_roots (disk s) /\
  current_path (disk s') = current_path (disk s).
Proof.
  destruct (prune_fold retained _ s (candidates_NoDup (disk s))) as ([] & _). unfold prune_with. cbn [disk].
  destruct (prune_cas_rest (disk (fold_left (prune_one retained) (map snd (eviction_candidates (disk s))) s))) as (_ & -> & -> & ->). done.
Qed.
(** An object that a remaining generation mentions stays. *)
Lemma prune_objects g dir db l pre dig it :
  generations (disk s') !! g = Some (PlainDirectory dir) -> fullmatch GENERATION_ID g = true ->
  gd_database dir = Some db -> marked_digests db = Some l -> dig ∈ l ->
  cas_item_at (disk s) (pre, dig) = Some it -> cas_item_at (disk s') (pre, dig) = Some it.
Proof.
  unfold prune_with. cbn [disk]. set (s1 := fold_left _ _ s). intros Hg Hm Hdb Hl Hin Hit.
  destruct (prune_fold retained _ s (candidates_NoDup (disk s))) as (Hf & _). fold s1 in Hf.
  assert (cas_item_at (disk s1) (pre, dig) = Some it) as Hit1.
  { unfold cas_item_at. by rewrite (frame_objects _ _ Hf). }
  destruct (prune_cas_rest (disk s1)) as (Hgen & _). rewrite Hgen in Hg.
  destruct (referenced_digests (disk s1)) as [refs|] eqn:Hr.
  - destruct (referenced_digests_elem _ _ _ _ Hr Hg Hm) as (db' & l' & Hdb' & Hl' & Hsub). simplify_eq.
    eapply prune_cas_keeps; eauto.
  - rewrite prune_cas_item, Hr. by rewrite Hit1.
Qed.
End Prune.

(** ** Rank in a sorted list *)
Lemma take_rank {A} `{EqDecision A} (leb : A -> A -> bool) l n x :
  (forall a b, leb a b = true -> leb b a = true -> a = b) ->
  StronglySorted (fun a b => leb a b = true) l -> NoDup l ->
  x ∈ take n l <-> x ∈ l /\ (length (List.filter (fun y => leb y x && negb (bool_decide (y = x))) l) < n)%nat.
Proof.
  intros Hanti Hs. revert n. induction Hs as [|a l Hs IH Ha]; intros n Hnd; [rewrite take_nil; set_solver|].
  apply NoDup_cons in Hnd as [Hnin Hnd]. destruct n as [|n]; [cbn [take]; split; [by intros ?%not_elem_of_nil|lia]|].
  cbn [take List.filter]. rewrite !elem_of_cons, (IH n Hnd). destruct (decide (x = a)) as [->|Hne].
  - rewrite (bool_decide_eq_true_2 (a = a)) by done. rewrite andb_false_r.
    assert (List.filter (fun y => leb y a && negb (bool_decide (y = a))) l = []) as ->; [|cbn; split; [by split; [left|lia]|by left]].
    clear IH Hnd. induction l as [|b l IH]; [done|]. apply not_elem_of_cons in Hnin as [Hab Hnin]. inversion Ha; subst. inversion Hs; subst.
    cbn. destruct (leb b a) eqn:E; [destruct Hab; by apply Hanti|]. cbn. by apply IH.
  - split; [intros [?|[Hin Hlt]]; [done|]|intros [[?|Hin] Hlt]; [done|]]; rewrite Forall_forall in Ha;
      rewrite (Ha x Hin), (bool_decide_eq_false_2 (a = x)) in * by congruence; cbn in *; [split; [by right|lia]|right; split; [done|lia]].
Qed.

Lemma newer_leb_total a b : newer_leb a b = true \/ newer_leb b a = true.
Proof.
  unfold newer_leb. destruct (Z.lt_trichotomy a.1 b.1) as [?|[->|?]].
  - right. apply orb_true_iff. left. lia.
  - rewrite Z.eqb_refl. cbn. destruct (ustr_leb_total a.2 b.2) as [->| ->]; [right|left]; apply orb_true_r.
  - left. apply orb_true_iff. left. lia.
Qed.
Lemma newer_leb_spec a b : newer_leb a b = true <-> b.1 < a.1 \/ (a.1 = b.1 /\ ustr_leb b.2 a.2 = true).
Proof. unfold newer_leb. rewrite orb_true_iff, andb_true_iff, Z.ltb_lt, Z.eqb_eq. done. Qed.
Lemma newer_leb_trans a b c : newer_leb a b = true -> newer_leb b c = true -> newer_leb a c = true.
Proof.
  rewrite !newer_leb_spec. intros [?|[? H]] [?|[? H']]; [left; lia..|]. right. split; [lia|]. by eapply ustr_leb_trans.
Qed.
Lemma newer_leb_antisym a b : newer_leb a b = true -> newer_leb b a = true -> a = b.
Proof.
  rewrite !newer_leb_spec. intros [?|[? H]] [?|[? H']]; [lia..|]. destruct a, b; cbn in *. f_equal; [done|]. by apply ustr_leb_antisym.
Qed.

(** ** Which directories an eviction keeps *)
Definition newer_candidates (d : Disk) (c : Z * ustr) : list (Z * ustr) :=
  List.filter (fun c' => newer_leb c' c && negb (bool_decide (c' = c))) (eviction_candidates d).
(** The contract: everything that is not a generation directory, the newest [retention]
    generations, the active one, the rooted ones and those with a pin of this process. *)
Definition directory_kept (lim : StoreLimits) (roots : list (ustr * ustr)) (s : Store) (g : ustr) : Prop :=
  is_candidate (disk s) g = false
  \/ (exists t, (t, g) ∈ eviction_candidates (disk s) /\ zlen (newer_candidates (disk s) (t, g)) < retention lim)
  \/ active_generation (proc s) = Some g \/ g ∈ map snd roots \/ is_pinned (proc s) g = true.

Lemma newest_names lim d g :
  g ∈ map snd (take (Z.to_nat (retention lim)) (eviction_candidates d)) <->
  exists t, (t, g) ∈ eviction_candidates d /\ zlen (newer_candidates d (t, g)) < retention lim.
Proof.
  assert (forall t, (t, g) ∈ take (Z.to_nat (retention lim)) (eviction_candidates d) <->
                    (t, g) ∈ eviction_candidates d /\ zlen (newer_candidates d (t, g)) < retention lim) as H.
  { intros t. rewrite (take_rank newer_leb).
    - unfold newer_candidates, zlen. split; intros [? ?]; (split; [done|lia]).
    - apply newer_leb_antisym.
    - apply sorted_by_sorted; [apply newer_leb_total|apply newer_leb_trans].
    - apply (NoDup_fmap_1 snd). apply candidates_NoDup. }
  split; [intros ([t g'] & -> & Hin)%list_elem_of_fmap; exists t; by apply H|].
  intros (t & Ht%H). apply list_elem_of_fmap. by exists (t, g).
Qed.
Lemma deletes_spec lim roots s g :
  is_candidate (disk s) g && deletes (retained_names lim (disk s) (proc s) roots) (proc s) g = false <-> directory_kept lim roots s g.
Proof.
  unfold directory_kept, deletes, retained_names. rewrite andb_false_iff, andb_false_iff, !negb_false_iff, bool_decide_eq_true.
  rewrite !elem_of_app, newest_names. destruct (active_generation (proc s)) as [a|].
  - rewrite list_elem_of_singleton. split; [|intros [?|[?|[[= ->]|?]]]; tauto]. intros [?|[[?|[->|?]]|?]]; tauto.
  - rewrite elem_of_nil. split; [tauto|]. intros [?|[?|[?|[?|?]]]]; [tauto..| | |]; [done|tauto|tauto].
Qed.

Lemma prune_kept lim roots s g : directory_kept lim roots s g -> generations (disk (prune_with lim roots s)) !! g = generations (disk s) !! g.
Proof. rewrite prune_generations. by intros ->%deletes_spec. Qed.

(** C23: An eviction keeps exactly the directories the retention policy names: the newest
    [retention] generations by modification time, the active one, the ones a durable root
    binds, the ones a request has pinned, and everything that is no generation.  Whatever
    is kept is kept unchanged and everything else is gone. *)
Theorem eviction_exact (lim : StoreLimits) (roots : list (ustr * ustr)) (s : Store) (g : ustr) :
  (directory_kept lim roots s g -> generations (disk (prune_with lim roots s)) !! g = generations (disk s) !! g) /\
  (~ directory_kept lim roots s g -> generations (disk (prune_with lim roots s)) !! g = None).
Proof.
  split; [apply prune_kept|]. rewrite prune_generations, <- deletes_spec. by intros ->%not_false_is_true.
Qed.

(** ** The durable roots *)
Lemma root_name_inj a b : root_name a = root_name b -> a = b.
Proof. apply app_inv_tail. Qed.

(** What a file must be for a root to be read from it. *)
Record root_file (name : ustr) (f : small_file) (owner gid : ustr) : Prop := {
  rf_name : name = root_name owner;
  rf_owner : fullmatch GENERATION_GC_ROOT_OWNER owner = true;
  rf_generation : fullmatch GENERATION_ID gid = true;
  rf_bytes : f_bytes f = _canonical_generation_gc_root owner gid;
  rf_size : zlen (f_bytes f) <= MAXIMUM_GENERATION_GC_ROOT_BYTES;
  rf_json : exists members, f_json f = Some (JObj members) /\
    has_fields members [us "schema_version"; us "owner_id"; us "generation_id"] = true /\
    string_member (us "schema_version") members = Some GENERATION_GC_ROOT_SCHEMA /\
    string_member (us "owner_id") members = Some owner /\ string_member (us "generation_id") members = Some gid;
}.
Lemma read_root_spec d name e allowed owner gid :
  _read_generation_gc_root d name e allowed = Ok (owner, gid) <->
  exists f, e = PlainFile f /\ root_file name f owner gid /\ st_nlink (f_inode f) d ∈ allowed.
Proof.
  unfold _read_generation_gc_root. destruct e as [f|]; [|split; [done|by intros (? & ? & _)]]. split.
  - intros H. inv_res H. bsplit. destruct (f_json f) as [[| | | | |members]|] eqn:Ej; [done..| |done]. inv_res H. simplify_eq.
    bsplit. subst. exists f. split; [done|]. split; [|done]. split; [done|done|done|done|lia|]. by exists members.
  - intros (f' & [= <-] & [Hn Ho Hg Hb Hs (members & Hj & Hf & H1 & H2 & H3)] & Hl). rewrite Hj, Hf, H1, H2, H3. cbn [res_bind of_option raise_if].
    assert (zlen (f_bytes f) <> 0) as Hne.
    { rewrite Hb. unfold _canonical_generation_gc_root, canonical_line. rewrite zlen_app, zlen_cons, zlen_nil.
      pose proof (zlen_nonneg (canonical_json_bytes (generation_gc_root_payload owner gid))). lia. }
    pose proof (zlen_nonneg (f_bytes f)).
    rewrite (bool_decide_eq_true_2 (st_nlink _ _ ∈ _)) by done.
    replace (zlen (f_bytes f) <? 1) with false by lia. replace (MAXIMUM_GENERATION_GC_ROOT_BYTES <? zlen (f_bytes f)) with false by lia.
    cbn [negb orb raise_if res_bind]. rewrite bool_decide_eq_true_2 by done. cbn [negb raise_if res_bind].
    rewrite Ho, Hg, !bool_decide_eq_true_2 by done. done.
Qed.

(** The dictionary of the roots has, for every file, the owner and generation it binds. *)
Definition roots_of (d : Disk) (roots : list (ustr * ustr)) : Prop :=
  (forall name e, generation_gc_roots d !! name = Some e ->
     exists owner gid, _read_generation_gc_root d name e [1] = Ok (owner, gid) /\ is_plain_directory d gid = true /\
                       dict_get owner roots = Some gid) /\
  (forall owner gid, dict_get owner roots = Some gid ->
     exists e, generation_gc_roots d !! root_name owner = Some e /\ _read_generation_gc_root d (root_name owner) e [1] = Ok (owner, gid) /\
               is_plain_directory d gid = true).
Lemma sorted_roots_elem d name e : (name, e) ∈ sorted_roots d <-> generation_gc_roots d !! name = Some e.
Proof. unfold sorted_roots. by rewrite sorted_by_Permutation, elem_of_map_to_list. Qed.
Lemma sorted_roots_NoDup d : NoDup (sorted_roots d).*1.
Proof. unfold sorted_roots. rewrite sorted_by_Permutation. apply NoDup_fst_map_to_list. Qed.

Lemma fold_roots d roots : foldM (read_root d) [] (sorted_roots d) = Ok roots -> roots_of d roots.
Proof.
  intros H.
  assert ((forall name e, (name, e) ∈ sorted_roots d -> exists owner gid, _read_generation_gc_root d name e [1] = Ok (owner, gid) /\
             is_plain_directory d gid = true /\ dict_get owner roots = Some gid) /\
          (forall owner gid, dict_get owner roots = Some gid -> exists e, (root_name owner, e) ∈ sorted_roots d /\
             _read_generation_gc_root d (root_name owner) e [1] = Ok (owner, gid) /\ is_plain_directory d gid = true)) as [H1 H2].
  { revert H. apply (foldM_ok_invariant (read_root d) (fun done roots =>
      (forall name e, (name, e) ∈ done -> exists owner gid, _read_generation_gc_root d name e [1] = Ok (owner, gid) /\
             is_plain_directory d gid = true /\ dict_get owner roots = Some gid) /\
      (forall owner gid, dict_get owner roots = Some gid -> exists e, (root_name owner, e) ∈ done /\
             _read_generation_gc_root d (root_name owner) e [1] = Ok (owner, gid) /\ is_plain_directory d gid = true))).
    - split; [by intros ? ? ?%not_elem_of_nil|done].
    - intros done [name0 e0] rest st st' Hl [IH1 IH2] Hst. unfold read_root in Hst. inv_res Hst. apply negb_false_iff in Hr0.
      destruct r as [owner0 gid0]. cbn [fst snd] in *. apply read_root_spec in Hr as Hspec.
      destruct Hspec as (f0 & -> & Hrf0 & _). pose proof (rf_name _ _ _ _ Hrf0) as ->.
      assert (root_name owner0 ∉ done.*1) as Hfresh.
      { pose proof (sorted_roots_NoDup d) as Hnd. rewrite Hl, fmap_app in Hnd. apply NoDup_app in Hnd as (_ & Hnd & _).
        intros Hin. apply (Hnd _ Hin). by left. }
      split.
      + intros name e [Hin|[= -> ->]%list_elem_of_singleton]%elem_of_app.
        * destruct (IH1 _ _ Hin) as (owner & gid & Hrd & Hp & Hget). exists owner, gid. split; [done|]. split; [done|].
          rewrite dict_get_set, decide_False; [done|]. intros ->. apply Hfresh. apply read_root_spec in Hrd as (? & _ & [-> _ _ _ _ _] & _).
          apply list_elem_of_fmap. by exists (root_name owner0, e).
        * exists owner0, gid0. rewrite dict_get_set, decide_True by done. done.
      + intros owner gid. rewrite dict_get_set. destruct (decide (owner = owner0)) as [->|Hne].
        * intros [= <-]. exists (PlainFile f0). split; [apply elem_of_app; right; by left|done].
        * intros Hget. destruct (IH2 _ _ Hget) as (e & Hin & Hrd & Hp). exists e. split; [apply elem_of_app; by left|done]. }
  split.
  - intros name e Hn%sorted_roots_elem. eauto.
  - intros owner gid Hget. destruct (H2 _ _ Hget) as (e & Hin%sorted_roots_elem & ?). eauto.
Qed.

(** ** Reading the roots changes only the incoming directory *)
Record only_incoming (s s' : Store) : Prop := {
  oi_proc : proc s' = proc s;
  oi_generations : generations (disk s') = generations (disk s);
  oi_objects : objects_sha256 (disk s') = objects_sha256 (disk s);
  oi_roots : generation_gc_roots (disk s') = generation_gc_roots (disk s);
  oi_current : current_path (disk s') = current_path (disk s);
}.
Lemma only_incoming_refl s : only_incoming s s.
Proof. by split. Qed.

Section Roots.
Context {quota : StateQuota}.

Lemma reconcile_temporary_frame s0 name s : only_incoming s0 s -> ends (only_incoming s0) (reconcile_temporary name) s.
Proof.
  intros H. unfold reconcile_temporary. ends_steps ltac:(exact H). destruct H. by split.
Qed.
Lemma reconcile_frame s : ends (only_incoming s) _reconcile_generation_gc_root_temporaries_locked s.
Proof.
  unfold _reconcile_generation_gc_root_temporaries_locked. ends_steps ltac:(apply only_incoming_refl).
  apply ends_iter; [apply only_incoming_refl|]. intros name s1 Hs1. by apply reconcile_temporary_frame.
Qed.
Lemma durable_roots_frame s : ends (only_incoming s) _durable_generation_roots_locked s.
Proof.
  unfold _durable_generation_roots_locked. apply ends_bind; [intros e s1 H; by eapply reconcile_frame|].
  intros u s1 H. apply reconcile_frame in H. ends_steps ltac:(exact H).
Qed.
Lemma durable_roots_ok s roots s' : _durable_generation_roots_locked s = (Ok roots, s') -> roots_of (disk s') roots.
Proof.
  unfold _durable_generation_roots_locked. rewrite bindM_ok. intros (u & s1 & _ & H). change (lift (foldM (read_root (disk s1)) [] (sorted_roots (disk s1))) s1 = (Ok roots, s')) in H.
  apply lift_ok in H as [H ->]. by apply fold_roots.
Qed.
End Roots.
