(* ===== verification/StoreSafety.v ===== *)
(** What the store guarantees over every order of its operations.

    [run] is one operation of a process; [service] lets one process go through its
    operations in any order while its updater installs objects and moves directories into
    place; [world_step] lets several processes share the state root.  A process keeps what
    it serves; a durable root protects a generation from every process. *)
From S2P Require Export StoreProof.

#[local] Opaque re_cas_prefix re_hex64 GENERATION_ID GENERATION_GC_ROOT_OWNER GENERATION_GC_ROOT_TEMP MAP_REDUCE_JOB sha256_bytes.

(** ** Operations and events *)
Inductive operation : Type :=
| LoadCurrent
| Pin
| PinGeneration (gid : ustr)
| Unpin (entry : nat)
| Activate (h : GenerationHandle) (inode : Z)
| AcquireRoot (owner gid : ustr) (inode : Z)
| ClaimRoot (owner_for_generation : ustr -> res ustr) (inode : Z)
| VerifyRoot (owner gid : ustr)
| GenerationForRoot (owner : ustr)
| SnapshotRoots
| ReleaseRoot (owner gid : ustr).

(** The result is the entry that was pinned, if any. *)
Definition run {quota : StateQuota} (lim : StoreLimits) (o : operation) : M (option nat) :=
  match o with
  | LoadCurrent => let* _ := load_current lim in ret None
  | Pin => let* rh := pin in ret (Some rh.1)
  | PinGeneration gid => let* rh := pin_generation lim gid in ret (Some rh.1)
  | Unpin r => let* _ := unpin lim r in ret None
  | Activate h inode => let* _ := activate lim h inode in ret None
  | AcquireRoot owner gid inode => let* _ := acquire_generation_gc_root lim owner gid inode in ret None
  | ClaimRoot f inode => let* _ := claim_current_generation_gc_root lim f inode in ret None
  | VerifyRoot owner gid => let* _ := verify_generation_gc_root owner gid in ret None
  | GenerationForRoot owner => let* _ := generation_for_gc_root owner in ret None
  | SnapshotRoots => let* _ := generation_gc_roots_snapshot in ret None
  | ReleaseRoot owner gid => let* _ := release_generation_gc_root owner gid in ret None
  end.

(** An object that is there under its digest; a database of which the validation says what
    its table of metadata says (both validators do). *)
Definition object_ok (d : Disk) (digest : ustr) : Prop :=
  exists at_ content, cas_path digest = Ok at_ /\ cas_item_at d at_ = Some (CasFile content) /\
                      take 5 content = PDF_MAGIC /\ sha256_bytes content = digest.
Definition coherent_database (db : Database) : Prop :=
  forall m, db_validation db = Ok m -> db_schema_row db = Some (schema_id m) /\ 0 <= embedding_count m /\
    (is_v5 (schema_id m) = false -> embedding_dimension m = EMBEDDING_DIMENSION).

(** What the updater and crashed writers do to the disk between operations: an object is
    linked into place (over one that is absent or not good), a directory is moved into
    place, the incoming directory changes, a directory of objects is made. *)
Inductive disk_event (d : Disk) : Disk -> Prop :=
| InstallObject at_ content objects :
    (forall a, a <> at_ -> cas_item_at (set_objects d objects) a = cas_item_at d a) ->
    cas_item_at (set_objects d objects) at_ = Some (CasFile content) ->
    take 5 content = PDF_MAGIC -> cas_path (sha256_bytes content) = Ok at_ ->
    disk_event d (set_objects d objects)
| PublishGeneration g dir :
    generations d !! g = None -> (forall db, gd_database dir = Some db -> coherent_database db) ->
    disk_event d (set_generations d (<[g := PlainDirectory dir]> (generations d)))
| ChangeIncoming m : disk_event d (set_incoming d m)
| MakePrefix objects :
    (forall a, cas_item_at (set_objects d objects) a = cas_item_at d a) -> disk_event d (set_objects d objects).

(** ** Objects and directories that an eviction leaves *)
Lemma disk_event_object d d' dig : disk_event d d' -> object_ok d dig -> object_ok d' dig.
Proof.
  intros Hev (at_ & content & Hp & Hi & Hm & Hs). destruct Hev as [at' content' objects Hother Hthis Hm' Hp'| | |objects Hsame]; [|by exists at_, content..|].
  2: exists at_, content; by rewrite Hsame.
  destruct (decide (at_ = at')) as [->|Hne]; [|exists at_, content; by rewrite Hother].
  exists at', content'. repeat split; [done..|].
  assert (forall x y a, cas_path x = Ok a -> cas_path y = Ok a -> x = y) as Hinj.
  { intros x y a Hx Hy. unfold cas_path in *. inv_res Hx. inv_res Hy. congruence. }
  by eapply Hinj.
Qed.

Lemma pdf_object d doc content : pdf_path d doc = Ok content -> exists at_, cas_path (pdf_sha256 doc) = Ok at_ /\ cas_item_at d at_ = Some (CasFile content).
Proof. unfold pdf_path. intros H. inv_res H. destruct r0; [|done]. inv_res H. eauto. Qed.
Lemma verified_object d doc n : verify_pdf_for_handle d doc n = Ok tt -> object_ok d (pdf_sha256 doc).
Proof.
  unfold verify_pdf_for_handle. intros H. inv_res H. bsplit. apply pdf_object in Hr0 as (at_ & Hp & Hi). by exists at_, r0.
Qed.

Lemma kept_objects lim roots s g dir db l digs :
  directory_kept lim roots s g -> generations (disk s) !! g = Some (PlainDirectory dir) -> fullmatch GENERATION_ID g = true ->
  gd_database dir = Some db -> marked_digests db = Some l -> digs ⊆ l ->
  Forall (object_ok (disk s)) digs -> Forall (object_ok (disk (prune_with lim roots s))) digs.
Proof.
  intros Hk Hg Hm Hdb Hl Hsub. rewrite !Forall_forall. intros H dig Hin. destruct (H dig Hin) as ([pre dig'] & content & Hp & Hi & Hrest).
  assert (dig' = dig) as -> by (unfold cas_path in Hp; inv_res Hp; congruence).
  exists (pre, dig), content. split; [done|]. split; [|done]. eapply prune_objects; [|done..|by apply Hsub|done].
  by rewrite prune_kept.
Qed.

(** ** A rooted generation *)
Section Rooted.
Context {quota : StateQuota} (lim : StoreLimits) (owner gid : ustr) (f : small_file) (dir : GenerationDir) (digests : list ustr).

(** The root file, the directory it binds, and those of its objects that are there. *)
Record rooted (d : Disk) : Prop := {
  ro_file : generation_gc_roots d !! root_name owner = Some (PlainFile f);
  ro_binds : root_file (root_name owner) f owner gid;
  ro_directory : generations d !! gid = Some (PlainDirectory dir);
  ro_digests : exists db l, gd_database dir = Some db /\ marked_digests db = Some l /\ digests ⊆ l;
  ro_objects : Forall (object_ok d) digests;
}.
Notation kept := (fun s => rooted (disk s)).

Lemma rooted_frame d d' :
  generations d' = generations d -> objects_sha256 d' = objects_sha256 d -> generation_gc_roots d' = generation_gc_roots d -> rooted d -> rooted d'.
Proof.
  intros Hg Ho Hr [Hf Hb Hd Hdb Hok]. split; [by rewrite Hr|done|by rewrite Hg|done|].
  eapply Forall_impl; [exact Hok|]. intros dig. unfold object_ok, cas_item_at. by rewrite Ho.
Qed.
Lemma rooted_add_root d name e : name <> root_name owner -> rooted d -> rooted (set_roots d (<[name := e]> (generation_gc_roots d))).
Proof. intros Hne [Hf Hb Hd Hdb Hok]. split; [by cbn; rewrite lookup_insert_ne|done..]. Qed.
Lemma rooted_add_fresh d name e :
  generation_gc_roots d !! name = None -> rooted d -> rooted (set_roots d (<[name := e]> (generation_gc_roots d))).
Proof. intros Hn H. apply rooted_add_root; [|done]. intros ->. by rewrite (ro_file _ H) in Hn. Qed.

Lemma rooted_in_roots d roots : roots_of d roots -> rooted d -> gid ∈ map snd roots.
Proof.
  intros [Hall _] [Hf Hb _ _ _]. destruct (Hall _ _ Hf) as (o & g & Hr & _ & Hget). apply read_root_spec in Hr as (f' & [= <-] & Hb' & _).
  destruct (rf_json _ _ _ _ Hb) as (m & Hj & _ & _ & _ & Hgid). destruct (rf_json _ _ _ _ Hb') as (m' & Hj' & _ & _ & _ & Hgid'). simplify_eq.
  apply dict_get_elem in Hget. apply list_elem_of_fmap. by exists (o, gid).
Qed.
Lemma rooted_prune roots s : roots_of (disk s) roots -> rooted (disk s) -> rooted (disk (prune_with lim roots s)).
Proof.
  intros Hroots H. destruct (prune_disk lim roots s) as (_ & Hr & _).
  assert (directory_kept lim roots s gid) as Hk by (do 3 right; left; by eapply rooted_in_roots).
  destruct H as [Hf Hb Hd Hdb Hok]. split; [by rewrite Hr|done|by rewrite prune_kept|done|].
  destruct Hdb as (db & l & Hdb & Hl & Hsub). eapply kept_objects; eauto. apply (rf_generation _ _ _ _ Hb).
Qed.

Lemma ensure_disk s : ends (fun s' => disk s' = disk s) _ensure_process_identity s.
Proof. unfold _ensure_process_identity. by ends_steps ltac:(done). Qed.
Lemma rooted_ensure {A} (k : unit -> M A) s :
  rooted (disk s) -> (forall s', rooted (disk s') -> ends kept (k tt) s') -> ends kept (let* u := _ensure_process_identity in k u) s.
Proof.
  intros H Hk. apply ends_bind; [|intros []]; intros; (assert (disk s1 = disk s) as E by by eapply ensure_disk); [by rewrite E|].
  apply Hk. by rewrite E.
Qed.
Lemma rooted_durable_roots {A} (k : list (ustr * ustr) -> M A) s :
  rooted (disk s) -> (forall roots s', rooted (disk s') -> roots_of (disk s') roots -> ends kept (k roots) s') ->
  ends kept (let* roots := _durable_generation_roots_locked in k roots) s.
Proof.
  intros H Hk. apply ends_bind.
  - intros e s1 [_ Hg Ho Hr _]%durable_roots_frame. by eapply rooted_frame.
  - intros roots s1 Hrun. apply durable_roots_frame in Hrun as Hf. destruct Hf as [_ Hg Ho Hr _].
    apply Hk; [by eapply rooted_frame|by eapply durable_roots_ok].
Qed.
Lemma rooted_prune_locked s : rooted (disk s) -> ends kept (_prune_locked lim None) s.
Proof.
  intros H. unfold _prune_locked. apply rooted_durable_roots; [done|]. intros roots s' H' Hroots r s2 [= _ <-]. by apply rooted_prune.
Qed.
Lemma rooted_acquire_locked o g roots inode s : rooted (disk s) -> ends kept (_acquire_generation_gc_root_locked lim o g roots inode) s.
Proof. intros H. unfold _acquire_generation_gc_root_locked. ends_steps ltac:(exact H). by apply rooted_add_fresh. Qed.

Ltac rooted_steps :=
  repeat first
    [ assumption
    | progress cbv zeta
    | apply rooted_ensure; [assumption|intros ? ?]
    | apply rooted_durable_roots; [assumption|intros ? ? ? ?]
    | apply rooted_prune_locked
    | apply ends_ret | apply ends_throw | apply ends_lift | apply ends_bind_getD | apply ends_bind_getP
    | apply ends_bind_putP; cbn [disk] | apply ends_putP; cbn [disk]
    | apply ends_bind_lift; [|intros ? ?]
    | match goal with |- ends _ (match ?x with _ => _ end) _ => destruct x eqn:? end ].

Lemma ends_then {A B} (P : Store -> Prop) (m : M A) (k : A -> B) s : ends P m s -> ends P (let* a := m in ret (k a)) s.
Proof. intros H. apply ends_bind; [intros e s1 He; by eapply H|]. intros a s1 Ha. apply ends_ret. by eapply H. Qed.

Lemma rooted_pinned_entry r s : rooted (disk s) -> ends kept (pinned_entry r) s.
Proof. intros H. unfold pinned_entry. rooted_steps. Qed.
#[local] Hint Resolve rooted_pinned_entry : core.
#[local] Opaque pinned_entry _prune_locked _acquire_generation_gc_root_locked _durable_generation_roots_locked.

Lemma rooted_activate h inode s : rooted (disk s) -> ends kept (activate lim h inode) s.
Proof.
  intros H. unfold activate. apply ends_bind_lift; [done|intros _ _]. apply rooted_ensure; [done|intros s1 H1].
  apply rooted_durable_roots; [done|intros roots s2 H2 Hroots]. do 5 (first [apply ends_bind_getD|apply ends_bind_getP|apply ends_bind_lift; [done|intros _ _]]; cbv zeta).
  apply ends_bind_putD. destruct (match entries (proc s2) !! h_generation_id h with Some r => (r, proc s2) | None => _ end) as [r p'].
  apply ends_bind_putP. with_strategy transparent [_prune_locked] unfold _prune_locked. intros res s3 [= _ <-]. cbn [disk]. apply rooted_prune; [exact Hroots|]. by eapply rooted_frame; [..|exact H2].
Qed.

Lemma rooted_run o s : (forall g, o <> ReleaseRoot owner g) -> rooted (disk s) -> ends kept (run lim o) s.
Proof.
  intros Hne H. destruct o; cbn [run]; apply ends_then.
  - unfold load_current. rooted_steps.
  - unfold pin. rooted_steps; auto.
  - unfold pin_generation. rooted_steps; auto.
  - unfold unpin. rooted_steps.
  - by apply rooted_activate.
  - unfold acquire_generation_gc_root. rooted_steps. by apply rooted_acquire_locked.
  - unfold claim_current_generation_gc_root. rooted_steps. apply ends_then. by apply rooted_acquire_locked.
  - unfold verify_generation_gc_root. rooted_steps.
  - unfold generation_for_gc_root. rooted_steps.
  - unfold generation_gc_roots_snapshot. rooted_steps. intros r s1 Hr. apply durable_roots_frame in Hr as [_ Hg Ho Hrr _]. by eapply rooted_frame.
  - unfold release_generation_gc_root. rooted_steps. cbn [disk]. destruct H1 as [Hf Hb Hd Hdb Hok].
    split; [|done..]. cbn. rewrite lookup_delete_ne; [done|]. intros E%root_name_inj. subst. by apply (Hne gid0).
Qed.
End Rooted.

(** ** Several processes on one state root *)
Record World := { w_disk : Disk; w_procs : gmap Z Process }.
Definition forked (p : Process) (child : Z) : Process :=
  {| os_pid := child; lifecycle_pid := lifecycle_pid p; heap := heap p; entries := entries p; active := active p |}.
Inductive world_step {quota : StateQuota} (lim : StoreLimits) (allowed : operation -> Prop) (w : World) : World -> Prop :=
| ProcessRuns pid p o r s' :
    w_procs w !! pid = Some p -> allowed o -> run lim o {| disk := w_disk w; proc := p |} = (r, s') ->
    world_step lim allowed w {| w_disk := disk s'; w_procs := <[pid := proc s']> (w_procs w) |}
| ProcessForks pid p child :
    w_procs w !! pid = Some p -> w_procs w !! child = None ->
    world_step lim allowed w {| w_disk := w_disk w; w_procs := <[child := forked p child]> (w_procs w) |}
| DiskChanges d :
    disk_event (w_disk w) d -> world_step lim allowed w {| w_disk := d; w_procs := w_procs w |}.

Lemma rooted_event owner gid f dir digs d d' : disk_event d d' -> rooted owner gid f dir digs d -> rooted owner gid f dir digs d'.
Proof.
  intros Hev [Hf Hb Hd Hdb Hok]. assert (Forall (object_ok d') digs) as Hok' by (eapply Forall_impl; [exact Hok|]; intros; by eapply disk_event_object).
  destruct Hev; split; try done. cbn. rewrite lookup_insert_ne; [done|]. by intros ->; simplify_eq.
Qed.

(** C9: A durable root protects its generation from every process.  Whatever the processes
    that share the state root do, in whatever order, with forks, updates and crashed writers
    among them, the root, the directory it binds and the objects of that directory stay as
    they are, until the owner's root is released. *)
Theorem rooted_generation_survives {quota : StateQuota} (lim : StoreLimits) (w w' : World)
    (owner gid : ustr) (f : small_file) (dir : GenerationDir) (digests : list ustr) :
  rtc (world_step lim (fun o => forall g, o <> ReleaseRoot owner g)) w w' ->
  rooted owner gid f dir digests (w_disk w) -> rooted owner gid f dir digests (w_disk w').
Proof.
  induction 1 as [|w w1 w2 Hstep _ IH]; [done|]. intros H. apply IH. clear IH.
  destruct Hstep as [pid p o r s' Hp Ho Hrun|pid p child Hp Hc|d Hev]; cbn [w_disk]; [|done|by eapply rooted_event].
  exact (rooted_run lim owner gid f dir digests o {| disk := w_disk w; proc := p |} Ho H _ _ Hrun).
Qed.

(** ** One process that serves *)
Record intact (d : Disk) (h : GenerationHandle) : Prop := {
  in_location : h_location h = InGenerations;
  in_name : fullmatch GENERATION_ID (h_generation_id h) = true;
  in_documents : exists dir db rows, generations d !! h_generation_id h = Some (PlainDirectory dir) /\ gd_database dir = Some db /\
    db_validation db = Ok (h_metadata h) /\ handle_documents (schema_id (h_metadata h)) db = Ok rows /\
    Forall (fun doc => object_ok d (pdf_sha256 doc)) rows;
}.
Definition coherent (d : Disk) : Prop :=
  forall g dir db, generations d !! g = Some (PlainDirectory dir) -> gd_database dir = Some db -> coherent_database db.

Lemma handle_documents_marked schema db rows :
  db_schema_row db = Some schema -> handle_documents schema db = Ok rows ->
  exists l, marked_digests db = Some l /\ map pdf_sha256 rows ⊆ l.
Proof.
  intros Hs H. unfold handle_documents in H. inv_res H. unfold marked_digests. rewrite Hs.
  rewrite Hr. eexists. split; [done|]. intros x (doc & -> & Hin)%list_elem_of_fmap. rewrite sorted_by_Permutation in Hin.
  apply elem_of_app in Hin as [Hin|Hin]; apply elem_of_app; [left; apply list_elem_of_fmap; by exists doc|right].
  apply list_elem_of_fmap in Hin as (fp & -> & Hin). destruct (bool_decide (schema ∈ V4_SCHEMAS)).
  - inv_res Hr0. rewrite Hr0. apply list_elem_of_fmap. by exists fp.
  - inv_res Hr0. by apply not_elem_of_nil in Hin.
Qed.

Lemma intact_event d d' h : disk_event d d' -> intact d h -> intact d' h.
Proof.
  intros Hev [Hl Hn (dir & db & rows & Hg & Hdb & Hv & Hrows & Hok)]. split; [done..|]. exists dir, db, rows.
  split; [destruct Hev; try done; cbn; rewrite lookup_insert_ne; [done|by intros ->; simplify_eq]|]. split; [done|]. split; [done|]. split; [done|].
  eapply Forall_impl; [exact Hok|]. intros doc. by eapply disk_event_object.
Qed.
Lemma intact_prune lim roots s h :
  coherent (disk s) -> directory_kept lim roots s (h_generation_id h) -> intact (disk s) h -> intact (disk (prune_with lim roots s)) h.
Proof.
  intros Hco Hk [Hl Hn (dir & db & rows & Hg & Hdb & Hv & Hrows & Hok)]. split; [done..|]. exists dir, db, rows.
  rewrite prune_kept by done. do 4 (split; [done|]). destruct (Hco _ _ _ Hg Hdb _ Hv) as [Hs _].
  destruct (handle_documents_marked _ _ _ Hs Hrows) as (l & Hl' & Hsub).
  rewrite <- (Forall_map pdf_sha256) in *. eapply kept_objects; eauto.
Qed.
Lemma intact_frame d d' h : generations d' = generations d -> objects_sha256 d' = objects_sha256 d -> intact d h -> intact d' h.
Proof.
  intros Hg Ho [Hl Hn (dir & db & rows & Hd & Hdb & Hv & Hrows & Hok)]. split; [done..|]. exists dir, db, rows. rewrite Hg.
  do 4 (split; [done|]). eapply Forall_impl; [exact Hok|]. intros doc. unfold object_ok, cas_item_at. by rewrite Ho.
Qed.
Lemma coherent_event d d' : disk_event d d' -> coherent d -> coherent d'.
Proof.
  intros Hev Hco g dir db Hg Hdb. destruct Hev as [|g0 dir0 Hnone Hdir| |]; [by eapply Hco| |by eapply Hco..]. cbn in Hg.
  destruct (decide (g0 = g)) as [->|Hne]; [rewrite lookup_insert_eq in Hg; injection Hg as ->; by apply Hdir|].
  rewrite lookup_insert_ne in Hg by done. by eapply Hco.
Qed.
Lemma coherent_prune lim roots s : coherent (disk s) -> coherent (disk (prune_with lim roots s)).
Proof. intros Hco g dir db Hg. rewrite prune_generations in Hg. destruct (_ && _); [done|]. by eapply Hco. Qed.

Lemma load_handle_spec lim d l g eid em ec h :
  load_generation_handle lim d l g eid em ec = Ok h ->
  h_generation_id h = g /\ h_location h = l /\ fullmatch GENERATION_ID g = true /\
  resident_estimate (h_metadata h) <= maximum_resident_vector_bytes lim /\
  exists dir db, generation_at d l g = Some dir /\ gd_database dir = Some db /\ db_validation db = Ok (h_metadata h) /\
    _handle_resident_vector_bytes h = (if is_v5 (schema_id (h_metadata h)) then embedding_count (h_metadata h) * 4
                                       else embedding_count (h_metadata h) * (EMBEDDING_DIMENSION * 4) + embedding_count (h_metadata h) * 4).
Proof.
  unfold load_generation_handle. cbv zeta. intros H. apply bind_ok in H as (u & _ & H). inv_res H. bsplit. cbn. do 3 (split; [done|]). split; [lia|].
  exists r, r1. do 3 (split; [done|]). unfold _handle_resident_vector_bytes. cbn. destruct (is_v5 _).
  - unfold load_vectors_v5 in Hr9. cbv zeta in Hr9. inv_res Hr9. done.
  - unfold load_vectors in Hr9. cbv zeta in Hr9. inv_res Hr9. done.
Qed.

(** ** The bytes of the handles in a table of entries *)
Lemma sum_bytes_insert p g r m : m !! g = None -> sum_bytes p (<[g := r]> m) = handle_bytes_at p r + sum_bytes p m.
Proof.
  intros Hn. unfold sum_bytes. assert (forall l1 l2, Permutation l1 l2 -> foldr Z.add 0 l1 = foldr Z.add 0 l2) as Hperm.
  { induction 1; cbn; lia. }
  rewrite (Hperm _ (map (fun gr => handle_bytes_at p gr.2) ((g, r) :: map_to_list m))); [done|]. apply Permutation_map. by apply map_to_list_insert.
Qed.
Lemma sum_bytes_delete p g m : sum_bytes p m = match m !! g with Some r => handle_bytes_at p r | None => 0 end + sum_bytes p (delete g m).
Proof.
  destruct (m !! g) as [r|] eqn:E; [|by rewrite delete_id]. rewrite <- (sum_bytes_insert p g r (delete g m)) by apply lookup_delete_eq.
  by rewrite insert_delete_id.
Qed.
(** The table can only lose bytes when entries leave it. *)
Lemma sum_bytes_mono (p p' : Process) (m m' : gmap ustr nat) :
  m' ⊆ m -> (forall g r, m' !! g = Some r -> handle_bytes_at p' r = handle_bytes_at p r) ->
  (forall g r, m !! g = Some r -> 0 <= handle_bytes_at p r) -> sum_bytes p' m' <= sum_bytes p m.
Proof.
  revert m. induction m' as [|g r m' Hg IH] using map_ind; intros m Hsub Heq Hnn.
  - assert (forall l, Forall (fun gr : ustr * nat => 0 <= handle_bytes_at p gr.2) l -> 0 <= foldr Z.add 0 (map (fun gr => handle_bytes_at p gr.2) l)) as Hpos.
    { induction 1; cbn; lia. }
    unfold sum_bytes at 1. rewrite map_to_list_empty. cbn. apply Hpos. apply Forall_forall. intros [g r] Hin. apply elem_of_map_to_list in Hin. eauto.
  - assert (m !! g = Some r) as Hm by (eapply lookup_weaken; [apply lookup_insert_eq|done]).
    rewrite sum_bytes_insert by done. rewrite (sum_bytes_delete p g m), Hm. rewrite (Heq g r) by apply lookup_insert_eq.
    apply Z.add_le_mono_l, IH.
    + apply map_subseteq_spec. intros g' r' Hr'. destruct (decide (g' = g)) as [->|Hne]; [by rewrite Hg in Hr'|].
      rewrite lookup_delete_ne by done. eapply lookup_weaken; [|exact Hsub]. by rewrite lookup_insert_ne.
    + intros g' r' Hr'. apply (Heq g'). destruct (decide (g' = g)) as [->|Hne]; [by rewrite Hg in Hr'|]. by rewrite lookup_insert_ne.
    + intros g' r' Hr'. apply (Hnn g'). apply lookup_delete_Some in Hr' as [_ ?]. done.
Qed.

(** Pins that are held, each by the entry it holds. *)
Definition pins_of (r : nat) (held : list nat) : Z := zlen (filter (fun r' => r' = r) held).
Definition remove_pin (r : nat) (held : list nat) : list nat :=
  match list_find (fun r' => r' = r) held with Some (i, _) => delete i held | None => held end.

Record service (lim : StoreLimits) (s : Store) (held : list nat) : Prop := {
  sv_identity : lifecycle_pid (proc s) = os_pid (proc s);
  sv_coherent : coherent (disk s);
  sv_entries : forall g r, entries (proc s) !! g = Some r ->
    exists e, heap (proc s) !! r = Some e /\ h_generation_id (handle e) = g /\ intact (disk s) (handle e) /\
              0 <= _handle_resident_vector_bytes (handle e);
  sv_active : forall r, active (proc s) = Some r -> exists g, entries (proc s) !! g = Some r;
  sv_held : forall r, r ∈ held -> exists g, entries (proc s) !! g = Some r;
  sv_references : forall r, references_at (proc s) r = pins_of r held;
  sv_resident : sum_bytes (proc s) (entries (proc s)) <= maximum_resident_vector_bytes lim;
}.

Lemma pins_of_cons r r' held : pins_of r (r' :: held) = (if decide (r' = r) then 1 else 0) + pins_of r held.
Proof. unfold pins_of. rewrite filter_cons. destruct (decide (r' = r)); [by rewrite zlen_cons|lia]. Qed.
Lemma pins_of_nonneg r held : 0 <= pins_of r held.
Proof. apply zlen_nonneg. Qed.
Lemma pins_of_pos r held : 0 < pins_of r held <-> r ∈ held.
Proof.
  unfold pins_of, zlen. split.
  - intros H. destruct (filter _ held) as [|x l] eqn:E; [cbn in H; lia|]. assert (x ∈ x :: l) as Hx by left. rewrite <- E in Hx.
    by apply list_elem_of_filter in Hx as [-> ?].
  - intros H. assert (r ∈ filter (fun r' => r' = r) held) as Hx by (by apply list_elem_of_filter). destruct (filter _ held); [by apply not_elem_of_nil in Hx|cbn; lia].
Qed.
Lemma pins_of_remove r r' held : r' ∈ held -> pins_of r (remove_pin r' held) = pins_of r held - (if decide (r' = r) then 1 else 0).
Proof.
  intros Hin. unfold remove_pin. destruct (list_find (fun x => x = r') held) as [[i x]|] eqn:E.
  - apply list_find_Some in E as (Hi & -> & _). apply delete_Permutation in Hi as Hp.
    assert (pins_of r held = pins_of r (r' :: delete i held)) as -> by (unfold pins_of, zlen; by rewrite Hp at 1).
    rewrite pins_of_cons. destruct (decide (r' = r)); lia.
  - apply list_find_None in E. rewrite Forall_forall in E. by destruct (E r').
Qed.
Lemma remove_pin_elem r r' held : r ∈ remove_pin r' held -> r ∈ held.
Proof.
  unfold remove_pin. destruct (list_find _ held) as [[i x]|] eqn:E; [|done]. apply list_find_Some in E as (Hi & -> & _).
  apply delete_Permutation in Hi. rewrite Hi at 2. by right.
Qed.

Lemma service_pinned lim s held g r : service lim s held -> entries (proc s) !! g = Some r -> r ∈ held -> is_pinned (proc s) g = true.
Proof. intros H Hg Hin. unfold is_pinned. rewrite Hg, (sv_references _ _ _ H). apply Z.ltb_lt. by apply pins_of_pos. Qed.
Lemma service_key lim s held g r e : service lim s held -> entries (proc s) !! g = Some r -> heap (proc s) !! r = Some e -> h_generation_id (handle e) = g.
Proof. intros H Hg He. destruct (sv_entries _ _ _ H _ _ Hg) as (e' & He' & Hid & _). by simplify_eq. Qed.
Lemma service_active lim s held r : service lim s held -> active (proc s) = Some r -> exists g, entries (proc s) !! g = Some r /\ active_generation (proc s) = Some g.
Proof.
  intros H Ha. destruct (sv_active _ _ _ H _ Ha) as (g & Hg). exists g. split; [done|]. destruct (sv_entries _ _ _ H _ _ Hg) as (e & He & <- & _).
  unfold active_generation, entry_at. by rewrite Ha, He.
Qed.

Section Service.
Context (lim : StoreLimits).

Lemma service_disk s held d :
  service lim s held -> coherent d -> (forall h, intact (disk s) h -> intact d h) -> service lim {| disk := d; proc := proc s |} held.
Proof.
  intros [Hid Hco He Ha Hh Hr Hs] Hco' Hint. split; try done. intros g r Hg. destruct (He g r Hg) as (e & ? & ? & ? & ?). exists e. auto.
Qed.
Lemma service_frame s s' held : only_incoming s s' -> service lim s held -> service lim s' held.
Proof.
  intros [Hp Hg Ho Hr Hc] H. destruct s' as [d' p']. cbn in *. subst p'. apply service_disk; [done| |].
  - intros g dir db Hd. rewrite Hg in Hd. exact (sv_coherent _ _ _ H g dir db Hd).
  - intros h. by apply intact_frame.
Qed.
Lemma service_set_current s held c : service lim s held -> service lim {| disk := set_current (disk s) c; proc := proc s |} held.
Proof. intros H. apply service_disk; [done|exact (sv_coherent _ _ _ H)|]. intros h. by apply intact_frame. Qed.
Lemma service_set_roots s held m : service lim s held -> service lim {| disk := set_roots (disk s) m; proc := proc s |} held.
Proof. intros H. apply service_disk; [done|exact (sv_coherent _ _ _ H)|]. intros h. by apply intact_frame. Qed.

(** An entry that an eviction leaves in the table has kept its directory. *)
Lemma undropped_kept roots s g :
  is_candidate (disk s) g && drops (retained_names lim (disk s) (proc s) roots) (proc s) g = false -> directory_kept lim roots s g.
Proof.
  intros H. apply deletes_spec. destruct (is_candidate (disk s) g); [|done]. cbn in *. unfold drops, deletes in *.
  destruct (is_pinned (proc s) g); cbn in *; [apply andb_false_r|]. apply orb_false_iff in H as [_ H]. by rewrite H.
Qed.
Lemma service_prune roots s held : service lim s held -> service lim (prune_with lim roots s) held.
Proof.
  intros H. destruct (prune_process lim roots s) as (Hh & Ha & Hos & Hpid).
  assert (forall g r, entries (proc (prune_with lim roots s)) !! g = Some r -> entries (proc s) !! g = Some r /\ directory_kept lim roots s g) as Hsub.
  { intros g r. rewrite prune_entries. destruct (_ && _) eqn:E; [done|]. intros Hg. split; [done|]. by apply undropped_kept. }
  split.
  - by rewrite Hos, Hpid, (sv_identity _ _ _ H).
  - apply coherent_prune, (sv_coherent _ _ _ H).
  - intros g r [Hg Hk]%Hsub. destruct (sv_entries _ _ _ H _ _ Hg) as (e & He & Hid & Hi & Hb). exists e. rewrite Hh. split; [done|].
    split; [done|]. split; [|done]. apply intact_prune; [apply (sv_coherent _ _ _ H)| |done]. by rewrite Hid.
  - intros r Hr. rewrite Ha in Hr. destruct (service_active _ _ _ _ H Hr) as (g & Hg & Hag). exists g. rewrite prune_entries.
    unfold drops, is_inactive. rewrite Hg, Hr, bool_decide_eq_true_2 by done. cbn [negb orb].
    rewrite bool_decide_eq_true_2; [by rewrite !andb_false_r|]. unfold retained_names. rewrite Hag, !elem_of_app. right. left. by left.
  - intros r Hr. destruct (sv_held _ _ _ H _ Hr) as (g & Hg). exists g. rewrite prune_entries. unfold drops.
    rewrite (service_pinned _ _ _ _ _ H Hg Hr). by rewrite andb_false_r.
  - intros r. unfold references_at. rewrite Hh. apply (sv_references _ _ _ H).
  - etrans; [|exact (sv_resident _ _ _ H)]. apply sum_bytes_mono.
    + apply map_subseteq_spec. by intros g r [? _]%Hsub.
    + intros g r _. unfold handle_bytes_at, entry_at. by rewrite Hh.
    + intros g r Hg. destruct (sv_entries _ _ _ H _ _ Hg) as (e & He & _ & _ & Hb). unfold handle_bytes_at, entry_at. by rewrite He.
Qed.

Lemma add_references_at p r n r' e :
  heap p !! r = Some e -> references_at (add_references p r n) r' = references_at p r' + (if decide (r = r') then n else 0).
Proof.
  intros He. unfold references_at, add_references. cbn. destruct (decide (r = r')) as [->|Hne].
  - by rewrite list_lookup_alter_eq, He.
  - rewrite list_lookup_alter_ne by done. lia.
Qed.
Lemma add_references_lookup p r n r' e :
  heap p !! r' = Some e -> exists e', heap (add_references p r n) !! r' = Some e' /\ handle e' = handle e.
Proof.
  intros He. unfold add_references. cbn [heap]. destruct (decide (r = r')) as [->|Hne]; [|rewrite list_lookup_alter_ne by done; by exists e].
  rewrite list_lookup_alter_eq, He. by eexists.
Qed.
Lemma service_references s held held' g r n :
  service lim s held -> entries (proc s) !! g = Some r ->
  (forall r', pins_of r' held' = pins_of r' held + (if decide (r = r') then n else 0)) ->
  (forall r', r' ∈ held' -> r' = r \/ r' ∈ held) ->
  service lim {| disk := disk s; proc := add_references (proc s) r n |} held'.
Proof.
  intros H Hg Hpins Hheld. destruct (sv_entries _ _ _ H _ _ Hg) as (e0 & He0 & _). split; cbn [disk proc].
  - apply (sv_identity _ _ _ H).
  - apply (sv_coherent _ _ _ H).
  - intros g' r' Hg'. destruct (sv_entries _ _ _ H g' r' Hg') as (e & He & Hrest).
    destruct (add_references_lookup _ r n _ _ He) as (e' & He' & Hh). exists e'. split; [done|]. rewrite Hh. exact Hrest.
  - apply (sv_active _ _ _ H).
  - intros r' [->|Hin]%Hheld; [by exists g|]. by apply (sv_held _ _ _ H).
  - intros r'. rewrite (add_references_at _ _ _ _ e0) by done. by rewrite Hpins, (sv_references _ _ _ H).
  - etrans; [|exact (sv_resident _ _ _ H)]. apply sum_bytes_mono; [done| |].
    + intros g' r' Hg'. destruct (sv_entries _ _ _ H _ _ Hg') as (e & He & _). destruct (add_references_lookup _ r n _ _ He) as (e' & He' & Hh).
      unfold handle_bytes_at, entry_at. by rewrite He, He', Hh.
    + intros g' r' Hg'. destruct (sv_entries _ _ _ H _ _ Hg') as (e & He & _ & _ & Hb). unfold handle_bytes_at, entry_at. by rewrite He.
Qed.

Lemma service_set_active s held g r :
  service lim s held -> entries (proc s) !! g = Some r -> service lim {| disk := disk s; proc := set_active (proc s) (Some r) |} held.
Proof. intros [] Hg. split; try done. intros r' [= <-]. by exists g. Qed.

Lemma service_new s held h :
  service lim s held -> entries (proc s) !! h_generation_id h = None -> intact (disk s) h -> 0 <= _handle_resident_vector_bytes h ->
  sum_bytes (proc s) (entries (proc s)) + _handle_resident_vector_bytes h <= maximum_resident_vector_bytes lim ->
  service lim {| disk := disk s; proc := (new_entry (proc s) (h_generation_id h) h).2 |} held.
Proof.
  intros H Hnone Hint Hb Hsum. unfold new_entry. cbn [snd]. set (r0 := length (heap (proc s))).
  assert (forall r e, heap (proc s) !! r = Some e -> (heap (proc s) ++ [{| handle := h; references := 0 |}]) !! r = Some e) as Hold.
  { intros r e He. by rewrite lookup_app_l by (by eapply lookup_lt_Some). }
  assert ((heap (proc s) ++ [{| handle := h; references := 0 |}]) !! r0 = Some {| handle := h; references := 0 |}) as Hnew.
  { unfold r0. by rewrite lookup_app_r, Nat.sub_diag by lia. }
  assert (forall g r, entries (proc s) !! g = Some r -> <[h_generation_id h:=r0]> (entries (proc s)) !! g = Some r) as Hkeep.
  { intros g r Hg. rewrite lookup_insert_ne; [done|]. intros E. rewrite E in Hnone. by rewrite Hnone in Hg. }
  split; cbn [disk proc os_pid lifecycle_pid heap entries active].
  - apply (sv_identity _ _ _ H).
  - apply (sv_coherent _ _ _ H).
  - intros g r. destruct (decide (g = h_generation_id h)) as [->|Hne].
    + rewrite lookup_insert_eq. intros [= <-]. by eexists.
    + rewrite lookup_insert_ne by done. intros Hg. destruct (sv_entries _ _ _ H _ _ Hg) as (e & He & Hrest). exists e. split; [by apply Hold|done].
  - intros r Hr. destruct (sv_active _ _ _ H _ Hr) as (g & Hg). exists g. by apply Hkeep.
  - intros r Hr. destruct (sv_held _ _ _ H _ Hr) as (g & Hg). exists g. by apply Hkeep.
  - intros r. rewrite <- (sv_references _ _ _ H). unfold references_at. cbn [heap]. destruct (decide (r < r0)%nat) as [Hlt|Hge].
    + by rewrite lookup_app_l.
    + rewrite (lookup_ge_None_2 (heap (proc s))) by lia. destruct (decide (r = r0)) as [->|]; [by rewrite Hnew|].
      rewrite lookup_ge_None_2; [done|]. rewrite length_app. cbn. lia.
  - rewrite sum_bytes_insert by done. unfold handle_bytes_at at 1, entry_at. cbn [heap]. rewrite Hnew. cbn [handle]. rewrite Z.add_comm.
    etrans; [|exact Hsum]. apply Z.add_le_mono_r. apply sum_bytes_mono; [done| |].
    + intros g r Hg. destruct (sv_entries _ _ _ H _ _ Hg) as (e & He & _). unfold handle_bytes_at, entry_at. cbn [heap]. by rewrite (Hold _ _ He), He.
    + intros g r Hg. destruct (sv_entries _ _ _ H _ _ Hg) as (e & He & _ & _ & Hb'). unfold handle_bytes_at, entry_at. by rewrite He.
Qed.

(** ** Loaded handles *)
Lemma loaded_intact d g h :
  load_generation_handle lim d InGenerations g (Some g) None None = Ok h -> verify_handle_pdfs lim d h = Ok tt -> intact d h.
Proof.
  intros (Hg & Hl & Hn & _ & dir & db & Hdir & Hdb & Hv & _)%load_handle_spec Hver. unfold generation_at in Hdir.
  destruct (generations d !! g) as [[dir'|]|] eqn:E; [|done..]. injection Hdir as ->.
  split; [done|by rewrite Hg|]. unfold verify_handle_pdfs in Hver. inv_res Hver. exists dir, db, r0.
  unfold connect, generation_at in Hr. rewrite Hl, Hg, E in Hr. cbn in Hr. rewrite Hdb in Hr. cbn in Hr. injection Hr as <-. rewrite Hg.
  do 4 (split; [done|]). apply forM_ok in Hver. eapply Forall_impl; [exact Hver|]. intros doc. by apply verified_object.
Qed.
Lemma loaded_bytes d g h :
  coherent d -> load_generation_handle lim d InGenerations g (Some g) None None = Ok h ->
  0 <= _handle_resident_vector_bytes h <= maximum_resident_vector_bytes lim.
Proof.
  intros Hco (Hg & Hl & Hn & Hest & dir & db & Hdir & Hdb & Hv & ->)%load_handle_spec. unfold generation_at in Hdir.
  destruct (generations d !! g) as [[dir'|]|] eqn:E; [|done..]. injection Hdir as ->.
  destruct (Hco _ _ _ E Hdb _ Hv) as (_ & Hc & Hdim). unfold resident_estimate, EMBEDDING_DIMENSION in *.
  destruct (is_v5 (schema_id (h_metadata h))); [lia|]. rewrite (Hdim eq_refl) in Hest. lia.
Qed.
Lemma ensure_identity {A} (k : unit -> M A) s :
  lifecycle_pid (proc s) = os_pid (proc s) -> bindM _ensure_process_identity k s = k tt s.
Proof. intros H. unfold bindM, _ensure_process_identity, getP. cbn. by rewrite H, Z.eqb_refl. Qed.
Lemma ends_ensure {A} P (k : unit -> M A) s :
  lifecycle_pid (proc s) = os_pid (proc s) -> ends P (k tt) s -> ends P (let* u := _ensure_process_identity in k u) s.
Proof. intros H Hk. unfold ends. by rewrite ensure_identity. Qed.
End Service.

(** ** The operations of a serving process *)

(** [main.py] loads the current generation once, before it serves; the updater activates a
    handle whose directory and objects are in place. *)
Definition permitted (s : Store) (held : list nat) (o : operation) : Prop :=
  match o with
  | LoadCurrent => entries (proc s) = ∅ /\ held = []
  | Unpin r => r ∈ held
  | Activate h _ => intact (disk s) h /\ 0 <= _handle_resident_vector_bytes h
  | _ => True
  end.
Definition held_after (o : operation) (r : res (option nat)) (held : list nat) : list nat :=
  match o, r with
  | Unpin e, _ => remove_pin e held
  | _, Ok (Some e) => e :: held
  | _, _ => held
  end.
Inductive service_step {quota : StateQuota} (lim : StoreLimits) : Store * list nat -> Store * list nat -> Prop :=
| Operates s held o r s' :
    permitted s held o -> run lim o s = (r, s') -> service_step lim (s, held) (s', held_after o r held)
| DiskMoves s held d :
    disk_event (disk s) d -> service_step lim (s, held) ({| disk := d; proc := proc s |}, held).

Section ServiceRun.
Context {quota : StateQuota} (lim : StoreLimits).
Notation serves held := (fun s => service lim s held).

Lemma service_durable_roots {A} (k : list (ustr * ustr) -> M A) s held :
  service lim s held -> (forall roots s', service lim s' held -> ends (serves held) (k roots) s') ->
  ends (serves held) (let* roots := _durable_generation_roots_locked in k roots) s.
Proof.
  intros H Hk. apply ends_bind.
  - intros e s1 Hf%durable_roots_frame. by eapply service_frame.
  - intros roots s1 Hf%durable_roots_frame. apply Hk. by eapply service_frame.
Qed.
Lemma service_prune_locked s held : service lim s held -> ends (serves held) (_prune_locked lim None) s.
Proof.
  intros H. with_strategy transparent [_prune_locked] unfold _prune_locked. apply service_durable_roots; [done|].
  intros roots s' H' r s2 [= _ <-]. by apply service_prune.
Qed.
Lemma service_acquire_locked o g roots inode s held :
  service lim s held -> ends (serves held) (_acquire_generation_gc_root_locked lim o g roots inode) s.
Proof.
  intros H. with_strategy transparent [_acquire_generation_gc_root_locked] unfold _acquire_generation_gc_root_locked.
  ends_steps ltac:(exact H). by apply service_set_roots.
Qed.

Ltac service_steps :=
  repeat first
    [ assumption
    | progress cbv zeta
    | apply ends_ensure; [by eapply sv_identity|]
    | apply service_durable_roots; [assumption|intros ? ? ?]
    | apply service_prune_locked
    | apply service_acquire_locked
    | apply ends_ret | apply ends_throw | apply ends_lift | apply ends_bind_getD | apply ends_bind_getP
    | apply ends_bind_lift; [|intros ? ?]
    | match goal with |- ends _ (match ?x with _ => _ end) _ => destruct x eqn:? end ].

Lemma service_load s : service lim s [] -> entries (proc s) = ∅ -> ends (serves []) (load_current lim) s.
Proof.
  intros H Hempty. unfold load_current. service_steps. unfold read_current in Heqr. inv_res Heqr. destruct r2.
  pose proof (loaded_intact _ _ _ _ Hr1 Hr2) as Hi. destruct (loaded_bytes lim _ _ _ (sv_coherent _ _ _ H) Hr1) as [Hb Hmax].
  assert (service lim {| disk := disk s; proc := (new_entry (proc s) (h_generation_id a) a).2 |} []) as Hnew.
  { apply service_new; [done|by rewrite Hempty|done|done|]. rewrite Hempty. unfold sum_bytes. rewrite map_to_list_empty. cbn. lia. }
  exact (service_set_active lim _ [] (h_generation_id a) _ Hnew (lookup_insert_eq _ _ _)).
Qed.

Lemma service_pinned_entry s held g r :
  service lim s held -> entries (proc s) !! g = Some r ->
  exists h s', pinned_entry r s = (Ok (r, h), s') /\ service lim s' (r :: held).
Proof.
  intros H Hg. destruct (sv_entries _ _ _ H _ _ Hg) as (e & He & _).
  exists (handle e), {| disk := disk s; proc := add_references (proc s) r 1 |}. split.
  - with_strategy transparent [pinned_entry] unfold pinned_entry, bindM, getP, putP. cbn. unfold entry_at. by rewrite He.
  - eapply service_references; [done|done| |].
    + intros r'. rewrite pins_of_cons. lia.
    + intros r' [->|?]%elem_of_cons; auto.
Qed.
(** A pin adds to what is held, or changes nothing. *)
Definition pins (held : list nat) (m : M (nat * GenerationHandle)) (s : Store) : Prop :=
  forall r s', m s = (r, s') -> match r with Ok (e, _) => service lim s' (e :: held) | Err _ => service lim s' held end.
Lemma pins_entry s held g r : service lim s held -> entries (proc s) !! g = Some r -> pins held (pinned_entry r) s.
Proof. intros H Hg res s' Hrun. destruct (service_pinned_entry _ _ _ _ H Hg) as (h & s1 & E & H1). rewrite E in Hrun. by injection Hrun as <- <-. Qed.
Lemma pins_throw s held e : service lim s held -> pins held (throw e) s.
Proof. by intros H r s' [= <- <-]. Qed.
Lemma pins_lift {A} (m : res A) k s held :
  service lim s held -> (forall a, m = Ok a -> pins held (k a) s) -> pins held (let* a := lift m in k a) s.
Proof. intros H Hk. destruct m as [a|e]; [exact (Hk a eq_refl)|]. by intros r s' [= <- <-]. Qed.
Lemma pins_getD k s held : pins held (k (disk s)) s -> pins held (let* d := getD in k d) s.
Proof. done. Qed.
Lemma pins_getP k s held : pins held (k (proc s)) s -> pins held (let* p := getP in k p) s.
Proof. done. Qed.
Lemma pins_putP p k s held : pins held (k tt) {| disk := disk s; proc := p |} -> pins held (let* u := putP p in k u) s.
Proof. done. Qed.
Lemma pins_ensure k s held : service lim s held -> pins held (k tt) s -> pins held (let* u := _ensure_process_identity in k u) s.
Proof. intros H Hk. unfold pins. by rewrite ensure_identity by apply (sv_identity _ _ _ H). Qed.

Lemma service_pin s held : service lim s held -> pins held pin s.
Proof.
  intros H. unfold pin. apply pins_ensure; [done|]. apply pins_getP.
  destruct (active (proc s)) as [a|] eqn:E; [|by apply pins_throw]. destruct (sv_active _ _ _ H _ E) as (g & Hg). by eapply pins_entry.
Qed.
Lemma service_pin_generation s held gid : service lim s held -> pins held (pin_generation lim gid) s.
Proof.
  intros H. unfold pin_generation. apply pins_lift; [done|intros _ _]. apply pins_ensure; [done|]. apply pins_getD, pins_getP.
  destruct (entries (proc s) !! gid) as [e|] eqn:Hg; [by eapply pins_entry|]. apply pins_lift; [done|intros _ _].
  destruct (res_bind _ _) as [h|err] eqn:Hload; [|by apply pins_throw]. cbv zeta.
  apply pins_lift; [done|]. intros [] Hmem%raise_if_ok%Z.ltb_ge. inv_res Hload.
  destruct r0. apply (load_handle_spec lim) in Hr as Hid. destruct Hid as (Hid & _). subst gid.
  assert (service lim {| disk := disk s; proc := (new_entry (proc s) (h_generation_id h) h).2 |} held) as Hnew.
  { apply service_new; try done; [by eapply loaded_intact|]. by eapply loaded_bytes; [apply (sv_coherent _ _ _ H)|]. }
  unfold new_entry in *. cbn [snd] in Hnew. apply pins_putP. eapply pins_entry; [exact Hnew|]. apply lookup_insert_eq.
Qed.

Lemma service_unpin s held r : service lim s held -> r ∈ held -> ends (serves (remove_pin r held)) (unpin lim r) s.
Proof.
  intros H Hr. unfold unpin. apply ends_ensure; [apply (sv_identity _ _ _ H)|]. apply ends_bind_getP. cbv zeta. apply ends_bind_putP.
  assert (service lim {| disk := disk s; proc := add_references (proc s) r (-1) |} (remove_pin r held)) as H'.
  { destruct (sv_held _ _ _ H _ Hr) as (g & Hg). eapply service_references; [done|done| |].
    - intros r'. rewrite pins_of_remove by done. destruct (decide (r = r')); lia.
    - intros r' Hin. right. by eapply remove_pin_elem. }
  destruct (_ && _); [by apply service_prune_locked|by apply ends_ret].
Qed.
Lemma service_activate s held h inode :
  service lim s held -> intact (disk s) h -> 0 <= _handle_resident_vector_bytes h -> ends (serves held) (activate lim h inode) s.
Proof.
  intros H Hi Hb. unfold activate. apply ends_bind_lift; [done|intros _ _]. apply ends_ensure; [apply (sv_identity _ _ _ H)|].
  apply ends_bind; intros ? s1 Hf%durable_roots_frame; [by eapply service_frame|].
  assert (service lim s1 held) as H1 by by eapply service_frame.
  assert (intact (disk s1) h) as Hi1 by (destruct Hf; by eapply intact_frame). clear Hf H Hi.
  apply ends_bind_getD, ends_bind_getP. cbv zeta. apply ends_bind_lift; [done|]. intros [] Hmem%raise_if_ok%Z.ltb_ge.
  apply ends_bind_lift; [done|intros _ _]. apply ends_bind_lift; [done|intros _ _]. apply ends_bind_putD.
  set (s2 := {| disk := set_current (disk s1) _; proc := proc s1 |}).
  assert (service lim s2 held) as H2 by by apply service_set_current. assert (intact (disk s2) h) as Hi2 by by eapply intact_frame; [..|exact Hi1].
  assert (proc s1 = proc s2) as Ep by done. clearbody s2. rewrite Ep in Hmem |- *. clear Hi1 H1 Ep.
  assert (forall r p', match entries (proc s2) !! h_generation_id h with Some r => (r, proc s2) | None => new_entry (proc s2) (h_generation_id h) h end = (r, p') ->
            service lim {| disk := disk s2; proc := set_active p' (Some r) |} held) as Hactive.
  { intros r p'. destruct (entries (proc s2) !! h_generation_id h) as [e|] eqn:Eg.
    - intros [= <- <-]. by eapply service_set_active.
    - rewrite delete_id in Hmem by done. pose proof (service_new lim _ _ _ H2 Eg Hi2 Hb Hmem) as Hnew. unfold new_entry in *.
      intros [= <- <-]. exact (service_set_active lim _ _ (h_generation_id h) _ Hnew (lookup_insert_eq _ _ _)). }
  destruct (match entries (proc s2) !! h_generation_id h with Some r => (r, proc s2) | None => _ end) as [r p'] eqn:E.
  apply ends_bind_putP. with_strategy transparent [_prune_locked] unfold _prune_locked. intros res s3 [= _ <-].
  apply service_prune. exact (Hactive _ _ eq_refl).
Qed.

Lemma pins_then held m s r s' : pins held m s -> (let* rh := m in ret (Some rh.1)) s = (r, s') ->
  service lim s' (match r with Ok (Some e) => e :: held | _ => held end).
Proof. intros Hm. unfold bindM. destruct (m s) as [[[e h]|err] s1] eqn:E; intros [= <- <-]; exact (Hm _ _ E). Qed.
Lemma held_unit {A} (m : M A) s r s' o held :
  (let* _ := m in ret None) s = (r, s') -> (forall e, o <> Unpin e) -> held_after o r held = held.
Proof. unfold bindM. destruct (m s) as [[a|err] s1]; intros [= <- <-] Ho; destruct o; try done; by destruct (Ho entry). Qed.

Lemma service_run s held o r s' : service lim s held -> permitted s held o -> run lim o s = (r, s') -> service lim s' (held_after o r held).
Proof.
  intros H Hp Hrun.
  assert (forall m : M (nat * GenerationHandle), pins held m s -> (let* rh := m in ret (Some rh.1)) s = (r, s') -> (forall e, o <> Unpin e) ->
            service lim s' (held_after o r held)) as Hpins.
  { intros m Hm Hr Ho. pose proof (pins_then held m s r s' Hm Hr). destruct o; try (by destruct (Ho entry)); destruct r as [[e|]|]; done. }
  assert (forall A (m : M A), ends (serves held) m s -> (let* _ := m in ret None) s = (r, s') -> (forall e, o <> Unpin e) ->
            service lim s' (held_after o r held)) as Hunit.
  { intros A m Hm Hr Ho. rewrite (held_unit m s r s' o held) by done. exact (ends_then _ _ _ _ Hm _ _ Hr). }
  destruct o; cbn [run permitted] in *.
  - destruct Hp as [Hempty ->]. eapply Hunit; [by apply service_load|done|done].
  - eapply Hpins; [by apply service_pin|done|done].
  - eapply Hpins; [by apply service_pin_generation|done|done].
  - assert (held_after (Unpin entry) r held = remove_pin entry held) as -> by (by destruct r as [[]|]).
    by apply (ends_then _ _ _ _ (service_unpin _ _ _ H Hp) _ _ Hrun).
  - destruct Hp as [Hi Hb]. eapply Hunit; [by apply service_activate|done|done].
  - eapply Hunit; [|done|done]. unfold acquire_generation_gc_root. service_steps.
  - eapply Hunit; [|done|done]. unfold claim_current_generation_gc_root. service_steps. apply ends_then. service_steps.
  - eapply Hunit; [|done|done]. unfold verify_generation_gc_root. service_steps.
  - eapply Hunit; [|done|done]. unfold generation_for_gc_root. service_steps.
  - eapply Hunit; [|done|done]. unfold generation_gc_roots_snapshot. apply ends_ensure; [apply (sv_identity _ _ _ H)|].
    intros r0 s1 Hf%durable_roots_frame. by eapply service_frame.
  - eapply Hunit; [|done|done]. unfold release_generation_gc_root. service_steps. by apply service_set_roots.
Qed.
Lemma service_steps_keep s held s' held' : service lim s held -> rtc (service_step lim) (s, held) (s', held') -> service lim s' held'.
Proof.
  intros H Hr. remember (s, held) as a eqn:Ea. remember (s', held') as b eqn:Eb. revert s held s' held' Ea Eb H.
  induction Hr as [a|a [s1 held1] b Hstep Hr IH]; intros s held s' held' -> Eb H; [by injection Eb as <- <-|].
  eapply IH; [done|done|]. inversion Hstep as [? ? o r ? Hp Hrun|? ? d Hev]; subst.
  - by eapply service_run.
  - apply service_disk; [done| |]; [eapply coherent_event; [done|apply (sv_coherent _ _ _ H)]|]. intros h. by apply intact_event.
Qed.
End ServiceRun.

(** A process before its first operation. *)
Definition fresh_process (p : Process) : Prop := lifecycle_pid p = os_pid p /\ heap p = [] /\ entries p = ∅ /\ active p = None.

(** A process that has not begun serves nothing, and what a serving process holds. *)
Lemma service_fresh lim s0 :
  check_store_limits lim = Ok tt -> coherent (disk s0) -> fresh_process (proc s0) -> service lim s0 [].
Proof.
  intros Hlim Hco (Hid & Hh & He & Ha). assert (0 < maximum_resident_vector_bytes lim) as Hpos.
  { unfold check_store_limits in Hlim. apply bind_ok in Hlim as (u & _ & Hlim). apply bind_ok in Hlim as ([] & Hf & _).
    apply forM_ok in Hf. rewrite !Forall_cons in Hf. destruct Hf as (_ & _ & Hf & _). cbn [fst snd] in Hf.
    apply bind_ok in Hf as (x & Hf & _). apply bind_ok in Hf as (y & Hf & _). apply raise_if_ok in Hf. bsplit. lia. }
  split; try done; intros *; rewrite ?He, ?Ha, ?lookup_empty; try done.
  - by intros ?%not_elem_of_nil.
  - unfold references_at. by rewrite Hh.
  - unfold sum_bytes. rewrite map_to_list_empty. cbn. lia.
Qed.
Definition keeps_served (lim : StoreLimits) (s : Store) (held : list nat) : Prop :=
  (forall r, r ∈ held \/ active (proc s) = Some r ->
     exists e, heap (proc s) !! r = Some e /\ entries (proc s) !! h_generation_id (handle e) = Some r /\ intact (disk s) (handle e)) /\
  (forall r, references_at (proc s) r = pins_of r held) /\
  sum_bytes (proc s) (entries (proc s)) <= maximum_resident_vector_bytes lim.
Lemma service_keeps lim s held : service lim s held -> keeps_served lim s held.
Proof.
  intros H. split; [|split; [apply (sv_references _ _ _ H)|apply (sv_resident _ _ _ H)]].
  intros r Hr. assert (exists g, entries (proc s) !! g = Some r) as (g & Hg).
  { destruct Hr; [by apply (sv_held _ _ _ H)|by apply (sv_active _ _ _ H)]. }
  destruct (sv_entries _ _ _ H _ _ Hg) as (e & Hheap & Hgid & Hi & _). exists e. by rewrite Hgid.
Qed.
