(* ===== verification/StoreRoots.v ===== *)
(** The durable roots of the store: a claim resumes the job that is there, and a crash while
    a root is published leaves either no root or the whole root. *)
From S2P Require Export StoreSafety.

#[local] Opaque re_cas_prefix re_hex64 GENERATION_ID GENERATION_GC_ROOT_OWNER GENERATION_GC_ROOT_TEMP MAP_REDUCE_JOB sha256_bytes.

(** ** Claims *)
Lemma fold_match_owner f roots matching :
  foldM (match_owner f) [] roots = Ok matching ->
  forall og, og ∈ matching <-> og ∈ roots /\ f og.2 = Ok og.1.
Proof.
  apply (foldM_ok_invariant (match_owner f) (fun done acc => forall og, og ∈ acc <-> og ∈ done /\ f og.2 = Ok og.1)).
  - intros og. rewrite !elem_of_nil. tauto.
  - intros done a rest acc acc' _ IH H og. unfold match_owner in H. inv_res H. rewrite elem_of_app, list_elem_of_singleton.
    case_bool_decide as E; rewrite ?elem_of_app, ?list_elem_of_singleton, IH; [subst r; naive_solver|].
    split; [naive_solver|]. intros [[?| ->] Hf]; [auto|]. congruence.
Qed.

(** ** Counting names in a finite map *)
Section Count.
Context {V : Type} (p : ustr * V -> bool).
Definition inode_names (m : gmap ustr V) : list (ustr * V) := List.filter p (map_to_list m).
Lemma filter_permutation (l1 l2 : list (ustr * V)) : Permutation l1 l2 -> Permutation (List.filter p l1) (List.filter p l2).
Proof. induction 1; cbn; [done|by destruct (p x); [apply perm_skip|]|destruct (p x), (p y); by try apply perm_swap|by etrans]. Qed.
Lemma inode_names_insert m k v : m !! k = None -> Permutation (inode_names (<[k := v]> m)) ((if p (k, v) then [(k, v)] else []) ++ inode_names m).
Proof. intros Hk. unfold inode_names. rewrite (filter_permutation _ _ (map_to_list_insert m k v Hk)). cbn. by destruct (p (k, v)). Qed.
Lemma inode_names_none m : (forall k v, m !! k = Some v -> p (k, v) = false) -> inode_names m = [].
Proof.
  intros H. unfold inode_names. assert (Forall (fun kv => p kv = false) (map_to_list m)) as Hall.
  { apply Forall_forall. intros [k v] Hin%elem_of_map_to_list. eauto. }
  induction Hall as [|kv l Hkv _ IH]; cbn; [done|by rewrite Hkv].
Qed.
End Count.

Definition root_has (i : Z) (nf : ustr * file_entry_of) : bool := match nf.2 with PlainFile f => has_inode i f | NotAFile => false end.
Definition incoming_has (i : Z) (nf : ustr * incoming_entry) : bool := match nf.2 with IncomingFile f => has_inode i f | _ => false end.
Lemma st_nlink_count i d : st_nlink i d = zlen (inode_names (root_has i) (generation_gc_roots d)) + zlen (inode_names (incoming_has i) (incoming d)).
Proof. unfold st_nlink, root_links, incoming_links, inode_names, zlen. by rewrite !length_map. Qed.

(** An inode no file of the two directories has. *)
Definition unused_inode (d : Disk) (i : Z) : Prop :=
  (forall name f, generation_gc_roots d !! name = Some (PlainFile f) -> f_inode f <> i) /\
  (forall name f, incoming d !! name = Some (IncomingFile f) -> f_inode f <> i).
Lemma unused_counts d i : unused_inode d i -> inode_names (root_has i) (generation_gc_roots d) = [] /\ inode_names (incoming_has i) (incoming d) = [].
Proof.
  intros [Hr Hi]. split; apply inode_names_none.
  - intros k [f|] Hk; [|done]. unfold root_has, has_inode. cbn. apply Z.eqb_neq. eauto.
  - intros k [|f|] Hk; [done| |done]. unfold incoming_has, has_inode. cbn. apply Z.eqb_neq. eauto.
Qed.

Lemma set_incoming_back d m : set_incoming (set_incoming d m) (incoming d) = d.
Proof. by destruct d. Qed.

(** ** A crash during publication *)
Section Crash.
Context {quota : StateQuota} (d : Disk) (roots : list (ustr * ustr)) (owner gid tmp : ustr) (inode : Z) (written : list N).
Definition temporary : small_file := {| f_inode := inode; f_bytes := written; f_json := None |}.
Definition published : small_file :=
  {| f_inode := inode; f_bytes := _canonical_generation_gc_root owner gid; f_json := Some (generation_gc_root_payload owner gid) |}.

(** Before the crash: the roots can be read and there is no temporary file. *)
Record quiet : Prop := {
  q_roots : foldM (read_root d) [] (sorted_roots d) = Ok roots;
  q_temporaries : forall name e, incoming d !! name = Some e -> is_temporary name = false;
}.
(** What [mkstemp] draws. *)
Record drawn : Prop := {
  d_name : is_temporary tmp = true;
  d_inode : unused_inode d inode;
}.
(** After [mkstemp] and any part of the write; after the link and before the temporary
    file is removed. *)
Definition crashed_writing : Disk := set_incoming d (<[tmp := IncomingFile temporary]> (incoming d)).
Definition with_root : Disk := set_roots d (<[root_name owner := PlainFile published]> (generation_gc_roots d)).
Definition crashed_linked : Disk := set_incoming with_root (<[tmp := IncomingFile published]> (incoming d)).

Lemma temporaries_crashed (f : small_file) d' :
  quiet -> drawn -> incoming d' = <[tmp := IncomingFile f]> (incoming d) -> temporaries d' = [tmp].
Proof.
  intros [_ Hq] [Hname Hin] Hd'. unfold temporaries. rewrite Hd'. assert (incoming d !! tmp = None) as Hnone.
  { destruct (incoming d !! tmp) eqn:E; [|done]. apply Hq in E. congruence. }
  assert (Permutation (List.filter is_temporary (map fst (map_to_list (<[tmp:=IncomingFile f]> (incoming d))))) [tmp]) as Hp.
  { assert (forall l1 l2, Permutation l1 l2 -> Permutation (List.filter is_temporary l1) (List.filter is_temporary l2)) as Hfp.
    { induction 1; cbn; [done|by destruct (is_temporary x); [apply perm_skip|]|destruct (is_temporary x), (is_temporary y); by try apply perm_swap|by etrans]. }
    rewrite (Hfp _ (map fst ((tmp, IncomingFile f) :: map_to_list (incoming d)))) by (apply Permutation_map; by apply map_to_list_insert).
    cbn [map fst List.filter]. rewrite Hname. apply perm_skip. assert (Forall (fun n => is_temporary n = false) (map fst (map_to_list (incoming d)))) as Hall.
    { apply Forall_forall. intros n ([n' e] & -> & Hin')%list_elem_of_fmap. apply elem_of_map_to_list in Hin'. by apply Hq in Hin'. }
    induction Hall as [|n l Hn _ IH]; cbn [List.filter]; [done|by rewrite Hn]. }
  apply Permutation_singleton_r. by rewrite sorted_by_Permutation.
Qed.
Lemma tmp_absent : quiet -> drawn -> incoming d !! tmp = None.
Proof. intros [_ Hq] [Hname _]. destruct (incoming d !! tmp) eqn:E; [|done]. apply Hq in E. congruence. Qed.

Lemma count_incoming_crashed (f : small_file) :
  quiet -> drawn -> f_inode f = inode -> zlen (inode_names (incoming_has inode) (<[tmp := IncomingFile f]> (incoming d))) = 1.
Proof.
  intros Hq Hd Hf. unfold zlen. rewrite (inode_names_insert _ _ _ _ (tmp_absent Hq Hd)). unfold incoming_has at 1, has_inode. cbn [fst snd].
  rewrite Hf, Z.eqb_refl. destruct (unused_counts d inode (d_inode Hd)) as [_ ->]. done.
Qed.

(** One temporary file that may be removed. *)
Lemma reconcile_one (f : small_file) (d' : Disk) p :
  quiet -> drawn -> incoming d' = <[tmp := IncomingFile f]> (incoming d) -> state_quota_transaction d' = Ok tt ->
  zlen (f_bytes f) <= MAXIMUM_GENERATION_GC_ROOT_BYTES ->
  (st_nlink (f_inode f) d' = 1 \/
   st_nlink (f_inode f) d' = 2 /\ exists name e b, companions (f_inode f) d' = [(name, e)] /\ _read_generation_gc_root d' name e [2] = Ok b) ->
  _reconcile_generation_gc_root_temporaries_locked {| disk := d'; proc := p |} = (Ok tt, {| disk := set_incoming d' (incoming d); proc := p |}).
Proof.
  intros Hq Hd Hin Hquota Hsize Hlinks. unfold _reconcile_generation_gc_root_temporaries_locked, bindM, getD. cbn [disk].
  rewrite (temporaries_crashed f d' Hq Hd Hin). cbn [iterM lift raise_if]. unfold lift. rewrite Hquota. unfold bindM, reconcile_temporary, getD, bindM. cbn [disk].
  rewrite Hin, lookup_insert_eq. unfold lift.
  replace (MAXIMUM_GENERATION_GC_ROOT_BYTES <? zlen (f_bytes f)) with false by lia.
  assert (bool_decide (st_nlink (f_inode f) d' ∈ [1; 2]) = true) as ->.
  { apply bool_decide_eq_true. destruct Hlinks as [-> |[-> _]]; [left|right; left]. }
  cbn [negb orb raise_if]. assert (delete tmp (<[tmp := IncomingFile f]> (incoming d)) = incoming d) as Hdel by by apply delete_insert_id, tmp_absent.
  destruct Hlinks as [-> |[-> (name & e & b & Hc & Hr)]]; cbn [Z.eqb Pos.eqb]; [|rewrite Hc, Hr; cbn [res_bind]];
    unfold putD, ret; cbn [disk proc]; by rewrite Hdel.
Qed.

(** A temporary file that was never linked is removed, and nothing else happens. *)
Lemma recovers_writing p :
  quiet -> drawn -> zlen written <= MAXIMUM_GENERATION_GC_ROOT_BYTES -> state_quota_transaction crashed_writing = Ok tt ->
  _durable_generation_roots_locked {| disk := crashed_writing; proc := p |} = (Ok roots, {| disk := d; proc := p |}).
Proof.
  intros Hq Hd Hsize Hquota. with_strategy transparent [_durable_generation_roots_locked] unfold _durable_generation_roots_locked.
  unfold bindM at 1. rewrite (reconcile_one temporary) by (try done; left; rewrite st_nlink_count; cbn [incoming crashed_writing set_incoming generation_gc_roots f_inode temporary];
    rewrite (count_incoming_crashed temporary Hq Hd eq_refl); by destruct (unused_counts d inode (d_inode Hd)) as [-> _]).
  unfold crashed_writing. rewrite set_incoming_back.
  unfold bindM, getD, lift. cbn [disk]. by rewrite (q_roots Hq).
Qed.

(** The root that was linked is whole: its temporary name goes, the root stays. *)
Lemma linked_counts :
  quiet -> drawn -> generation_gc_roots d !! root_name owner = None ->
  Permutation (inode_names (root_has inode) (generation_gc_roots with_root)) [(root_name owner, PlainFile published)] /\
  st_nlink inode with_root = 1 /\ st_nlink inode crashed_linked = 2.
Proof.
  intros Hq Hd Hfresh. destruct (unused_counts d inode (d_inode Hd)) as [Hr Hi].
  assert (Permutation (inode_names (root_has inode) (generation_gc_roots with_root)) [(root_name owner, PlainFile published)]) as Hp.
  { cbn [generation_gc_roots with_root set_roots]. rewrite (inode_names_insert _ _ _ _ Hfresh), Hr. unfold root_has, has_inode. cbn [fst snd f_inode published]. by rewrite Z.eqb_refl. }
  split; [done|]. rewrite !st_nlink_count. assert (zlen (inode_names (root_has inode) (generation_gc_roots with_root)) = 1) as H1 by (unfold zlen; by rewrite Hp).
  split; [rewrite H1; cbn [incoming with_root set_roots]; by rewrite Hi|].
  change (generation_gc_roots crashed_linked) with (generation_gc_roots with_root). rewrite H1. cbn [incoming crashed_linked set_incoming].
  by rewrite (count_incoming_crashed published Hq Hd eq_refl).
Qed.
Lemma other_links f : unused_inode d inode -> generation_gc_roots d !! root_name owner = None -> f_inode f <> inode ->
  st_nlink (f_inode f) with_root = st_nlink (f_inode f) d.
Proof.
  intros Hi Hfresh Hne. rewrite !st_nlink_count. cbn [generation_gc_roots incoming with_root set_roots]. f_equal. unfold zlen.
  rewrite (inode_names_insert _ _ _ _ Hfresh). unfold root_has at 1, has_inode. cbn [fst snd f_inode published].
  by rewrite (proj2 (Z.eqb_neq inode (f_inode f))) by congruence.
Qed.
Lemma fold_read_total d' : (forall name e, generation_gc_roots d' !! name = Some e -> exists o g, _read_generation_gc_root d' name e [1] = Ok (o, g) /\ is_plain_directory d' g = true) ->
  exists roots', foldM (read_root d') [] (sorted_roots d') = Ok roots'.
Proof.
  intros H. apply foldM_total. intros acc [name e] Hin%sorted_roots_elem. destruct (H _ _ Hin) as (o & g & Hr & Hg).
  unfold read_root. cbn [fst snd]. rewrite Hr. cbn [res_bind fst snd]. rewrite Hg. by eexists.
Qed.
Lemma with_root_readable :
  quiet -> drawn -> generation_gc_roots d !! root_name owner = None -> root_file (root_name owner) published owner gid ->
  is_plain_directory d gid = true -> exists roots', foldM (read_root with_root) [] (sorted_roots with_root) = Ok roots' /\ dict_get owner roots' = Some gid /\
    (forall o g, o <> owner -> dict_get o roots' = Some g <-> dict_get o roots = Some g).
Proof.
  intros Hq Hd Hfresh Hrf Hg. destruct (linked_counts Hq Hd Hfresh) as (_ & Hn & _). destruct (fold_roots _ _ (q_roots Hq)) as [Hall Hback].
  assert (_read_generation_gc_root with_root (root_name owner) (PlainFile published) [1] = Ok (owner, gid)) as Hnew.
  { apply read_root_spec. exists published. split; [done|]. split; [done|]. cbn [f_inode published]. rewrite Hn. left. }
  assert (forall name e o g, name <> root_name owner -> generation_gc_roots d !! name = Some e ->
            _read_generation_gc_root with_root name e [1] = Ok (o, g) <-> _read_generation_gc_root d name e [1] = Ok (o, g)) as Hold.
  { intros name e o g Hne He. rewrite !read_root_spec. split; intros (f & -> & Hf & Hl); exists f; (split; [done|split; [done|]]);
      pose proof (other_links f (d_inode Hd) Hfresh (proj1 (d_inode Hd) _ _ He)) as E; [by rewrite <- E|by rewrite E]. }
  destruct (fold_read_total with_root) as (roots' & Hfold).
  { intros name e. cbn [generation_gc_roots with_root set_roots]. destruct (decide (name = root_name owner)) as [->|Hne].
    - rewrite lookup_insert_eq. intros [= <-]. by exists owner, gid.
    - rewrite lookup_insert_ne by done. intros He. destruct (Hall _ _ He) as (o & g & Hr & Hp & _). exists o, g. split; [by apply Hold|done]. }
  exists roots'. split; [done|]. destruct (fold_roots _ _ Hfold) as [Hall' Hback']. split.
  - destruct (Hall' (root_name owner) (PlainFile published)) as (o & g & Hr & _ & Hget); [cbn; apply lookup_insert_eq|]. rewrite Hnew in Hr. by injection Hr as <- <-.
  - intros o g Hne. assert (root_name o <> root_name owner) as Hne' by by intros ?%root_name_inj. split.
    + intros (e & He & Hr & _)%Hback'. cbn [generation_gc_roots with_root set_roots] in He. rewrite lookup_insert_ne in He by done.
      destruct (Hall _ _ He) as (o' & g' & Hr' & _ & Hget). apply (Hold _ _ _ _ Hne' He) in Hr. rewrite Hr in Hr'. by injection Hr' as <- <-.
    + intros (e & He & Hr & _)%Hback. destruct (Hall' (root_name o) e) as (o' & g' & Hr' & _ & Hget); [cbn; by rewrite lookup_insert_ne|].
      apply (Hold _ _ _ _ Hne' He) in Hr. rewrite Hr in Hr'. by injection Hr' as <- <-.
Qed.

Lemma published_root_file :
  fullmatch GENERATION_GC_ROOT_OWNER owner = true -> fullmatch GENERATION_ID gid = true ->
  zlen (_canonical_generation_gc_root owner gid) <= MAXIMUM_GENERATION_GC_ROOT_BYTES -> root_file (root_name owner) published owner gid.
Proof. intros Ho Hg Hs. split; try done. eexists. split; [done|]. split; [by apply bool_decide_eq_true_2|done]. Qed.
Lemma recovers_linked p :
  quiet -> drawn -> generation_gc_roots d !! root_name owner = None -> root_file (root_name owner) published owner gid ->
  is_plain_directory d gid = true -> state_quota_transaction crashed_linked = Ok tt ->
  exists roots', _durable_generation_roots_locked {| disk := crashed_linked; proc := p |} = (Ok roots', {| disk := with_root; proc := p |}) /\
    dict_get owner roots' = Some gid /\ (forall o g, o <> owner -> dict_get o roots' = Some g <-> dict_get o roots = Some g).
Proof.
  intros Hq Hd Hfresh Hrf Hg Hquota. destruct (linked_counts Hq Hd Hfresh) as (Hperm & _ & Hn).
  destruct (with_root_readable Hq Hd Hfresh Hrf Hg) as (roots' & Hfold & Hrest). exists roots'. split; [|done].
  assert (exists name e b, companions inode crashed_linked = [(name, e)] /\ _read_generation_gc_root crashed_linked name e [2] = Ok b) as Hc.
  { exists (root_name owner), (PlainFile published), (owner, gid). split.
    - apply Permutation_singleton_r. rewrite <- Hperm. unfold companions, inode_names. apply filter_permutation, sorted_by_Permutation.
    - apply read_root_spec. exists published. split; [done|]. split; [done|]. cbn [f_inode published]. rewrite Hn. left. }
  with_strategy transparent [_durable_generation_roots_locked] unfold _durable_generation_roots_locked. unfold bindM at 1.
  pose proof (rf_size _ _ _ _ Hrf) as Hsize. rewrite (reconcile_one published) by (try done; right; split; done).
  unfold crashed_linked. rewrite (set_incoming_back with_root). unfold bindM, getD, lift. cbn [disk]. by rewrite Hfold.
Qed.
End Crash.

(** C24: Publishing a root is atomic.  After a crash while the temporary file is written, or
    between its link and its removal, the next operation that reads the roots removes the
    temporary file and finds the roots as they were, or those and the new one: the other
    directories are untouched and no reading fails. *)
Theorem root_publication_atomic {quota : StateQuota} (d : Disk) (roots : list (ustr * ustr)) (owner gid tmp : ustr) (inode : Z)
    (written : list N) (p : Process) :
  quiet d roots -> drawn d tmp inode -> generation_gc_roots d !! root_name owner = None ->
  fullmatch GENERATION_GC_ROOT_OWNER owner = true -> fullmatch GENERATION_ID gid = true -> is_plain_directory d gid = true ->
  zlen written <= MAXIMUM_GENERATION_GC_ROOT_BYTES -> zlen (_canonical_generation_gc_root owner gid) <= MAXIMUM_GENERATION_GC_ROOT_BYTES ->
  state_quota_transaction (crashed_writing d tmp inode written) = Ok tt ->
  state_quota_transaction (crashed_linked d owner gid tmp inode) = Ok tt ->
  _durable_generation_roots_locked {| disk := crashed_writing d tmp inode written; proc := p |} = (Ok roots, {| disk := d; proc := p |}) /\
  exists roots', _durable_generation_roots_locked {| disk := crashed_linked d owner gid tmp inode; proc := p |}
                 = (Ok roots', {| disk := with_root d owner gid inode; proc := p |}) /\
    dict_get owner roots' = Some gid /\ (forall o g, o <> owner -> dict_get o roots' = Some g <-> dict_get o roots = Some g).
Proof.
  intros Hq Hd Hfresh Ho Hg Hp Hw Hs Hquota1 Hquota2. split; [by eapply recovers_writing|].
  by apply recovers_linked; try done; apply published_root_file.
Qed.

(** A job is bound to one generation.  While an owner's root is durable, a claim by any
    process whose callback derives that owner from that generation resumes exactly this
    root, creates none, and leaves the process and the roots alone, whatever the pointer
    says by then; or it fails. *)
Theorem claim_resumes {quota : StateQuota} (lim : StoreLimits) (owner_for_generation : ustr -> res ustr) (inode : Z)
    (owner gid : ustr) (f : small_file) (dir : GenerationDir) (s s' : Store) (owner' gid' : ustr) (created : bool) :
  rooted owner gid f dir [] (disk s) -> owner_for_generation gid = Ok owner -> lifecycle_pid (proc s) = os_pid (proc s) ->
  claim_current_generation_gc_root lim owner_for_generation inode s = (Ok (owner', gid', created), s') ->
  owner' = owner /\ gid' = gid /\ created = false /\ proc s' = proc s /\ generation_gc_roots (disk s') = generation_gc_roots (disk s).
Proof.
  intros Hr Hf Hid. unfold claim_current_generation_gc_root. rewrite ensure_identity by done. rewrite bindM_ok. intros (roots & s1 & Hroots & H).
  apply durable_roots_frame in Hroots as Hframe. apply durable_roots_ok in Hroots. destruct Hframe as [Hp Hg Ho Hro _].
  assert (rooted owner gid f dir [] (disk s1)) as Hr1 by by eapply rooted_frame.
  rewrite bindM_ok in H. destruct H as (matching & s2 & [Hm ->]%lift_ok & H). pose proof (fold_match_owner _ _ _ Hm) as Hin.
  assert ((owner, gid) ∈ matching) as Hmem.
  { apply Hin. split; [|done]. destruct Hroots as [Hall _]. destruct (Hall _ _ (ro_file _ _ _ _ _ _ Hr1)) as (o & g & Hread & _ & Hget).
    apply read_root_spec in Hread as (f' & [= <-] & Hb' & _). pose proof (ro_binds _ _ _ _ _ _ Hr1) as Hb.
    destruct (rf_json _ _ _ _ Hb) as (m & Hj & _ & _ & Howner & Hgid). destruct (rf_json _ _ _ _ Hb') as (m' & Hj' & _ & _ & Howner' & Hgid').
    simplify_eq. by apply dict_get_elem in Hget. }
  destruct matching as [|[o g] [|]]; [by apply not_elem_of_nil in Hmem| |done]. apply list_elem_of_singleton in Hmem as [= <- <-].
  injection H as <- <- <- <-. by rewrite Hp, Hro.
Qed.
