(* ===== verification/StoreRuns.v ===== *)
(** What a serving process keeps, with runs of the store on a small state root: the
    witnesses of the theorems, and three runs in which a generation or an object is lost. *)
From S2P Require Export StoreRoots.

(** C4: A process that loads its current generation, serves requests, holds and releases
    pins, claims roots and activates checked generations, in any order, always keeps what it
    serves: every generation that is active or pinned has its directory with a readable
    database and every PDF that database names, by content; the reference count of an entry
    is the number of pins that are held on it; and the vectors in memory stay within the
    resident limit. *)
Theorem served_generations_intact {quota : StateQuota} (lim : StoreLimits) (s0 s : Store) (held : list nat) :
  check_store_limits lim = Ok tt -> coherent (disk s0) -> fresh_process (proc s0) -> rtc (service_step lim) (s0, []) (s, held) ->
  keeps_served lim s held.
Proof. intros Hlim Hco Hfresh Hsteps. apply service_keeps. eapply service_steps_keep; [|exact Hsteps]. by apply service_fresh. Qed.

(** ** A small state root *)
Definition run_all {quota : StateQuota} (lim : StoreLimits) (ops : list operation) (s : Store) : Store :=
  fold_left (fun s o => (run lim o s).2) ops s.
(** The steps of a run, as long as each is permitted without a proof. *)
Definition permittedb (s : Store) (held : list nat) (o : operation) : bool :=
  match o with
  | LoadCurrent => bool_decide (entries (proc s) = ∅) && bool_decide (held = [])
  | Unpin r => bool_decide (r ∈ held)
  | Activate _ _ => false
  | _ => true
  end.
Fixpoint serve_all {quota : StateQuota} (lim : StoreLimits) (ops : list operation) (s : Store) (held : list nat) : option (Store * list nat) :=
  match ops with
  | [] => Some (s, held)
  | o :: ops => if permittedb s held o then serve_all lim ops (run lim o s).2 (held_after o (run lim o s).1 held) else None
  end.
Lemma serve_all_steps {quota : StateQuota} lim ops s held s' held' :
  serve_all lim ops s held = Some (s', held') -> rtc (service_step lim) (s, held) (s', held').
Proof.
  revert s held. induction ops as [|o ops IH]; intros s held; cbn; [by intros [= <- <-]|]. destruct (permittedb s held o) eqn:E; [|done].
  intros H. eapply rtc_l; [|by apply IH]. eapply Operates; [|apply surjective_pairing].
  destruct o; cbn in *; try done; bsplit; done.
Qed.

Definition sample_pdf (n : N) : list N := PDF_MAGIC ++ [n].
Definition sample_document (n : N) : Document :=
  {| document_id := [n]; doc_issuer := us "kb"; doc_page_count := 1; pdf_sha256 := sha256_bytes (sample_pdf n); pdf_size_bytes := 6 |}.
Definition sample_metadata (g : ustr) : ServingMetadata :=
  {| schema_id := us "cardrag.serving-db.v5"; generation_id := g; corpus_sha256 := []; contract_sha256 := [];
     embedding_provider := us "openrouter"; embedding_model := us "qwen"; embedding_dimension := 4096; embedding_count := 2;
     vector_sidecar_sha256 := Some (us "f0"); vector_sidecar_size_bytes := Some 32768; exact_row_corpus_sha256 := None;
     document_aggregation_status := us "candidate_default"; document_aggregation_policy := us "max_child"; sealed_profile_sha256 := None |}.
Definition sample_database (g : ustr) (ns : list N) : Database :=
  {| db_size_bytes := 4096; db_schema_row := Some (us "cardrag.serving-db.v5"); db_validation := Ok (sample_metadata g);
     db_embeddings_normalized := true; db_embedding_views := 2; db_contract_revisions := Some (map sample_document ns);
     db_documents := None; db_ocr_failed_products := Some []; db_issuers := [us "kb"]; db_products := 0; db_pages := 1; db_evidence := 0;
     db_metadata := []; db_profiles := []; db_view_counts := [] |}.
Definition sample_dir (g : ustr) (t : Z) (ns : list N) : GenerationDir :=
  {| st_mtime_ns := t; gd_database := Some (sample_database g ns); gd_database_sha256 := [];
     gd_sidecar := Some {| sidecar_sha256 := us "f0"; sidecar_size_bytes := 32768; sidecar_rows_normalized := true |} |}.
Definition sample_objects (ns : list N) : gmap ustr cas_prefix :=
  list_to_map (map (fun n => let digest := sha256_bytes (sample_pdf n) in
                             (slice digest 0 2, PrefixDirectory {[ digest := CasFile (sample_pdf n) ]})) ns).
Definition A : ustr := us "gen-a".
Definition B : ustr := us "gen-b".
Definition C : ustr := us "gen-c".
Definition D : ustr := us "gen-d".
Definition sample_pointer (g : ustr) : pointer_entry :=
  PointerFile 1 {| f_inode := 1; f_bytes := canonical_line (local_pointer g); f_json := Some (local_pointer g) |}.
Definition sample_disk : Disk :=
  {| generations := list_to_map [(A, PlainDirectory (sample_dir A 10 [1%N])); (B, PlainDirectory (sample_dir B 20 [2%N]));
                                 (C, PlainDirectory (sample_dir C 30 [2%N; 3%N]))];
     objects_sha256 := Some (sample_objects [1; 2; 3; 4]%N); incoming := {[ D := IncomingDirectory (sample_dir D 40 [4%N]) ]};
     generation_gc_roots := ∅; current_path := sample_pointer C;
     audit_jobs := None; map_reduce_jobs := None; provider_coordination := None |}.
Definition sample_limits : StoreLimits :=
  {| maximum_vector_bytes := 100000; maximum_vector_sidecar_bytes := 100000; maximum_resident_vector_bytes := 20; maximum_pdf_bytes := 1000;
     maximum_database_bytes := 100000; maximum_generation_download_bytes := 1000000; store_maximum_state_bytes := 10000000;
     store_audit_max_jobs := 10; store_audit_max_total_bytes := 100000; store_reranker_max_jobs := 10; retention := 2 |}.
Definition sample_process : Process := {| os_pid := 7; lifecycle_pid := 7; heap := []; entries := ∅; active := None |}.
Definition sample_store : Store := {| disk := sample_disk; proc := sample_process |}.
Definition sample_quota : StateQuota := {| state_quota_guard _ _ _ := Ok tt; state_quota_transaction _ := Ok tt; state_quota_reserve _ _ := Ok tt |}.
#[local] Existing Instance sample_quota.

Lemma sample_coherent : coherent sample_disk.
Proof.
  intros g dir db Hg Hdb. unfold sample_disk in Hg. cbn [generations] in Hg. apply elem_of_list_to_map_2 in Hg. rewrite !elem_of_cons in Hg.
  assert (exists g' ns, db = sample_database g' ns) as (g' & ns & ->).
  { destruct Hg as [[= -> ->]|[[= -> ->]|[[= -> ->]|?%not_elem_of_nil]]]; [..|done]; cbn [gd_database sample_dir] in Hdb; injection Hdb as <-; by do 2 eexists. }
  intros m. cbn [db_validation sample_database]. intros [= <-]. split; [cbn [db_schema_row sample_database schema_id sample_metadata]; reflexivity|]. split; [cbn [embedding_count sample_metadata]; lia|]. intros Hv. vm_compute in Hv. discriminate.
Qed.

(** ** Witnesses *)
Definition sample_run : option (Store * list nat) :=
  serve_all sample_limits [LoadCurrent; Pin; PinGeneration A; PinGeneration B; Pin; Unpin 0; Unpin 0] sample_store [].
Lemma sample_limits_ok : check_store_limits sample_limits = Ok tt.
Proof. by vm_compute. Qed.
Lemma sample_fresh : fresh_process (proc sample_store).
Proof. by split_and!. Qed.
Lemma sample_run_some : snd <$> sample_run = Some [1%nat].
Proof. by vm_compute. Qed.
Lemma served_generations_intact_witness :
  exists s held, sample_run = Some (s, held) /\ held = [1%nat] /\ keeps_served sample_limits s held.
Proof.
  pose proof sample_run_some as Hs. destruct sample_run as [[s held]|] eqn:E; [|discriminate Hs]. injection Hs as ->. exists s, [1%nat].
  split; [reflexivity|]. split; [reflexivity|].
  exact (served_generations_intact sample_limits sample_store s [1%nat] sample_limits_ok sample_coherent sample_fresh
           (serve_all_steps _ _ _ _ _ _ E)).
Defined.

(** A root for generation A, as the code writes it. *)
Definition sample_owner : ustr := us "map-reduce-" ++ repeat 97%N 64.
Definition sample_root : small_file := published sample_owner A 5.
Definition sample_rooted_disk : Disk := with_root sample_disk sample_owner A 5.
Definition sample_rooted_store : Store := {| disk := sample_rooted_disk; proc := sample_process |}.
Lemma sample_root_binds : root_file (root_name sample_owner) sample_root sample_owner A.
Proof. apply published_root_file; by vm_compute. Qed.
Definition sample_digest (n : N) : ustr := sha256_bytes (sample_pdf n).
Lemma sample_object n : n ∈ [1; 2; 3; 4]%N -> object_ok sample_rooted_disk (sample_digest n).
Proof.
  intros Hn. exists (slice (sample_digest n) 0 2, sample_digest n), (sample_pdf n).
  rewrite !elem_of_cons in Hn. destruct Hn as [->|[->|[->|[->|?%not_elem_of_nil]]]]; [..|done]; (split; [by vm_compute|]); by split_and!; vm_compute.
Qed.
Lemma sample_is_rooted : rooted sample_owner A sample_root (sample_dir A 10 [1%N]) [sample_digest 1] sample_rooted_disk.
Proof.
  split; [apply lookup_insert_eq|exact sample_root_binds|by vm_compute| |].
  - exists (sample_database A [1%N]), [sample_digest 1]. split; [done|]. split; [by vm_compute|done].
  - apply Forall_singleton, sample_object. left.
Qed.
Lemma process_all_steps {quota : StateQuota} lim allowed pid ops m s :
  Forall allowed ops ->
  rtc (world_step lim allowed) {| w_disk := disk s; w_procs := <[pid := proc s]> m |}
    {| w_disk := disk (run_all lim ops s); w_procs := <[pid := proc (run_all lim ops s)]> m |}.
Proof.
  intros Hall. revert s. induction Hall as [|o ops Ho _ IH]; intros s; [apply rtc_refl|]. eapply rtc_l; [|apply IH].
  pose proof (ProcessRuns lim allowed {| w_disk := disk s; w_procs := <[pid := proc s]> m |} pid (proc s) o (run lim o s).1 (run lim o s).2
                (lookup_insert_eq _ _ _) Ho) as Hstep.
  cbn [w_disk w_procs] in Hstep. rewrite insert_insert_eq in Hstep. apply Hstep. destruct s. apply surjective_pairing.
Qed.
Definition sample_ops : list operation := [LoadCurrent; PinGeneration B; Unpin 1; PinGeneration A; Unpin 2].
Lemma rooted_generation_survives_witness :
  exists w', rtc (world_step sample_limits (fun o => forall g, o <> ReleaseRoot sample_owner g))
               {| w_disk := sample_rooted_disk; w_procs := <[7 := sample_process]> ∅ |} w' /\
    w_disk w' = disk (run_all sample_limits sample_ops sample_rooted_store) /\
    rooted sample_owner A sample_root (sample_dir A 10 [1%N]) [sample_digest 1] (w_disk w').
Proof.
  assert (rtc (world_step sample_limits (fun o => forall g, o <> ReleaseRoot sample_owner g))
               {| w_disk := sample_rooted_disk; w_procs := <[7 := sample_process]> ∅ |} 
               {| w_disk := disk (run_all sample_limits sample_ops sample_rooted_store);
                  w_procs := <[7 := proc (run_all sample_limits sample_ops sample_rooted_store)]> ∅ |}) as Hsteps.
  { apply (process_all_steps sample_limits _ 7 sample_ops ∅ sample_rooted_store). by repeat constructor. }
  eexists. split; [exact Hsteps|]. split; [reflexivity|].
  exact (rooted_generation_survives _ _ _ _ _ _ _ _ Hsteps sample_is_rooted).
Defined.

(** A crash while that root is published. *)
Definition sample_temporary_name : ustr := us ".generation-gc-root.x1".
Lemma sample_quiet : quiet sample_disk [].
Proof.
  split; [by vm_compute|]. intros name e. unfold sample_disk. cbn [incoming]. intros [<- <-]%lookup_singleton_Some. by vm_compute.
Qed.
Lemma sample_drawn : drawn sample_disk sample_temporary_name 5.
Proof.
  split; [by vm_compute|]. split; unfold sample_disk; cbn [generation_gc_roots incoming]; intros name f; [by rewrite lookup_empty|].
  by intros [_ ?]%lookup_singleton_Some.
Qed.
Lemma root_publication_atomic_witness :
  _durable_generation_roots_locked {| disk := crashed_writing sample_disk sample_temporary_name 5 [123%N]; proc := sample_process |}
    = (Ok [], {| disk := sample_disk; proc := sample_process |}) /\
  exists roots', _durable_generation_roots_locked {| disk := crashed_linked sample_disk sample_owner A sample_temporary_name 5; proc := sample_process |}
                 = (Ok roots', {| disk := with_root sample_disk sample_owner A 5; proc := sample_process |}) /\
    dict_get sample_owner roots' = Some A /\ (forall o g, o <> sample_owner -> dict_get o roots' = Some g <-> dict_get o [] = Some g).
Proof.
  apply (root_publication_atomic sample_disk [] sample_owner A sample_temporary_name 5 [123%N] sample_process sample_quiet sample_drawn);
    vm_compute; (reflexivity || discriminate).
Defined.

(** A second claim, after the pointer has moved on to B. *)
Definition sample_callback (g : ustr) : res ustr := Ok (if bool_decide (g = A) then sample_owner else us "map-reduce-" ++ repeat 98%N 64).
Definition sample_moved_store : Store := {| disk := set_current sample_rooted_disk (sample_pointer B); proc := sample_process |}.
Lemma sample_moved_rooted : rooted sample_owner A sample_root (sample_dir A 10 [1%N]) [] (disk sample_moved_store).
Proof. destruct sample_is_rooted as [H1 H2 H3 (db & l & Hdb & Hl & _) _]. 
  split; [exact H1|exact H2|exact H3| |constructor]. exists db, l. split; [exact Hdb|]. split; [exact Hl|]. intros x Hx. destruct (not_elem_of_nil x Hx).
Qed.
Definition sample_claim : res (ustr * ustr * bool) * Store :=
  claim_current_generation_gc_root sample_limits sample_callback 9 sample_moved_store.
Lemma sample_claims : sample_claim.1 = Ok (sample_owner, A, false).
Proof. vm_compute. reflexivity. Qed.
Lemma claim_resumes_witness :
  exists s', sample_claim = (Ok (sample_owner, A, false), s') /\ sample_owner = sample_owner /\ A = A /\ false = false /\
    proc s' = proc sample_moved_store /\ generation_gc_roots (disk s') = generation_gc_roots (disk sample_moved_store).
Proof.
  assert (sample_claim = (Ok (sample_owner, A, false), sample_claim.2)) as E by (rewrite <- sample_claims; apply surjective_pairing).
  exists sample_claim.2. split; [exact E|].
  exact (claim_resumes sample_limits sample_callback 9 sample_owner A sample_root (sample_dir A 10 [1%N]) sample_moved_store sample_claim.2
           sample_owner A false sample_moved_rooted eq_refl eq_refl E).
Defined.

(** ** Three runs that lose something *)
Definition sample_handle (g : ustr) (l : location) : GenerationHandle :=
  {| h_generation_id := g; h_location := l; h_metadata := sample_metadata g;
     h_vectors := {| matrix_nbytes := 32768; matrix_memmap := true; matrix_shape := (2, 4096); norms_nbytes := 8 |}; h_has_sidecar := true |}.
Definition load_here (s : Store) (l : location) (g : ustr) : res GenerationHandle :=
  load_generation_handle sample_limits (disk s) l g (Some g) None None.

(** [activate] does not look whether the directory of its handle is still there.  Here the
    updater has validated the retained generation A, to go back to it, when the last pin
    of A is released: the eviction removes A, and the activation that follows succeeds.
    The process then serves a generation of which no file exists. *)
Definition rollback_ready : Store := run_all sample_limits [LoadCurrent; PinGeneration A] sample_store.
Definition rollback_done : Store := run_all sample_limits [Unpin 1; Activate (sample_handle A InGenerations) 9] rollback_ready.
Theorem activation_of_evicted_generation :
  load_here rollback_ready InGenerations A = Ok (sample_handle A InGenerations) /\
  verify_handle_pdfs sample_limits (disk rollback_ready) (sample_handle A InGenerations) = Ok tt /\
  active_generation (proc rollback_done) = Some A /\ is_plain_directory (disk rollback_done) A = false /\
  verify_handle_pdfs sample_limits (disk rollback_done) (sample_handle A InGenerations) = Err OperationalError.
Proof. split_and!; vm_compute; reflexivity. Qed.

(** The sweep of the objects marks from the directories in place, not from [.incoming].  A
    pin released after the updater has verified the PDFs of the staged generation D, and
    before it moves D into place, removes the PDF only D names; D is activated without it. *)
Definition staged : Store := run_all sample_limits [LoadCurrent; PinGeneration A] sample_store.
Definition swept : Store := run_all sample_limits [Unpin 1] staged.
Definition moved_into_place (s : Store) : Store :=
  {| disk := set_generations (disk s) (<[D := PlainDirectory (sample_dir D 40 [4%N])]> (generations (disk s))); proc := proc s |}.
Definition staged_done : Store := run_all sample_limits [Activate (sample_handle D InGenerations) 9] (moved_into_place swept).
Theorem staged_objects_swept :
  load_here staged InIncoming D = Ok (sample_handle D InIncoming) /\
  verify_handle_pdfs sample_limits (disk staged) (sample_handle D InIncoming) = Ok tt /\
  active_generation (proc staged_done) = Some D /\
  verify_handle_pdfs sample_limits (disk staged_done) (sample_handle D InGenerations) = Err FileNotFoundError.
Proof. split_and!; vm_compute; reflexivity. Qed.

(** Pins are counted per process: an eviction by another process on the same state root
    does not see them.  Process 7 holds a pin on A when process 8 releases its own on B. *)
Definition other_process : Process := {| os_pid := 8; lifecycle_pid := 8; heap := []; entries := ∅; active := None |}.
Definition pinned_here : Store := run_all sample_limits [PinGeneration A] sample_store.
Definition evicted_there : Store :=
  run_all sample_limits [LoadCurrent; PinGeneration B; Unpin 1] {| disk := disk pinned_here; proc := other_process |}.
Theorem pins_of_other_processes_unseen :
  is_pinned (proc pinned_here) A = true /\ is_plain_directory (disk pinned_here) A = true /\
  is_plain_directory (disk evicted_there) A = false.
Proof. split_and!; vm_compute; reflexivity. Qed.
