(* ===== verification/Updater.v ===== *)
(** Synchronisation with the remote store ([cardrag_mcp/updater.py]): the checks a remote
    manifest and a downloaded database must pass, and the steps of one poll over the store.

    A [Reader] gives what the WebDAV client delivers; a download that fails raises.  The
    contracts of core/manifests.py are records of the fields the updater reads; their JSON
    validation is pydantic's.  A sealed aggregation profile carries its own digest.  The
    profiles of a database are in the order of the query that reads them.
    Metrics and log lines are left out, and so is the loop that waits between polls. *)
From S2P Require Export Store.

(** ** What a manifest declares *)
Record RemoteArtifact := { ra_path : ustr; ra_sha256 : ustr; ra_size_bytes : Z; ra_media_type : ustr }.
#[export] Instance remote_artifact_eq_dec : EqDecision RemoteArtifact.
Proof. solve_decision. Defined.
Record RemoteDocument := {
  rd_document_id : ustr;
  rd_issuer : ustr;
  rd_page_count : Z;
  rd_pdf : RemoteArtifact;
  rd_ocr_sha256 : option ustr;
  rd_availability : ustr;
  rd_failure_reason_code : option ustr;
  rd_failure_reason : option ustr;
  rd_failure_attempts : option Z;
}.
Record ManifestParserProfile := { pp_issuer : ustr; pp_profile_id : ustr; pp_profile_sha256 : ustr }.
Record StructureContract := {
  parser_profiles : list ManifestParserProfile;
  node_total : Z; node_root : Z; node_major_section : Z; node_item : Z; node_paragraph : Z; node_list_item : Z;
  node_table : Z; node_table_row : Z; node_footnote : Z; node_boilerplate : Z; node_unclassified : Z;
  major_total : Z; major_benefit : Z; major_notice : Z; major_mixed : Z; major_unknown : Z;
  source_non_whitespace_characters : Z; covered_non_whitespace_characters : Z; source_non_whitespace_sha256 : ustr;
  revision_total : Z; revision_current : Z; revision_superseded : Z; revision_ambiguous : Z;
}.
Record EmbeddingVectorSidecar := {
  vs_artifact : RemoteArtifact;
  vs_profile_id : ustr;
  vs_row_count : Z;
  vs_dimension : Z;
  vs_dtype : ustr;
  vs_byte_order : ustr;
  vs_layout : ustr;
  vs_normalization : ustr;
}.
Record DocumentAggregationProfile := {
  ap_profile_id : ustr;
  ap_aggregation_policy : ustr;
  ap_embedding_profile_id : ustr;
  ap_exact_row_corpus_sha256 : ustr;
  ap_profile_sha256 : ustr;
}.
Record IssuerOcrCount := { oc_issuer : ustr; oc_acquired : Z; oc_succeeded : Z; oc_failed : Z }.
Record RemoteGeneration := {
  rg_generation_id : ustr;
  rg_serving_schema : ustr;
  rg_corpus_sha256 : ustr;
  rg_contract_sha256 : ustr;
  rg_database : RemoteArtifact;
  rg_documents : list RemoteDocument;
  rg_issuer_codes : list ustr;
  rg_document_count : Z;
  rg_pdf_object_count : Z;
  rg_ocr_object_count : Z;
  rg_chunk_count : Z;
  rg_embedding_provider : ustr;
  rg_embedding_model : ustr;
  rg_embedding_dimension : Z;
  rg_embedding_count : Z;
  rg_issuer_ocr_counts : list IssuerOcrCount;
  rg_vector_sidecar : option RemoteArtifact;
  rg_structure_contract : option StructureContract;
  rg_embedding_profiles : list EmbeddingProfile;
  rg_primary_embedding_profile_id : option ustr;
  rg_embedding_view_counts : list (ustr * Z);
  rg_vector_sidecar_contract : option EmbeddingVectorSidecar;
  rg_parser_policy_sha256 : option ustr;
  rg_embedding_policy_sha256 : option ustr;
  rg_retrieval_policy_sha256 : option ustr;
  rg_document_aggregation_profile : option DocumentAggregationProfile;
  rg_document_aggregation_policy : option ustr;
  rg_sealed_profile_sha256 : option ustr;
  rg_exact_row_corpus_sha256 : option ustr;
}.

(** ** [_verify_remote_manifest_contract] *)
Definition SCHEMA_EMBEDDING_DIMENSIONS : list (ustr * Z) :=
  [(us "cardrag.serving-db.v2", EMBEDDING_DIMENSION); (us "cardrag.serving-db.v3", EMBEDDING_DIMENSION);
   (us "cardrag.serving-db.v4", EMBEDDING_DIMENSION); (us "cardrag.serving-db.v5", QWEN3_EMBEDDING_DIMENSION);
   (us "cardrag.serving-db.v6", QWEN3_EMBEDDING_DIMENSION)].
Definition SQLITE_MEDIA_TYPE : ustr := us "application/vnd.sqlite3".
Definition AVAILABLE : ustr := us "available".
Definition OCR_FAILED : ustr := us "ocr_failed".
Definition is_sha256 (o : option ustr) : bool := match o with Some d => fullmatch re_hex64 d | None => false end.
Definition sum_Z (l : list Z) : Z := foldr Z.add 0 l.
Definition bool_Z (b : bool) : Z := if b then 1 else 0.
Definition count_where {A} (f : A -> bool) (l : list A) : Z := sum_Z (map (fun a => bool_Z (f a)) l).
Definition distinct (l : list ustr) : Z := zlen (remove_dups l).
Definition is_available (doc : RemoteDocument) : bool := bool_decide (rd_availability doc = AVAILABLE).
Definition is_ocr_failed (doc : RemoteDocument) : bool := bool_decide (rd_availability doc = OCR_FAILED).

Definition sealed_v5_retrieval_policy (profile : DocumentAggregationProfile) (profile_sha256 : ustr) : res json :=
  let! _ := raise_if (negb (fullmatch re_hex64 profile_sha256)) (ValueError "document aggregation profile SHA-256 is invalid") in
  let! _ := raise_if (negb (bool_decide (ap_profile_sha256 profile = profile_sha256)))
              (ValueError "document aggregation profile SHA-256 does not bind the profile") in
  Ok (JObj [(us "aggregation", JObj [(us "policy", JStr (ap_aggregation_policy profile)); (us "profile_id", JStr (ap_profile_id profile));
                                     (us "sealed_profile_sha256", JStr profile_sha256)]);
            (us "candidate_prefilter", JStr (us "none")); (us "dense_scan", JStr (us "exact-all-active-rows.v1"));
            (us "lexical_fusion", JStr (us "forbidden")); (us "schema_version", JStr (us "cardrag.retrieval-policy.v2"));
            (us "temporal_scope", JStr (us "current"))]).

Definition check_database_artifact (g : RemoteGeneration) : res unit :=
  let! path := generation_database_path (rg_generation_id g) in
  let a := rg_database g in
  raise_if (negb (bool_decide (ra_path a = as_posix path)) || negb (bool_decide (ra_media_type a = SQLITE_MEDIA_TYPE))
            || negb (fullmatch re_hex64 (ra_sha256 a)) || (ra_size_bytes a <? 1) || (MAX_SAFE_BYTES <? ra_size_bytes a))
    (RuntimeError "generation serving database artifact is invalid").
Definition check_sidecar_artifact (g : RemoteGeneration) (a : RemoteArtifact) : res unit :=
  let! path := generation_vectors_path (rg_generation_id g) in
  raise_if (negb (bool_decide (ra_path a = as_posix path)) || negb (bool_decide (ra_media_type a = us "application/octet-stream"))
            || negb (fullmatch re_hex64 (ra_sha256 a))
            || negb (ra_size_bytes a =? rg_embedding_count g * QWEN3_EMBEDDING_DIMENSION * 4) || (MAX_SAFE_BYTES <? ra_size_bytes a))
    (RuntimeError "v5 vector sidecar artifact is invalid").
(** The last profile of an id, as in the dictionary. *)
Definition profile_by_id (id : ustr) (profiles : list EmbeddingProfile) : option EmbeddingProfile :=
  dict_get id (dict_of (map (fun p => (profile_id p, p)) profiles)).
Definition primary_profile (g : RemoteGeneration) : option EmbeddingProfile :=
  match rg_primary_embedding_profile_id g with Some id => profile_by_id id (rg_embedding_profiles g) | None => None end.

Definition check_semantic_contract (g : RemoteGeneration) (sidecar : RemoteArtifact) : res EmbeddingProfile :=
  match rg_structure_contract g, rg_vector_sidecar_contract g, rg_primary_embedding_profile_id g with
  | Some structure, Some contract, Some _ =>
      let! _ := raise_if (bool_decide (rg_embedding_profiles g = []) || bool_decide (rg_embedding_view_counts g = [])
                          || negb (forallb is_sha256 [rg_parser_policy_sha256 g; rg_embedding_policy_sha256 g; rg_retrieval_policy_sha256 g]))
                  (RuntimeError "v5 generation semantic manifest contract is incomplete") in
      let inconsistent := RuntimeError "v5 generation semantic manifest contract is inconsistent" in
      let! primary := of_option inconsistent (primary_profile g) in
      let! _ := raise_if (negb (bool_decide (NoDup (map profile_id (rg_embedding_profiles g))))
          || negb (bool_decide (map pp_issuer (parser_profiles structure) = rg_issuer_codes g))
          || negb (revision_total structure =? count_where is_available (rg_documents g))
          || negb (major_total structure =? node_major_section structure)
          || negb (bool_decide (profile_provider primary = rg_embedding_provider g))
          || negb (bool_decide (profile_model primary = rg_embedding_model g))
          || negb (profile_dimension primary =? rg_embedding_dimension g)
          || negb (bool_decide (vs_profile_id contract = profile_id primary))
          || negb (vs_row_count contract =? rg_embedding_count g)
          || negb (vs_dimension contract =? rg_embedding_dimension g)
          || negb (bool_decide (vs_dtype contract = profile_dtype primary))
          || negb (bool_decide (vs_normalization contract = profile_normalization primary))
          || negb (bool_decide (vs_byte_order contract = us "little-endian"))
          || negb (bool_decide (vs_layout contract = us "row-major"))
          || negb (sum_Z (map snd (rg_embedding_view_counts g)) =? rg_embedding_count g)
          || negb (bool_decide (vs_artifact contract = sidecar))) inconsistent in
      Ok primary
  | _, _, _ => Err (RuntimeError "v5 generation semantic manifest contract is incomplete")
  end.
Definition is_some {A} (o : option A) : bool := match o with Some _ => true | None => false end.
Definition check_aggregation (g : RemoteGeneration) (primary : EmbeddingProfile) : res unit :=
  let present := [is_some (rg_document_aggregation_profile g); is_some (rg_document_aggregation_policy g);
                  is_some (rg_sealed_profile_sha256 g); is_some (rg_exact_row_corpus_sha256 g)] in
  let! _ := raise_if (negb (forallb id present) && existsb id present)
              (RuntimeError "v5 document aggregation manifest identity is all-or-nothing") in
  match rg_document_aggregation_profile g with
  | None => Ok tt
  | Some profile =>
      let inconsistent := RuntimeError "v5 document aggregation manifest identity is inconsistent" in
      let! sha := of_option inconsistent (rg_sealed_profile_sha256 g) in
      let! _ := raise_if (negb (bool_decide (ap_profile_sha256 profile = sha))
          || negb (bool_decide (Some (ap_aggregation_policy profile) = rg_document_aggregation_policy g))
          || negb (bool_decide (ap_embedding_profile_id profile = profile_id primary))
          || negb (bool_decide (Some (ap_exact_row_corpus_sha256 profile) = rg_exact_row_corpus_sha256 g))) inconsistent in
      let! policy := sealed_v5_retrieval_policy profile sha in
      raise_if (negb (bool_decide (rg_retrieval_policy_sha256 g = Some (canonical_sha256 policy)))) inconsistent
  end.
Definition has_no_v5_fields (g : RemoteGeneration) : bool :=
  negb (is_some (rg_structure_contract g)) && bool_decide (rg_embedding_profiles g = []) && negb (is_some (rg_primary_embedding_profile_id g))
  && bool_decide (rg_embedding_view_counts g = []) && negb (is_some (rg_vector_sidecar_contract g)) && negb (is_some (rg_parser_policy_sha256 g))
  && negb (is_some (rg_embedding_policy_sha256 g)) && negb (is_some (rg_retrieval_policy_sha256 g))
  && negb (is_some (rg_document_aggregation_profile g)) && negb (is_some (rg_document_aggregation_policy g))
  && negb (is_some (rg_sealed_profile_sha256 g)) && negb (is_some (rg_exact_row_corpus_sha256 g)).
Definition check_vectors_contract (g : RemoteGeneration) : res unit :=
  if is_v5 (rg_serving_schema g) then
    let! sidecar := of_option (RuntimeError "v5 generation requires a vector sidecar") (rg_vector_sidecar g) in
    let! _ := check_sidecar_artifact g sidecar in
    let! primary := check_semantic_contract g sidecar in
    check_aggregation g primary
  else
    let! _ := raise_if (is_some (rg_vector_sidecar g)) (RuntimeError "legacy generation must not declare a vector sidecar") in
    raise_if (negb (has_no_v5_fields g)) (RuntimeError "legacy generation contains v5 semantic manifest fields").

(** [pdf_by_digest]: a digest names one artifact. *)
Definition check_pdf_artifact (pdf_by_digest : list (ustr * RemoteArtifact)) (doc : RemoteDocument) : res (list (ustr * RemoteArtifact)) :=
  let a := rd_pdf doc in
  let invalid := RuntimeError "generation manifest PDF artifact is invalid" in
  let! _ := raise_if (negb (fullmatch re_hex64 (ra_sha256 a))) invalid in
  let! path := object_path (ra_sha256 a) in
  let! _ := raise_if (negb (bool_decide (ra_path a = as_posix path)) || negb (bool_decide (ra_media_type a = us "application/pdf"))
                      || (ra_size_bytes a <? 1) || (MAX_SAFE_BYTES <? ra_size_bytes a)) invalid in
  match dict_get (ra_sha256 a) pdf_by_digest with
  | None => Ok (dict_set (ra_sha256 a) a pdf_by_digest)
  | Some existing =>
      let! _ := raise_if (negb (bool_decide (existing = a))) (RuntimeError "generation manifest reuses a PDF digest with another identity") in
      Ok pdf_by_digest
  end.
Definition sorted_unique (l : list ustr) : list ustr := sorted_by ustr_leb (remove_dups l).
Definition documents_of (g : RemoteGeneration) (issuer : ustr) : list RemoteDocument :=
  List.filter (fun doc => bool_decide (rd_issuer doc = issuer)) (rg_documents g).
(** At least 95 of 100 acquired documents of an issuer are read. *)
Definition check_issuer_ocr (g : RemoteGeneration) (label : string) (c : IssuerOcrCount) : res unit :=
  let matching := documents_of g (oc_issuer c) in
  raise_if (negb (oc_acquired c =? zlen matching) || negb (oc_succeeded c =? count_where is_available matching)
            || negb (oc_failed c =? count_where is_ocr_failed matching) || (oc_succeeded c <? 1)
            || (oc_succeeded c * 100 <? oc_acquired c * 95))
    (RuntimeError (label ++ " generation issuer OCR counts are invalid")%string).
Definition re_reason_code : regex := between 1 64 (Chr (fun c => in_range 97 122 c || is_ascii_digit c || (c =? 95)%N)).
Definition check_disposition (label : string) (doc : RemoteDocument) : res unit :=
  if is_available doc then
    raise_if (negb (is_some (rd_ocr_sha256 doc)) || is_some (rd_failure_reason_code doc) || is_some (rd_failure_reason doc)
              || is_some (rd_failure_attempts doc))
      (RuntimeError ("available " ++ label ++ " document has an invalid OCR disposition")%string)
  else if is_ocr_failed doc then
    raise_if (negb (match rd_failure_reason_code doc, rd_failure_reason doc, rd_failure_attempts doc with
                    | Some code, Some reason, Some n =>
                        negb (is_some (rd_ocr_sha256 doc)) && fullmatch re_reason_code code && negb (bool_decide (reason = []))
                        && (zlen reason <=? 256) && negb (bool_decide (10%N ∈ reason)) && negb (bool_decide (13%N ∈ reason)) && (1 <=? n)
                    | _, _, _ => false
                    end))
      (RuntimeError ("OCR-failed " ++ label ++ " document has an invalid disposition")%string)
  else Err (RuntimeError (label ++ " document availability is invalid")%string).
Definition check_ocr_dispositions (g : RemoteGeneration) : res unit :=
  if bool_decide (rg_serving_schema g ∈ V4_SCHEMAS) then
    let label := if bool_decide (rg_serving_schema g = us "cardrag.serving-db.v4") then "v4"%string else "v5"%string in
    let! _ := raise_if (negb (bool_decide (map oc_issuer (rg_issuer_ocr_counts g) = rg_issuer_codes g)))
                (RuntimeError (label ++ " generation issuer OCR counts are incomplete")%string) in
    let! _ := forM (check_issuer_ocr g label) (rg_issuer_ocr_counts g) in
    forM (check_disposition label) (rg_documents g)
  else
    raise_if (match rg_issuer_ocr_counts g with [] => false | _ => true end || existsb (fun doc => negb (is_available doc)) (rg_documents g))
      (RuntimeError "legacy generation contains v4 OCR dispositions").

Definition _verify_remote_manifest_contract (g : RemoteGeneration) : res unit :=
  let! _ := raise_if (existsb (fun n => n <? 0)
                [rg_document_count g; rg_pdf_object_count g; rg_ocr_object_count g; rg_chunk_count g; rg_embedding_count g])
              (RuntimeError "generation manifest contains an invalid count") in
  let! expected_dimension := of_option (RuntimeError "generation serving schema is unsupported")
                               (dict_get (rg_serving_schema g) SCHEMA_EMBEDDING_DIMENSIONS) in
  let! _ := raise_if (negb (rg_embedding_dimension g =? expected_dimension))
              (RuntimeError "generation embedding dimension does not match its serving schema") in
  let! _ := check_database_artifact g in
  let! _ := check_vectors_contract g in
  let! _ := raise_if (negb (bool_decide (rg_issuer_codes g = sorted_unique (rg_issuer_codes g))))
              (RuntimeError "generation manifest issuer codes are not sorted and unique") in
  let! _ := raise_if (negb (rg_document_count g =? zlen (rg_documents g)))
              (RuntimeError "generation manifest document count differs from its documents") in
  let! _ := foldM check_pdf_artifact [] (rg_documents g) in
  let! _ := raise_if (negb (rg_pdf_object_count g =? distinct (map (fun doc => ra_sha256 (rd_pdf doc)) (rg_documents g))))
              (RuntimeError "generation manifest PDF object count differs from its documents") in
  let! _ := raise_if (negb (rg_ocr_object_count g =? distinct (omap rd_ocr_sha256 (rg_documents g))))
              (RuntimeError "generation manifest OCR object count differs from its documents") in
  let! _ := raise_if (negb (rg_chunk_count g =? rg_embedding_count g))
              (RuntimeError "generation manifest chunk count differs from embedding count") in
  let! _ := raise_if (negb (forallb (fun doc => bool_decide (rd_issuer doc ∈ rg_issuer_codes g)) (rg_documents g)))
              (RuntimeError "generation document references an undeclared issuer") in
  check_ocr_dispositions g.

(** ** Storage *)
Record UpdaterLimits := { up_maximum_pdf_bytes : Z; up_maximum_database_bytes : Z; up_maximum_generation_download_bytes : Z }.
(** [WebDAVUpdater.__init__]; [poll_positive] is the test of the interval. *)
Definition updater_limits (lim : StoreLimits) (poll_positive : bool) (maximum_pdf_bytes : Z)
    (maximum_database_bytes maximum_generation_download_bytes : option Z) : res UpdaterLimits :=
  let! _ := raise_if (negb poll_positive) (ValueError "poll_seconds must be positive") in
  let database_limit := default (Store.maximum_database_bytes lim) maximum_database_bytes in
  let generation_limit := default (Store.maximum_generation_download_bytes lim) maximum_generation_download_bytes in
  let! _ := validate_byte_limit maximum_pdf_bytes "maximum PDF bytes" false in
  let! _ := validate_byte_limit database_limit "maximum serving database bytes" false in
  let! _ := validate_byte_limit generation_limit "maximum generation download bytes" false in
  let! _ := raise_if ((generation_limit <? database_limit) || (generation_limit <? maximum_pdf_bytes))
              (ValueError "artifact cap exceeds the generation download quota") in
  Ok {| up_maximum_pdf_bytes := maximum_pdf_bytes; up_maximum_database_bytes := database_limit;
        up_maximum_generation_download_bytes := generation_limit |}.

(** The PDFs of a manifest by digest: the first artifact of a digest, or the last. *)
Definition first_pdfs (g : RemoteGeneration) : list (ustr * RemoteArtifact) :=
  fold_left (fun d doc => match dict_get (ra_sha256 (rd_pdf doc)) d with
                          | None => dict_set (ra_sha256 (rd_pdf doc)) (rd_pdf doc) d
                          | Some _ => d end) (rg_documents g) [].
Definition last_pdfs (g : RemoteGeneration) : list (ustr * RemoteArtifact) :=
  dict_of (map (fun doc => (ra_sha256 (rd_pdf doc), rd_pdf doc)) (rg_documents g)).
Definition add_size (label : string) (total : Z) (da : ustr * RemoteArtifact) : res Z := checked_add total (ra_size_bytes da.2) label.
Definition _verify_remote_storage_contract (lim : StoreLimits) (ul : UpdaterLimits) (g : RemoteGeneration) : res unit :=
  let! _ := raise_if (up_maximum_database_bytes ul <? ra_size_bytes (rg_database g))
              (RuntimeError "remote serving database exceeds its configured hard cap") in
  let! _ := raise_if (match rg_vector_sidecar g with Some a => maximum_vector_sidecar_bytes lim <? ra_size_bytes a | None => false end)
              (RuntimeError "v5 vector sidecar exceeds the configured file limit") in
  let! total := match rg_vector_sidecar g with
                | Some a => checked_add (ra_size_bytes (rg_database g)) (ra_size_bytes a) "generation download bytes"
                | None => Ok (ra_size_bytes (rg_database g))
                end in
  let! _ := forM (fun doc => raise_if (up_maximum_pdf_bytes ul <? ra_size_bytes (rd_pdf doc))
                               (RuntimeError "referenced PDF exceeds its configured hard cap")) (rg_documents g) in
  let! total := foldM (add_size "generation download bytes") total (first_pdfs g) in
  raise_if (up_maximum_generation_download_bytes ul <? total) (RuntimeError "remote generation exceeds the aggregate download quota").

(** ** Verification of files *)

(** [_verify_artifact] on a file with this digest and size, [None] when it is missing or
    unsafe. *)
Definition _verify_artifact (file : option (ustr * Z)) (a : RemoteArtifact) (maximum_bytes : option Z) : res unit :=
  let! digest_size := of_option (RuntimeError "downloaded artifact is missing or unsafe") file in
  let! _ := raise_if (match maximum_bytes with Some m => m <? ra_size_bytes a | None => false end)
              (RuntimeError "artifact exceeds its configured size bound") in
  raise_if (negb (bool_decide (digest_size.1 = ra_sha256 a)) || negb (digest_size.2 =? ra_size_bytes a))
    (RuntimeError "downloaded artifact hash or size differs from its manifest").
Definition content_file (content : option (list N)) : option (ustr * Z) :=
  match content with Some c => Some (sha256_bytes c, zlen c) | None => None end.
Definition _verify_pdf_artifact (content : option (list N)) (a : RemoteArtifact) (maximum_bytes : Z) : res unit :=
  let! _ := _verify_artifact (content_file content) a (Some maximum_bytes) in
  raise_if (negb (bool_decide (take 5 (default [] content) = PDF_MAGIC))) (RuntimeError "referenced CAS object is not application/pdf").
Definition item_content (it : option cas_item) : option (list N) := match it with Some (CasFile c) => Some c | _ => None end.
Definition database_file (dir : GenerationDir) : option (ustr * Z) :=
  match gd_database dir with Some db => Some (gd_database_sha256 dir, db_size_bytes db) | None => None end.
Definition sidecar_file (s : option Sidecar) : option (ustr * Z) :=
  match s with Some s => Some (sidecar_sha256 s, sidecar_size_bytes s) | None => None end.

Definition missing_bytes (d : Disk) (ul : UpdaterLimits) (growth : Z) (da : ustr * RemoteArtifact) : res Z :=
  let! at_ := cas_path (ra_sha256 da.2) in
  match _verify_pdf_artifact (item_content (cas_item_at d at_)) da.2 (up_maximum_pdf_bytes ul) with
  | Ok _ => Ok growth
  | Err _ => checked_add growth (ra_size_bytes da.2) "prospective generation state bytes"
  end.
Definition _prospective_state_growth (ul : UpdaterLimits) (d : Disk) (g : RemoteGeneration) : res Z :=
  let! growth := match generations d !! rg_generation_id g with
                 | Some _ => Ok 0
                 | None => match rg_vector_sidecar g with
                           | Some a => checked_add (ra_size_bytes (rg_database g)) (ra_size_bytes a) "prospective generation state bytes"
                           | None => Ok (ra_size_bytes (rg_database g))
                           end
                 end in
  foldM (missing_bytes d ul) growth (last_pdfs g).

Definition VECTOR_ROW_RESIDENT_BYTES : Z := EMBEDDING_DIMENSION * 4 + 4.
Definition VECTOR_NORM_RESIDENT_BYTES : Z := 4.
Definition _verify_candidate_capacity (lim : StoreLimits) (p : Process) (g : RemoteGeneration) : res unit :=
  let! candidate := match rg_vector_sidecar g with
    | None =>
        let! _ := raise_if (maximum_vector_bytes lim <? rg_embedding_count g * EMBEDDING_DIMENSION * 4)
                    (RuntimeError "legacy inline vectors exceed the configured size limit") in
        Ok (rg_embedding_count g * VECTOR_ROW_RESIDENT_BYTES)
    | Some a =>
        let! _ := raise_if (maximum_vector_sidecar_bytes lim <? ra_size_bytes a)
                    (RuntimeError "v5 vector sidecar exceeds the configured file limit") in
        Ok (rg_embedding_count g * VECTOR_NORM_RESIDENT_BYTES)
    end in
  raise_if (maximum_resident_vector_bytes lim - sum_bytes p (entries p) <? candidate)
    (RuntimeError "candidate plus resident/pinned vector memory exceeds the resident limit").

(** ** The database against the manifest *)
Record contract_document := {
  cd_document_id : ustr; cd_issuer : ustr; cd_page_count : Z; cd_pdf_sha256 : ustr; cd_pdf_size_bytes : Z;
  cd_availability : ustr; cd_reason_code : option ustr; cd_reason : option ustr; cd_attempts : option Z }.
Definition available_row (doc : Document) : contract_document :=
  {| cd_document_id := document_id doc; cd_issuer := doc_issuer doc; cd_page_count := doc_page_count doc; cd_pdf_sha256 := pdf_sha256 doc;
     cd_pdf_size_bytes := pdf_size_bytes doc; cd_availability := AVAILABLE; cd_reason_code := None; cd_reason := None; cd_attempts := None |}.
Definition failed_row (f : FailedProduct) : contract_document :=
  let doc := failed_document f in
  {| cd_document_id := document_id doc; cd_issuer := doc_issuer doc; cd_page_count := doc_page_count doc; cd_pdf_sha256 := pdf_sha256 doc;
     cd_pdf_size_bytes := pdf_size_bytes doc; cd_availability := OCR_FAILED; cd_reason_code := Some (reason_code f);
     cd_reason := Some (reason f); cd_attempts := Some (attempts f) |}.
Record database_counts := {
  dc_issuers : Z; dc_documents : Z; dc_available : Z; dc_pages : Z; dc_rows : Z; dc_pdf_objects : Z }.
#[export] Instance database_counts_eq_dec : EqDecision database_counts.
Proof. solve_decision. Defined.
Definition row_leb (a b : contract_document) : bool := ustr_leb (cd_document_id a) (cd_document_id b).
Definition _database_contract (schema : ustr) (db : Database) : res (list contract_document * database_counts * list ustr) :=
  let! rows := of_option OperationalError (if is_v5 schema then db_contract_revisions db else db_documents db) in
  let with_failures := bool_decide (schema ∈ V4_SCHEMAS) in
  let! failed := if with_failures then of_option OperationalError (db_ocr_failed_products db) else Ok [] in
  let documents := sorted_by row_leb (map available_row (sorted_by document_leb rows) ++ map failed_row failed) in
  let objects := distinct (map pdf_sha256 rows ++ map (fun f => pdf_sha256 (failed_document f)) failed) in
  let counts := {|
    dc_issuers := zlen (db_issuers db);
    dc_documents := (if is_v5 schema then zlen rows else db_products db) + zlen failed;
    dc_available := zlen rows;
    dc_pages := db_pages db;
    dc_rows := if is_v5 schema then db_embedding_views db else db_evidence db;
    dc_pdf_objects := objects |} in
  Ok (documents, counts, sorted_by ustr_leb (db_issuers db)).

Definition opt_str (o : option ustr) : ustr := match o with Some s => s | None => us "None" end.
Definition node_type_counts (s : StructureContract) : list (string * Z) :=
  [("ROOT"%string, node_root s); ("MAJOR_SECTION"%string, node_major_section s); ("ITEM"%string, node_item s);
   ("PARAGRAPH"%string, node_paragraph s); ("LIST_ITEM"%string, node_list_item s); ("TABLE"%string, node_table s);
   ("TABLE_ROW"%string, node_table_row s); ("FOOTNOTE"%string, node_footnote s); ("BOILERPLATE"%string, node_boilerplate s);
   ("UNCLASSIFIED"%string, node_unclassified s)].
Definition major_class_counts (s : StructureContract) : list (string * Z) :=
  [("BENEFIT"%string, major_benefit s); ("NOTICE"%string, major_notice s); ("MIXED"%string, major_mixed s); ("UNKNOWN"%string, major_unknown s)].
Definition expected_metadata (g : RemoteGeneration) (s : StructureContract) (v : EmbeddingVectorSidecar) : list (ustr * ustr) :=
  [(us "parser_policy_sha256", opt_str (rg_parser_policy_sha256 g)); (us "embedding_policy_sha256", opt_str (rg_embedding_policy_sha256 g));
   (us "retrieval_policy_sha256", opt_str (rg_retrieval_policy_sha256 g));
   (us "primary_embedding_profile_id", opt_str (rg_primary_embedding_profile_id g));
   (us "embedding_profile_count", str_of_Z (zlen (rg_embedding_profiles g)));
   (us "vector_sidecar_profile_id", vs_profile_id v); (us "vector_sidecar_row_count", str_of_Z (vs_row_count v));
   (us "vector_sidecar_dimension", str_of_Z (vs_dimension v)); (us "vector_sidecar_dtype", vs_dtype v);
   (us "vector_sidecar_normalization", vs_normalization v); (us "vector_sidecar_byte_order", vs_byte_order v);
   (us "vector_sidecar_layout", vs_layout v);
   (us "source_non_whitespace_count", str_of_Z (source_non_whitespace_characters s));
   (us "covered_non_whitespace_count", str_of_Z (covered_non_whitespace_characters s));
   (us "source_coverage_sha256", source_non_whitespace_sha256 s); (us "structure_node_count", str_of_Z (node_total s));
   (us "contract_revision_count", str_of_Z (revision_total s)); (us "current_revision_count", str_of_Z (revision_current s));
   (us "superseded_revision_count", str_of_Z (revision_superseded s)); (us "ambiguous_revision_count", str_of_Z (revision_ambiguous s))]
  ++ match rg_document_aggregation_profile g with
     | Some p => [(us "document_aggregation_status", us "sealed"); (us "document_aggregation_policy", ap_aggregation_policy p);
                  (us "sealed_profile_sha256", opt_str (rg_sealed_profile_sha256 g));
                  (us "exact_row_corpus_sha256", opt_str (rg_exact_row_corpus_sha256 g))]
     | None => []
     end
  ++ (parser_profiles s ≫= fun p => [(us "parser_profile_id." ++ pp_issuer p, pp_profile_id p);
                                     (us "parser_profile_sha256." ++ pp_issuer p, pp_profile_sha256 p)])
  ++ map (fun tc : string * Z => (us "structure_node_count." ++ us tc.1, str_of_Z tc.2)) (node_type_counts s)
  ++ map (fun tc : string * Z => (us "structure_major_class_count." ++ us tc.1, str_of_Z tc.2)) (major_class_counts s)
  ++ map (fun tc => (us "embedding_view_count." ++ tc.1, str_of_Z tc.2)) (rg_embedding_view_counts g).
Definition counts_map (l : list (ustr * Z)) : gmap ustr Z := list_to_map (reverse l).
Definition _verify_v5_semantic_binding (db : Database) (g : RemoteGeneration) : res unit :=
  match rg_structure_contract g, rg_vector_sidecar_contract g with
  | Some s, Some v =>
      let! _ := raise_if (existsb (fun kv : ustr * ustr => negb (bool_decide (dict_get kv.1 (db_metadata db) = Some kv.2)))
                            (dict_of (expected_metadata g s v)))
                  (RuntimeError "v5 database metadata differs from semantic manifest contract") in
      raise_if (negb (bool_decide (db_profiles db = rg_embedding_profiles g))
                || negb (bool_decide (counts_map (db_view_counts db)
                                      = filter (fun kv => kv.2 <> 0) (counts_map (rg_embedding_view_counts g)))))
        (RuntimeError "v5 database profiles/views differ from semantic manifest contract")
  | _, _ => Err (RuntimeError "v5 generation semantic contract is absent")
  end.

Definition check_aggregation_binding (m : ServingMetadata) (g : RemoteGeneration) : res unit :=
  match rg_document_aggregation_profile g with
  | None =>
      raise_if (negb (bool_decide (document_aggregation_status m = us "candidate_default"))
                || negb (bool_decide (document_aggregation_policy m = us "max_child")) || is_some (sealed_profile_sha256 m))
        (RuntimeError "unsealed v5 manifest differs from database aggregation identity")
  | Some p =>
      raise_if (negb (bool_decide (document_aggregation_status m = us "sealed"))
                || negb (bool_decide (document_aggregation_policy m = ap_aggregation_policy p))
                || negb (bool_decide (rg_document_aggregation_policy g = Some (ap_aggregation_policy p)))
                || negb (bool_decide (sealed_profile_sha256 m = rg_sealed_profile_sha256 g))
                || negb (bool_decide (exact_row_corpus_sha256 m = rg_exact_row_corpus_sha256 g)))
        (RuntimeError "sealed v5 manifest differs from database aggregation identity")
  end.
Definition check_sidecar_binding (h : GenerationHandle) (file : option Sidecar) (g : RemoteGeneration) : res unit :=
  let m := h_metadata h in
  match rg_vector_sidecar g with
  | None => raise_if (h_has_sidecar h || is_some (vector_sidecar_sha256 m) || is_some (vector_sidecar_size_bytes m))
              (RuntimeError "legacy database unexpectedly declares a vector sidecar")
  | Some a =>
      let! _ := raise_if (negb (h_has_sidecar h) || negb (bool_decide (vector_sidecar_sha256 m = Some (ra_sha256 a)))
                    || negb (bool_decide (vector_sidecar_size_bytes m = Some (ra_size_bytes a)))
                    || negb (bool_decide (matrix_shape (h_vectors h) = (rg_embedding_count g, rg_embedding_dimension g)))
                    || negb (norms_nbytes (h_vectors h) =? rg_embedding_count g * 4))
                  (RuntimeError "database/handle vector sidecar differs from generation manifest") in
      _verify_artifact (sidecar_file file) a None
  end.
Definition check_document_row (declared : list (ustr * RemoteDocument)) (row : contract_document) : res unit :=
  let! doc := of_option KeyError (dict_get (cd_document_id row) declared) in
  raise_if (negb (bool_decide (rd_issuer doc = cd_issuer row)) || negb (rd_page_count doc =? cd_page_count row)
            || negb (bool_decide (ra_sha256 (rd_pdf doc) = cd_pdf_sha256 row)) || negb (ra_size_bytes (rd_pdf doc) =? cd_pdf_size_bytes row)
            || negb (bool_decide (ra_media_type (rd_pdf doc) = us "application/pdf"))
            || negb (bool_decide (rd_availability doc = cd_availability row))
            || negb (bool_decide (rd_failure_reason_code doc = cd_reason_code row))
            || negb (bool_decide (rd_failure_reason doc = cd_reason row)) || negb (bool_decide (rd_failure_attempts doc = cd_attempts row)))
    (RuntimeError "manifest and database PDF references differ").
Definition expected_counts (g : RemoteGeneration) : database_counts :=
  let available := List.filter is_available (rg_documents g) in
  {| dc_issuers := zlen (rg_issuer_codes g); dc_documents := rg_document_count g; dc_available := zlen available;
     dc_pages := sum_Z (map rd_page_count available); dc_rows := rg_chunk_count g; dc_pdf_objects := rg_pdf_object_count g |}.
Definition _verify_generation_binding (d : Disk) (h : GenerationHandle) (g : RemoteGeneration) : res unit :=
  let m := h_metadata h in
  let! _ := raise_if (negb (bool_decide (schema_id m = rg_serving_schema g)) || negb (bool_decide (generation_id m = rg_generation_id g))
                || negb (bool_decide (corpus_sha256 m = rg_corpus_sha256 g)) || negb (bool_decide (contract_sha256 m = rg_contract_sha256 g))
                || negb (bool_decide (embedding_provider m = rg_embedding_provider g))
                || negb (bool_decide (embedding_model m = rg_embedding_model g))
                || negb (embedding_dimension m =? rg_embedding_dimension g) || negb (embedding_count m =? rg_embedding_count g))
              (RuntimeError "database contract differs from generation manifest") in
  let! _ := check_sidecar_binding h (generation_at d (h_location h) (h_generation_id h) ≫= gd_sidecar) g in
  let! _ := if is_v5 (rg_serving_schema g) then
              let! _ := check_aggregation_binding m g in
              let! db := connect d h in
              _verify_v5_semantic_binding db g
            else Ok tt in
  let! db := connect d h in
  let! contract := _database_contract (schema_id m) db in
  let '(documents, counts, issuer_codes) := contract in
  let declared := dict_of (map (fun doc => (rd_document_id doc, doc)) (rg_documents g)) in
  let! _ := raise_if (negb (bool_decide (NoDup (map rd_document_id (rg_documents g)))))
              (RuntimeError "generation manifest contains duplicate document IDs") in
  let! _ := raise_if (negb (bool_decide ((list_to_set (map rd_document_id (rg_documents g)) : gset ustr) = list_to_set (map cd_document_id documents))))
              (RuntimeError "manifest and database document sets differ") in
  let! _ := forM (check_document_row declared) documents in
  raise_if (negb (bool_decide (issuer_codes = rg_issuer_codes g)) || negb (bool_decide (counts = expected_counts g)))
    (RuntimeError "manifest and database corpus counts differ").
(** The limits of the store, with the updater's cap on the database. *)
Definition with_database_limit (lim : StoreLimits) (n : Z) : StoreLimits :=
  {| maximum_vector_bytes := maximum_vector_bytes lim; maximum_vector_sidecar_bytes := maximum_vector_sidecar_bytes lim;
     maximum_resident_vector_bytes := maximum_resident_vector_bytes lim; Store.maximum_pdf_bytes := Store.maximum_pdf_bytes lim;
     Store.maximum_database_bytes := n; Store.maximum_generation_download_bytes := Store.maximum_generation_download_bytes lim;
     store_maximum_state_bytes := store_maximum_state_bytes lim; store_audit_max_jobs := store_audit_max_jobs lim;
     store_audit_max_total_bytes := store_audit_max_total_bytes lim; store_reranker_max_jobs := store_reranker_max_jobs lim;
     retention := retention lim |}.
Definition _validated_handle (lim : StoreLimits) (ul : UpdaterLimits) (s : Store) (l : location) (g : RemoteGeneration) : res GenerationHandle :=
  let d := disk s in
  let dir := generation_at d l (rg_generation_id g) in
  let! _ := _verify_artifact (dir ≫= database_file) (rg_database g) (Some (up_maximum_database_bytes ul)) in
  let! _ := match rg_vector_sidecar g with
            | None => raise_if (is_some (dir ≫= gd_sidecar)) (RuntimeError "legacy local generation contains a forbidden vector sidecar")
            | Some a => _verify_artifact (sidecar_file (dir ≫= gd_sidecar)) a (Some (maximum_vector_sidecar_bytes lim))
            end in
  let! _ := _verify_candidate_capacity lim (proc s) g in
  let! h := load_generation_handle (with_database_limit lim (up_maximum_database_bytes ul)) d l (rg_generation_id g) (Some (rg_generation_id g)) (Some (rg_embedding_model g)) (Some (rg_embedding_count g)) in
  let! _ := _verify_generation_binding d h g in
  Ok h.

(** ** One poll *)
Record Reader := {
  read_stable_generation : res (option RemoteGeneration);
  download_database : RemoteGeneration -> res (Database * ustr);
  download_vector_sidecar : RemoteGeneration -> res Sidecar;
  download_object : RemoteArtifact -> res (list N);
}.
Definition OSError : exn := Raised "OSError" "".

Section Poll.
Context {quota : StateQuota} (lim : StoreLimits) (ul : UpdaterLimits) (reader : Reader).

Definition reserve (size : Z) : M unit := let* d := getD in lift (state_quota_reserve d size).
(** [mkdir] of the directory of the object, and the object at its place.  What is no plain
    directory, or no plain file, there is taken to be a directory or a file in the way. *)
Definition make_prefix (d : Disk) (prefix : ustr) : res Disk :=
  let prefixes := default ∅ (objects_sha256 d) in
  match prefixes !! prefix with
  | Some PrefixOther => Err OSError
  | Some (PrefixDirectory _) => Ok d
  | None => Ok (set_objects d (Some (<[prefix := PrefixDirectory ∅]> prefixes)))
  end.
Definition put_object (d : Disk) (at_ : ustr * ustr) (content : list N) : res Disk :=
  let prefixes := default ∅ (objects_sha256 d) in
  match prefixes !! at_.1 with
  | Some (PrefixDirectory items) =>
      match items !! at_.2 with
      | Some CasOther => Err OSError
      | _ => Ok (set_objects d (Some (<[at_.1 := PrefixDirectory (<[at_.2 := CasFile content]> items)]> prefixes)))
      end
  | _ => Err OSError
  end.
Definition _sync_pdf (a : RemoteArtifact) : M unit :=
  let* _ := lift (raise_if (up_maximum_pdf_bytes ul <? ra_size_bytes a) (RuntimeError "referenced PDF exceeds 100 MiB")) in
  let* destination := lift (cas_path (ra_sha256 a)) in
  let* d := getD in
  if is_ok (_verify_pdf_artifact (item_content (cas_item_at d destination)) a (up_maximum_pdf_bytes ul)) then ret tt
  else
    let* _ := reserve (ra_size_bytes a) in
    let* d := getD in
    let* d' := lift (make_prefix d destination.1) in
    let* _ := putD d' in
    let* content := lift (download_object reader a) in
    let* _ := lift (_verify_pdf_artifact (Some content) a (up_maximum_pdf_bytes ul)) in
    let* d := getD in
    let* d' := lift (put_object d destination content) in
    putD d'.
Definition sync_documents (g : RemoteGeneration) : M unit := iterM (fun doc => _sync_pdf (rd_pdf doc)) (rg_documents g).

(** The [except BaseException] of the staging: the staging directory goes. *)
Definition discard_on_error {A} (gid : ustr) (m : M A) : M A := fun s =>
  match m s with
  | (Err e, s') => (Err e, {| disk := match incoming (disk s') !! gid with
                                      | Some (IncomingDirectory _) => set_incoming (disk s') (delete gid (incoming (disk s')))
                                      | _ => disk s'
                                      end; proc := proc s' |})
  | r => r
  end.
Definition staged_entry (dir : GenerationDir) (gid : ustr) : M unit :=
  let* d := getD in putD (set_incoming d (<[gid := IncomingDirectory dir]> (incoming d))).
(** [mtime] is the modification time the staging directory ends with, [inode] that of the
    new pointer. *)
Definition download_generation (g : RemoteGeneration) (mtime : Z) : M unit :=
  let gid := rg_generation_id g in
  let* _ := reserve (ra_size_bytes (rg_database g)) in
  let* file := lift (download_database reader g) in
  let dir := {| st_mtime_ns := mtime; gd_database := Some file.1; gd_database_sha256 := file.2; gd_sidecar := None |} in
  let* _ := staged_entry dir gid in
  let* _ := lift (_verify_artifact (database_file dir) (rg_database g) (Some (up_maximum_database_bytes ul))) in
  match rg_vector_sidecar g with
  | None => ret tt
  | Some a =>
      let* _ := reserve (ra_size_bytes a) in
      let* sidecar := lift (download_vector_sidecar reader g) in
      let* _ := staged_entry {| st_mtime_ns := mtime; gd_database := Some file.1; gd_database_sha256 := file.2; gd_sidecar := Some sidecar |} gid in
      lift (_verify_artifact (sidecar_file (Some sidecar)) a (Some (maximum_vector_sidecar_bytes lim)))
  end.
Definition at_location (l : location) (h : GenerationHandle) : GenerationHandle :=
  {| h_generation_id := h_generation_id h; h_location := l; h_metadata := h_metadata h; h_vectors := h_vectors h; h_has_sidecar := h_has_sidecar h |}.
Definition stage_new (g : RemoteGeneration) (mtime inode : Z) : M unit :=
  let gid := rg_generation_id g in
  let* _ := download_generation g mtime in
  let* s := (fun s => (Ok s, s)) in
  let* staged := lift (_validated_handle lim ul s InIncoming g) in
  let* _ := sync_documents g in
  let* d := getD in
  let* _ := lift (verify_handle_pdfs lim d staged) in
  match generations d !! gid, incoming d !! gid with
  | None, Some (IncomingDirectory dir) =>
      let* _ := putD (set_generations (set_incoming d (delete gid (incoming d))) (<[gid := PlainDirectory dir]> (generations d))) in
      activate lim (at_location InGenerations staged) inode
  | Some _, _ => throw (RuntimeError "immutable local generation already exists but is not active")
  | _, _ => throw OSError
  end.
Definition clear_staging (gid : ustr) : M unit :=
  let* d := getD in
  match incoming d !! gid with
  | None => ret tt
  | Some (IncomingDirectory _) => putD (set_incoming d (delete gid (incoming d)))
  | Some (IncomingFile _) => throw OSError
  | Some IncomingOther => throw (RuntimeError "incoming generation path escaped staging root")
  end.
Definition _stage_and_activate (g : RemoteGeneration) (mtime inode : Z) : M unit :=
  let gid := rg_generation_id g in
  let* _ := lift (raise_if (negb (bool_decide (ra_media_type (rg_database g) = SQLITE_MEDIA_TYPE)))
                    (RuntimeError "remote serving database media type is invalid")) in
  let* d := getD in
  match generations d !! gid with
  | Some _ =>
      let* s := (fun s => (Ok s, s)) in
      let* existing := lift (_validated_handle lim ul s InGenerations g) in
      let* _ := sync_documents g in
      let* d := getD in
      let* _ := lift (verify_handle_pdfs lim d existing) in
      activate lim existing inode
  | None =>
      let* _ := clear_staging gid in
      let* _ := staged_entry {| st_mtime_ns := mtime; gd_database := None; gd_database_sha256 := []; gd_sidecar := None |} gid in
      discard_on_error gid (stage_new g mtime inode)
  end.

(** The result is whether a generation was activated.  The pin of an unchanged generation
    is released however the repair of its objects ends. *)
Definition repair_active (g : RemoteGeneration) (h : GenerationHandle) : M unit :=
  let* d := getD in
  let* _ := lift (_verify_generation_binding d h g) in
  sync_documents g.
Definition finally {A} (m : M A) (cleanup : M unit) : M A := fun s =>
  let '(r, s1) := m s in
  match cleanup s1 with (Ok _, s2) => (r, s2) | (Err e, s2) => (Err e, s2) end.
Definition poll_once (mtime inode : Z) : M bool :=
  let* stable := lift (read_stable_generation reader) in
  let* g := lift (of_option (RuntimeError "stable WebDAV channel is absent") stable) in
  let gid := rg_generation_id g in
  let* _ := lift (raise_if (negb (fullmatch GENERATION_ID gid)) (RuntimeError "remote generation ID is unsafe")) in
  let* _ := lift (_verify_remote_manifest_contract g) in
  let* _ := lift (_verify_remote_storage_contract lim ul g) in
  let* d := getD in
  let* growth := lift (_prospective_state_growth ul d g) in
  let* _ := (if growth =? 0 then ret tt else lift (state_quota_guard d growth growth)) in
  let* current := active_generation_id in
  if bool_decide (current = Some gid) then
    let* rh := pin in
    let* _ := finally (repair_active g rh.2) (unpin lim rh.1) in
    ret false
  else
    let* p := getP in
    let* _ := lift (_verify_candidate_capacity lim p g) in
    let* _ := _stage_and_activate g mtime inode in
    ret true.
End Poll.
