(* ===== verification/UpdaterProof.v ===== *)
(** What a poll of the updater does to a serving store: it serves what the manifest says, or
    leaves what was served; either way the store keeps its invariant. *)
From S2P Require Export Updater StoreSafety.

#[local] Opaque re_cas_prefix re_hex64 GENERATION_ID GENERATION_GC_ROOT_OWNER GENERATION_GC_ROOT_TEMP MAP_REDUCE_JOB sha256_bytes.

(** ** Objects that arrive *)
Record only_objects (s s' : Store) : Prop := {
  oo_proc : proc s' = proc s;
  oo_generations : generations (disk s') = generations (disk s);
  oo_incoming : incoming (disk s') = incoming (disk s);
  oo_roots : generation_gc_roots (disk s') = generation_gc_roots (disk s);
  oo_current : current_path (disk s') = current_path (disk s);
  oo_objects : forall dig, object_ok (disk s) dig -> object_ok (disk s') dig;
}.
Lemma only_objects_refl s : only_objects s s.
Proof. by split. Qed.
Lemma only_objects_trans s1 s2 s3 : only_objects s1 s2 -> only_objects s2 s3 -> only_objects s1 s3.
Proof. intros [] []. split; try congruence. auto. Qed.

Lemma cas_item_prefixes d a :
  cas_item_at d a = match default ∅ (objects_sha256 d) !! a.1 with Some (PrefixDirectory items) => items !! a.2 | _ => None end.
Proof. unfold cas_item_at. by destruct (objects_sha256 d). Qed.
Lemma make_prefix_event d prefix d' : make_prefix d prefix = Ok d' -> d' = d \/ disk_event d d'.
Proof.
  unfold make_prefix. destruct (default ∅ (objects_sha256 d) !! prefix) as [[items|]|] eqn:E; [intros [= <-]; by left|done|]. intros [= <-]. right.
  apply MakePrefix. intros [pre dig]. rewrite !cas_item_prefixes. cbn. destruct (decide (pre = prefix)) as [->|Hne]; [|by rewrite lookup_insert_ne].
  by rewrite lookup_insert_eq, E.
Qed.
Lemma put_object_spec d at_ content d' :
  put_object d at_ content = Ok d' ->
  (exists objects, d' = set_objects d objects) /\ cas_item_at d' at_ = Some (CasFile content) /\ forall a, a <> at_ -> cas_item_at d' a = cas_item_at d a.
Proof.
  destruct at_ as [pre dig]. unfold put_object. cbn [fst snd]. destruct (default ∅ (objects_sha256 d) !! pre) as [[items|]|] eqn:E; [|done..].
  intros H. assert (d' = set_objects d (Some (<[pre := PrefixDirectory (<[dig := CasFile content]> items)]> (default ∅ (objects_sha256 d))))) as ->.
  { destruct (items !! dig) as [[]|]; [by injection H as <-|done|by injection H as <-]. }
  split; [by eexists|]. split; [unfold cas_item_at; cbn; by rewrite lookup_insert_eq, lookup_insert_eq|].
  intros [pre' dig'] Hne. rewrite !cas_item_prefixes. cbn. destruct (decide (pre' = pre)) as [->|Hpre]; [|by rewrite lookup_insert_ne].
  rewrite lookup_insert_eq, E. rewrite lookup_insert_ne; [done|]. intros ->. by apply Hne.
Qed.
Lemma put_object_event d at_ content d' :
  put_object d at_ content = Ok d' -> take 5 content = PDF_MAGIC -> cas_path (sha256_bytes content) = Ok at_ -> disk_event d d'.
Proof. intros ((objects & ->) & Hthis & Hother)%put_object_spec Hm Hp. by apply InstallObject with (at_ := at_) (content := content). Qed.
Lemma event_only_objects s d' :
  disk_event (disk s) d' -> generations d' = generations (disk s) -> incoming d' = incoming (disk s) ->
  generation_gc_roots d' = generation_gc_roots (disk s) -> current_path d' = current_path (disk s) ->
  only_objects s {| disk := d'; proc := proc s |}.
Proof. intros Hev Hg Hi Hr Hc. split; try done. intros dig. by apply disk_event_object. Qed.
Definition objects_only (d d' : Disk) : Prop := exists objects, d' = set_objects d objects.
Lemma make_prefix_frame d prefix d' : make_prefix d prefix = Ok d' -> objects_only d d'.
Proof.
  unfold make_prefix. destruct (_ !! prefix) as [[]|]; intros [= <-]; [exists (objects_sha256 d); by destruct d|by eexists].
Qed.
Lemma event_objects s d' : disk_event (disk s) d' -> objects_only (disk s) d' -> only_objects s {| disk := d'; proc := proc s |}.
Proof. intros Hev (objects & ->). by apply event_only_objects. Qed.

Lemma verified_pdf content a n :
  _verify_pdf_artifact content a n = Ok tt -> exists c, content = Some c /\ take 5 c = PDF_MAGIC /\ sha256_bytes c = ra_sha256 a /\ zlen c = ra_size_bytes a.
Proof.
  unfold _verify_pdf_artifact, _verify_artifact, content_file. intros H. inv_res H. bsplit. destruct content as [c|]; [|done]. injection Hr0 as <-.
  cbn in *. exists c. repeat split; try done. lia.
Qed.

Section Sync.
Context {quota : StateQuota} (ul : UpdaterLimits) (reader : Reader).

(** One object: what is there stays, and the artifact is there afterwards. *)
Definition moved_only (s s' : Store) : Prop := proc s' = proc s /\ rtc disk_event (disk s) (disk s').
Definition synced (s : Store) (a : RemoteArtifact) (r : res unit) (s' : Store) : Prop :=
  moved_only s s' /\ only_objects s s' /\ (r = Ok tt -> object_ok (disk s') (ra_sha256 a)).
Lemma synced_error s a e : synced s a (Err e) s.
Proof. split; [split; [done|apply rtc_refl]|]. split; [apply only_objects_refl|done]. Qed.
Lemma put_object_ok d at_ content d' :
  put_object d at_ content = Ok d' -> take 5 content = PDF_MAGIC -> cas_path (sha256_bytes content) = Ok at_ -> object_ok d' (sha256_bytes content).
Proof. intros (_ & Hthis & _)%put_object_spec Hm Hp. by exists at_, content. Qed.
Lemma sync_pdf_runs a s : runs (synced s a) (_sync_pdf ul reader a) s.
Proof.
  unfold _sync_pdf. pose proof (synced_error s a) as He. apply runs_bind_lift; [auto|intros _ _]. apply runs_bind_lift; [auto|intros at_ Hp].
  apply runs_bind_getD. destruct (_verify_pdf_artifact (item_content _) a _) as [[]|] eqn:Hver; cbn [is_ok].
  - apply runs_ret. split; [split; [done|apply rtc_refl]|]. split; [apply only_objects_refl|]. intros _.
    apply verified_pdf in Hver as (c & Hc & Hm & Hs & _). exists at_, c. split; [done|]. split; [|done].
    destruct (cas_item_at (disk s) at_) as [[]|]; [|done..]. by injection Hc as ->.
  - apply runs_bind. unfold reserve. apply runs_bind_getD, runs_lift. destruct (state_quota_reserve _ _); [|auto].
    apply runs_bind_getD. apply runs_bind_lift; [auto|intros d1 Hprefix]. apply runs_bind_putD. set (s1 := {| disk := d1; proc := proc s |}).
    assert (moved_only s s1 /\ only_objects s s1) as [Hmove Hoo].
    { apply make_prefix_frame in Hprefix as Hf. apply make_prefix_event in Hprefix as [->|Hev].
      - destruct s. split; [split; [done|apply rtc_refl]|apply only_objects_refl].
      - split; [split; [done|by apply rtc_once]|by apply event_objects]. }
    assert (forall e, synced s a (Err e) s1) as He1 by (intros ?; by split).
    apply runs_bind_lift; [auto|intros content _]. apply runs_bind_lift; [auto|intros [] Hnew]. apply runs_bind_getD.
    apply runs_bind_lift; [auto|intros d' Hput]. apply runs_putD. apply verified_pdf in Hnew as (c & [= <-] & Hm & Hs & _). rewrite <- Hs in Hp.
    assert (disk_event d1 d') as Hev by by eapply put_object_event. apply put_object_spec in Hput as Hspec. destruct Hspec as (Hf & _).
    split; [split; [done|]|]; [eapply rtc_r; [apply Hmove|exact Hev]|]. split; [|intros _; rewrite <- Hs; by eapply put_object_ok].
    eapply only_objects_trans; [exact Hoo|]. exact (event_objects s1 d' Hev Hf).
Qed.
End Sync.

Section Documents.
Context {quota : StateQuota} (ul : UpdaterLimits) (reader : Reader).

(** All documents in turn. *)
Definition all_synced (s : Store) (docs : list RemoteDocument) (r : res unit) (s' : Store) : Prop :=
  only_objects s s' /\ (r = Ok tt -> Forall (fun doc => object_ok (disk s') (ra_sha256 (rd_pdf doc))) docs).
Lemma sync_all docs s : runs (all_synced s docs) (iterM (fun doc => _sync_pdf ul reader (rd_pdf doc)) docs) s.
Proof.
  revert s. induction docs as [|doc docs IH]; intros s; cbn [iterM]; [apply runs_ret; split; [apply only_objects_refl|done]|].
  apply runs_bind. eapply runs_mono; [apply sync_pdf_runs|]. intros [[]|e] s1 (_ & Hoo & Hok); [|by split].
  eapply runs_mono; [apply IH|]. intros r s2 [Hoo2 Hall]. split; [by eapply only_objects_trans|]. intros ->. constructor; [|by apply Hall].
  apply (oo_objects _ _ Hoo2). by apply Hok.
Qed.
Lemma service_events lim held s s' : service lim s held -> moved_only s s' -> service lim s' held.
Proof.
  intros H [Hp Hev]. destruct s' as [d' p']. cbn in *. subst p'. destruct s as [d p]. cbn [disk proc] in *. induction Hev as [d|d d1 d2 Hev _ IH]; [done|]. apply IH.
  apply (service_disk lim {| disk := d; proc := p |}); [done| |]; [eapply coherent_event; [done|apply (sv_coherent _ _ _ H)]|]. intros h. by apply intact_event.
Qed.
Lemma service_sync lim held g s : service lim s held -> ends (fun s' => service lim s' held) (sync_documents ul reader g) s.
Proof.
  intros H. unfold sync_documents. apply ends_iter; [done|]. intros doc s1 H1 r s2 Hrun. destruct (sync_pdf_runs ul reader _ _ _ _ Hrun) as (Hmove & _ & _).
  by eapply service_events.
Qed.
End Documents.

(** ** What stays when an operation fails *)
Record last_good (s s' : Store) : Prop := {
  lg_active : active_generation (proc s') = active_generation (proc s);
  lg_current : current_path (disk s') = current_path (disk s);
  lg_generations : forall g e, generations (disk s) !! g = Some e -> generations (disk s') !! g = Some e;
  lg_objects : forall dig, object_ok (disk s) dig -> object_ok (disk s') dig;
  lg_roots : generation_gc_roots (disk s') = generation_gc_roots (disk s);
}.
Lemma last_good_refl s : last_good s s.
Proof. by split. Qed.
Lemma last_good_trans s1 s2 s3 : last_good s1 s2 -> last_good s2 s3 -> last_good s1 s3.
Proof. intros [] []. split; try congruence; auto. Qed.
Lemma only_objects_good s s' : only_objects s s' -> last_good s s'.
Proof. intros [Hp Hg Hi Hr Hc Ho]. split; try done; [by rewrite Hp|]. intros g e. by rewrite Hg. Qed.
Lemma only_incoming_good s s' : only_incoming s s' -> last_good s s'.
Proof.
  intros [Hp Hg Ho Hr Hc]. split; try done; [by rewrite Hp|intros g e; by rewrite Hg|]. intros dig. unfold object_ok, cas_item_at. by rewrite Ho.
Qed.
Lemma set_incoming_good s m : last_good s {| disk := set_incoming (disk s) m; proc := proc s |}.
Proof. by split. Qed.
Lemma publish_good s m g dir :
  generations (disk s) !! g = None ->
  last_good s {| disk := set_generations (set_incoming (disk s) m) (<[g := PlainDirectory dir]> (generations (disk s))); proc := proc s |}.
Proof. intros Hn. split; try done. intros g' e Hg. cbn. rewrite lookup_insert_ne; [done|]. intros <-. by rewrite Hn in Hg. Qed.

(** ** Activation *)
Definition activated (gid : ustr) (s s' : Store) : Prop :=
  active_generation (proc s') = Some gid /\ generations (disk s') !! gid = generations (disk s) !! gid /\
  (forall dir db l digs, generations (disk s) !! gid = Some (PlainDirectory dir) -> gd_database dir = Some db -> marked_digests db = Some l ->
     digs ⊆ l -> Forall (object_ok (disk s)) digs -> Forall (object_ok (disk s')) digs).
Lemma activate_runs {quota : StateQuota} lim h inode s held :
  service lim s held -> fullmatch GENERATION_ID (h_generation_id h) = true ->
  runs (fun r s' => match r with Ok _ => activated (h_generation_id h) s s' | Err _ => only_incoming s s' end) (activate lim h inode) s.
Proof.
  intros H Hid. unfold activate. apply runs_bind_lift; [intros; apply only_incoming_refl|intros _ _].
  intros r s'. rewrite ensure_identity by apply (sv_identity _ _ _ H). revert r s'. apply runs_bind. intros r1 s1 Hroots.
  apply durable_roots_frame in Hroots as Hf. destruct r1 as [roots|e]; [|done]. clear Hroots. assert (service lim s1 held) as H1 by by eapply service_frame.
  apply runs_bind_getD, runs_bind_getP. cbv zeta. do 3 (apply runs_bind_lift; [done|intros _ _]).
  apply runs_bind_putD. set (gid := h_generation_id h) in *.
  set (s2 := {| disk := set_current (disk s1) _; proc := proc s1 |}).
  assert (forall r p', match entries (proc s1) !! gid with Some r => (r, proc s1) | None => new_entry (proc s1) gid h end = (r, p') ->
            active_generation (set_active p' (Some r)) = Some gid) as Hactive.
  { intros r p'. destruct (entries (proc s1) !! gid) as [e|] eqn:Eg.
    - intros [= <- <-]. destruct (sv_entries _ _ _ H1 _ _ Eg) as (en & Hen & Hg & _). unfold active_generation, entry_at. cbn. by rewrite Hen, <- Hg.
    - intros [= <- <-]. unfold active_generation, entry_at. cbn. by rewrite lookup_app_r, Nat.sub_diag by lia. }
  destruct (match entries (proc s1) !! gid with Some r => (r, proc s1) | None => _ end) as [r p'] eqn:E.
  apply runs_bind_putP. with_strategy transparent [_prune_locked] unfold _prune_locked. intros res s3 [= <- <-].
  set (s4 := {| disk := disk s2; proc := set_active p' (Some r) |}).
  assert (active_generation (proc s4) = Some gid) as Ha by (exact (Hactive _ _ eq_refl)).
  assert (directory_kept lim roots s4 gid) as Hk by (right; right; by left).
  assert (generations (disk s4) = generations (disk s)) as Hg4 by apply (oi_generations _ _ Hf).
  assert (forall dig, object_ok (disk s) dig -> object_ok (disk s4) dig) as Ho4.
  { intros dig. unfold object_ok, cas_item_at. cbn [disk s4 s2 objects_sha256 set_current]. by rewrite (oi_objects _ _ Hf). }
  change (activated gid s (prune_with lim roots s4)).
  split; [|split].
  - destruct (prune_process lim roots s4) as (Hh & Hac & _). unfold active_generation, entry_at in *. by rewrite Hac, Hh.
  - by rewrite prune_kept, Hg4.
  - intros dir db l digs Hg Hdb Hl Hsub Hall. eapply kept_objects; try done; [by rewrite Hg4|]. eapply Forall_impl; [exact Hall|exact Ho4].
Qed.

(** ** What a validated handle says *)
Lemma digests_of_binding d h g :
  _verify_generation_binding d h g = Ok tt ->
  exists db rows counts issuers, connect d h = Ok db /\ _database_contract (schema_id (h_metadata h)) db = Ok (rows, counts, issuers) /\
    schema_id (h_metadata h) = rg_serving_schema g /\ issuers = rg_issuer_codes g /\ counts = expected_counts g /\
    NoDup (map rd_document_id (rg_documents g)) /\
    (forall doc, doc ∈ rg_documents g -> exists row, row ∈ rows /\ cd_document_id row = rd_document_id doc) /\
    Forall (fun row => exists doc, doc ∈ rg_documents g /\ rd_document_id doc = cd_document_id row /\ ra_sha256 (rd_pdf doc) = cd_pdf_sha256 row /\
              rd_issuer doc = cd_issuer row /\ ra_size_bytes (rd_pdf doc) = cd_pdf_size_bytes row /\ rd_availability doc = cd_availability row) rows.
Proof.
  unfold _verify_generation_binding. cbv zeta. intros H. inv_res H. destruct r3 as [[rows counts] issuers]. inv_res H. bsplit.
  exists r2, rows, counts, issuers. do 4 (split; [done|]). split; [done|]. split; [done|]. split.
  - intros doc Hdoc. assert (rd_document_id doc ∈ (list_to_set (map rd_document_id (rg_documents g)) : gset ustr)) as Hin.
    { apply elem_of_list_to_set. apply list_elem_of_fmap. by exists doc. }
    match goal with E : _ = list_to_set (map cd_document_id rows) |- _ => rewrite E in Hin end.
    apply elem_of_list_to_set in Hin. apply list_elem_of_fmap in Hin as (row & Heq & Hrow). by exists row.
  - match goal with Hf : forM (check_document_row _) rows = Ok ?x |- _ => destruct x; apply forM_ok in Hf; eapply Forall_impl; [exact Hf|] end.
    intros row Hrow. unfold check_document_row in Hrow. inv_res Hrow. bsplit.
    match goal with Hd : dict_get _ (dict_of _) = Some ?doc |- _ => exists doc; apply dict_get_elem in Hd; rewrite dict_of_NoDup in Hd end.
    + match goal with Hd : (_, _) ∈ map _ _ |- _ => apply list_elem_of_fmap in Hd as (doc' & [= Hid ->] & Hin) end.
      split_and!; try done; lia.
    + rewrite <- list_fmap_compose. done.
Qed.

Lemma contract_marked schema db rows counts issuers :
  db_schema_row db = Some schema -> _database_contract schema db = Ok (rows, counts, issuers) ->
  exists l, marked_digests db = Some l /\ map cd_pdf_sha256 rows ⊆ l.
Proof.
  intros Hs H. unfold _database_contract in H. cbv zeta in H. inv_res H. unfold marked_digests. rewrite Hs, Hr. eexists. split; [done|].
  intros x (row & -> & Hin)%list_elem_of_fmap. rewrite sorted_by_Permutation in Hin. apply elem_of_app in Hin as [Hin|Hin]; apply elem_of_app; [left|right].
  - apply list_elem_of_fmap in Hin as (doc & -> & Hin). rewrite sorted_by_Permutation in Hin. apply list_elem_of_fmap. by exists doc.
  - apply list_elem_of_fmap in Hin as (f & -> & Hin). destruct (bool_decide (schema ∈ V4_SCHEMAS)).
    + inv_res Hr0. rewrite Hr0. apply list_elem_of_fmap. by exists f.
    + inv_res Hr0. by apply not_elem_of_nil in Hin.
Qed.

(** The directory of the manifest's generation holds its database, and every PDF the
    manifest lists is there. *)
Record serves_manifest (d : Disk) (g : RemoteGeneration) (dir : GenerationDir) (db : Database) : Prop := {
  sm_directory : generations d !! rg_generation_id g = Some (PlainDirectory dir);
  sm_database : gd_database dir = Some db;
  sm_contract : exists rows, _database_contract (rg_serving_schema g) db = Ok (rows, expected_counts g, rg_issuer_codes g) /\
    (forall doc, doc ∈ rg_documents g -> exists row, row ∈ rows /\ cd_document_id row = rd_document_id doc /\ cd_issuer row = rd_issuer doc /\
        cd_pdf_sha256 row = ra_sha256 (rd_pdf doc) /\ cd_pdf_size_bytes row = ra_size_bytes (rd_pdf doc) /\ cd_availability row = rd_availability doc);
  sm_objects : Forall (fun doc => object_ok d (ra_sha256 (rd_pdf doc))) (rg_documents g);
}.
(** The same before the directory is in its place and the objects are known. *)
Record bound (g : RemoteGeneration) (db : Database) : Prop := {
  bd_contract : exists rows, _database_contract (rg_serving_schema g) db = Ok (rows, expected_counts g, rg_issuer_codes g) /\
    (forall doc, doc ∈ rg_documents g -> exists row, row ∈ rows /\ cd_document_id row = rd_document_id doc /\ cd_issuer row = rd_issuer doc /\
        cd_pdf_sha256 row = ra_sha256 (rd_pdf doc) /\ cd_pdf_size_bytes row = ra_size_bytes (rd_pdf doc) /\ cd_availability row = rd_availability doc);
  bd_marked : exists l, marked_digests db = Some l /\ map (fun doc => ra_sha256 (rd_pdf doc)) (rg_documents g) ⊆ l;
}.
Lemma binding_bound d h g db :
  _verify_generation_binding d h g = Ok tt -> connect d h = Ok db -> db_validation db = Ok (h_metadata h) -> coherent_database db -> bound g db.
Proof.
  intros (db' & rows & counts & issuers & Hdb & Hc & Hs & -> & -> & Hnd & Hdocs & Hrows)%digests_of_binding Hdb' Hv Hco. rewrite Hdb in Hdb'. injection Hdb' as <-.
  rewrite Hs in Hc. assert (forall doc, doc ∈ rg_documents g -> exists row, row ∈ rows /\ cd_document_id row = rd_document_id doc /\ cd_issuer row = rd_issuer doc /\
        cd_pdf_sha256 row = ra_sha256 (rd_pdf doc) /\ cd_pdf_size_bytes row = ra_size_bytes (rd_pdf doc) /\ cd_availability row = rd_availability doc) as Hall.
  { intros doc Hdoc. destruct (Hdocs doc Hdoc) as (row & Hrow & Hid). exists row. rewrite Forall_forall in Hrows.
    destruct (Hrows row Hrow) as (doc' & Hdoc' & Hid' & Hsha & Hiss & Hsize & Hav). assert (doc' = doc) as -> by (eapply map_NoDup_inj; eauto; congruence). auto 6. }
  split; [by exists rows|]. destruct (Hco _ Hv) as [Hrow _]. rewrite Hs in Hrow. destruct (contract_marked _ _ _ _ _ Hrow Hc) as (l & Hl & Hsub).
  exists l. split; [done|]. intros x (doc & -> & Hdoc)%list_elem_of_fmap. destruct (Hall doc Hdoc) as (row & Hr & _ & _ & <- & _). apply Hsub.
  apply list_elem_of_fmap. by exists row.
Qed.

Lemma validated_spec lim ul s l g h :
  _validated_handle lim ul s l g = Ok h ->
  h_generation_id h = rg_generation_id g /\ h_location h = l /\ fullmatch GENERATION_ID (rg_generation_id g) = true /\
  exists dir db, generation_at (disk s) l (rg_generation_id g) = Some dir /\ gd_database dir = Some db /\ db_validation db = Ok (h_metadata h) /\
    gd_database_sha256 dir = ra_sha256 (rg_database g) /\ _verify_generation_binding (disk s) h g = Ok tt /\ connect (disk s) h = Ok db /\
    (coherent_database db -> 0 <= _handle_resident_vector_bytes h).
Proof.
  unfold _validated_handle. cbv zeta. intros H. inv_res H. destruct r3.
  match goal with Hl : load_generation_handle _ _ _ _ _ _ _ = Ok h |- _ => apply load_handle_spec in Hl as (Hid & Hloc & Hm & _ & dir & db & Hdir & Hdb & Hv & Hb) end.
  do 3 (split; [done|]). exists dir, db. do 3 (split; [done|]). rewrite Hdir in *. cbn in *. unfold database_file in *. rewrite Hdb in *.
  match goal with Hver : _verify_artifact (Some _) (rg_database g) _ = Ok _ |- _ => unfold _verify_artifact in Hver; inv_res Hver; bsplit end. cbn in *. simplify_eq.
  split; [done|]. split; [done|]. split.
  - unfold connect. by rewrite Hid, Hdir; cbn; rewrite Hdb.
  - intros Hco. destruct (Hco _ Hv) as (_ & Hc & _). rewrite Hb. unfold EMBEDDING_DIMENSION. destruct (is_v5 _); lia.
Qed.
