(* ===== verification/UpdaterPoll.v ===== *)
(** One poll of the updater over a serving store: what it downloads and stages, when it
    activates, and what is left when any step of it fails. *)
From S2P Require Export UpdaterProof.

#[local] Opaque re_cas_prefix re_hex64 GENERATION_ID GENERATION_GC_ROOT_OWNER GENERATION_GC_ROOT_TEMP MAP_REDUCE_JOB sha256_bytes.

(** What is activated, and a generation that is served whole. *)
Definition served (g : RemoteGeneration) (s : Store) : Prop :=
  active_generation (proc s) = Some (rg_generation_id g) /\ exists dir db, serves_manifest (disk s) g dir db.
Definition settled (g : RemoteGeneration) (s : Store) {A} (r : res A) (s' : Store) : Prop :=
  match r with Ok _ => served g s' | Err _ => last_good s s' end.

Lemma remove_pin_head r held : remove_pin r (r :: held) = held.
Proof. unfold remove_pin. cbn. by rewrite decide_True. Qed.

(** The directory and the objects of a manifest, once they are in place. *)
Lemma bound_serves d g dir db :
  bound g db -> generations d !! rg_generation_id g = Some (PlainDirectory dir) -> gd_database dir = Some db ->
  Forall (fun doc => object_ok d (ra_sha256 (rd_pdf doc))) (rg_documents g) -> serves_manifest d g dir db.
Proof. intros [Hc _] Hg Hdb Hall. by split. Qed.
(** They stay when the generation is activated. *)
Lemma activated_serves g s s' dir db :
  activated (rg_generation_id g) s s' -> bound g db -> serves_manifest (disk s) g dir db -> serves_manifest (disk s') g dir db.
Proof.
  intros (_ & Hg & Ho) Hb [Hd Hdb Hc Hall]. split; [by rewrite Hg|done|done|]. destruct (bd_marked _ _ Hb) as (l & Hl & Hsub).
  rewrite <- (Forall_map (fun doc => ra_sha256 (rd_pdf doc)) (object_ok (disk s'))). eapply Ho; try done.
  by rewrite (Forall_map (fun doc => ra_sha256 (rd_pdf doc)) (object_ok (disk s))).
Qed.

Lemma only_incoming_trans s1 s2 s3 : only_incoming s1 s2 -> only_incoming s2 s3 -> only_incoming s1 s3.
Proof. intros [] []. split; congruence. Qed.

Section Poll.
Context {quota : StateQuota} (lim : StoreLimits) (ul : UpdaterLimits) (reader : Reader).
(** What a delivered database says of itself is what validation read in it. *)
Context (reader_coherent : forall g db sha, download_database reader g = Ok (db, sha) -> coherent_database db).

(** ** Downloads *)
Definition holds_staged (gid : ustr) (d : Disk) : Prop :=
  exists dir, incoming d !! gid = Some (IncomingDirectory dir) /\ forall db, gd_database dir = Some db -> coherent_database db.
Lemma staged_entry_runs dir gid s :
  (forall db, gd_database dir = Some db -> coherent_database db) ->
  runs (fun _ s' => only_incoming s s' /\ holds_staged gid (disk s')) (staged_entry dir gid) s.
Proof.
  intros Hco. unfold staged_entry. apply runs_bind_getD, runs_putD. split; [by split|]. exists dir. split; [apply lookup_insert_eq|done].
Qed.
Lemma reserve_runs n s : runs (fun _ s' => s' = s) (reserve n) s.
Proof. unfold reserve. apply runs_bind_getD. by apply runs_lift. Qed.
Lemma download_runs g mtime s :
  runs (fun r s' => only_incoming s s' /\ (r = Ok tt -> holds_staged (rg_generation_id g) (disk s'))) (download_generation lim ul reader g mtime) s.
Proof.
  assert (forall e s1, only_incoming s s1 -> only_incoming s s1 /\ (@Err unit e = Ok tt -> holds_staged (rg_generation_id g) (disk s1))) as Herr by done.
  unfold download_generation. cbv zeta. apply runs_bind. eapply runs_mono; [apply reserve_runs|]. intros [[]|e] s0 ->; [|by split; [apply only_incoming_refl|]].
  apply runs_bind_lift; [intros; apply Herr, only_incoming_refl|]. intros [db sha] Hdl. apply reader_coherent in Hdl.
  apply runs_bind. eapply runs_mono; [apply staged_entry_runs; cbn; by intros ? [= <-]|]. intros [[]|e] s1 [Hf Hst]; [|by apply Herr].
  apply runs_bind_lift; [by intros; apply Herr|intros _ _]. destruct (rg_vector_sidecar g) as [a|]; [|by apply runs_ret].
  apply runs_bind. eapply runs_mono; [apply reserve_runs|]. intros [[]|e] s2 ->; [|by apply Herr].
  apply runs_bind_lift; [by intros; apply Herr|intros sidecar _].
  apply runs_bind. eapply runs_mono; [apply staged_entry_runs; cbn; by intros ? [= <-]|]. intros [[]|e] s3 [Hf3 Hst3]; [|apply Herr; by eapply only_incoming_trans].
  apply runs_lift. split; [by eapply only_incoming_trans|done].
Qed.

(** ** Activation of what was validated *)
Definition serves (held : list nat) (s : Store) : Prop := service lim s held.

Lemma verified_rows d h db :
  verify_handle_pdfs lim d h = Ok tt -> connect d h = Ok db ->
  exists rows, handle_documents (schema_id (h_metadata h)) db = Ok rows /\ Forall (fun doc => object_ok d (pdf_sha256 doc)) rows.
Proof.
  intros Hver Hdb. unfold verify_handle_pdfs in Hver. rewrite Hdb in Hver. cbn in Hver. apply bind_ok in Hver as (rows & Hrows & Hver).
  exists rows. split; [done|]. apply forM_ok in Hver. eapply Forall_impl; [exact Hver|]. intros doc. by apply verified_object.
Qed.
(** The handle of an activation is that of the manifest, its objects are in place. *)
Record ready_for (g : RemoteGeneration) (h : GenerationHandle) (s : Store) (dir : GenerationDir) (db : Database) : Prop := {
  rf_id : h_generation_id h = rg_generation_id g;
  rf_location : h_location h = InGenerations;
  rf_name : fullmatch GENERATION_ID (rg_generation_id g) = true;
  rf_bytes : 0 <= _handle_resident_vector_bytes h;
  rf_intact : intact (disk s) h;
  rf_bound : bound g db;
  rf_serves : serves_manifest (disk s) g dir db;
}.
Lemma make_ready g h s dir db rows :
  h_generation_id h = rg_generation_id g -> fullmatch GENERATION_ID (rg_generation_id g) = true -> 0 <= _handle_resident_vector_bytes h ->
  generations (disk s) !! rg_generation_id g = Some (PlainDirectory dir) -> gd_database dir = Some db -> db_validation db = Ok (h_metadata h) ->
  bound g db -> handle_documents (schema_id (h_metadata h)) db = Ok rows -> Forall (fun doc => object_ok (disk s) (pdf_sha256 doc)) rows ->
  Forall (fun doc => object_ok (disk s) (ra_sha256 (rd_pdf doc))) (rg_documents g) -> ready_for g (at_location InGenerations h) s dir db.
Proof.
  intros Hid Hn Hb Hg Hdb Hv Hbd Hrows Hok Hall. split; try done; [|by apply bound_serves]. split; cbn; [done|by rewrite Hid|].
  exists dir, db, rows. by rewrite Hid.
Qed.
Lemma at_location_here h : h_location h = InGenerations -> at_location InGenerations h = h.
Proof. destruct h. cbn. by intros ->. Qed.
Lemma activate_ready g h s dir db inode held :
  service lim s held -> ready_for g h s dir db ->
  runs (fun r s' => service lim s' held /\ settled g s r s') (activate lim h inode) s.
Proof.
  intros H [Hid Hl Hn Hb Hi Hbd Hs]. intros r s' Hrun. split; [by eapply (service_activate lim s held h inode)|].
  rewrite <- Hid in Hn. pose proof (activate_runs lim h inode s held H Hn r s' Hrun) as Hact. destruct r as [[]|e]; [|by apply only_incoming_good].
  rewrite Hid in Hact. split; [apply Hact|]. exists dir, db. by eapply activated_serves.
Qed.

(** ** The directory is there already *)
Lemma existing_runs g s held inode :
  service lim s held ->
  runs (fun r s' => service lim s' held /\ settled g s r s')
    (let* existing := lift (_validated_handle lim ul s InGenerations g) in
     let* _ := sync_documents ul reader g in
     let* d := getD in
     let* _ := lift (verify_handle_pdfs lim d existing) in
     activate lim existing inode) s.
Proof.
  intros H. apply runs_bind_lift; [intros; by split|]. intros h Hval.
  apply validated_spec in Hval as (Hid & Hl & Hn & dir & db & Hdir & Hdb & Hv & _ & Hbind & Hconn & Hbytes).
  unfold generation_at in Hdir. destruct (generations (disk s) !! rg_generation_id g) as [[dir'|]|] eqn:Hg; [|done..]. injection Hdir as ->.
  pose proof (sv_coherent _ _ _ H _ _ _ Hg Hdb) as Hco. pose proof (binding_bound _ _ _ _ Hbind Hconn Hv Hco) as Hbd.
  apply runs_bind. intros r s1 Hrun. pose proof (service_sync ul reader lim held g s H r s1 Hrun) as H1. destruct (sync_all ul reader _ _ _ _ Hrun) as [Hoo Hall].
  destruct r as [[]|e]; [|split; [done|by apply only_objects_good]]. apply runs_bind_getD. apply runs_bind_lift; [intros; split; [done|by apply only_objects_good]|]. intros [] Hver.
  assert (connect (disk s1) h = Ok db) as Hconn1 by (rewrite <- Hconn; unfold connect, generation_at; by rewrite Hl, (oo_generations _ _ Hoo)).
  destruct (verified_rows _ _ _ Hver Hconn1) as (rows & Hrows & Hok).
  assert (ready_for g h s1 dir db) as Hready.
  { rewrite <- (at_location_here h Hl). eapply make_ready; try done; [by apply Hbytes|by rewrite (oo_generations _ _ Hoo)|by apply Hall]. }
  eapply runs_mono; [exact (activate_ready g h s1 dir db inode held H1 Hready)|]. intros r s2 [H2 Hset]. split; [done|]. destruct r; [done|].
  eapply last_good_trans; [by apply only_objects_good|done].
Qed.

(** ** The directory is staged, then moved into its place *)
Definition publication (gid : ustr) (dir : GenerationDir) (s : Store) : Store :=
  {| disk := set_generations (set_incoming (disk s) (delete gid (incoming (disk s)))) (<[gid := PlainDirectory dir]> (generations (disk s))); proc := proc s |}.
Lemma service_publication gid dir s held :
  generations (disk s) !! gid = None -> (forall db, gd_database dir = Some db -> coherent_database db) ->
  service lim s held -> service lim (publication gid dir s) held.
Proof.
  intros Hnone Hco H. set (d1 := set_incoming (disk s) (delete gid (incoming (disk s)))).
  assert (disk_event (disk s) d1) as Hev1 by exact (ChangeIncoming _ _). assert (disk_event d1 (disk (publication gid dir s))) as Hev2 by exact (PublishGeneration d1 gid dir Hnone Hco).
  apply service_disk; [done| |].
  - eapply coherent_event; [exact Hev2|]. eapply coherent_event; [exact Hev1|]. apply (sv_coherent _ _ _ H).
  - intros h Hi. eapply intact_event; [exact Hev2|]. by eapply intact_event.
Qed.

(** From the validated directory to the new generation. *)
Lemma publish_runs g s dir db h rows held inode :
  service lim s held -> incoming (disk s) !! rg_generation_id g = Some (IncomingDirectory dir) -> gd_database dir = Some db ->
  (forall db, gd_database dir = Some db -> coherent_database db) ->
  h_generation_id h = rg_generation_id g -> fullmatch GENERATION_ID (rg_generation_id g) = true -> 0 <= _handle_resident_vector_bytes h ->
  db_validation db = Ok (h_metadata h) -> bound g db -> handle_documents (schema_id (h_metadata h)) db = Ok rows ->
  Forall (fun doc => object_ok (disk s) (pdf_sha256 doc)) rows ->
  Forall (fun doc => object_ok (disk s) (ra_sha256 (rd_pdf doc))) (rg_documents g) ->
  generations (disk s) !! rg_generation_id g = None ->
  runs (fun r s' => service lim s' held /\ settled g s r s') (activate lim (at_location InGenerations h) inode) (publication (rg_generation_id g) dir s).
Proof.
  intros H Hinc Hdb Hco Hid Hn Hb Hv Hbd Hrows Hok Hall Hnone. pose proof (service_publication _ _ _ _ Hnone Hco H) as H1.
  assert (ready_for g (at_location InGenerations h) (publication (rg_generation_id g) dir s) dir db) as Hready.
  { eapply make_ready; try done. apply lookup_insert_eq. }
  eapply runs_mono; [exact (activate_ready g _ _ dir db inode held H1 Hready)|]. intros r s2 [H2 Hset]. split; [done|]. destruct r; [done|].
  eapply last_good_trans; [|exact Hset]. by apply publish_good.
Qed.
Lemma stage_new_runs g s held mtime inode :
  service lim s held -> runs (fun r s' => service lim s' held /\ settled g s r s') (stage_new lim ul reader g mtime inode) s.
Proof.
  intros H. unfold stage_new. cbv zeta. apply runs_bind. eapply runs_mono; [apply download_runs|]. intros r s1 [Hf Hst].
  pose proof (service_frame lim _ _ _ Hf H) as H1. pose proof (only_incoming_good _ _ Hf) as Hgood1.
  destruct r as [[]|e]; [|by split]. specialize (Hst eq_refl). apply runs_bind. intros ? ? [= <- <-].
  apply runs_bind_lift; [intros; by split|]. intros h Hval.
  apply validated_spec in Hval as (Hid & Hl & Hn & dir & db & Hdir & Hdb & Hv & _ & Hbind & Hconn & Hbytes).
  destruct Hst as (dir' & Hinc & Hco). unfold generation_at in Hdir. rewrite Hinc in Hdir. injection Hdir as ->.
  pose proof (binding_bound _ _ _ _ Hbind Hconn Hv (Hco _ Hdb)) as Hbd.
  apply runs_bind. intros r s2 Hrun. pose proof (service_sync ul reader lim held g _ H1 r s2 Hrun) as H2. destruct (sync_all ul reader _ _ _ _ Hrun) as [Hoo Hall].
  assert (last_good s s2) as Hgood2 by (eapply last_good_trans; [done|by apply only_objects_good]). destruct r as [[]|e]; [|by split].
  apply runs_bind_getD. apply runs_bind_lift; [intros; by split|]. intros [] Hver.
  assert (connect (disk s2) h = Ok db) as Hconn2 by (rewrite <- Hconn; unfold connect, generation_at; by rewrite Hl, (oo_incoming _ _ Hoo)).
  destruct (verified_rows _ _ _ Hver Hconn2) as (rows & Hrows & Hok).
  destruct (generations (disk s2) !! rg_generation_id g) eqn:Hnone; [by apply runs_throw|]. rewrite (oo_incoming _ _ Hoo), Hinc. apply runs_bind_putD.
  rewrite <- (oo_incoming _ _ Hoo) in Hinc. rewrite <- (oo_incoming _ _ Hoo).
  eapply runs_mono; [eapply (publish_runs g s2 dir db h rows held); try done; [exact (Hbytes (Hco _ Hdb))|by apply Hall]|].
  intros r s3 [H3 Hset]. split; [done|]. destruct r; [done|]. by eapply last_good_trans.
Qed.
Lemma discard_runs g {A} (m : M A) s0 s held gid :
  runs (fun r s' => service lim s' held /\ settled g s0 r s') m s -> runs (fun r s' => service lim s' held /\ settled g s0 r s') (discard_on_error gid m) s.
Proof.
  intros H r s' Hrun. unfold discard_on_error in Hrun. destruct (m s) as [[a|e] s1] eqn:E; injection Hrun as <- <-; destruct (H _ _ E) as [H1 Hset]; [done|].
  assert (forall d, only_incoming s1 {| disk := d; proc := proc s1 |} ->
            service lim {| disk := d; proc := proc s1 |} held /\ last_good s0 {| disk := d; proc := proc s1 |}) as Hd.
  { intros d Hf. split; [by eapply service_frame|]. eapply last_good_trans; [exact Hset|by apply only_incoming_good]. }
  by destruct (incoming (disk s1) !! gid) as [[]|]; apply Hd.
Qed.
Lemma clear_staging_runs gid s : runs (fun _ s' => only_incoming s s') (clear_staging gid) s.
Proof.
  unfold clear_staging. apply runs_bind_getD. destruct (incoming (disk s) !! gid) as [[]|]; first [by apply runs_throw|by apply runs_putD|by apply runs_ret].
Qed.
Lemma stage_and_activate_runs g s held mtime inode :
  service lim s held -> runs (fun r s' => service lim s' held /\ settled g s r s') (_stage_and_activate lim ul reader g mtime inode) s.
Proof.
  intros H. unfold _stage_and_activate. cbv zeta. apply runs_bind_lift; [intros; by split|intros _ _]. apply runs_bind_getD.
  destruct (generations (disk s) !! rg_generation_id g) as [e|].
  - apply runs_bind. intros ? ? [= <- <-]. by apply existing_runs.
  - assert (forall s1, only_incoming s s1 -> service lim s1 held /\ last_good s s1) as Hframe.
    { intros s1 Hf. split; [by eapply service_frame|by apply only_incoming_good]. }
    apply runs_bind. eapply runs_mono; [apply clear_staging_runs|]. intros [[]|e] s1 Hf; [|by apply Hframe].
    apply runs_bind. eapply runs_mono; [by apply staged_entry_runs|]. intros [[]|e] s2 [Hf2 _]; pose proof (only_incoming_trans _ _ _ Hf Hf2) as Hf12; [|by apply Hframe].
    destruct (Hframe _ Hf12) as [H2 Hgood]. apply discard_runs. eapply runs_mono; [by apply stage_new_runs|].
    intros r s3 [H3 Hset]. split; [done|]. destruct r; [done|]. by eapply last_good_trans.
Qed.

(** ** The generation is served already *)
Lemma pin_runs s held r0 :
  service lim s held -> active (proc s) = Some r0 ->
  exists h s1, pin s = (Ok (r0, h), s1) /\ service lim s1 (r0 :: held) /\ disk s1 = disk s /\ active (proc s1) = active (proc s) /\
    active_generation (proc s1) = active_generation (proc s) /\ active_generation (proc s) = Some (h_generation_id h) /\
    intact (disk s) h.
Proof.
  intros H Ha. destruct (service_active _ _ _ _ H Ha) as (gid & Hg & Hact). destruct (sv_entries _ _ _ H _ _ Hg) as (e & He & Hid & Hi & _).
  destruct (service_pinned_entry lim s held gid r0 H Hg) as (h & s1 & Hpin & H1). unfold pin. rewrite ensure_identity by apply (sv_identity _ _ _ H).
  unfold bindM at 1, getP at 1. rewrite Ha. exists h, s1. split; [done|]. split; [done|].
  with_strategy transparent [pinned_entry] unfold pinned_entry, bindM, getP, putP in Hpin. unfold entry_at in Hpin. rewrite He in Hpin.
  injection Hpin as <- <-. do 2 (split; [done|]). split.
  - unfold active_generation, entry_at. cbn [proc active add_references heap]. rewrite Ha, list_lookup_alter_eq, He. done.
  - split; [by rewrite Hact, Hid|done].
Qed.
(** The pin of the active generation is released without an eviction. *)
Lemma unpin_active_runs s held r0 :
  service lim s (r0 :: held) -> active (proc s) = Some r0 ->
  runs (fun r s' => r = Ok tt /\ service lim s' held /\ disk s' = disk s /\ active_generation (proc s') = active_generation (proc s)) (unpin lim r0) s.
Proof.
  intros H Ha r s' Hrun. pose proof (service_unpin lim _ _ r0 H (list_elem_of_here _ _) r s' Hrun) as H1. rewrite remove_pin_head in H1.
  unfold unpin in Hrun. rewrite ensure_identity in Hrun by apply (sv_identity _ _ _ H). unfold bindM, getP, putP in Hrun. cbn [proc disk] in Hrun.
  cbn [active add_references] in Hrun. rewrite Ha, bool_decide_eq_true_2 in Hrun by done. injection Hrun as <- <-. split; [done|]. split; [done|]. split; [done|].
  destruct (sv_active _ _ _ H _ Ha) as (gid & Hg). destruct (sv_entries _ _ _ H _ _ Hg) as (e & He & _).
  unfold active_generation, entry_at. cbn [proc active add_references heap]. by rewrite Ha, list_lookup_alter_eq, He.
Qed.
Lemma repair_runs g s held :
  service lim s held -> active_generation (proc s) = Some (rg_generation_id g) ->
  runs (fun r s' => service lim s' held /\ settled g s r s')
    (let* rh := pin in let* _ := finally (repair_active ul reader g rh.2) (unpin lim rh.1) in ret false) s.
Proof.
  intros H Hact. destruct (active (proc s)) as [r0|] eqn:Ha; [|by unfold active_generation in Hact; rewrite Ha in Hact].
  destruct (pin_runs s held r0 H Ha) as (h & s1 & Hpin & H1 & Hd1 & Ha1 & Hg1 & Hh & Hi). rewrite Hact in Hh. injection Hh as Hh.
  apply runs_bind. intros ? ? Hrun. rewrite Hpin in Hrun. injection Hrun as <- <-. cbn [fst snd]. apply runs_bind. intros r s3 Hrun. unfold finally in Hrun.
  destruct (repair_active ul reader g h s1) as [r1 s2] eqn:Hrep.
  assert (service lim s2 (r0 :: held) /\ only_objects s1 s2 /\ (r1 = Ok tt -> exists dir db, serves_manifest (disk s2) g dir db)) as (H2 & Hoo & Hsv).
  { clear Hrun. revert r1 s2 Hrep. unfold repair_active. apply runs_bind_getD. apply runs_bind_lift; [intros; split; [done|by split; [apply only_objects_refl|]]|]. intros [] Hbind.
    intros r1 s2 Hrun2. split; [exact (service_sync ul reader lim _ g _ H1 r1 s2 Hrun2)|]. destruct (sync_all ul reader _ _ _ _ Hrun2) as [Hoo Hall]. split; [done|].
    intros ->. specialize (Hall eq_refl). rewrite Hd1 in Hbind. destruct Hi as [Hl Hn (dir & db & rows & Hg & Hdb & Hv & _)].
    exists dir, db. apply bound_serves; [| |done|done].
    - eapply binding_bound; [exact Hbind| |exact Hv|by eapply (sv_coherent _ _ _ H)]. unfold connect, generation_at. by rewrite Hl, Hg; cbn; rewrite Hdb.
    - by rewrite (oo_generations _ _ Hoo), Hd1, Hh. }
  assert (active (proc s2) = Some r0) as Ha2 by (by rewrite (oo_proc _ _ Hoo), Ha1).
  destruct (unpin lim r0 s2) as [r2 s4] eqn:Hun. destruct (unpin_active_runs s2 held r0 H2 Ha2 _ _ Hun) as (-> & H3 & Hd3 & Hg3). injection Hrun as <- <-.
  assert (active_generation (proc s4) = Some (rg_generation_id g)) as Hg4 by (by rewrite Hg3, (oo_proc _ _ Hoo), Hg1, Hact).
  destruct r1 as [[]|e].
  - apply runs_ret. split; [done|]. split; [done|]. rewrite Hd3. by apply Hsv.
  - split; [done|]. destruct (only_objects_good _ _ Hoo) as [_ Hc Hge Hob Hr]. split; rewrite ?Hd3; try (rewrite <- Hd1; done). by rewrite Hg4, Hact.
Qed.

(** ** The whole poll *)
Lemma poll_runs s held mtime inode :
  service lim s held ->
  runs (fun r s' => service lim s' held /\ match r with
                                           | Ok _ => exists g, read_stable_generation reader = Ok (Some g) /\ served g s'
                                           | Err _ => last_good s s'
                                           end) (poll_once lim ul reader mtime inode) s.
Proof.
  intros H. pose proof (last_good_refl s) as Hrefl. unfold poll_once. apply runs_bind_lift; [done|]. intros stable Hst. apply runs_bind_lift; [done|]. intros g Hg. cbv zeta.
  destruct stable as [g'|]; [|done]. injection Hg as ->. do 3 (apply runs_bind_lift; [done|intros _ _]). apply runs_bind_getD. apply runs_bind_lift; [done|intros growth _].
  assert (forall {A} (m : M A), runs (fun r s' => service lim s' held /\ settled g s r s') m s ->
            runs (fun r s' => service lim s' held /\ match r with Ok _ => exists g', read_stable_generation reader = Ok (Some g') /\ served g' s' | Err _ => last_good s s' end) m s) as Hmono.
  { intros A m Hm. eapply runs_mono; [exact Hm|]. intros [a|e] s' [H' Hset]; (split; [done|]); [by exists g|done]. }
  apply runs_bind. assert (runs (fun _ s' => s' = s) (if growth =? 0 then ret tt else lift (state_quota_guard (disk s) growth growth)) s) as Hguard.
  { destruct (growth =? 0); [by apply runs_ret|by apply runs_lift]. }
  eapply runs_mono; [exact Hguard|]. intros [[]|e] s1 ->; [|by split]. apply runs_bind. unfold active_generation_id.
  intros r s1 Hrun. rewrite ensure_identity in Hrun by apply (sv_identity _ _ _ H). injection Hrun as <- <-.
  destruct (bool_decide (active_generation (proc s) = Some (rg_generation_id g))) eqn:Hact.
  - apply bool_decide_eq_true in Hact. by apply Hmono, repair_runs.
  - apply runs_bind_getP. apply runs_bind_lift; [done|intros _ _]. apply Hmono. apply runs_bind. eapply runs_mono; [by apply stage_and_activate_runs|].
    intros [[]|e] s2 H2; [by apply runs_ret|done].
Qed.

End Poll.
