(* ===== verification/UpdaterContract.v ===== *)
(** What a manifest that passes the checks of the updater guarantees, and when its storage
    demand passes. *)
From S2P Require Export Updater QuotaProof StoreSafety.

#[local] Opaque re_hex64 GENERATION_ID sha256_bytes.

(** ** Sums *)
Lemma sum_Z_Permutation l1 l2 : Permutation l1 l2 -> sum_Z l1 = sum_Z l2.
Proof. unfold sum_Z. induction 1; cbn; lia. Qed.
Lemma sum_Z_nonneg l : Forall (fun n => 0 <= n) l -> 0 <= sum_Z l.
Proof. unfold sum_Z. induction 1; cbn; lia. Qed.
Lemma sum_Z_map_le {A} (f h : A -> Z) l : (forall a, a ∈ l -> f a <= h a) -> sum_Z (map f l) <= sum_Z (map h l).
Proof.
  unfold sum_Z. induction l as [|a l IH]; intros H; cbn; [lia|]. assert (f a <= h a) by (apply H; left).
  enough (foldr Z.add 0 (map f l) <= foldr Z.add 0 (map h l)) by lia. apply IH. intros b Hb. apply H. by right.
Qed.
Lemma sum_Z_map_scale {A} (f : A -> Z) c l : sum_Z (map (fun a => f a * c) l) = sum_Z (map f l) * c.
Proof. unfold sum_Z. induction l; cbn; lia. Qed.
Lemma count_where_length {A} (f : A -> bool) l : count_where f l = zlen (List.filter f l).
Proof. unfold count_where, sum_Z. induction l as [|a l IH]; cbn; [done|]. destruct (f a); cbn; rewrite ?zlen_cons, ?IH; cbn; lia. Qed.

Lemma sum_Z_map_plus {A} (f h : A -> Z) l : sum_Z (map (fun a => f a + h a) l) = sum_Z (map f l) + sum_Z (map h l).
Proof. unfold sum_Z. induction l; cbn; lia. Qed.
Lemma count_where_cons {A} (f : A -> bool) a l : count_where f (a :: l) = bool_Z (f a) + count_where f l.
Proof. done. Qed.

(** The documents counted by issuer are the documents counted. *)
Lemma count_one (x : ustr) keys n : NoDup keys -> x ∈ keys -> sum_Z (map (fun k => bool_Z (bool_decide (x = k)) * n) keys) = n.
Proof.
  unfold sum_Z. induction 1 as [|k keys Hk Hnd IH]; [by intros ?%not_elem_of_nil|]. cbn. intros [->|Hx]%elem_of_cons.
  - rewrite bool_decide_eq_true_2 by done. assert (foldr Z.add 0 (map (fun k' => bool_Z (bool_decide (k = k')) * n) keys) = 0) as ->; [|cbn; lia].
    clear IH Hnd. induction keys as [|k' keys IH']; [done|]. cbn. apply not_elem_of_cons in Hk as [Hne Hk]. rewrite bool_decide_eq_false_2, IH' by done. done.
  - rewrite bool_decide_eq_false_2 by (by intros ->). cbn. by rewrite IH.
Qed.
Lemma count_by_issuer (f : RemoteDocument -> bool) docs keys :
  NoDup keys -> (forall doc, doc ∈ docs -> rd_issuer doc ∈ keys) ->
  sum_Z (map (fun k => count_where f (List.filter (fun doc => bool_decide (rd_issuer doc = k)) docs)) keys) = count_where f docs.
Proof.
  intros Hnd. induction docs as [|doc docs IH]; intros H.
  - unfold sum_Z, count_where. cbn. clear. induction keys; cbn in *; lia.
  - rewrite count_where_cons, <- IH by (intros d Hd; apply H; by right).
    rewrite <- (count_one (rd_issuer doc) keys (bool_Z (f doc))) at 1 by (try done; apply H; left). rewrite <- sum_Z_map_plus. f_equal. apply map_ext.
    intros k. cbn [List.filter]. destruct (bool_decide (rd_issuer doc = k)); rewrite ?count_where_cons; unfold bool_Z; destruct (f doc); lia.
Qed.

(** ** One artifact for each digest *)
Definition one_artifact (docs : list RemoteDocument) : Prop :=
  forall a b, a ∈ docs -> b ∈ docs -> ra_sha256 (rd_pdf a) = ra_sha256 (rd_pdf b) -> rd_pdf a = rd_pdf b.
Definition artifact_ok (a : RemoteArtifact) : Prop :=
  fullmatch re_hex64 (ra_sha256 a) = true /\ 1 <= ra_size_bytes a <= MAX_SAFE_BYTES /\ ra_media_type a = us "application/pdf" /\
  exists path, object_path (ra_sha256 a) = Ok path /\ ra_path a = as_posix path.
Lemma check_pdfs docs st :
  foldM check_pdf_artifact [] docs = Ok st ->
  forall doc, doc ∈ docs -> dict_get (ra_sha256 (rd_pdf doc)) st = Some (rd_pdf doc) /\ artifact_ok (rd_pdf doc).
Proof.
  intros H. eapply (foldM_ok_invariant _ (fun done st => forall doc, doc ∈ done -> dict_get (ra_sha256 (rd_pdf doc)) st = Some (rd_pdf doc) /\ artifact_ok (rd_pdf doc)));
    [by intros doc ?%not_elem_of_nil| |exact H]. clear. intros done doc rest st st' _ IH Hstep d. unfold check_pdf_artifact in Hstep. cbv zeta in Hstep. inv_res Hstep. bsplit.
  assert (artifact_ok (rd_pdf doc)) as Hok by (split; [done|]; split; [lia|]; split; [done|]; eauto).
  rewrite elem_of_app, list_elem_of_singleton. destruct (dict_get (ra_sha256 (rd_pdf doc)) st) as [a|] eqn:Ea.
  - intros [Hd| ->]; inv_res Hstep; bsplit; [by apply IH|]. split; [congruence|done].
  - injection Hstep as <-. intros [Hd| ->]; (split; [|first [by apply IH|done]]); rewrite dict_get_set.
    + destruct (IH _ Hd) as [Hg _]. destruct (decide (ra_sha256 (rd_pdf d) = ra_sha256 (rd_pdf doc))) as [E|]; [|done]. rewrite E, Ea in Hg. done.
    + by rewrite decide_True.
Qed.
Lemma check_pdfs_one docs st : foldM check_pdf_artifact [] docs = Ok st -> one_artifact docs.
Proof.
  intros H a b Ha Hb E. destruct (check_pdfs _ _ H a Ha) as [Ga _]. destruct (check_pdfs _ _ H b Hb) as [Gb _]. rewrite E, Gb in Ga. by injection Ga.
Qed.

(** The PDFs of a manifest, each once. *)
Definition artifacts (docs : list RemoteDocument) : list RemoteArtifact := remove_dups (map rd_pdf docs).
Lemma first_pdfs_elem docs :
  one_artifact docs ->
  let d := fold_left (fun d doc => match dict_get (ra_sha256 (rd_pdf doc)) d with
                                   | None => dict_set (ra_sha256 (rd_pdf doc)) (rd_pdf doc) d
                                   | Some _ => d end) docs [] in
  NoDup d.*1 /\ forall k a, (k, a) ∈ d <-> exists doc, doc ∈ docs /\ a = rd_pdf doc /\ k = ra_sha256 (rd_pdf doc).
Proof.
  induction docs as [|doc docs IH] using rev_ind; intros Hone; cbn.
  - split; [constructor|]. intros k a. split; [by intros ?%not_elem_of_nil|by intros (? & ?%not_elem_of_nil & _)].
  - rewrite fold_left_app. cbn. destruct IH as [Hnd Hel]; [intros x y Hx Hy; apply Hone; apply elem_of_app; by left|].
    set (d := fold_left _ docs []) in *. destruct (dict_get (ra_sha256 (rd_pdf doc)) d) as [a0|] eqn:E.
    + split; [done|]. intros k a. rewrite Hel. apply dict_get_elem in E. apply Hel in E as (doc0 & Hin0 & -> & Hsha). split.
      * intros (doc' & Hin & Ha & Hk). exists doc'. rewrite elem_of_app. auto.
      * intros (doc' & [Hin| ->%list_elem_of_singleton]%elem_of_app & -> & ->); [by exists doc'|]. exists doc0. split; [done|].
        assert (rd_pdf doc = rd_pdf doc0) as ->; [|done]. apply Hone; [apply elem_of_app; right; by left|apply elem_of_app; by left|done].
    + apply dict_get_None in E. split; [by apply dict_set_NoDup|]. intros k a. rewrite dict_set_fresh by done. rewrite elem_of_app, Hel, list_elem_of_singleton. split.
      * intros [(doc' & Hin & -> & ->)|[= -> ->]]; [exists doc'; rewrite elem_of_app; auto|]. exists doc. rewrite elem_of_app, list_elem_of_singleton. auto.
      * intros (doc' & [Hin| ->%list_elem_of_singleton]%elem_of_app & -> & ->); [left; by exists doc'|by right].
Qed.
Lemma first_pdfs_artifacts g : one_artifact (rg_documents g) -> Permutation (map snd (first_pdfs g)) (artifacts (rg_documents g)).
Proof.
  intros Hone. destruct (first_pdfs_elem _ Hone) as [Hnd Hel]. fold (first_pdfs g) in Hnd, Hel. apply NoDup_Permutation; [|apply NoDup_remove_dups|].
  - assert (forall l : list (ustr * RemoteArtifact), (forall k a, (k, a) ∈ l -> k = ra_sha256 a) -> NoDup l.*1 -> NoDup (map snd l)) as Hgen.
    { clear. induction l as [|[k a] l IH]; intros Hk; cbn; [constructor|]. intros [Hn Hnd]%NoDup_cons. constructor; [|apply IH; [|done]; intros; apply Hk; by right].
      intros ([k' a'] & Ha & Hin)%list_elem_of_fmap. cbn in Ha. subst a'. apply Hn. apply list_elem_of_fmap. exists (k', a). split; [|done]. cbn.
      rewrite (Hk k a) by left. symmetry. apply Hk. by right. }
    apply Hgen; [|done]. by intros k a (doc & _ & -> & ->)%Hel.
  - intros a. unfold artifacts. rewrite elem_of_remove_dups, !list_elem_of_fmap. split.
    + intros ([k a'] & -> & (doc & Hin & -> & _)%Hel). by exists doc.
    + intros (doc & -> & Hin). exists (ra_sha256 (rd_pdf doc), rd_pdf doc). split; [done|]. apply Hel. by exists doc.
Qed.

Lemma add_sizes label t l n :
  0 <= t <= MAX_SAFE_BYTES -> Forall (fun da : ustr * RemoteArtifact => 0 <= ra_size_bytes da.2) l ->
  foldM (add_size label) t l = Ok n <-> n = t + sum_Z (map (fun da => ra_size_bytes da.2) l) /\ n <= MAX_SAFE_BYTES.
Proof.
  unfold sum_Z. revert t. induction l as [|da l IH]; intros t Ht Hl; cbn; [split; [intros [= <-]; lia|intros [-> _]; f_equal; lia]|]. inversion Hl as [|? ? Hs Hl']; subst.
  pose proof (sum_Z_nonneg (map (fun da => ra_size_bytes da.2) l)) as Hnn. unfold sum_Z in Hnn. rewrite Forall_map in Hnn. specialize (Hnn Hl').
  unfold add_size at 1. destruct (checked_add t (ra_size_bytes da.2) label) as [m|e] eqn:E; cbn.
  - apply checked_add_ok in E as (-> & _ & _ & Hm). rewrite IH by (try done; lia). lia.
  - split; [done|]. intros [-> Hn]. assert (checked_add t (ra_size_bytes da.2) label = Ok (t + ra_size_bytes da.2)) as E' by (apply checked_add_ok; lia). by rewrite E in E'.
Qed.

(** ** What the check of the manifest establishes *)
Record manifest_facts (g : RemoteGeneration) : Prop := {
  mf_counts : rg_document_count g = zlen (rg_documents g) /\ rg_chunk_count g = rg_embedding_count g /\
    rg_pdf_object_count g = distinct (map (fun doc => ra_sha256 (rd_pdf doc)) (rg_documents g)) /\ 0 <= rg_embedding_count g;
  mf_database : 1 <= ra_size_bytes (rg_database g) <= MAX_SAFE_BYTES;
  mf_sidecar : forall a, rg_vector_sidecar g = Some a ->
    is_v5 (rg_serving_schema g) = true /\ ra_size_bytes a = rg_embedding_count g * (QWEN3_EMBEDDING_DIMENSION * 4) /\ 0 <= ra_size_bytes a <= MAX_SAFE_BYTES;
  mf_documents : Forall (fun doc => artifact_ok (rd_pdf doc) /\ rd_issuer doc ∈ rg_issuer_codes g) (rg_documents g);
  mf_one : one_artifact (rg_documents g);
  mf_issuers : rg_issuer_codes g = sorted_unique (rg_issuer_codes g);
  mf_ocr : check_ocr_dispositions g = Ok tt;
}.
Lemma manifest_passes g : _verify_remote_manifest_contract g = Ok tt -> manifest_facts g.
Proof.
  unfold _verify_remote_manifest_contract. intros H. apply bind_ok in H as ([] & Hneg%raise_if_ok & H).
  apply bind_ok in H as (dim & _ & H). apply bind_ok in H as ([] & _ & H).
  apply bind_ok in H as ([] & Hdb & H). apply bind_ok in H as ([] & Hvec & H). apply bind_ok in H as ([] & Hiss%raise_if_ok & H).
  apply bind_ok in H as ([] & Hcount%raise_if_ok & H). apply bind_ok in H as (st & Hpdf & H). apply bind_ok in H as ([] & Hobj%raise_if_ok & H).
  apply bind_ok in H as ([] & _ & H). apply bind_ok in H as ([] & Hchunk%raise_if_ok & H). apply bind_ok in H as ([] & Hdecl%raise_if_ok & Hocr).
  cbn [existsb] in Hneg. bsplit. split.
  - split_and!; try done; lia.
  - unfold check_database_artifact in Hdb. cbv zeta in Hdb. apply bind_ok in Hdb as (path & _ & Hdb%raise_if_ok). bsplit. lia.
  - intros a Ha. unfold check_vectors_contract in Hvec. rewrite Ha in Hvec. destruct (is_v5 (rg_serving_schema g)) eqn:E; [|by apply bind_ok in Hvec as ([] & ? & _)].
    split; [done|]. cbn in Hvec. apply bind_ok in Hvec as ([] & Hside & _). unfold check_sidecar_artifact in Hside.
    apply bind_ok in Hside as (path & _ & Hside%raise_if_ok). bsplit.
    unfold QWEN3_EMBEDDING_DIMENSION in *. lia.
  - apply Forall_forall. intros doc Hdoc. split; [by eapply check_pdfs|].
    rewrite forallb_forall in Hdecl. apply list_elem_of_In in Hdoc. specialize (Hdecl _ Hdoc). by bsplit.
  - by eapply check_pdfs_one.
  - done.
  - done.
Qed.

(** A generation with OCR dispositions: every issuer has a readable document, and no more
    than one in twenty of its documents is unread; so it is for all documents together. *)
Lemma issuer_ocr_bound g :
  manifest_facts g -> rg_serving_schema g ∈ V4_SCHEMAS ->
  (forall k, k ∈ rg_issuer_codes g -> 1 <= count_where is_available (documents_of g k) /\
     zlen (documents_of g k) * 95 <= count_where is_available (documents_of g k) * 100) /\
  Forall (fun doc => is_available doc = negb (is_ocr_failed doc)) (rg_documents g).
Proof.
  intros [_ _ _ _ _ _ H] Hv4. unfold check_ocr_dispositions in H. rewrite bool_decide_eq_true_2 in H by done. cbv zeta in H.
  apply bind_ok in H as ([] & Hmap%raise_if_ok & H). apply bind_ok in H as ([] & Hc & Hdisp). apply forM_ok in Hc, Hdisp. bsplit. split.
  - intros k Hk. rewrite <- Hmap in Hk. apply list_elem_of_fmap in Hk as (c & -> & Hin). rewrite Forall_forall in Hc. specialize (Hc c Hin).
    unfold check_issuer_ocr in Hc. apply raise_if_ok in Hc. bsplit. lia.
  - eapply Forall_impl; [exact Hdisp|]. intros doc Hd. unfold check_disposition in Hd. destruct (is_available doc) eqn:Ea.
    + unfold is_available, is_ocr_failed in *. bsplit. rewrite bool_decide_eq_false_2; [done|]. rewrite Ea. by vm_compute.
    + by destruct (is_ocr_failed doc).
Qed.

(** C22: A remote manifest that the updater accepts is consistent.  Its counts are those of
    its documents; its issuer codes are sorted without repetition, and every document is of
    one of them; a PDF digest names one artifact, whose path is that of the digest and whose
    size is in range; and where documents can be unread, every issuer has a readable one, no
    more than one in twenty documents of an issuer is unread, and so for the whole corpus. *)
Theorem manifest_contract_sound (g : RemoteGeneration) :
  _verify_remote_manifest_contract g = Ok tt ->
  rg_document_count g = zlen (rg_documents g) /\
  rg_pdf_object_count g = zlen (artifacts (rg_documents g)) /\
  StronglySorted (fun a b => ustr_leb a b = true) (rg_issuer_codes g) /\ NoDup (rg_issuer_codes g) /\
  (forall doc, doc ∈ rg_documents g -> rd_issuer doc ∈ rg_issuer_codes g /\ artifact_ok (rd_pdf doc)) /\
  one_artifact (rg_documents g) /\
  (rg_serving_schema g ∈ V4_SCHEMAS ->
   (forall k, k ∈ rg_issuer_codes g -> exists doc, doc ∈ documents_of g k /\ is_available doc = true) /\
   zlen (List.filter is_ocr_failed (rg_documents g)) * 20 <= rg_document_count g).
Proof.
  intros H%manifest_passes. pose proof (issuer_ocr_bound g H) as Hocr. destruct H as [(Hc & _ & Hobj & _) _ _ Hdocs Hone Hiss _].
  assert (NoDup (rg_issuer_codes g)) as Hnd by (rewrite Hiss; unfold sorted_unique; rewrite sorted_by_Permutation; apply NoDup_remove_dups).
  rewrite Forall_forall in Hdocs. split; [done|]. split.
  { rewrite Hobj. unfold distinct, zlen. rewrite <- (length_map ra_sha256 (artifacts _)). f_equal. apply Permutation_length. apply NoDup_Permutation.
    - apply NoDup_remove_dups.
    - apply NoDup_fmap_2_strong; [|apply NoDup_remove_dups]. unfold artifacts. intros a b. rewrite !elem_of_remove_dups, !list_elem_of_fmap.
      intros (x & -> & Hx) (y & -> & Hy). by apply Hone.
    - intros d. unfold artifacts. rewrite elem_of_remove_dups, !list_elem_of_fmap. split.
      + intros (doc & -> & Hin). exists (rd_pdf doc). split; [done|]. apply elem_of_remove_dups, list_elem_of_fmap. by exists doc.
      + intros (a & -> & (doc & -> & Hin)%elem_of_remove_dups%list_elem_of_fmap). by exists doc. }
  split; [rewrite Hiss; apply sorted_by_sorted; [apply ustr_leb_total|intros a b c; apply ustr_leb_trans]|]. split; [done|].
  split; [intros doc Hd; by destruct (Hdocs doc Hd)|]. split; [done|]. intros [Hper Hsplit]%Hocr. split.
  - intros k [Hpos _]%Hper. rewrite count_where_length in Hpos. destruct (List.filter is_available (documents_of g k)) as [|doc l] eqn:E; [by rewrite zlen_nil in Hpos|].
    exists doc. assert (In doc (doc :: l)) as Hin by by left. rewrite <- E in Hin. apply filter_In in Hin as [Hin Ha]. split; [by apply list_elem_of_In|done].
  - assert (zlen (rg_documents g) = count_where is_available (rg_documents g) + zlen (List.filter is_ocr_failed (rg_documents g))) as Htotal.
    { rewrite <- count_where_length. clear -Hsplit. induction Hsplit as [|doc l Hd _ IH]; [done|]. rewrite zlen_cons, !count_where_cons, IH, Hd. destruct (is_ocr_failed doc); cbn; lia. }
    assert (forall f, sum_Z (map (fun k => count_where f (documents_of g k)) (rg_issuer_codes g)) = count_where f (rg_documents g)) as Hsum.
    { intros f. apply count_by_issuer; [done|]. intros doc Hd. by apply Hdocs. }
    assert (zlen (rg_documents g) * 95 <= count_where is_available (rg_documents g) * 100); [|lia].
    assert (forall docs : list RemoteDocument, zlen docs = count_where (fun _ => true) docs) as Hall.
    { intros docs. rewrite count_where_length. f_equal. clear. induction docs; cbn; congruence. }
    rewrite Hall, <- !Hsum, <- !sum_Z_map_scale. apply sum_Z_map_le. intros k Hk. rewrite <- Hall. by apply Hper.
Qed.

(** C21: The storage check accepts an accepted manifest exactly when the database, the vector
    file and every PDF are within their caps and the bytes of all files, a PDF that several
    documents share counted once, are within the quota of one download; the sum cannot leave
    the range of the checked addition. *)
Theorem storage_contract_exact (lim : StoreLimits) (ul : UpdaterLimits) (g : RemoteGeneration)
    (poll_positive : bool) (pdf_cap : Z) (database_cap generation_cap : option Z) :
  updater_limits lim poll_positive pdf_cap database_cap generation_cap = Ok ul ->
  _verify_remote_manifest_contract g = Ok tt ->
  _verify_remote_storage_contract lim ul g = Ok tt <->
  ra_size_bytes (rg_database g) <= up_maximum_database_bytes ul /\
  (forall a, rg_vector_sidecar g = Some a -> ra_size_bytes a <= maximum_vector_sidecar_bytes lim) /\
  (forall doc, doc ∈ rg_documents g -> ra_size_bytes (rd_pdf doc) <= up_maximum_pdf_bytes ul) /\
  ra_size_bytes (rg_database g) + match rg_vector_sidecar g with Some a => ra_size_bytes a | None => 0 end
    + sum_Z (map ra_size_bytes (artifacts (rg_documents g))) <= up_maximum_generation_download_bytes ul.
Proof.
  intros Hul [(_ & _ & _ & Hemb) Hdb Hside Hdocs Hone _ _]%manifest_passes.
  assert (up_maximum_generation_download_bytes ul <= MAX_SAFE_BYTES) as Hmax.
  { unfold updater_limits in Hul. cbv zeta in Hul. inv_res Hul. cbn. match goal with E : validate_byte_limit (default _ generation_cap) _ _ = Ok _ |- _ => apply validate_byte_limit_ok in E end. lia. }
  set (side := match rg_vector_sidecar g with Some a => ra_size_bytes a | None => 0 end).
  assert (0 <= side) as Hs0 by (unfold side; destruct (rg_vector_sidecar g) as [a|]; [|done]; by apply Hside).
  assert (Forall (fun da => 0 <= ra_size_bytes da.2) (first_pdfs g)) as Hsizes.
  { destruct (first_pdfs_elem _ Hone) as [_ Hel]. apply Forall_forall. intros [k a] (doc & Hin & -> & _)%Hel. rewrite Forall_forall in Hdocs.
    destruct (Hdocs doc Hin) as [(_ & Hsize & _) _]. cbn. lia. }
  assert (sum_Z (map (fun da => ra_size_bytes da.2) (first_pdfs g)) = sum_Z (map ra_size_bytes (artifacts (rg_documents g)))) as Hsum.
  { rewrite <- (map_map snd ra_size_bytes). by apply sum_Z_Permutation, Permutation_map, first_pdfs_artifacts. }
  pose proof (sum_Z_nonneg (map (fun da => ra_size_bytes da.2) (first_pdfs g))) as Hnn. rewrite Forall_map in Hnn. specialize (Hnn Hsizes).
  assert (forall t, (match rg_vector_sidecar g with
                     | Some a => checked_add (ra_size_bytes (rg_database g)) (ra_size_bytes a) "generation download bytes"
                     | None => Ok (ra_size_bytes (rg_database g))
                     end = Ok t) <-> t = ra_size_bytes (rg_database g) + side /\ t <= MAX_SAFE_BYTES) as Htotal.
  { intros t. unfold side in *. destruct (rg_vector_sidecar g) as [a|]; [rewrite checked_add_ok; lia|]. split; [intros [= <-]; lia|intros [-> _]; f_equal; lia]. }
  unfold _verify_remote_storage_contract. rewrite <- Hsum. split.
  - intros H. apply bind_ok in H as ([] & Hc1%raise_if_ok & H). apply bind_ok in H as ([] & Hc2%raise_if_ok & H). apply bind_ok in H as (t & Ht%Htotal & H).
    apply bind_ok in H as ([] & Hc3%forM_ok & H). apply bind_ok in H as (n & Hn & H%raise_if_ok). apply add_sizes in Hn; [|lia|done]. bsplit.
    split; [lia|]. split; [intros a Ha; rewrite Ha in Hc2; lia|]. split; [|lia].
    intros doc Hd. rewrite Forall_forall in Hc3. specialize (Hc3 doc Hd). apply raise_if_ok in Hc3. lia.
  - intros (Hc1 & Hc2 & Hc3 & Hq). apply bind_ok. exists tt. split; [apply raise_if_ok; lia|]. apply bind_ok. exists tt.
    split; [apply raise_if_ok; destruct (rg_vector_sidecar g) as [a|]; [specialize (Hc2 a eq_refl); lia|done]|].
    apply bind_ok. exists (ra_size_bytes (rg_database g) + side). split; [apply Htotal; lia|]. apply bind_ok. exists tt.
    split; [apply forM_ok, Forall_forall; intros doc Hd; apply raise_if_ok; specialize (Hc3 doc Hd); lia|].
    apply bind_ok. eexists. split; [apply add_sizes; [lia|done|split; [reflexivity|lia]]|]. apply raise_if_ok. lia.
Qed.
