(* ===== verification/UpdaterRuns.v ===== *)
(** What the polls of a process do to what it serves, with a run of the updater that brings
    a new generation to the small state root of StoreRuns. *)
From S2P Require Export UpdaterPoll UpdaterContract StoreRuns.

Definition coherent_reader (reader : Reader) : Prop :=
  forall g db sha, download_database reader g = Ok (db, sha) -> coherent_database db.


(** C20: A poll that fails leaves the last good generation.  Whatever the client delivers and
    wherever the poll stops, the active generation and the pointer on disk are as before, and
    so are the durable roots, every generation directory and every good object. *)
Theorem poll_keeps_last_good {quota : StateQuota} (lim : StoreLimits) (ul : UpdaterLimits) (reader : Reader)
    (mtime inode : Z) (s s' : Store) (held : list nat) (e : exn) :
  coherent_reader reader -> service lim s held -> poll_once lim ul reader mtime inode s = (Err e, s') -> last_good s s'.
Proof. intros Hr Hs Hrun. by destruct (poll_runs lim ul reader Hr s held mtime inode Hs _ _ Hrun) as [_ H]. Qed.

(** A process that serves and polls.  It activates only through a poll. *)
Inductive updating_step {quota : StateQuota} (lim : StoreLimits) (ul : UpdaterLimits) : Store * list nat -> Store * list nat -> Prop :=
| Serves s held o r s' :
    (forall h inode, o <> Activate h inode) -> permitted s held o -> run lim o s = (r, s') -> updating_step lim ul (s, held) (s', held_after o r held)
| Polls s held reader mtime inode r s' :
    coherent_reader reader -> poll_once lim ul reader mtime inode s = (r, s') -> updating_step lim ul (s, held) (s', held).
Lemma updating_steps_keep {quota : StateQuota} lim ul s held s' held' :
  service lim s held -> rtc (updating_step lim ul) (s, held) (s', held') -> service lim s' held'.
Proof.
  intros H Hr. remember (s, held) as a eqn:Ea. remember (s', held') as b eqn:Eb. revert s held s' held' Ea Eb H.
  induction Hr as [a|a [s1 held1] b Hstep Hr IH]; intros s held s' held' -> Eb H; [by injection Eb as <- <-|].
  eapply IH; [done|done|]. inversion Hstep as [? ? o r ? _ Hp Hrun|? ? reader mtime inode r ? Hreader Hrun]; subst.
  - by eapply service_run.
  - by destruct (poll_runs lim ul reader Hreader s held1 mtime inode H _ _ Hrun).
Qed.


(** ** A manifest of two documents *)
Definition E : ustr := us "gen-e".
Definition hex (c : N) : ustr := repeat c 64.
Definition sample_artifact (n : N) : RemoteArtifact :=
  let d := sha256_bytes (sample_pdf n) in
  {| ra_path := us "v1/objects/sha256/" ++ slice d 0 2 ++ us "/" ++ d; ra_sha256 := d; ra_size_bytes := 6; ra_media_type := us "application/pdf" |}.
Definition sample_remote_document (n : N) : RemoteDocument :=
  {| rd_document_id := [n]; rd_issuer := us "kb"; rd_page_count := 1; rd_pdf := sample_artifact n; rd_ocr_sha256 := Some (hex 99%N);
     rd_availability := AVAILABLE; rd_failure_reason_code := None; rd_failure_reason := None; rd_failure_attempts := None |}.
Definition sample_profile : EmbeddingProfile :=
  {| profile_id := us "p1"; profile_provider := us "openrouter"; profile_model := us "qwen"; profile_provider_id := us "qwen"; profile_dimension := 4096;
     profile_dtype := us "float32"; profile_normalization := us "l2"; profile_document_policy := us "raw"; profile_query_policy := us "raw";
     profile_maximum_tokens := 8192 |}.
Definition sample_structure : StructureContract :=
  {| parser_profiles := [{| pp_issuer := us "kb"; pp_profile_id := us "kb.v1"; pp_profile_sha256 := hex 100%N |}];
     node_total := 2; node_root := 2; node_major_section := 0; node_item := 0; node_paragraph := 0; node_list_item := 0; node_table := 0;
     node_table_row := 0; node_footnote := 0; node_boilerplate := 0; node_unclassified := 0;
     major_total := 0; major_benefit := 0; major_notice := 0; major_mixed := 0; major_unknown := 0;
     source_non_whitespace_characters := 9; covered_non_whitespace_characters := 9; source_non_whitespace_sha256 := hex 101%N;
     revision_total := 2; revision_current := 2; revision_superseded := 0; revision_ambiguous := 0 |}.
Definition sample_sidecar_artifact : RemoteArtifact :=
  {| ra_path := us "v1/generations/gen-e/vectors.f32"; ra_sha256 := hex 97%N; ra_size_bytes := 32768; ra_media_type := us "application/octet-stream" |}.
Definition sample_sidecar_contract : EmbeddingVectorSidecar :=
  {| vs_artifact := sample_sidecar_artifact; vs_profile_id := us "p1"; vs_row_count := 2; vs_dimension := 4096; vs_dtype := us "float32";
     vs_byte_order := us "little-endian"; vs_layout := us "row-major"; vs_normalization := us "l2" |}.
Definition sample_manifest (ns : list N) : RemoteGeneration :=
  {| rg_generation_id := E; rg_serving_schema := us "cardrag.serving-db.v5"; rg_corpus_sha256 := []; rg_contract_sha256 := [];
     rg_database := {| ra_path := us "v1/generations/gen-e/index.sqlite3"; ra_sha256 := hex 98%N; ra_size_bytes := 4096; ra_media_type := SQLITE_MEDIA_TYPE |};
     rg_documents := map sample_remote_document ns; rg_issuer_codes := [us "kb"]; rg_document_count := 2; rg_pdf_object_count := 2;
     rg_ocr_object_count := 1; rg_chunk_count := 2; rg_embedding_provider := us "openrouter"; rg_embedding_model := us "qwen";
     rg_embedding_dimension := 4096; rg_embedding_count := 2;
     rg_issuer_ocr_counts := [{| oc_issuer := us "kb"; oc_acquired := 2; oc_succeeded := 2; oc_failed := 0 |}];
     rg_vector_sidecar := Some sample_sidecar_artifact; rg_structure_contract := Some sample_structure;
     rg_embedding_profiles := [sample_profile]; rg_primary_embedding_profile_id := Some (us "p1"); rg_embedding_view_counts := [(us "body", 2)];
     rg_vector_sidecar_contract := Some sample_sidecar_contract; rg_parser_policy_sha256 := Some (hex 49%N);
     rg_embedding_policy_sha256 := Some (hex 50%N); rg_retrieval_policy_sha256 := Some (hex 51%N);
     rg_document_aggregation_profile := None; rg_document_aggregation_policy := None; rg_sealed_profile_sha256 := None;
     rg_exact_row_corpus_sha256 := None |}.
Definition delivered_metadata : ServingMetadata :=
  {| schema_id := us "cardrag.serving-db.v5"; generation_id := E; corpus_sha256 := []; contract_sha256 := [];
     embedding_provider := us "openrouter"; embedding_model := us "qwen"; embedding_dimension := 4096; embedding_count := 2;
     vector_sidecar_sha256 := Some (hex 97%N); vector_sidecar_size_bytes := Some 32768; exact_row_corpus_sha256 := None;
     document_aggregation_status := us "candidate_default"; document_aggregation_policy := us "max_child"; sealed_profile_sha256 := None |}.
Definition delivered_database (ns : list N) : Database :=
  {| db_size_bytes := 4096; db_schema_row := Some (us "cardrag.serving-db.v5"); db_validation := Ok delivered_metadata;
     db_embeddings_normalized := true; db_embedding_views := 2; db_contract_revisions := Some (map sample_document ns);
     db_documents := None; db_ocr_failed_products := Some []; db_issuers := [us "kb"]; db_products := 0; db_pages := 2; db_evidence := 0;
     db_metadata := expected_metadata (sample_manifest ns) sample_structure sample_sidecar_contract; db_profiles := [sample_profile];
     db_view_counts := [(us "body", 2)] |}.
(** The client delivers the objects [present] only. *)
Definition sample_reader (ns present : list N) : Reader :=
  {| read_stable_generation := Ok (Some (sample_manifest ns));
     download_database _ := Ok (delivered_database ns, hex 98%N);
     download_vector_sidecar _ := Ok {| sidecar_sha256 := hex 97%N; sidecar_size_bytes := 32768; sidecar_rows_normalized := true |};
     download_object a := of_option OSError (head (omap (fun n => if decide (ra_sha256 a = sha256_bytes (sample_pdf n)) then Some (sample_pdf n) else None) present)) |}.
Definition sample_updater_limits : UpdaterLimits :=
  {| up_maximum_pdf_bytes := 1000; up_maximum_database_bytes := 100000; up_maximum_generation_download_bytes := 1000000 |}.
#[local] Existing Instance sample_quota.

Lemma sample_reader_coherent ns present : coherent_reader (sample_reader ns present).
Proof.
  intros g db sha [= <- <-] m [= <-]. split; [cbn [db_schema_row delivered_database schema_id delivered_metadata]; reflexivity|]. split; [cbn [embedding_count delivered_metadata]; lia|]. intros Hv. vm_compute in Hv. discriminate Hv.
Qed.
Definition loading : res (option nat) * Store := run sample_limits LoadCurrent sample_store.
Definition loaded : Store := loading.2.
Lemma loading_run : run sample_limits LoadCurrent sample_store = (loading.1, loading.2).
Proof. exact (surjective_pairing loading). Qed.
Lemma loading_ok : loading.1 = Ok None.
Proof. vm_compute. reflexivity. Qed.
Lemma loaded_service : service sample_limits loaded [].
Proof.
  pose proof (service_fresh sample_limits sample_store sample_limits_ok sample_coherent sample_fresh) as H0.
  assert (permitted sample_store [] LoadCurrent) as Hp by (split; reflexivity).
  pose proof (service_run sample_limits sample_store [] LoadCurrent loading.1 loading.2 H0 Hp (surjective_pairing _)) as H.
  rewrite loading_ok in H. exact H.
Qed.

(** ** Witnesses *)
Definition good_poll : res bool * Store := poll_once sample_limits sample_updater_limits (sample_reader [4; 5]%N [5%N]) 50 9 loaded.
Definition bad_poll : res bool * Store := poll_once sample_limits sample_updater_limits (sample_reader [4; 6]%N [5%N]) 50 9 loaded.
Lemma good_poll_run : poll_once sample_limits sample_updater_limits (sample_reader [4; 5]%N [5%N]) 50 9 loaded = (good_poll.1, good_poll.2).
Proof. exact (surjective_pairing good_poll). Qed.
Lemma bad_poll_run : poll_once sample_limits sample_updater_limits (sample_reader [4; 6]%N [5%N]) 50 9 loaded = (bad_poll.1, bad_poll.2).
Proof. exact (surjective_pairing bad_poll). Qed.
Lemma good_poll_ok : good_poll.1 = Ok true.
Proof. vm_compute. reflexivity. Qed.
Lemma bad_poll_fails : bad_poll.1 = Err OSError.
Proof. vm_compute. reflexivity. Qed.
Lemma poll_keeps_last_good_witness : bad_poll.1 = Err OSError /\ last_good loaded bad_poll.2.
Proof.
  split; [exact bad_poll_fails|]. pose proof bad_poll_run as Hrun. rewrite bad_poll_fails in Hrun.
  exact (poll_keeps_last_good sample_limits sample_updater_limits (sample_reader [4; 6]%N [5%N]) 50 9 loaded bad_poll.2 [] OSError
           (sample_reader_coherent _ _) loaded_service Hrun).
Defined.

(** Load, pin the old generation, poll the new one in, poll again without its last PDF. *)
Definition pinning : res (option nat) * Store := run sample_limits Pin loaded.
Definition polling : res bool * Store := poll_once sample_limits sample_updater_limits (sample_reader [4; 5]%N [5%N]) 50 9 pinning.2.
Definition polling_again : res bool * Store := poll_once sample_limits sample_updater_limits (sample_reader [4; 6]%N [5%N]) 60 10 polling.2.
Lemma pinning_run : run sample_limits Pin loaded = (pinning.1, pinning.2).
Proof. exact (surjective_pairing pinning). Qed.
Lemma polling_run : poll_once sample_limits sample_updater_limits (sample_reader [4; 5]%N [5%N]) 50 9 pinning.2 = (polling.1, polling.2).
Proof. exact (surjective_pairing polling). Qed.
Lemma polling_again_run :
  poll_once sample_limits sample_updater_limits (sample_reader [4; 6]%N [5%N]) 60 10 polling.2 = (polling_again.1, polling_again.2).
Proof. exact (surjective_pairing polling_again). Qed.
Lemma pinning_ok : pinning.1 = Ok (Some 0%nat).
Proof. vm_compute. reflexivity. Qed.
Lemma polling_results : polling.1 = Ok true /\ is_ok polling_again.1 = false /\ active_generation (proc polling_again.2) = Some E.
Proof. split_and!; vm_compute; reflexivity. Qed.
Lemma polling_steps :
  rtc (updating_step sample_limits sample_updater_limits) (sample_store, []) (polling_again.2, [0%nat]).
Proof.
  assert (held_after LoadCurrent loading.1 [] = []) as Eload by (rewrite loading_ok; reflexivity).
  assert (held_after Pin pinning.1 [] = [0%nat]) as Epin by (rewrite pinning_ok; reflexivity).
  eapply rtc_l; [apply (Serves _ _ sample_store [] LoadCurrent loading.1 loading.2); [discriminate|split; reflexivity|exact (surjective_pairing loading)]|].
  rewrite Eload. eapply rtc_l; [apply (Serves _ _ loaded [] Pin pinning.1 pinning.2); [discriminate|exact I|exact (surjective_pairing pinning)]|].
  rewrite Epin. eapply rtc_l; [exact (Polls _ _ pinning.2 [0%nat] _ _ _ polling.1 polling.2 (sample_reader_coherent _ _) polling_run)|].
  eapply rtc_l; [exact (Polls _ _ polling.2 [0%nat] _ _ _ polling_again.1 polling_again.2 (sample_reader_coherent _ _) polling_again_run)|].
  apply rtc_refl.
Qed.

Lemma sample_manifest_ok : _verify_remote_manifest_contract (sample_manifest [4; 5]%N) = Ok tt.
Proof. vm_compute. reflexivity. Qed.
Lemma manifest_contract_sound_witness :
  _verify_remote_manifest_contract (sample_manifest [4; 5]%N) = Ok tt /\
  exists m, m = sample_manifest [4; 5]%N /\ rg_document_count m = zlen (rg_documents m) /\ one_artifact (rg_documents m).
Proof.
  split; [exact sample_manifest_ok|]. exists (sample_manifest [4; 5]%N). split; [reflexivity|].
  destruct (manifest_contract_sound (sample_manifest [4; 5]%N) sample_manifest_ok) as (Hc & _ & _ & _ & _ & Hone & _). exact (conj Hc Hone).
Defined.
Lemma storage_contract_exact_witness :
  updater_limits sample_limits true 1000 None None = Ok sample_updater_limits /\
  _verify_remote_storage_contract sample_limits sample_updater_limits (sample_manifest [4; 5]%N) = Ok tt.
Proof.
  assert (updater_limits sample_limits true 1000 None None = Ok sample_updater_limits) as Hul by (vm_compute; reflexivity). split; [exact Hul|].
  apply (storage_contract_exact sample_limits sample_updater_limits (sample_manifest [4; 5]%N) true 1000 None None Hul sample_manifest_ok).
  split; [vm_compute; discriminate|]. split; [intros a Ha; injection Ha as <-; vm_compute; discriminate|]. split; [|vm_compute; discriminate].
  intros doc Hd. cbn [rg_documents sample_manifest map] in Hd. rewrite !elem_of_cons in Hd.
  destruct Hd as [->|[->|Hd]]; [vm_compute; discriminate..|destruct (not_elem_of_nil doc Hd)].
Defined.
