(* ===== verification/Webdav.v ===== *)
(** The WebDAV client ([cardrag_core/webdav.py]) as operations on the outside world.

    The server is not part of the repository: [Outside] is any server, with whatever faults
    and other clients, together with the local files a publication reads.  A request that
    gets no response is a transport error, whether or not the server acted on it.  Every
    state of the world that follows a step is recorded in [moments], the latest first: a
    process can stop at each of them.  Paths are the texts the requests carry; error
    messages leave the path out, and transfer counters are left out. *)
From S2P Require Export Monad Controls.
From stdpp Require Import pretty.
#[local] Open Scope Z_scope.

Inductive request :=
| HEAD (path : ustr)
| GET (path : ustr)
| MKCOL (path : ustr)
| PUT (path : ustr) (body : option (list N)) (if_none_match : bool)
| MOVE (source destination : ustr) (overwrite : bool)
| DELETE (path : ustr).
(** [content_length] is the header when it is a number. *)
Record response := { status : Z; content_length : option Z; etag : option ustr; body : list N }.

Record file_identity := { st_dev : Z; st_ino : Z; st_size : Z; st_mtime : Z; st_ctime_ns : Z }.
#[export] Instance file_identity_eq_dec : EqDecision file_identity.
Proof. solve_decision. Defined.
Record file_view := { is_regular : bool; view_identity : file_identity; view_content : list N }.
(** Opening a source without following links, [fstat] of the descriptor, [stat] of the path,
    and a reading of the whole descriptor. *)
Inductive file_question := OpenSource (path : ustr) | FstatSource | StatSource (path : ustr) | ReadSource.

Class Outside := {
  world : Type;
  send : request -> world -> option response * world;
  observe : file_question -> world -> option file_view * world;
}.
(** A session of a client: the world, its moments and what the client itself keeps. *)
Record Session {O : Outside} (L : Type) := { outside : world; moments : list world; kept : L }.
Arguments outside {O L} _. Arguments moments {O L} _. Arguments kept {O L} _.

Definition WebDAVError (method : string) : exn := Raised "WebDAVError" ("WebDAV " ++ method ++ " failed")%string.
Definition http_error (method : string) (code : Z) : exn :=
  Raised "WebDAVHTTPError" ("WebDAV " ++ method ++ " returned HTTP " ++ pretty code)%string.
Definition WebDAVIntegrityError (message : string) : exn := Raised "WebDAVIntegrityError" message.
Definition WebDAVReadbackIntegrityError (message : string) : exn := Raised "WebDAVReadbackIntegrityError" message.

Record WebDAVObjectStat := { os_status : Z; os_size_bytes : option Z; os_etag : option ustr }.
Record VerifiedArtifact := { va_path : ustr; va_sha256 : ustr; va_size_bytes : Z }.

Section Client.
Context {O : Outside} {L : Type}.
Notation D := (ST (Session L)).

Definition outside_step {A} (f : world -> A * world) : D A := fun s =>
  let '(a, w) := f (outside s) in (Ok a, {| outside := w; moments := w :: moments s; kept := kept s |}).
Definition getL : D L := fun s => (Ok (kept s), s).
Definition putL (l : L) : D unit := fun s => (Ok tt, {| outside := outside s; moments := moments s; kept := l |}).

Definition _request (method : string) (r : request) (expected : list Z) : D response :=
  let* answer := outside_step (send r) in
  match answer with
  | None => throw (WebDAVError method)
  | Some a => if bool_decide (status a ∈ expected) then ret a else throw (http_error method (status a))
  end.
Definition relative_text (raw : ustr) : res ustr := let! p := validate_relative_path raw in Ok (as_posix p).

Definition head (raw : ustr) : D WebDAVObjectStat :=
  let* path := lift (relative_text raw) in
  let* a := _request "HEAD" (HEAD path) [200; 204] in
  ret {| os_status := status a; os_size_bytes := content_length a; os_etag := etag a |}.
Definition exists_ (raw : ustr) : D bool :=
  catch (let* _ := head raw in ret true)
    (fun e => if bool_decide (e = http_error "HEAD" 404) then ret false else throw e).

(** A streamed GET: [limit] and [too_large] are the cap and its error. *)
Definition stream (path : ustr) (limit : option Z) (too_large : exn) : D response :=
  let* a := _request "GET" (GET path) [200] in
  let exceeds (n : Z) := match limit with Some cap => cap <? n | None => false end in
  let* _ := lift (raise_if (match content_length a with Some n => exceeds n | None => false end || exceeds (zlen (body a))) too_large) in
  ret a.
Definition is_negative (n : option Z) : bool := match n with Some n => n <? 0 | None => false end.
Definition get (raw : ustr) (max_bytes : option Z) : D (list N) :=
  let* path := lift (relative_text raw) in
  let* _ := lift (raise_if (is_negative max_bytes) (ValueError "max_bytes cannot be negative")) in
  let* a := stream path max_bytes (WebDAVIntegrityError "WebDAV object exceeds the read limit") in
  ret (body a).
Definition verify_with_metadata (raw expected_sha256 : ustr) (expected_size_bytes : Z) (max_bytes : option Z)
    : D (VerifiedArtifact * option ustr) :=
  let* path := lift (relative_text raw) in
  let* trusted := lift (validate_sha256 expected_sha256) in
  let* _ := lift (raise_if (expected_size_bytes <? 0) (ValueError "expected byte size must be a non-negative integer")) in
  let* _ := lift (raise_if (is_negative max_bytes) (ValueError "max_bytes must be a non-negative integer")) in
  let hard_cap := match max_bytes with Some m => Z.min expected_size_bytes m | None => expected_size_bytes end in
  let* a := stream path (Some hard_cap) (WebDAVReadbackIntegrityError "remote object exceeds the allowed byte size") in
  let* _ := lift (raise_if (negb (zlen (body a) =? expected_size_bytes))
                    (WebDAVReadbackIntegrityError "remote byte size does not match the sealed identity")) in
  let* _ := lift (raise_if (negb (bool_decide (sha256_bytes (body a) = trusted)))
                    (WebDAVReadbackIntegrityError "remote SHA-256 does not match the sealed identity")) in
  ret ({| va_path := path; va_sha256 := trusted; va_size_bytes := zlen (body a) |}, etag a).
Definition verify (raw expected_sha256 : ustr) (expected_size_bytes : Z) : D VerifiedArtifact :=
  let* va := verify_with_metadata raw expected_sha256 expected_size_bytes None in ret va.1.

Definition mkcol (raw : ustr) (exist_ok : bool) : D unit :=
  let* path := lift (relative_text raw) in
  let* _ := _request "MKCOL" (MKCOL path) (if exist_ok then [201; 405] else [201]) in
  ret tt.
Definition ensure_collection (raw : ustr) : D unit :=
  let* parts := lift (validate_relative_path raw) in
  iterM (fun n => mkcol (as_posix (take n parts)) true) (seq 1 (length parts)).

(** [content] gives the body, or raises while it is sent: then the request is cut off. *)
Definition put (raw : ustr) (content : D (list N)) (if_none_match : bool) : D unit :=
  let* path := lift (relative_text raw) in
  let* bytes := catch content (fun e => let* _ := outside_step (send (PUT path None if_none_match)) in throw e) in
  let* _ := _request "PUT" (PUT path (Some bytes) if_none_match) [200; 201; 204] in
  ret tt.
Definition move (source destination : ustr) (overwrite : bool) : D WebDAVObjectStat :=
  let* source_path := lift (relative_text source) in
  let* destination_path := lift (relative_text destination) in
  let* a := _request "MOVE" (MOVE source_path destination_path overwrite) [201; 204] in
  ret {| os_status := status a; os_size_bytes := None; os_etag := None |}.
Definition delete_ (raw : ustr) (missing_ok : bool) : D unit :=
  let* path := lift (relative_text raw) in
  let* _ := _request "DELETE" (DELETE path) (if missing_ok then [200; 202; 204; 404] else [200; 202; 204]) in
  ret tt.

(** The bytes that [download] leaves at its destination. *)
Definition min_cap (a b : option Z) : option Z :=
  match a, b with Some x, Some y => Some (Z.min x y) | Some x, None => Some x | None, b => b end.
Definition download (raw : ustr) (expected_sha256 : option ustr) (expected_size_bytes max_bytes : option Z) : D (list N) :=
  let* path := lift (relative_text raw) in
  let* _ := lift (raise_if (is_negative expected_size_bytes) (ValueError "expected_size_bytes cannot be negative")) in
  let* _ := lift (raise_if (is_negative max_bytes) (ValueError "max_bytes cannot be negative")) in
  let* a := stream path (min_cap expected_size_bytes max_bytes) (WebDAVIntegrityError "downloaded object exceeds the allowed byte size") in
  let* _ := lift (raise_if (match expected_size_bytes with Some n => negb (zlen (body a) =? n) | None => false end)
                    (WebDAVIntegrityError "downloaded byte size does not match the manifest")) in
  let* _ := lift (raise_if (match expected_sha256 with Some d => negb (bool_decide (sha256_bytes (body a) = d)) | None => false end)
                    (WebDAVIntegrityError "downloaded SHA-256 does not match the manifest")) in
  ret (body a).
End Client.
