(* ===== verification/Publish.v ===== *)
(** Publication to the artifact store ([cardrag_core/cas.py], the bundle publisher of
    [cardrag_worker/webdav.py]) and its reading back ([cardrag_core/facade.py]).

    An immutable file goes to a temporary path, is read back, is moved to a destination that
    must not exist, and is read back there.  A publisher is a record of the methods that its
    subclasses override.  A bundle is published member by member, the channel pointer last.
    The random names of temporary files are arguments. *)
From S2P Require Export Webdav.
#[local] Open Scope Z_scope.

Definition parent_text (p : posix_path) : ustr := match removelast p with [] => us "." | q => as_posix q end.
Definition incoming_publish (token : ustr) : ustr := us "v1/.incoming/publish/" ++ token ++ us ".tmp".
Definition incoming_channels (token : ustr) : ustr := us "v1/.incoming/channels/" ++ token ++ us ".tmp".

Section Publisher.
Context {O : Outside} {L : Type}.
Notation D := (ST (Session L)).

(** The methods of [ImmutablePublisher] that its subclasses override. *)
Record Publisher := {
  _verify_remote : ustr -> ustr -> Z -> D unit;
  _verify_existing : ustr -> ustr -> Z -> D unit;
  _verify_collision : ustr -> ustr -> Z -> D unit;
  _verify_temporary : ustr -> ustr -> Z -> D unit;
  _before_upload : ustr -> ustr -> Z -> D unit;
  _move_completed : ustr -> WebDAVObjectStat -> D unit;
  _destination_allowed : posix_path -> res unit;
}.
Definition client_verify (path digest : ustr) (size : Z) : D unit := let* _ := verify path digest size in ret tt.
Definition ImmutablePublisher : Publisher := {|
  _verify_remote := client_verify; _verify_existing := client_verify; _verify_collision := client_verify;
  _verify_temporary := client_verify; _before_upload _ _ _ := ret tt; _move_completed _ _ := ret tt;
  _destination_allowed _ := Ok tt |}.

(** [GenerationFilePublisher]: only database and vectors, not read back at the temporary
    path. *)
Definition generation_member (path : posix_path) : res unit :=
  match path with
  | [v1; generations; id; name] =>
      let! _ := raise_if (negb (bool_decide (v1 = us "v1")) || negb (bool_decide (generations = us "generations"))
                          || negb (bool_decide (name ∈ [us "index.sqlite3"; us "vectors.f32"])))
                  (ValueError "final-only publication is restricted to generation data members") in
      let! _ := validate_identifier id "generation_id" in
      Ok tt
  | _ => Err (ValueError "final-only publication is restricted to generation data members")
  end.
Definition GenerationFilePublisher (base : Publisher) : Publisher := {|
  _verify_remote := _verify_remote base; _verify_existing := _verify_existing base; _verify_collision := _verify_collision base;
  _verify_temporary _ _ _ := ret tt; _before_upload := _before_upload base; _move_completed := _move_completed base;
  _destination_allowed := generation_member |}.

(** An error of the cleanup hides nothing: the error that stopped the work is raised, and
    after a success it is only logged. *)
Definition suppress (m : D unit) : D unit := catch m (fun _ => ret tt).
Definition with_cleanup {A} (m : D A) (cleanup : D unit) : D A :=
  let* a := catch m (fun e => let* _ := suppress cleanup in throw e) in
  let* _ := suppress cleanup in
  ret a.
Definition is_collision (e : exn) : bool := bool_decide (e ∈ [http_error "MOVE" 409; http_error "MOVE" 412]).
Definition move_into_place (pub : Publisher) (temporary destination digest : ustr) (size : Z) : D unit :=
  let* collision := catch (let* moved := move temporary destination false in
                           let* _ := _move_completed pub destination moved in
                           ret false)
                      (fun e => if is_collision e then
                                  let* there := exists_ destination in
                                  if (there : bool) then ret true else throw e
                                else throw e) in
  if (collision : bool) then _verify_collision pub destination digest size else _verify_remote pub destination digest size.
Definition artifact_ref (digest : ustr) (size : Z) (media_type path : ustr) : ArtifactRef :=
  {| ar_sha256 := digest; ar_size_bytes := size; ar_media_type := media_type; ar_path := path |}.
(** The model checks its fields when it is built. *)
Definition make_ref (reference : ArtifactRef) : res ArtifactRef := let! _ := check_artifact reference in Ok reference.
Definition _publish (pub : Publisher) (token destination digest : ustr) (size : Z) (media_type : ustr)
    (content : D (list N)) (pre_commit : D unit) : D ArtifactRef :=
  let* path := lift (validate_relative_path destination) in
  let* _ := lift (_destination_allowed pub path) in
  let destination := as_posix path in
  let reference := artifact_ref digest size media_type destination in
  let* there := exists_ destination in
  if (there : bool) then let* _ := _verify_existing pub destination digest size in lift (make_ref reference)
  else
    let* _ := _before_upload pub destination digest size in
    let* _ := ensure_collection (parent_text path) in
    let temporary := incoming_publish token in
    let* _ := ensure_collection (us "v1/.incoming/publish") in
    let* _ := with_cleanup
      (let* _ := put temporary content true in
       let* _ := _verify_temporary pub temporary digest size in
       let* _ := pre_commit in
       move_into_place pub temporary destination digest size)
      (delete_ temporary true) in
    lift (make_ref reference).

Definition look (q : file_question) (message : string) : D file_view :=
  let* v := outside_step (observe q) in lift (of_option (WebDAVIntegrityError message) v).
Definition verify_source_identity (source : ustr) (initial : file_identity) : D unit :=
  let* descriptor := look FstatSource "publication source identity changed" in
  let* path := look (StatSource source) "publication source identity changed" in
  lift (raise_if (negb (is_regular descriptor) || negb (is_regular path) || negb (bool_decide (view_identity descriptor = initial))
                  || negb (bool_decide (view_identity path = initial)))
          (WebDAVIntegrityError "publication source identity changed")).
Definition source_chunks (source : ustr) (initial : file_identity) : D (list N) :=
  let* _ := verify_source_identity source initial in
  let* v := look ReadSource "publication source could not be read safely" in
  ret (view_content v).
Definition _publish_file (pub : Publisher) (token source : ustr) (destination_factory : ustr -> res ustr) (media_type : ustr)
    (expected_sha256 : option ustr) (expected_size_bytes : option Z) : D ArtifactRef :=
  let* _ := lift (match expected_sha256 with Some d => let! _ := validate_sha256 d in Ok tt | None => Ok tt end) in
  let* _ := lift (raise_if (is_negative expected_size_bytes) (ValueError "expected publication size must be a non-negative integer")) in
  let* _ := look (OpenSource source) "publication source is missing or unsafe" in
  let* initial := look FstatSource "publication source identity could not be verified" in
  let* _ := lift (raise_if (negb (is_regular initial)) (WebDAVIntegrityError "publication source must be a regular file")) in
  let* read := look ReadSource "publication source could not be read safely" in
  let digest := sha256_bytes (view_content read) in
  let hashed_size := zlen (view_content read) in
  let* _ := verify_source_identity source (view_identity initial) in
  let* _ := lift (raise_if (negb (hashed_size =? st_size (view_identity initial)))
                    (WebDAVIntegrityError "publication source size changed while hashing")) in
  let* _ := lift (raise_if (match expected_sha256 with Some d => negb (bool_decide (digest = d)) | None => false end)
                    (WebDAVIntegrityError "publication source SHA-256 differs from its sealed identity")) in
  let* _ := lift (raise_if (match expected_size_bytes with Some n => negb (hashed_size =? n) | None => false end)
                    (WebDAVIntegrityError "publication source size differs from its sealed identity")) in
  let* destination := lift (let! raw := destination_factory digest in relative_text raw) in
  let* reference := _publish pub token destination digest hashed_size media_type
                      (source_chunks source (view_identity initial)) (verify_source_identity source (view_identity initial)) in
  let* _ := verify_source_identity source (view_identity initial) in
  ret reference.

Definition publish_bytes (pub : Publisher) (token destination : ustr) (payload : list N) (media_type : ustr) : D ArtifactRef :=
  let* relative := lift (relative_text destination) in
  _publish pub token relative (sha256_bytes payload) (zlen payload) media_type (ret payload) (ret tt).
Definition publish_file (pub : Publisher) (token destination source media_type : ustr)
    (expected_sha256 : option ustr) (expected_size_bytes : option Z) : D ArtifactRef :=
  let* relative := lift (relative_text destination) in
  _publish_file pub token source (fun _ => Ok relative) media_type expected_sha256 expected_size_bytes.

(** [CASPublisher]: the destination is the path of the digest. *)
Definition object_text (digest : ustr) : res ustr := let! p := object_path digest in Ok (as_posix p).
Definition cas_publish_bytes (pub : Publisher) (token : ustr) (payload : list N) (media_type : ustr) : D ArtifactRef :=
  let* path := lift (object_text (sha256_bytes payload)) in publish_bytes pub token path payload media_type.
Definition cas_publish_file (pub : Publisher) (token source media_type : ustr)
    (expected_sha256 : option ustr) (expected_size_bytes : option Z) : D ArtifactRef :=
  _publish_file pub token source object_text media_type expected_sha256 expected_size_bytes.

(** [StablePointerPublisher]: the pointer is replaced in one step, by a file that was read
    back. *)
Definition atomic_replace_bytes (channel token : ustr) (payload : list N) (media_type : ustr) : D ArtifactRef :=
  let* path := lift (channel_pointer_path channel) in
  let destination := as_posix path in
  let digest := sha256_bytes payload in
  let size := zlen payload in
  let temporary := incoming_channels token in
  let* _ := ensure_collection (parent_text path) in
  let* _ := ensure_collection (us "v1/.incoming/channels") in
  let* _ := with_cleanup
    (let* _ := put temporary (ret payload) true in
     let* _ := client_verify temporary digest size in
     let* _ := move temporary destination true in
     client_verify destination digest size)
    (delete_ temporary true) in
  lift (make_ref (artifact_ref digest size media_type destination)).
End Publisher.
Arguments Publisher {O} L.

(** ** READY and pointer files *)
Definition ready_members (r : GenerationReady) : list (ustr * json) :=
  [(us "generation_id", JStr (gr_generation_id r)); (us "manifest_sha256", JStr (gr_manifest_sha256 r));
   (us "schema_version", JStr (us "cardrag.generation-ready.v1"));
   (us "serving_database_sha256", JStr (gr_serving_database_sha256 r));
   (us "serving_database_size_bytes", JInt (gr_serving_database_size_bytes r))]
  ++ match gr_vector_sidecar_sha256 r with Some d => [(us "vector_sidecar_sha256", JStr d)] | None => [] end
  ++ match gr_vector_sidecar_size_bytes r with Some n => [(us "vector_sidecar_size_bytes", JInt n)] | None => [] end.
Definition ready_canonical_bytes (r : GenerationReady) : list N := canonical_json_bytes (JObj (ready_members r)).
Definition check_ready (r : GenerationReady) : res unit :=
  let! _ := validate_identifier (gr_generation_id r) "generation_id" in
  let! _ := validate_sha256 (gr_manifest_sha256 r) in
  let! _ := validate_sha256 (gr_serving_database_sha256 r) in
  let! _ := raise_if (gr_serving_database_size_bytes r <? 0) (ValueError "serving_database_size_bytes") in
  let! _ := match gr_vector_sidecar_sha256 r with Some d => let! _ := validate_sha256 d in Ok tt | None => Ok tt end in
  let! _ := raise_if (is_negative (gr_vector_sidecar_size_bytes r)) (ValueError "vector_sidecar_size_bytes") in
  raise_if (negb (Bool.eqb (present (gr_vector_sidecar_sha256 r)) (present (gr_vector_sidecar_size_bytes r))))
    (ValueError "vector sidecar SHA-256 and size must be provided together").
Definition pointer_canonical_bytes (p : GenerationPointer) : list N :=
  canonical_json_bytes (JObj [(us "generation_id", JStr (gp_generation p)); (us "manifest_sha256", JStr (gp_manifest_sha256 p));
                              (us "ready_sha256", JStr (gp_ready_sha256 p)); (us "schema_version", JStr (us "cardrag.generation-pointer.v1"))]).
Definition check_pointer (p : GenerationPointer) : res unit :=
  let! _ := validate_identifier (gp_generation p) "generation_id" in
  let! _ := validate_sha256 (gp_manifest_sha256 p) in
  let! _ := validate_sha256 (gp_ready_sha256 p) in
  Ok tt.

(** ** The publication of a generation *)
#[export] Instance artifact_ref_eq_dec : EqDecision ArtifactRef.
Proof. solve_decision. Defined.
Definition worker_error (message : string) : exn := Raised "WebDAVError" message.
Record PublishedBundle := { pbd_generation_id : ustr; pbd_index_sha256 : ustr; pbd_manifest_sha256 : ustr }.

(** What the bundle publisher uses of the worker's client: its channel, how it publishes a
    generation file, and the gate of its verification policy. *)
Record BundleClient {O : Outside} (L : Type) := {
  bc_channel : ustr;
  stable_publication_approved : bool;
  publish_generation_file : ustr -> ArtifactRef -> ustr -> ST (Session L) ArtifactRef;
  verification_gate : GenerationManifest -> ST (Session L) unit;
}.
Arguments bc_channel {O L} _. Arguments stable_publication_approved {O L} _.
Arguments publish_generation_file {O L} _ _ _ _. Arguments verification_gate {O L} _ _.

(** Everything of a publication that is computed before the first request. *)
Record bundle_plan := {
  bp_manifest : GenerationManifest;
  bp_manifest_body : list N;
  bp_manifest_path : ustr;
  bp_ready : GenerationReady;
  bp_ready_path : ustr;
  bp_vectors : option (ArtifactRef * ustr);
}.
Definition bp_manifest_sha256 (b : bundle_plan) : ustr := sha256_bytes (bp_manifest_body b).
Definition bp_ready_body (b : bundle_plan) : list N := ready_canonical_bytes (bp_ready b).
Definition bp_pointer (b : bundle_plan) : GenerationPointer :=
  {| gp_generation := gm_generation_id (bp_manifest b); gp_manifest_sha256 := bp_manifest_sha256 b;
     gp_ready_sha256 := sha256_bytes (bp_ready_body b) |}.
Record bundle_tokens := { tk_database : ustr; tk_vectors : ustr; tk_manifest : ustr; tk_ready : ustr; tk_pointer : ustr }.

Section Bundle.
Context {O : Outside} {codec : ControlCodec} {L : Type} (client : BundleClient L).
Notation D := (ST (Session L)).

(** An unattended publication without a verification policy. *)
Definition plain_client (channel : ustr) (approved : bool) : BundleClient L := {|
  bc_channel := channel; stable_publication_approved := approved;
  publish_generation_file token reference source :=
    publish_file ImmutablePublisher token (ar_path reference) source (ar_media_type reference) (Some (ar_sha256 reference))
      (Some (ar_size_bytes reference));
  verification_gate _ := ret tt |}.

Definition _guard_v5_stable_publication (schema_version : ustr) : res unit :=
  raise_if (has_vectors schema_version && bool_decide (bc_channel client = us "stable") && negb (stable_publication_approved client))
    (ValueError "stable v1.0.14 publication requires explicit approval").
Definition _require_exact_artifact (actual expected : ArtifactRef) (label : string) : res unit :=
  raise_if (negb (bool_decide (actual = expected))) (worker_error (label ++ " publisher returned a mismatched artifact identity")%string).
Definition plan_bundle (generation_id : ustr) (manifest : list (ustr * json)) (vectors : option ustr) : res bundle_plan :=
  let manifest_body := canonical_json_bytes (JObj manifest) in
  let! parsed := of_option (Raised "ValidationError" "GenerationManifest") (parse_manifest manifest_body) in
  let m := parsed.1 in
  let! _ := raise_if (negb (bool_decide (gm_generation_id m = generation_id))) (ValueError "generation manifest ID does not match publication target") in
  let! _ := _guard_v5_stable_publication (gm_schema_version m) in
  let! database_path := generation_database_path generation_id in
  let database := gm_serving_database m in
  let! _ := raise_if (negb (bool_decide (ar_path database = as_posix database_path))
                      || negb (bool_decide (ar_media_type database = us "application/vnd.sqlite3")))
              (ValueError "manifest serving_database is not bound to index.sqlite3") in
  let! sidecar :=
    if has_vectors (gm_schema_version m) then
      match vectors, gm_vector_sidecar m with
      | Some source, Some artifact =>
          let! vectors_path := generation_vectors_path generation_id in
          let! _ := raise_if (negb (bool_decide (ar_path artifact = as_posix vectors_path))
                              || negb (bool_decide (ar_media_type artifact = us "application/octet-stream")))
                      (ValueError "manifest vector_sidecar is not bound to vectors.f32") in
          Ok (Some (artifact, source))
      | _, _ => Err (ValueError "v5 publication requires a vector sidecar")
      end
    else
      let! _ := raise_if (present vectors || present (gm_vector_sidecar m))
                  (ValueError "legacy generation publication cannot contain a vector sidecar") in
      Ok None in
  let ready := {| gr_generation_id := generation_id; gr_manifest_sha256 := sha256_bytes manifest_body;
                  gr_serving_database_sha256 := ar_sha256 database; gr_serving_database_size_bytes := ar_size_bytes database;
                  gr_vector_sidecar_sha256 := (fun v : ArtifactRef * ustr => ar_sha256 v.1) <$> sidecar;
                  gr_vector_sidecar_size_bytes := (fun v : ArtifactRef * ustr => ar_size_bytes v.1) <$> sidecar |} in
  let! _ := check_ready ready in
  let! manifest_path := generation_manifest_path generation_id in
  let! ready_path := generation_ready_path generation_id in
  Ok {| bp_manifest := m; bp_manifest_body := manifest_body; bp_manifest_path := as_posix manifest_path;
        bp_ready := ready; bp_ready_path := as_posix ready_path; bp_vectors := sidecar |}.

Definition publish_control (token path : ustr) (payload : list N) (label : string) : D unit :=
  let* published := publish_bytes ImmutablePublisher token path payload (us "application/json") in
  lift (_require_exact_artifact published (artifact_ref (sha256_bytes payload) (zlen payload) (us "application/json") path) label).
Definition publish_member (token : ustr) (reference : ArtifactRef) (source : ustr) (label : string) : D unit :=
  let* published := publish_generation_file client token reference source in
  lift (_require_exact_artifact published reference label).
(** The members, the gate before the manifest and before READY. *)
Definition publish_members (b : bundle_plan) (tk : bundle_tokens) (database : ustr) : D unit :=
  let* _ := publish_member (tk_database tk) (gm_serving_database (bp_manifest b)) database "serving database" in
  let* _ := match bp_vectors b with
            | Some (artifact, source) => publish_member (tk_vectors tk) artifact source "vector sidecar"
            | None => ret tt
            end in
  let* _ := verification_gate client (bp_manifest b) in
  let* _ := publish_control (tk_manifest tk) (bp_manifest_path b) (bp_manifest_body b) "generation manifest" in
  let* _ := verification_gate client (bp_manifest b) in
  publish_control (tk_ready tk) (bp_ready_path b) (bp_ready_body b) "generation READY".
Definition publish_pointer (b : bundle_plan) (token : ustr) (path : posix_path) : D unit :=
  let pointer_body := pointer_canonical_bytes (bp_pointer b) in
  let* published := atomic_replace_bytes (bc_channel client) token pointer_body (us "application/json") in
  lift (_require_exact_artifact published (artifact_ref (sha256_bytes pointer_body) (zlen pointer_body) (us "application/json") (as_posix path))
          "channel pointer").
Definition publish_bundle (generation_id database : ustr) (manifest : list (ustr * json)) (vectors : option ustr)
    (before_pointer_replace : D unit) (tk : bundle_tokens) : D PublishedBundle :=
  let* b := lift (plan_bundle generation_id manifest vectors) in
  let* _ := publish_members b tk database in
  let* _ := lift (check_pointer (bp_pointer b)) in
  let* path := lift (channel_pointer_path (bc_channel client)) in
  let* _ := before_pointer_replace in
  let* _ := publish_pointer b (tk_pointer tk) path in
  ret {| pbd_generation_id := generation_id; pbd_index_sha256 := ar_sha256 (gm_serving_database (bp_manifest b));
         pbd_manifest_sha256 := bp_manifest_sha256 b |}.
End Bundle.

(** ** Reading a channel *)
Section Reader.
Context {O : Outside} {codec : ControlCodec} {L : Type} (channel : ustr).
Notation D := (ST (Session L)).

Definition _CONTROL_FILE_LIMIT : Z := 8 * 1024 * 1024.
Record CurrentGeneration := { cg_pointer : GenerationPointer; cg_ready : GenerationReady; cg_manifest : GenerationManifest }.
Definition ArtifactContractError (message : string) : exn := Raised "ArtifactContractError" message.
Definition _parse_canonical {A} (parse : list N -> option (A * list N)) (payload : list N) (label : string) : res A :=
  let! parsed := of_option (ArtifactContractError (label ++ " is not a valid strict manifest")) (parse payload) in
  let! _ := raise_if (negb (bool_decide (parsed.2 = payload))) (ArtifactContractError (label ++ " is not canonical JSON")) in
  Ok parsed.1.
Definition read_control (path : res posix_path) : D (list N) :=
  let* p := lift path in get (as_posix p) (Some _CONTROL_FILE_LIMIT).
Definition read_stable_pointer : D GenerationPointer :=
  let* payload := read_control (channel_pointer_path channel) in
  lift (_parse_canonical parse_pointer payload "stable generation pointer").
Definition read_generation_ready (generation_id : ustr) : D (GenerationReady * list N) :=
  let* payload := read_control (generation_ready_path generation_id) in
  let* ready := lift (_parse_canonical parse_ready payload "generation READY") in
  let* _ := lift (raise_if (negb (bool_decide (gr_generation_id ready = generation_id)))
                    (ArtifactContractError "generation READY ID does not match its path")) in
  ret (ready, payload).
Definition read_generation_manifest (generation_id : ustr) (expected_sha256 : option ustr) : D GenerationManifest :=
  let* payload := read_control (generation_manifest_path generation_id) in
  let* _ := lift (raise_if (match expected_sha256 with Some d => negb (bool_decide (sha256_bytes payload = d)) | None => false end)
                    (ArtifactContractError "generation manifest SHA-256 does not match READY")) in
  let* manifest := lift (_parse_canonical parse_manifest payload "generation manifest") in
  let* _ := lift (raise_if (negb (bool_decide (gm_generation_id manifest = generation_id)))
                    (ArtifactContractError "generation manifest ID does not match its path")) in
  ret manifest.
Definition check_sidecar_control (ready : GenerationReady) (manifest : GenerationManifest) : res unit :=
  if has_vectors (gm_schema_version manifest) then
    let! artifact := of_option (ArtifactContractError "v5 generation manifest does not declare a vector sidecar") (gm_vector_sidecar manifest) in
    let! path := generation_vectors_path (gm_generation_id manifest) in
    let! _ := raise_if (negb (bool_decide (path_of (ar_path artifact) = path)))
                (ArtifactContractError "vector sidecar path does not match its generation") in
    raise_if (negb (bool_decide (gr_vector_sidecar_sha256 ready = Some (ar_sha256 artifact)))
              || negb (bool_decide (gr_vector_sidecar_size_bytes ready = Some (ar_size_bytes artifact))))
      (ArtifactContractError "generation READY does not bind the vector sidecar")
  else raise_if (present (gm_vector_sidecar manifest) || present (gr_vector_sidecar_sha256 ready) || present (gr_vector_sidecar_size_bytes ready))
         (ArtifactContractError "legacy generation must not declare a vector sidecar").
Definition read_current_generation : D CurrentGeneration :=
  let* pointer := read_stable_pointer in
  let* ready_payload := read_generation_ready (gp_generation pointer) in
  let '(ready, ready_bytes) := ready_payload in
  let* _ := lift (raise_if (negb (bool_decide (sha256_bytes ready_bytes = gp_ready_sha256 pointer)))
                    (ArtifactContractError "stable pointer does not bind generation READY")) in
  let* _ := lift (raise_if (negb (bool_decide (gr_manifest_sha256 ready = gp_manifest_sha256 pointer)))
                    (ArtifactContractError "stable pointer and generation READY disagree on manifest")) in
  let* manifest := read_generation_manifest (gp_generation pointer) (Some (gr_manifest_sha256 ready)) in
  let database := gm_serving_database manifest in
  let* _ := lift (raise_if (negb (bool_decide (gr_serving_database_sha256 ready = ar_sha256 database))
                            || negb (gr_serving_database_size_bytes ready =? ar_size_bytes database))
                    (ArtifactContractError "generation READY does not bind the serving database")) in
  let* _ := lift (check_sidecar_control ready manifest) in
  ret {| cg_pointer := pointer; cg_ready := ready; cg_manifest := manifest |}.

Definition bound_object (reference : ArtifactRef) : res unit :=
  let! path := object_path (ar_sha256 reference) in
  raise_if (negb (bool_decide (path_of (ar_path reference) = path))) (ArtifactContractError "object reference is not bound to its CAS path").
Definition read_object (reference : ArtifactRef) (max_bytes : option Z) : D (list N) :=
  let* _ := lift (bound_object reference) in
  let limit := match max_bytes with Some m => Z.min m (ar_size_bytes reference) | None => ar_size_bytes reference end in
  let* payload := get (ar_path reference) (Some limit) in
  let* _ := lift (raise_if (negb (zlen payload =? ar_size_bytes reference) || negb (bool_decide (sha256_bytes payload = ar_sha256 reference)))
                    (ArtifactContractError "CAS object bytes do not match their artifact reference")) in
  ret payload.
Definition verify_reference (reference : ArtifactRef) : D VerifiedArtifact :=
  verify (ar_path reference) (ar_sha256 reference) (ar_size_bytes reference).
Definition download_reference (reference : ArtifactRef) : D (list N) :=
  download (ar_path reference) (Some (ar_sha256 reference)) (Some (ar_size_bytes reference)) None.
Definition verify_object (reference : ArtifactRef) : D VerifiedArtifact :=
  let* _ := lift (bound_object reference) in verify_reference reference.
Definition download_object (reference : ArtifactRef) : D (list N) :=
  let* _ := lift (bound_object reference) in download_reference reference.
Definition selected_generation (current : option CurrentGeneration) : D CurrentGeneration :=
  match current with Some c => ret c | None => read_current_generation end.
Definition bound_database (current : CurrentGeneration) : res ArtifactRef :=
  let database := gm_serving_database (cg_manifest current) in
  let! path := generation_database_path (gm_generation_id (cg_manifest current)) in
  let! _ := raise_if (negb (bool_decide (path_of (ar_path database) = path)))
              (ArtifactContractError "serving database path does not match its generation") in
  Ok database.
Definition download_serving_database (current : option CurrentGeneration) : D (list N) :=
  let* selected := selected_generation current in
  let* database := lift (bound_database selected) in
  download_reference database.
Definition verify_serving_database (current : option CurrentGeneration) : D VerifiedArtifact :=
  let* selected := selected_generation current in
  let* database := lift (bound_database selected) in
  verify_reference database.
Definition bound_sidecar (current : CurrentGeneration) : res ArtifactRef :=
  let m := cg_manifest current in
  match has_vectors (gm_schema_version m), gm_vector_sidecar m with
  | true, Some artifact =>
      let! path := generation_vectors_path (gm_generation_id m) in
      let! _ := raise_if (negb (bool_decide (path_of (ar_path artifact) = path)))
                  (ArtifactContractError "vector sidecar path does not match its generation") in
      let! _ := raise_if (negb (bool_decide (gr_vector_sidecar_sha256 (cg_ready current) = Some (ar_sha256 artifact)))
                          || negb (bool_decide (gr_vector_sidecar_size_bytes (cg_ready current) = Some (ar_size_bytes artifact))))
                  (ArtifactContractError "generation READY does not bind the vector sidecar") in
      Ok artifact
  | _, _ => Err (ArtifactContractError "selected generation has no v5 vector sidecar")
  end.
Definition download_vector_sidecar (current : option CurrentGeneration) : D (list N) :=
  let* selected := selected_generation current in
  let* artifact := lift (bound_sidecar selected) in
  download_reference artifact.
Definition verify_vector_sidecar (current : option CurrentGeneration) : D VerifiedArtifact :=
  let* selected := selected_generation current in
  let* artifact := lift (bound_sidecar selected) in
  verify_reference artifact.
End Reader.
