(* ===== verification/PublishProof.v ===== *)
(** What a publication does to the store, at each of its moments.

    [OutsideLaws] states what the code relies on: a GET delivers what is there; requests of
    the kinds the publishers send do not change what was created once; only a MOVE onto it
    changes the pointer of the channel, to the moved file or not at all; nobody else writes
    below a temporary name.  These hold of an RFC 4918 server whose other clients follow the
    same rules, with one publisher for a channel (the worker holds a lock). *)
From S2P Require Export Publish.
#[local] Open Scope Z_scope.
#[local] Opaque re_hex64 sha256_bytes validate_relative_path.

Definition private_path (p : ustr) : bool := startswith (us "v1/.incoming/") p.
Definition channel_path (p : ustr) : bool := startswith (us "v1/channels/") p.
Definition create_once (p : ustr) : bool := negb (private_path p) && negb (channel_path p).
(** The requests that publishers send: they write and delete temporary files only, and
    overwrite pointers only. *)
Definition polite (r : request) : bool :=
  match r with
  | HEAD _ | GET _ | MKCOL _ => true
  | PUT p _ _ => private_path p
  | MOVE s d overwrite => private_path s && (if overwrite then channel_path d else negb (channel_path d))
  | DELETE p => private_path p
  end.
Definition moves_onto (p : ustr) (r : request) : bool := match r with MOVE _ d _ => bool_decide (d = p) | _ => false end.

Class OutsideLaws (O : Outside) (pointer : ustr) := {
  holds : world -> ustr -> option (list N);
  pointer_is_channel : channel_path pointer = true;
  get_delivers : forall w p a w', send (GET p) w = (Some a, w') -> status a = 200 -> holds w p = Some (body a) \/ holds w' p = Some (body a);
  created_stays : forall r w p c, polite r = true -> create_once p = true -> holds w p = Some c -> holds (send r w).2 p = Some c;
  pointer_owned : forall r w, polite r = true -> moves_onto pointer r = false -> holds (send r w).2 pointer = holds w pointer;
  pointer_swapped : forall t w, private_path t = true ->
    holds (send (MOVE t pointer true) w).2 pointer = holds w pointer \/ holds (send (MOVE t pointer true) w).2 pointer = holds w t;
  private_stays : forall t w, private_path t = true -> holds (send (GET t) w).2 t = holds w t;
  looking_changes_nothing : forall q w p, holds (observe q w).2 p = holds w p;
}.

(** ** Facts that every quiet step keeps *)
Create HintDb quiet.
Section Laws.
Context {O : Outside} {pointer : ustr} {laws : OutsideLaws O pointer}.

Definition calm (r : request) : bool := polite r && negb (moves_onto pointer r).
Definition steady (I : world -> Prop) : Prop :=
  (forall r w, calm r = true -> I w -> I (send r w).2) /\ (forall q w, I w -> I (observe q w).2).
Lemma steady_and I J : steady I -> steady J -> steady (fun w => I w /\ J w).
Proof. intros [H1 H2] [H3 H4]. split; intros; naive_solver. Qed.
Lemma steady_or I J : steady I -> steady J -> steady (fun w => I w \/ J w).
Proof. intros [H1 H2] [H3 H4]. split; intros; naive_solver. Qed.

(** The file at a path, by its digest and size. *)
Definition named (p digest : ustr) (size : Z) (w : world) : Prop :=
  exists c, holds w p = Some c /\ sha256_bytes c = digest /\ zlen c = size.
Lemma steady_named p digest size : create_once p = true -> steady (named p digest size).
Proof.
  intros Hp. split.
  - intros r w [Hr _]%andb_true_iff (c & Hc & Hn). exists c. split; [by apply created_stays|done].
  - intros q w (c & Hc & Hn). exists c. by rewrite looking_changes_nothing.
Qed.
Lemma steady_pointer (c : option (list N)) : steady (fun w => holds w pointer = c).
Proof.
  split.
  - intros r w [Hr Hm%negb_true_iff]%andb_true_iff <-. by apply pointer_owned.
  - intros q w <-. apply looking_changes_nothing.
Qed.
Lemma steady_pointer_named digest size : steady (named pointer digest size).
Proof.
  split; intros x w; intros; destruct_and?.
  - destruct H0 as (c & Hc & Hn). exists c. split; [|done]. by apply (steady_pointer (Some c)).
  - destruct H as (c & Hc & Hn). exists c. split; [|done]. by apply (steady_pointer (Some c)).
Qed.
(** What was there before. *)
Definition kept_since (w0 w : world) : Prop := forall p c, create_once p = true -> holds w0 p = Some c -> holds w p = Some c.
Lemma steady_kept w0 : steady (kept_since w0).
Proof.
  split.
  - intros r w [Hr _]%andb_true_iff H p c Hp Hc. apply created_stays; [done..|]. by apply H.
  - intros q w H p c Hp Hc. rewrite looking_changes_nothing. by apply H.
Qed.

(** ** The operations keep them, at every moment *)
Section Ops.
Context {L : Type}.
Notation D := (ST (Session L)).
(** The moments of a run, from [s] to [s']. *)
Definition moments_since (s s' : Session L) (I : world -> Prop) : Prop := exists new, moments s' = new ++ moments s /\ Forall I new.
Definition always (I : world -> Prop) (s s' : Session L) : Prop := I (outside s') /\ moments_since s s' I.
Lemma always_refl I s : I (outside s) -> always I s s.
Proof. intros H. split; [done|]. by exists []. Qed.
Lemma always_trans I s1 s2 s3 : always I s1 s2 -> always I s2 s3 -> always I s1 s3.
Proof.
  intros [_ (n1 & E1 & H1)] [H (n2 & E2 & H2)]. split; [done|]. exists (n2 ++ n1). rewrite E2, E1, app_assoc. split; [done|]. by apply Forall_app.
Qed.
Lemma always_step (I : world -> Prop) s w : I w -> always I s {| outside := w; moments := w :: moments s; kept := kept s |}.
Proof. intros H. split; [done|]. exists [w]. split; [done|]. by constructor. Qed.
(** An operation is quiet if all it does is quiet. *)
Definition quietly {A} (m : D A) : Prop := forall I s, steady I -> I (outside s) -> ends (always I s) m s.
Lemma quietly_ret {A} (a : A) : quietly (ret a).
Proof. intros I s _ H. by apply ends_ret, always_refl. Qed.
Lemma quietly_throw {A} e : quietly (@throw _ A e).
Proof. intros I s _ H. by apply ends_throw, always_refl. Qed.
Lemma quietly_lift {A} (m : res A) : quietly (lift m).
Proof. intros I s _ H. by apply ends_lift, always_refl. Qed.
Lemma ends_from {A} (I : world -> Prop) s s1 (m : D A) :
  always I s s1 -> ends (always I s1) m s1 -> ends (always I s) m s1.
Proof. intros H Hm r s' Hrun. eapply always_trans; [exact H|by eapply Hm]. Qed.
Lemma quietly_bind {A B} (m : D A) (k : A -> D B) : quietly m -> (forall a, quietly (k a)) -> quietly (let* a := m in k a).
Proof.
  intros Hm Hk I s HI H. apply ends_bind; intros ? s1 Hrun; pose proof (Hm I s HI H _ _ Hrun) as H1; [done|].
  eapply ends_from; [exact H1|]. apply Hk; [done|apply H1].
Qed.
Lemma quietly_bind_lift {A B} (m : res A) (k : A -> D B) : (forall a, m = Ok a -> quietly (k a)) -> quietly (let* a := lift m in k a).
Proof. intros Hk I s HI H. apply ends_bind_lift; [by apply always_refl|]. intros a Ha. by apply Hk. Qed.
Lemma quietly_catch {A} (m : D A) handle : quietly m -> (forall e, quietly (handle e)) -> quietly (catch m handle).
Proof.
  intros Hm Hh I s HI H r s' Hrun. unfold catch in Hrun. destruct (m s) as [[a|e] s1] eqn:E; pose proof (Hm I s HI H _ _ E) as H1; [by injection Hrun as <- <-|].
  eapply ends_from; [exact H1| |exact Hrun]. apply Hh; [done|apply H1].
Qed.
Lemma quietly_iter {A} (f : A -> D unit) l : (forall a, quietly (f a)) -> quietly (iterM f l).
Proof. intros Hf. induction l as [|a l IH]; [apply quietly_ret|]. by apply quietly_bind. Qed.
Lemma quietly_send r : calm r = true -> quietly (outside_step (send r)).
Proof.
  intros Hr I s [HI _] H res s' Hrun. unfold outside_step in Hrun. specialize (HI r (outside s) Hr H). destruct (send r (outside s)) as [a w]. injection Hrun as <- <-.
  by apply always_step.
Qed.
Lemma quietly_observe q : quietly (outside_step (observe q)).
Proof.
  intros I s [_ HI] H res s' Hrun. unfold outside_step in Hrun. specialize (HI q (outside s) H). destruct (observe q (outside s)) as [a w]. injection Hrun as <- <-.
  by apply always_step.
Qed.
Lemma quietly_getL : quietly getL.
Proof. intros I s _ H r s' [= <- <-]. by apply always_refl. Qed.
Lemma quietly_putL l : quietly (putL l).
Proof. intros I s _ H r s' [= <- <-]. split; [done|]. by exists []. Qed.
Lemma relative_text_eq raw p : relative_text raw = Ok p -> p = raw.
Proof. unfold relative_text. intros H. inv_res H. by apply validate_relative_path_ok in Hr as [_ ->]. Qed.

Hint Resolve quietly_ret quietly_throw quietly_lift quietly_send quietly_observe quietly_getL quietly_putL : quiet.
Ltac quiet := repeat first
  [ solve [auto with quiet] | progress cbv zeta | apply quietly_bind_lift; intros ? ? | apply quietly_bind; [|intros ?] | apply quietly_catch; [|intros ?]
  | match goal with |- quietly (match ?x with _ => _ end) => destruct x end ].

Lemma quietly_request method r expected : calm r = true -> quietly (_request method r expected).
Proof. intros Hr. unfold _request. quiet. Qed.
Hint Resolve quietly_request : quiet.
Lemma quietly_head raw : quietly (head raw).
Proof. unfold head. quiet. Qed.
Hint Resolve quietly_head : quiet.
Lemma quietly_exists raw : quietly (exists_ raw).
Proof. unfold exists_. quiet. Qed.
Lemma quietly_stream p limit e : quietly (stream p limit e).
Proof. unfold stream. quiet. Qed.
Hint Resolve quietly_exists quietly_stream : quiet.
Lemma quietly_get raw limit : quietly (get raw limit).
Proof. unfold get. quiet. Qed.
Lemma quietly_verify_with raw d n limit : quietly (verify_with_metadata raw d n limit).
Proof. unfold verify_with_metadata. quiet. Qed.
Hint Resolve quietly_get quietly_verify_with : quiet.
Lemma quietly_verify raw d n : quietly (verify raw d n).
Proof. unfold verify. quiet. Qed.
Hint Resolve quietly_verify : quiet.
Lemma quietly_client_verify p d n : quietly (client_verify p d n).
Proof. unfold client_verify. quiet. Qed.
Lemma quietly_ensure raw : quietly (ensure_collection raw).
Proof. unfold ensure_collection, mkcol. quiet. apply quietly_iter. intros n. quiet. Qed.
Hint Resolve quietly_client_verify quietly_ensure : quiet.
Lemma quietly_put raw content inm : private_path raw = true -> quietly content -> quietly (put raw content inm).
Proof.
  intros Hp Hc. unfold put. apply quietly_bind_lift. intros p ->%relative_text_eq.
  assert (forall b, calm (PUT raw b inm) = true) as Hcalm by (intros b; unfold calm; cbn [polite moves_onto]; by rewrite Hp). quiet.
Qed.
Lemma quietly_delete raw ok : private_path raw = true -> quietly (delete_ raw ok).
Proof.
  intros Hp. unfold delete_. apply quietly_bind_lift. intros p ->%relative_text_eq. assert (calm (DELETE raw) = true) by (unfold calm; cbn [polite moves_onto]; by rewrite Hp). quiet.
Qed.
Lemma calm_move s d : private_path s = true -> channel_path d = false -> calm (MOVE s d false) = true.
Proof.
  intros Hs Hd. unfold calm. cbn [polite moves_onto]. rewrite Hs, Hd. cbn. rewrite bool_decide_eq_false_2; [done|]. intros ->.
  by rewrite pointer_is_channel in Hd.
Qed.
Lemma quietly_move s d : private_path s = true -> channel_path d = false -> quietly (move s d false).
Proof.
  intros Hs Hd. unfold move. apply quietly_bind_lift. intros p ->%relative_text_eq. apply quietly_bind_lift. intros q ->%relative_text_eq.
  pose proof (calm_move s d Hs Hd). quiet.
Qed.
Hint Resolve quietly_put quietly_delete quietly_move : quiet.
Lemma quietly_suppress (m : D unit) : quietly m -> quietly (suppress m).
Proof. intros H. unfold suppress. quiet. Qed.
Hint Resolve quietly_suppress : quiet.
Lemma quietly_cleanup {A} (m : D A) c : quietly m -> quietly c -> quietly (with_cleanup m c).
Proof. intros Hm Hc. unfold with_cleanup. quiet. Qed.
Lemma quietly_look q msg : quietly (look q msg).
Proof. unfold look. quiet. Qed.
Hint Resolve quietly_cleanup quietly_look : quiet.
Lemma quietly_identity source i : quietly (verify_source_identity source i).
Proof. unfold verify_source_identity. quiet. Qed.
Hint Resolve quietly_identity : quiet.
Lemma quietly_chunks source i : quietly (source_chunks source i).
Proof. unfold source_chunks. quiet. Qed.
Hint Resolve quietly_chunks : quiet.

(** ** What a verification establishes *)
Definition readable (p : ustr) : Prop := forall w c, holds w p = Some c -> holds (send (GET p) w).2 p = Some c.
Lemma readable_create_once p : create_once p = true -> readable p.
Proof. intros Hp w c. by apply created_stays. Qed.
Lemma readable_private p : private_path p = true -> readable p.
Proof. intros Hp w c. by rewrite private_stays. Qed.
Lemma readable_pointer : readable pointer.
Proof. intros w c. by rewrite pointer_owned. Qed.

Lemma stream_holds p limit e (s : Session L) : readable p -> runs (fun r s' => forall a, r = Ok a -> holds (outside s') p = Some (body a)) (stream p limit e) s.
Proof.
  intros Hp. unfold stream, _request. apply runs_bind, runs_bind. intros ? ? Hrun. unfold outside_step in Hrun.
  destruct (send (GET p) (outside s)) as [a w] eqn:E. injection Hrun as <- <-. destruct a as [a|]; [|by apply runs_throw].
  destruct (bool_decide (status a ∈ [200])) eqn:Hst; [|by apply runs_throw]. apply bool_decide_eq_true, list_elem_of_singleton in Hst.
  apply runs_ret. cbv zeta. apply runs_bind_lift; [done|intros _ _]. apply runs_ret. intros a' [= <-]. cbn [outside].
  destruct (get_delivers _ _ _ _ E Hst) as [H|H]; [|done]. apply Hp in H. by rewrite E in H.
Qed.
Lemma get_holds raw limit (s : Session L) : readable raw -> runs (fun r s' => forall c, r = Ok c -> holds (outside s') raw = Some c) (get raw limit) s.
Proof.
  intros Hp. unfold get. apply runs_bind_lift; [done|intros p ->%relative_text_eq]. apply runs_bind_lift; [done|intros _ _].
  apply runs_bind. eapply runs_mono; [by apply stream_holds|]. intros [a|] s1 H1; [|done]. apply runs_ret. intros c [= <-]. by apply H1.
Qed.
Lemma verify_named raw d n (s : Session L) : readable raw -> runs (fun r s' => forall va, r = Ok va -> named raw d n (outside s')) (client_verify raw d n) s.
Proof.
  intros Hp. unfold client_verify, verify, verify_with_metadata. do 2 apply runs_bind. apply runs_bind_lift; [done|intros p ->%relative_text_eq].
  apply runs_bind_lift; [done|intros d' Hd]. apply validate_sha256_ok in Hd as (-> & _ & _). do 2 (apply runs_bind_lift; [done|intros _ _]). cbv zeta.
  apply runs_bind. eapply runs_mono; [by apply stream_holds|]. intros [a|] s1 H1; [|done]. specialize (H1 a eq_refl).
  apply runs_bind_lift; [done|]. intros _ Hn%raise_if_ok. apply runs_bind_lift; [done|]. intros _ Hsha%raise_if_ok. bsplit.
  apply runs_ret, runs_ret, runs_ret. intros va _. exists (body a). split_and!; [done|done|lia].
Qed.

(** ** Publishers *)
Definition leaves {A} (I : world -> Prop) (r : res A) (s' : Session L) : Prop := forall a, r = Ok a -> I (outside s').
Lemma runs_after {A B} (Q : res B -> Session L -> Prop) (m : D A) (k : A -> D B) s :
  (forall e s1, Q (Err e) s1) -> (forall a s1, runs Q (k a) s1) -> runs Q (let* a := m in k a) s.
Proof. intros He Hk. apply runs_bind. intros [a|e] s1 _; [apply Hk|apply He]. Qed.
Lemma quietly_leaves {A} (m : D A) I s : quietly m -> steady I -> I (outside s) -> runs (fun _ s' => I (outside s')) m s.
Proof. intros Hm HI H r s' Hrun. by destruct (Hm I s HI H _ _ Hrun). Qed.
Lemma leaves_then {A B} (I : world -> Prop) (m : D A) (k : A -> D B) s :
  steady I -> runs (leaves I) m s -> (forall a, quietly (k a)) -> runs (leaves I) (let* a := m in k a) s.
Proof.
  intros HI Hm Hk. apply runs_bind. eapply runs_mono; [exact Hm|]. intros [a|e] s1 H1; [|done].
  eapply runs_mono; [apply (quietly_leaves (k a) I); [apply Hk|done|by eapply H1]|]. by intros r s2 H2 b ->.
Qed.
Lemma leaves_cleanup {A} (I : world -> Prop) (m : D A) c s :
  steady I -> runs (leaves I) m s -> quietly c -> runs (leaves I) (with_cleanup m c) s.
Proof.
  intros HI Hm Hc. unfold with_cleanup. apply leaves_then; [done| |intros a; quiet].
  apply runs_catch. eapply runs_mono; [exact Hm|]. intros [a|e] s1 H1; [by intros ? [= <-]; eapply H1|]. apply runs_after; [done|]. intros _ s2. by apply runs_throw.
Qed.

(** A publisher verifies what it says it has verified, and is quiet. *)
Class SoundPublisher (pub : Publisher L) := {
  quiet_remote : forall p d n, quietly (_verify_remote pub p d n);
  quiet_existing : forall p d n, quietly (_verify_existing pub p d n);
  quiet_collision : forall p d n, quietly (_verify_collision pub p d n);
  quiet_temporary : forall p d n, quietly (_verify_temporary pub p d n);
  quiet_before : forall p d n, quietly (_before_upload pub p d n);
  quiet_completed : forall p o, quietly (_move_completed pub p o);
  named_remote : forall p d n s, create_once p = true -> runs (leaves (named p d n)) (_verify_remote pub p d n) s;
  named_existing : forall p d n s, create_once p = true -> runs (leaves (named p d n)) (_verify_existing pub p d n) s;
  named_collision : forall p d n s, create_once p = true -> runs (leaves (named p d n)) (_verify_collision pub p d n) s;
}.
#[export] Instance immutable_sound : SoundPublisher ImmutablePublisher.
Proof. split; cbn; intros; try solve [quiet]; by apply verify_named, readable_create_once. Qed.
#[export] Instance generation_file_sound pub : SoundPublisher pub -> SoundPublisher (GenerationFilePublisher pub).
Proof. intros []. split; cbn; auto with quiet. Qed.

Lemma incoming_private token : private_path (incoming_publish token) = true.
Proof. reflexivity. Qed.
Lemma channels_private token : private_path (incoming_channels token) = true.
Proof. reflexivity. Qed.
Lemma create_once_not_channel p : create_once p = true -> channel_path p = false.
Proof. unfold create_once. intros [_ H%negb_true_iff]%andb_true_iff. done. Qed.

Section Sound.
Context (pub : Publisher L) {sound : SoundPublisher pub}.
Hint Resolve quiet_remote quiet_existing quiet_collision quiet_temporary quiet_before quiet_completed incoming_private create_once_not_channel : quiet.
Lemma quietly_move_into_place token p d n : create_once p = true -> quietly (move_into_place pub (incoming_publish token) p d n).
Proof. intros Hp. unfold move_into_place. quiet. Qed.
Hint Resolve quietly_move_into_place : quiet.
Lemma make_ref_ok reference a : make_ref reference = Ok a -> a = reference.
Proof. unfold make_ref. intros H. by inv_res H. Qed.
Lemma quietly_publish token p d n media content pre :
  create_once p = true -> quietly content -> quietly pre -> quietly (_publish pub token p d n media content pre).
Proof.
  intros Hp Hc Hpre. unfold _publish. apply quietly_bind_lift. intros path Hpath. apply validate_relative_path_ok in Hpath as [_ <-]. quiet.
Qed.
Lemma move_into_place_named token p d n s : create_once p = true -> runs (leaves (named p d n)) (move_into_place pub (incoming_publish token) p d n) s.
Proof. intros Hp. unfold move_into_place. apply runs_after; [done|]. intros [] s1; [by apply named_collision|by apply named_remote]. Qed.
Definition published_as (reference : ArtifactRef) (r : res ArtifactRef) (s' : Session L) : Prop :=
  forall a, r = Ok a -> a = reference /\ named (ar_path reference) (ar_sha256 reference) (ar_size_bytes reference) (outside s').
Lemma publish_named token p d n media content pre s :
  create_once p = true -> runs (published_as (artifact_ref d n media p)) (_publish pub token p d n media content pre) s.
Proof.
  intros Hp. unfold _publish. apply runs_bind_lift; [done|]. intros path Hpath. apply validate_relative_path_ok in Hpath as [_ <-].
  apply runs_bind_lift; [done|intros _ _]. cbv zeta. apply runs_after; [done|]. intros [] s1.
  - apply runs_bind. eapply runs_mono; [by apply named_existing|]. intros [[]|e] s2 H2; [|done]. apply runs_lift. intros a ->%make_ref_ok. split; [done|by eapply H2].
  - do 3 (apply runs_after; [done|intros ? ?]). apply runs_bind. eapply runs_mono.
    + apply (leaves_cleanup (named p d n)); [by apply steady_named| |auto with quiet].
      do 3 (apply runs_after; [done|intros ? ?]). by apply move_into_place_named.
    + intros [[]|e] sz Hz; [|done]. apply runs_lift. intros ? ->%make_ref_ok. split; [done|by eapply Hz].
Qed.

Lemma quietly_publish_bytes token p payload media : create_once p = true -> quietly (publish_bytes pub token p payload media).
Proof. intros Hp. unfold publish_bytes. apply quietly_bind_lift. intros q ->%relative_text_eq. by apply quietly_publish; auto with quiet. Qed.
Lemma publish_bytes_named token p payload media s :
  create_once p = true -> runs (published_as (artifact_ref (sha256_bytes payload) (zlen payload) media p)) (publish_bytes pub token p payload media) s.
Proof. intros Hp. unfold publish_bytes. apply runs_bind_lift; [done|]. intros q ->%relative_text_eq. by apply publish_named. Qed.

(** A file: the destination may depend on the digest. *)
Lemma quietly_publish_file token source factory media d n :
  (forall x p, factory x = Ok p -> create_once p = true) -> quietly (_publish_file pub token source factory media d n).
Proof.
  intros Hf. unfold _publish_file.
  repeat first [apply quietly_bind_lift; intros ? ? | apply quietly_bind; [solve [quiet]|intros ?] | progress cbv zeta].
  match goal with H : (let! raw := factory _ in _) = Ok _ |- _ => apply bind_ok in H as (raw & Hraw%Hf & ->%relative_text_eq) end.
  apply quietly_bind; [apply quietly_publish; quiet|intros ?; quiet].
Qed.
Lemma publish_file_named token source factory media d n s :
  (forall x p, factory x = Ok p -> create_once p = true) ->
  runs (fun r s' => forall a, r = Ok a -> exists p, factory d = Ok p /\ published_as (artifact_ref d n media p) r s')
    (_publish_file pub token source factory media (Some d) (Some n)) s.
Proof.
  intros Hf. unfold _publish_file. do 2 (apply runs_bind_lift; [done|intros _ _]). do 2 (apply runs_after; [done|intros ? ?]).
  apply runs_bind_lift; [done|intros _ _]. apply runs_after; [done|intros read ?]. cbv zeta. apply runs_after; [done|intros _ ?].
  apply runs_bind_lift; [done|intros _ _]. apply runs_bind_lift; [done|]. intros _ Hd%raise_if_ok. apply runs_bind_lift; [done|]. intros _ Hn%raise_if_ok. bsplit.
  apply runs_bind_lift; [done|]. intros p Hp. apply bind_ok in Hp as (raw & Hraw & ->%relative_text_eq). pose proof (Hf _ _ Hraw) as Hp.
  assert (zlen (view_content read) = n) as <- by lia. subst d.
  apply runs_bind. eapply runs_mono; [by apply publish_named|]. intros [reference|] sy Hy; [|done]. destruct (Hy reference eq_refl) as [-> Hnamed].
  apply runs_bind. eapply runs_mono; [apply (quietly_leaves (verify_source_identity source _)); [auto with quiet|by apply steady_named|exact Hnamed]|].
  intros [[]|] sz Hz; [|done]. apply runs_ret. intros ? [= <-]. exists raw. split; [done|]. by intros ? [= <-].
Qed.
End Sound.
End Ops.
End Laws.
