(* ===== verification/BundleProof.v ===== *)
(** The publication of a generation: at every moment the pointer of the channel names what it
    named before or the whole new generation, and what a reader of the channel then reads. *)
From S2P Require Export PublishProof.
#[local] Open Scope Z_scope.
#[local] Opaque re_hex64 re_SAFE_ID sha256_bytes validate_relative_path.

(** ** Paths below the generations and the objects are created once *)
Lemma create_once_generation g name p :
  (let! root := generation_root_path g in Ok (path_join root name)) = Ok p -> safe_segment name -> create_once (as_posix p) = true.
Proof. intros H Hn. inv_res H. apply generation_root_safe in Hr as [Hs ->]. by rewrite path_join_safe. Qed.
Lemma create_once_object d p : object_path d = Ok p -> create_once (as_posix p) = true.
Proof. intros [Hs ->]%object_path_shape. done. Qed.

Section Laws.
Context {O : Outside} {codec : ControlCodec} {pointer : ustr} {laws : OutsideLaws O pointer}.
Notation steady := (steady (pointer := pointer)).
Notation quietly := (quietly (pointer := pointer)).

(** ** The replacement of the pointer *)
Section Replace.
Context {L : Type}.
Notation D := (ST (Session L)).

(** Facts that survive the replacement of the pointer as well. *)
Definition enduring (I : world -> Prop) : Prop :=
  (forall r w, polite r = true -> I w -> I (send r w).2) /\ (forall q w, I w -> I (observe q w).2).
Lemma enduring_steady I : enduring I -> steady I.
Proof. intros [H1 H2]. split; [|done]. intros r w [Hr _]%andb_true_iff. by apply H1. Qed.
Lemma enduring_kept w0 : enduring (kept_since w0).
Proof.
  split; [intros r w Hr H p c Hp Hc; apply created_stays; [done..|]; by apply H|apply (steady_kept w0)].
Qed.
Lemma enduring_named p d n : create_once p = true -> enduring (named p d n).
Proof.
  intros Hp. split; [|by apply steady_named]. intros r w Hr (c & Hc & Hn). exists c. split; [by apply created_stays|done].
Qed.
Lemma enduring_and I J : enduring I -> enduring J -> enduring (fun w => I w /\ J w).
Proof. intros [H1 H2] [H3 H4]. split; intros; naive_solver. Qed.
Lemma enduring_all {A} (I : A -> world -> Prop) l : (forall a, a ∈ l -> enduring (I a)) -> enduring (fun w => Forall (fun a => I a w) l).
Proof.
  intros H. split.
  - intros r w Hr Hall. apply Forall_forall. intros a Ha. apply (H a Ha); [done|]. rewrite Forall_forall in Hall. by apply Hall.
  - intros q w Hall. apply Forall_forall. intros a Ha. apply (H a Ha). rewrite Forall_forall in Hall. by apply Hall.
Qed.

Lemma within_bind {A B} (I : world -> Prop) (m : D A) (k : A -> D B) s :
  ends (always I s) m s -> (forall a s1, m s = (Ok a, s1) -> I (outside s1) -> ends (always I s1) (k a) s1) -> ends (always I s) (let* a := m in k a) s.
Proof.
  intros Hm Hk. apply ends_bind; intros ? s1 Hrun; pose proof (Hm _ _ Hrun) as H1; [done|]. eapply ends_from; [exact H1|]. apply Hk; [done|apply H1].
Qed.
Lemma within_quiet {A} (I : world -> Prop) (m : D A) s : quietly m -> steady I -> I (outside s) -> ends (always I s) m s.
Proof. intros Hm. apply Hm. Qed.
Lemma within_cleanup {A} (I : world -> Prop) (m : D A) c s :
  steady I -> ends (always I s) m s -> quietly c -> ends (always I s) (with_cleanup m c) s.
Proof.
  intros HI Hm Hc. unfold with_cleanup. pose proof (quietly_suppress c Hc) as Hs. apply within_bind.
  - intros r s' Hrun. unfold catch in Hrun. destruct (m s) as [[a|e] s1] eqn:E; pose proof (Hm _ _ E) as H1; [by injection Hrun as <- <-|].
    eapply ends_from; [exact H1| |exact Hrun]. refine (quietly_bind (pointer := pointer) _ _ Hs _ _ _ HI (proj1 H1)). intros _. apply quietly_throw.
  - intros a s1 _ H1. refine (quietly_bind (pointer := pointer) _ _ Hs _ _ _ HI H1). intros _. apply quietly_ret.
Qed.

Context (I : world -> Prop) (Hend : enduring I) (before : option (list N)) (d : ustr) (n : Z).
(** The pointer is the old one, or the new one. *)
Definition switching (w : world) : Prop := I w /\ (holds w pointer = before \/ named pointer d n w).
Lemma steady_switching : steady switching.
Proof. apply steady_and; [by apply enduring_steady|]. apply steady_or; [apply steady_pointer|apply steady_pointer_named]. Qed.
Lemma move_switches t (s : Session L) :
  private_path t = true -> named t d n (outside s) -> switching (outside s) ->
  runs (fun _ s' => always switching s s') (move t pointer true) s.
Proof.
  intros Ht (c & Hc & Hn) [HI Hp]. unfold move. apply runs_bind_lift; [intros; by apply always_refl|]. intros x ->%relative_text_eq.
  apply runs_bind_lift; [intros; by apply always_refl|]. intros y ->%relative_text_eq. unfold _request. do 2 apply runs_bind.
  intros res s1 Hrun. unfold outside_step in Hrun. pose proof (pointer_swapped t (outside s) Ht) as Hswap.
  assert (polite (MOVE t pointer true) = true) as Hpolite by (cbn [polite]; by rewrite Ht, pointer_is_channel).
  pose proof (proj1 Hend _ _ Hpolite HI) as HI1. destruct (send (MOVE t pointer true) (outside s)) as [a w]. injection Hrun as <- <-. cbn [snd] in *.
  assert (switching w) as Hw.
  { split; [done|]. destruct Hswap as [E|E]; [|right; exists c; by rewrite E].
    destruct Hp as [Hp|(c' & Hc' & Hn')]; [left; by rewrite E|right; exists c'; by rewrite E]. }
  pose proof (always_step switching s w Hw) as Hstep. destruct a as [a|]; [|by apply runs_throw]. destruct (bool_decide _); [by do 2 apply runs_ret|by apply runs_throw].
Qed.

Context (channel : ustr) (path : posix_path) (Hchannel : channel_pointer_path channel = Ok path) (Hpointer : as_posix path = pointer).
Lemma replace_within token payload media (s : Session L) :
  d = sha256_bytes payload -> n = zlen payload -> I (outside s) -> holds (outside s) pointer = before ->
  ends (always switching s) (atomic_replace_bytes channel token payload media) s.
Proof.
  intros Hd Hn HI Hp. pose proof steady_switching as Hst. unfold atomic_replace_bytes. rewrite Hchannel.
  assert (switching (outside s)) as Hs by (split; [done|by left]).
  apply within_bind; [by apply ends_lift, always_refl|]. intros p s1 [= <- <-] _. cbv zeta. rewrite Hpointer.
  do 2 (apply within_bind; [by apply within_quiet; [apply quietly_ensure|..]|]; intros _ ? _ ?).
  apply within_bind; [|intros _ s3 _ H3; by apply within_quiet; [apply quietly_lift|..]].
  apply within_cleanup; [done| |by apply quietly_delete, channels_private]. pose proof (channels_private token) as Ht.
  apply within_bind; [apply within_quiet; [apply quietly_put; [done|apply quietly_ret]|done|done]|]. intros _ s3 _ H3.
  apply within_bind; [by apply within_quiet; [apply quietly_client_verify|..]|]. intros [] s4 Hver H4.
  pose proof (verify_named (incoming_channels token) _ _ s3 (readable_private _ Ht) _ _ Hver tt eq_refl) as Hnamed. rewrite <- Hd, <- Hn in Hnamed.
  apply within_bind; [|intros _ s5 _ H5; by apply within_quiet; [apply quietly_client_verify|..]].
  intros r s5 Hrun. exact (move_switches _ s4 Ht Hnamed H4 _ _ Hrun).
Qed.
Lemma replace_named token payload media (s : Session L) :
  d = sha256_bytes payload -> n = zlen payload ->
  runs (leaves (named pointer d n)) (atomic_replace_bytes channel token payload media) s.
Proof.
  intros -> ->. unfold atomic_replace_bytes. rewrite Hchannel. apply runs_bind_lift; [done|]. intros p [= <-]. cbv zeta. rewrite Hpointer.
  do 2 (apply runs_after; [done|intros ? ?]). apply (leaves_then (pointer := pointer)); [apply steady_pointer_named| |intros; apply quietly_lift].
  apply (leaves_cleanup (pointer := pointer)); [apply steady_pointer_named| |by apply quietly_delete, channels_private].
  do 3 (apply runs_after; [done|intros ? ?]). apply verify_named, readable_pointer.
Qed.
End Replace.

(** ** The members of a bundle *)
Section Members.
Context {L : Type}.
Notation D := (ST (Session L)).

Definition stored (reference : ArtifactRef) : world -> Prop := named (ar_path reference) (ar_sha256 reference) (ar_size_bytes reference).

(** What the bundle publisher relies on in the worker's client.  [trusted] is what the
    client has to know of its own records: nothing for a client without them. *)
Class SoundClient (client : BundleClient L) := {
  trusted : Session L -> Prop;
  quiet_file : forall token reference source, create_once (ar_path reference) = true -> quietly (publish_generation_file client token reference source);
  named_file : forall token reference source s, create_once (ar_path reference) = true -> trusted s ->
    runs (fun r s' => trusted s' /\ (r = Ok reference -> stored reference (outside s'))) (publish_generation_file client token reference source) s;
  quiet_gate : forall m, quietly (verification_gate client m);
}.
#[export] Instance plain_client_sound channel approved : SoundClient (plain_client channel approved).
Proof.
  refine {| trusted _ := True |}.
  - intros token reference source Hp. unfold plain_client, publish_file. cbn. apply quietly_bind_lift. intros q ->%relative_text_eq.
    apply quietly_publish_file; [apply _|]. by intros _ p [= <-].
  - intros token reference source s Hp _. unfold plain_client, publish_file. cbn. apply runs_bind_lift; [done|]. intros q ->%relative_text_eq.
    eapply runs_mono; [apply publish_file_named|]; [apply _|by intros _ p [= <-]|]. cbn. intros r s' H. split; [done|]. intros ->.
    destruct (H _ eq_refl) as (p & [= <-] & Hpub). apply (Hpub _ eq_refl).
  - intros m. apply quietly_ret.
Defined.

(** The files of a bundle. *)
Definition control_ref (path : ustr) (payload : list N) : ArtifactRef := artifact_ref (sha256_bytes payload) (zlen payload) (us "application/json") path.
Definition manifest_ref (b : bundle_plan) : ArtifactRef := control_ref (bp_manifest_path b) (bp_manifest_body b).
Definition ready_ref (b : bundle_plan) : ArtifactRef := control_ref (bp_ready_path b) (bp_ready_body b).
Definition members (b : bundle_plan) : list ArtifactRef :=
  gm_serving_database (bp_manifest b) :: match bp_vectors b with Some (artifact, _) => [artifact] | None => [] end.
Definition files (b : bundle_plan) : list ArtifactRef := members b ++ [manifest_ref b; ready_ref b].
Definition in_place (b : bundle_plan) (w : world) : Prop := Forall (fun reference => stored reference w) (files b).
Definition once (reference : ArtifactRef) : Prop := create_once (ar_path reference) = true.
Lemma enduring_in_place b : Forall once (files b) -> enduring (in_place b).
Proof. rewrite Forall_forall. intros H. apply enduring_all. intros a Ha. by apply enduring_named, H. Qed.
(** What a plan that is made says. *)
Record planned (client : BundleClient L) (generation_id : ustr) (manifest : list (ustr * json)) (b : bundle_plan) : Prop := {
  pl_body : bp_manifest_body b = canonical_json_bytes (JObj manifest);
  pl_manifest : exists c, parse_manifest (bp_manifest_body b) = Some (bp_manifest b, c);
  pl_id : gm_generation_id (bp_manifest b) = generation_id;
  pl_guard : _guard_v5_stable_publication client (gm_schema_version (bp_manifest b)) = Ok tt;
  pl_database : exists p, generation_database_path generation_id = Ok p /\ ar_path (gm_serving_database (bp_manifest b)) = as_posix p;
  pl_vectors : match bp_vectors b with
               | Some (artifact, _) => has_vectors (gm_schema_version (bp_manifest b)) = true /\ gm_vector_sidecar (bp_manifest b) = Some artifact
                   /\ exists p, generation_vectors_path generation_id = Ok p /\ ar_path artifact = as_posix p
               | None => has_vectors (gm_schema_version (bp_manifest b)) = false /\ gm_vector_sidecar (bp_manifest b) = None
               end;
  pl_manifest_path : exists p, generation_manifest_path generation_id = Ok p /\ bp_manifest_path b = as_posix p;
  pl_ready_path : exists p, generation_ready_path generation_id = Ok p /\ bp_ready_path b = as_posix p;
  pl_ready : bp_ready b =
    {| gr_generation_id := generation_id; gr_manifest_sha256 := bp_manifest_sha256 b;
       gr_serving_database_sha256 := ar_sha256 (gm_serving_database (bp_manifest b));
       gr_serving_database_size_bytes := ar_size_bytes (gm_serving_database (bp_manifest b));
       gr_vector_sidecar_sha256 := (fun v : ArtifactRef * ustr => ar_sha256 v.1) <$> bp_vectors b;
       gr_vector_sidecar_size_bytes := (fun v : ArtifactRef * ustr => ar_size_bytes v.1) <$> bp_vectors b |};
}.
Lemma plan_bundle_ok client generation_id manifest vectors b :
  plan_bundle client generation_id manifest vectors = Ok b -> planned client generation_id manifest b.
Proof.
  unfold plan_bundle. intros H. inv_res H. destruct r as [m c]. bsplit. cbn [fst snd] in *. destruct r1.
  split; cbn [bp_manifest bp_manifest_body bp_manifest_path bp_ready bp_ready_path bp_vectors]; [done|by eexists|done|done|by eexists| |by eexists|by eexists|done].
  - destruct (has_vectors _) eqn:Hv.
    + destruct vectors; [|done]. destruct (gm_vector_sidecar m); [|done]. inv_res Hr4. bsplit. eauto 6.
    + inv_res Hr4. bsplit. by destruct (gm_vector_sidecar m).
Qed.
Lemma planned_once client generation_id manifest b : planned client generation_id manifest b -> Forall once (files b).
Proof.
  intros [_ _ _ _ (p1 & H1 & E1) Hv (p2 & H2 & E2) (p3 & H3 & E3) _]. unfold once, files, members. cbn [app].
  apply Forall_cons; split; [rewrite E1; eapply create_once_generation; [exact H1|safe_const]|]. apply Forall_app. split.
  - destruct (bp_vectors b) as [[a src]|]; [|done]. destruct Hv as (_ & _ & p & Hp & E). apply Forall_singleton. rewrite E.
    eapply create_once_generation; [exact Hp|safe_const].
  - apply Forall_cons; split; [|apply Forall_singleton]; cbn [manifest_ref ready_ref control_ref artifact_ref ar_path]; [rewrite E2|rewrite E3]; (eapply create_once_generation; [eassumption|safe_const]).
Qed.
(** A step that stores one thing more. *)
Lemma runs_grow {A B} (I J : world -> Prop) (Q : res B -> Session L -> Prop) (m : D A) (k : A -> D B) s :
  quietly m -> steady I -> I (outside s) -> runs (leaves J) m s -> (forall e s1, Q (Err e) s1) ->
  (forall a s1, I (outside s1) /\ J (outside s1) -> runs Q (k a) s1) -> runs Q (let* a := m in k a) s.
Proof.
  intros Hm HI Hs HJ He Hk. apply runs_bind. intros [a|e] s1 Hrun; [|apply He]. apply Hk. split; [by destruct (Hm I s HI Hs _ _ Hrun)|by eapply HJ].
Qed.

Section Publication.
Context (client : BundleClient L) {sound : SoundClient client}.
Lemma quietly_member token reference source label : once reference -> quietly (publish_member client token reference source label).
Proof. intros H. unfold publish_member. apply quietly_bind; [by apply quiet_file|]. intros a. apply quietly_lift. Qed.
Lemma quietly_control token path payload label : create_once path = true -> quietly (@publish_control O L token path payload label).
Proof. intros H. unfold publish_control. apply quietly_bind; [apply quietly_publish_bytes; [apply _|done]|]. intros a. apply quietly_lift. Qed.
Lemma member_stored token reference source label s : once reference -> trusted s ->
  runs (fun r s' => trusted s' /\ (r = Ok tt -> stored reference (outside s'))) (publish_member client token reference source label) s.
Proof.
  intros Ho Ht. unfold publish_member. apply runs_bind. eapply runs_mono; [by apply named_file|]. intros [a|e] s1 [H1 H2]; [|done]. apply runs_lift.
  split; [done|]. unfold _require_exact_artifact. intros H%raise_if_ok. bsplit. subst. by apply H2.
Qed.
Lemma control_stored token path payload label s : create_once path = true ->
  runs (leaves (stored (control_ref path payload))) (@publish_control O L token path payload label) s.
Proof.
  intros Ho. unfold publish_control. apply runs_bind. eapply runs_mono; [by apply publish_bytes_named; [apply _|]|]. intros [a|e] s1 H1; [|done].
  apply runs_lift. intros [] _. apply (H1 a eq_refl).
Qed.

Context (b : bundle_plan) (tk : bundle_tokens) (database : ustr) (Honce : Forall once (files b)).
Lemma once_files r : r ∈ files b -> once r.
Proof. rewrite Forall_forall in Honce. apply Honce. Qed.
Lemma quietly_members : quietly (publish_members client b tk database).
Proof.
  unfold publish_members. apply quietly_bind; [apply quietly_member, once_files; left|intros _].
  apply quietly_bind; [|intros _; apply quietly_bind; [apply quiet_gate|intros _; apply quietly_bind; [|intros _; apply quietly_bind; [apply quiet_gate|intros _]]]].
  - pose proof once_files as H. unfold files, members in H. destruct (bp_vectors b) as [[a src]|]; [|apply quietly_ret]. apply quietly_member, H. right. left.
  - apply quietly_control. apply (once_files (manifest_ref b)), elem_of_app. right. left.
  - apply quietly_control. apply (once_files (ready_ref b)), elem_of_app. right. right. left.
Qed.
Lemma steady_stored l : (forall r, r ∈ l -> r ∈ files b) -> steady (fun w => Forall (fun r => stored r w) l).
Proof. intros H. apply enduring_steady, enduring_all. intros r Hr. by apply enduring_named, once_files, H. Qed.
Lemma quietly_stays {A} I (m : D A) s : quietly m -> steady I -> I (outside s) -> runs (fun _ s' => I (outside s')) m s.
Proof. apply quietly_leaves. Qed.
Lemma vectors_stored s : trusted s -> stored (gm_serving_database (bp_manifest b)) (outside s) ->
  runs (leaves (fun w => Forall (fun r => stored r w) (members b)))
    (match bp_vectors b with Some (artifact, source) => publish_member client (tk_vectors tk) artifact source "vector sidecar" | None => ret tt end) s.
Proof.
  intros Ht Hs. pose proof once_files as Ho. pose proof steady_stored [gm_serving_database (bp_manifest b)] as Hdb.
  unfold members, files, members in *. destruct (bp_vectors b) as [[a src]|].
  - eapply runs_mono; [apply runs_and; [by apply member_stored; [apply Ho; right; left|]|]|].
    + apply (quietly_stays (fun w => Forall (fun r => stored r w) [gm_serving_database (bp_manifest b)])); [apply quietly_member, Ho; right; left| |].
      * apply Hdb. intros r ->%list_elem_of_singleton. left.
      * by apply Forall_singleton.
    + intros r s' [[_ H1] H2] [] ->. apply Forall_app_2 with (l2 := [a]) in H2; [done|]. by apply Forall_singleton, H1.
  - apply runs_ret. intros _ _. by apply Forall_singleton.
Qed.
Lemma members_in_place s : trusted s -> runs (leaves (in_place b)) (publish_members client b tk database) s.
Proof.
  intros Ht. pose proof once_files as Ho.
  assert (create_once (bp_manifest_path b) = true) as Hm by (apply (Ho (manifest_ref b)), elem_of_app; right; left).
  assert (create_once (bp_ready_path b) = true) as Hr by (apply (Ho (ready_ref b)), elem_of_app; right; right; left).
  assert (steady (fun w => Forall (fun r => stored r w) (members b))) as Hst by (apply steady_stored; intros r H; by apply elem_of_app; left).
  assert (steady (fun w => Forall (fun r => stored r w) (members b ++ [manifest_ref b]))) as Hst2.
  { apply steady_stored. intros r [H|H]%elem_of_app; apply elem_of_app; [by left|right]. apply list_elem_of_singleton in H as ->. left. }
  unfold publish_members. apply runs_bind. eapply runs_mono; [apply member_stored; [apply Ho; left|done]|]. intros [[]|e] s1 [H1 H2]; [|done]. specialize (H2 eq_refl).
  apply runs_bind. eapply runs_mono; [by apply vectors_stored|]. intros [[]|e] s2 H3; [|done]. specialize (H3 tt eq_refl).
  apply (runs_grow _ (fun _ => True) _ _ _ _ (quiet_gate _) Hst H3); [by intros ? ? ? ?|done|]. intros _ s3 [H4 _].
  apply (runs_grow _ _ _ _ _ _ (quietly_control _ _ _ _ Hm) Hst H4 (control_stored _ _ _ _ _ Hm)); [done|]. intros _ s4 [H5 H6].
  assert (Forall (fun r => stored r (outside s4)) (members b ++ [manifest_ref b])) as H7 by (apply Forall_app; split; [done|by apply Forall_singleton]).
  apply (runs_grow _ (fun _ => True) _ _ _ _ (quiet_gate _) Hst2 H7); [by intros ? ? ? ?|done|]. intros _ s5 [H8 _].
  eapply runs_mono; [apply runs_and; [exact (control_stored _ _ _ _ _ Hr)|exact (quietly_stays _ _ _ (quietly_control _ _ _ _ Hr) Hst2 H8)]|].
  intros r s6 [H9 H10] [] ->. unfold in_place, files. replace [manifest_ref b; ready_ref b] with ([manifest_ref b] ++ [ready_ref b]) by done. rewrite app_assoc.
  apply Forall_app. split; [done|]. apply Forall_singleton. by apply (H9 tt).
Qed.
End Publication.
Lemma always_mono (I J : world -> Prop) (s s' : Session L) : (forall w, I w -> J w) -> always I s s' -> always J s s'.
Proof. intros H [H1 (new & E & H2)]. split; [by apply H|]. exists new. split; [done|]. eapply Forall_impl; [exact H2|exact H]. Qed.

(** ** The publication *)
Definition pointer_ref (b : bundle_plan) : ArtifactRef := control_ref pointer (pointer_canonical_bytes (bp_pointer b)).
(** The channel names the bundle, and every file of it is there. *)
Definition published (b : bundle_plan) (w : world) : Prop := stored (pointer_ref b) w /\ in_place b w.
(** A moment of a publication that began in [w0]: nothing created once is gone, and the
    pointer is untouched or names a whole bundle. *)
Definition whole (plan : res bundle_plan) (w0 w : world) : Prop :=
  kept_since w0 w /\ (holds w pointer = holds w0 pointer \/ exists b, plan = Ok b /\ published b w).
Definition publication (plan : res bundle_plan) (s : Session L) (r : res PublishedBundle) (s' : Session L) : Prop :=
  always (whole plan (outside s)) s s' /\ (forall a, r = Ok a -> exists b, plan = Ok b /\ published b (outside s')).

Context (client : BundleClient L) {sound : SoundClient client}.
Hypothesis the_channel : forall p, channel_pointer_path (bc_channel client) = Ok p -> as_posix p = pointer.

Lemma pointer_switches b token path (s s0 : Session L) :
  channel_pointer_path (bc_channel client) = Ok path -> Forall once (files b) ->
  kept_since (outside s0) (outside s) -> in_place b (outside s) -> holds (outside s) pointer = holds (outside s0) pointer ->
  runs (fun r s' => always (whole (Ok b) (outside s0)) s s' /\ (r = Ok tt -> published b (outside s'))) (publish_pointer client b token path) s.
Proof.
  intros Hpath Honce Hk Hin Hp. pose proof (the_channel _ Hpath) as Hpointer.
  pose proof (enduring_and _ _ (enduring_kept (outside s0)) (enduring_in_place _ Honce)) as Hend.
  unfold publish_pointer. cbv zeta. apply runs_bind.
  eapply runs_mono; [apply runs_and; [exact (replace_within _ Hend _ _ _ _ _ Hpath Hpointer token _ _ s eq_refl eq_refl (conj Hk Hin) Hp)|
                                      exact (replace_named _ _ _ _ Hpath Hpointer token _ _ s eq_refl eq_refl)]|].
  intros r s1 [H1 H2].
  assert (always (whole (Ok b) (outside s0)) s s1) as Hw.
  { eapply always_mono; [|exact H1]. intros w [[Hkw Hiw] [E|E]]; split; [done|by left|done|]. right. exists b. split; [done|]. by split. }
  destruct r as [a|e]; [|done]. apply runs_lift. split; [done|]. intros _. split; [by apply (H2 a)|apply H1].
Qed.
Lemma publish_bundle_switches generation_id database manifest vectors hook tk (s : Session L) :
  quietly hook -> trusted s ->
  runs (publication (plan_bundle client generation_id manifest vectors) s) (publish_bundle client generation_id database manifest vectors hook tk) s.
Proof.
  intros Hhook Ht. assert (whole (plan_bundle client generation_id manifest vectors) (outside s) (outside s)) as Hs by (split; [by intros ? ?|by left]).
  unfold publish_bundle. apply runs_bind_lift; [intros e _; split; [by apply always_refl|done]|]. intros b Hb. rewrite Hb in *.
  pose proof (planned_once _ _ _ _ (plan_bundle_ok _ _ _ _ _ Hb)) as Honce.
  set (I0 := fun w => kept_since (outside s) w /\ holds w pointer = holds (outside s) pointer).
  assert (steady I0) as HI0 by (apply steady_and; [apply steady_kept|apply steady_pointer]).
  assert (forall w, I0 w -> whole (Ok b) (outside s) w) as Hmono by (intros w [? ?]; split; [done|by left]).
  apply runs_bind. eapply runs_mono; [apply runs_and; [apply (quietly_members client b tk database Honce I0 s HI0); split; [by intros ? ?|done]|exact (members_in_place client b tk database Honce s Ht)]|].
  intros r s1 [H1 H2]. pose proof (always_mono _ _ _ _ Hmono H1) as Hw1. destruct r as [[]|e]; [|by split]. specialize (H2 tt eq_refl).
  apply runs_bind_lift; [by split|intros _ _]. apply runs_bind_lift; [by split|intros path Hpath].
  set (I1 := fun w => I0 w /\ in_place b w). assert (steady I1) as HI1 by (apply steady_and; [done|by apply enduring_steady, enduring_in_place]).
  apply runs_bind. eapply runs_mono; [apply (Hhook I1 s1 HI1); split; [apply H1|done]|]. intros r s2 H3.
  assert (always (whole (Ok b) (outside s)) s s2) as Hw2 by (eapply always_trans; [exact Hw1|]; eapply always_mono; [|exact H3]; intros w [H _]; by apply Hmono).
  destruct r as [[]|e]; [|by split]. destruct H3 as [[[Hk Hp] Hin] _].
  apply runs_bind. eapply runs_mono; [by eapply pointer_switches|]. intros r s3 [H4 H5]. pose proof (always_trans _ _ _ _ Hw2 H4) as Hw3.
  destruct r as [[]|e]; [|by split]. apply runs_ret. split; [done|]. intros a _. exists b. split; [done|]. by apply H5.
Qed.
End Members.
End Laws.
