(* ===== verification/BundleRead.v ===== *)
(** What a reader of the channel reads after a publication, and what a successful reading
    says of the files of the store. *)
From S2P Require Export BundleProof.
#[local] Open Scope Z_scope.
#[local] Opaque re_hex64 re_SAFE_ID sha256_bytes validate_relative_path canonical_json_bytes.

Definition collision : Prop := exists c1 c2 : list N, c1 <> c2 /\ sha256_bytes c1 = sha256_bytes c2.

Section Laws.
Context {O : Outside} {codec : ControlCodec} {pointer : ustr} {laws : OutsideLaws O pointer}.
Notation steady := (steady (pointer := pointer)).
Notation quietly := (quietly (pointer := pointer)).

(** While the server is up, a GET of what is there delivers it, with its length or none. *)
Definition answers (up : world -> Prop) : Prop := steady up /\ forall p c w, up w -> holds w p = Some c ->
  exists a w', send (GET p) w = (Some a, w') /\ status a = 200 /\ body a = c /\ (content_length a = None \/ content_length a = Some (zlen c)).

Section Reading.
Context {L : Type}.
Notation D := (ST (Session L)).

Lemma get_answers up raw p limit c (s : Session L) :
  answers up -> up (outside s) -> validate_relative_path raw = Ok p -> holds (outside s) raw = Some c -> 0 <= limit -> zlen c <= limit ->
  runs (fun r _ => r = Ok c) (get raw (Some limit)) s.
Proof.
  intros [_ Hup] Hs Hp Hc H0 Hl r s' Hrun. apply validate_relative_path_ok in Hp as Hp'. destruct Hp' as [_ Hraw].
  destruct (Hup _ _ _ Hs Hc) as (a & w & Hsend & Hst & Hb & Hlen). revert r s' Hrun. fold (runs (fun r (_ : Session L) => r = Ok c) (get raw (Some limit)) s).
  unfold get, relative_text. rewrite Hp. cbn [res_bind]. rewrite <- Hraw.
  apply runs_bind_lift; [done|]. intros ? [= <-]. cbn [is_negative]. apply runs_bind_lift; [intros e He|intros _ _].
  { unfold raise_if in He. destruct (limit <? 0) eqn:E; [lia|done]. }
  unfold stream, _request. do 3 apply runs_bind. intros ? ? Hrun. unfold outside_step in Hrun. rewrite Hsend in Hrun. injection Hrun as <- <-.
  rewrite Hst, bool_decide_eq_true_2 by (by left). apply runs_ret. cbv zeta. apply runs_bind_lift.
  - intros e He. unfold raise_if in He. replace (limit <? zlen (body a)) with false in He by (symmetry; apply Z.ltb_ge; by rewrite Hb).
    destruct Hlen as [E|E]; rewrite E in He; [done|]. replace (limit <? zlen c) with false in He by (symmetry; by apply Z.ltb_ge). done.
  - intros _ _. apply runs_ret, runs_ret. by rewrite Hb.
Qed.
Lemma control_read (path : res posix_path) p payload up (I : world -> Prop) (s : Session L) :
  answers up -> (forall w, I w -> up w) -> path = Ok p -> safe_path p -> stored (control_ref (as_posix p) payload) (outside s) -> zlen payload <= _CONTROL_FILE_LIMIT ->
  steady I -> I (outside s) ->
  runs (fun r s' => (r = Ok payload \/ collision) /\ I (outside s')) (read_control path) s.
Proof.
  intros Hup HIup -> Hp (c & Hc & Hsha & Hn) Hl HI HIs. unfold read_control. apply runs_bind_lift; [done|]. intros ? [= <-]. cbn in Hsha, Hn.
  apply runs_and; [|apply (quietly_leaves (pointer := pointer)); [apply quietly_get|done|done]].
  eapply runs_mono; [eapply get_answers; [done|by apply HIup|by apply validate_relative_path_ok|exact Hc|done|by rewrite Hn]|].
  intros r s' ->. destruct (decide (c = payload)) as [->|Hne]; [by left|right]. by exists c, payload.
Qed.
(** The control files of a plan are what their parsers read back, and of a size that
    readers accept. *)
Record legible (b : bundle_plan) : Prop := {
  lg_pointer : parse_pointer (pointer_canonical_bytes (bp_pointer b)) = Some (bp_pointer b, pointer_canonical_bytes (bp_pointer b));
  lg_ready : parse_ready (bp_ready_body b) = Some (bp_ready b, bp_ready_body b);
  lg_manifest : parse_manifest (bp_manifest_body b) = Some (bp_manifest b, bp_manifest_body b);
  lg_pointer_size : zlen (pointer_canonical_bytes (bp_pointer b)) <= _CONTROL_FILE_LIMIT;
  lg_ready_size : zlen (bp_ready_body b) <= _CONTROL_FILE_LIMIT;
  lg_manifest_size : zlen (bp_manifest_body b) <= _CONTROL_FILE_LIMIT;
}.
Definition generation_of (b : bundle_plan) : CurrentGeneration :=
  {| cg_pointer := bp_pointer b; cg_ready := bp_ready b; cg_manifest := bp_manifest b |}.

Lemma steady_published b : Forall once (files b) -> steady (published (pointer := pointer) b).
Proof. intros H. apply steady_and; [apply steady_pointer_named|by apply enduring_steady, enduring_in_place]. Qed.
Definition or_collision {A} (a : A) (r : res A) (_ : Session L) : Prop := r = Ok a \/ collision.
Lemma read_step {A B} (I : world -> Prop) (a : A) (x : B) (m : D A) (k : A -> D B) s :
  runs (fun r s' => or_collision a r s' /\ I (outside s')) m s -> (forall s1, I (outside s1) -> runs (or_collision x) (k a) s1) ->
  runs (or_collision x) (let* a := m in k a) s.
Proof.
  intros Hm Hk. apply runs_bind. eapply runs_mono; [exact Hm|]. intros r s1 [[->|Hc] HI]; [by apply Hk|].
  destruct r; [intros r' s2 _|]; by right.
Qed.
Lemma read_more {A B} (I : world -> Prop) (a : A) (x : B) (m : D A) (k : A -> D B) s :
  runs (fun r s' => or_collision a r s' /\ I (outside s')) m s -> steady I -> (forall a, quietly (k a)) ->
  (forall s1, I (outside s1) -> runs (or_collision x) (k a) s1) ->
  runs (fun r s' => or_collision x r s' /\ I (outside s')) (let* a := m in k a) s.
Proof.
  intros Hm HI Hq Hk. apply runs_bind. eapply runs_mono; [exact Hm|]. intros r s1 [H H1].
  destruct r as [a'|e]; [|by split; [destruct H as [H|H]; [done|by right]|]]. apply runs_and; [|by apply (quietly_leaves (pointer := pointer))].
  destruct H as [[= ->]|H]; [by apply Hk|]. intros r s2 _. by right.
Qed.
Lemma parse_canonical_back {A} (parse : list N -> option (A * list N)) payload x label :
  parse payload = Some (x, payload) -> _parse_canonical parse payload label = Ok x.
Proof. intros H. unfold _parse_canonical. rewrite H. cbn. unfold raise_if. by rewrite bool_decide_eq_true_2. Qed.
Lemma raise_unless (P : Prop) {H : Decision P} e : P -> raise_if (negb (bool_decide P)) e = Ok tt.
Proof. intros HP. by rewrite bool_decide_eq_true_2. Qed.

Lemma sidecar_control_planned (client : BundleClient L) generation_id manifest b :
  planned client generation_id manifest b -> check_sidecar_control (bp_ready b) (bp_manifest b) = Ok tt.
Proof.
  intros [_ _ Hid _ _ Hv _ _ Hr]. unfold check_sidecar_control. rewrite Hr, Hid. cbn [gr_vector_sidecar_sha256 gr_vector_sidecar_size_bytes].
  destruct (bp_vectors b) as [[a src]|].
  - destruct Hv as (-> & -> & p & Hp & E). cbn [of_option res_bind fmap option_fmap option_map fst]. rewrite Hp. cbn [res_bind].
    assert (safe_path p) as Hs by (apply built_path_safe; by eapply built_generation_vectors).
    rewrite E, path_of_safe, raise_unless by done. cbn [res_bind]. by rewrite !bool_decide_eq_true_2.
  - destruct Hv as [-> ->]. done.
Qed.
Section Published.
Context (client : BundleClient L) (generation_id : ustr) (manifest : list (ustr * json)) (b : bundle_plan).
Context (up : world -> Prop) (Hup : answers up) (Hplan : planned client generation_id manifest b) (Hleg : legible b).
(** The generation is published and the server is up. *)
Definition served_up (w : world) : Prop := published (pointer := pointer) b w /\ up w.
Lemma published_steady : steady served_up.
Proof. apply steady_and; [by eapply steady_published, planned_once|apply Hup]. Qed.
Lemma published_stored r w : r ∈ files b -> served_up w -> stored r w.
Proof. intros Hr [[_ H] _]. unfold in_place in H. rewrite Forall_forall in H. by apply H. Qed.
Lemma read_pointer channel path (s : Session L) :
  channel_pointer_path channel = Ok path -> as_posix path = pointer -> served_up (outside s) ->
  runs (fun r s' => or_collision (bp_pointer b) r s' /\ served_up (outside s')) (read_stable_pointer channel) s.
Proof.
  intros Hpath Hpointer HI. unfold read_stable_pointer. eapply read_more; [|apply published_steady|intros; apply quietly_lift|].
  - eapply (control_read _ path (pointer_canonical_bytes (bp_pointer b)) up served_up); [done|by intros w [_ ?]|exact Hpath|apply built_path_safe; by eapply built_channel| | |apply published_steady|done].
    + rewrite Hpointer. apply HI.
    + apply Hleg.
  - intros s1 _. apply runs_lift. left. apply parse_canonical_back, Hleg.
Qed.
Lemma read_ready (s : Session L) : served_up (outside s) ->
  runs (fun r s' => or_collision (bp_ready b, bp_ready_body b) r s' /\ served_up (outside s')) (read_generation_ready generation_id) s.
Proof.
  intros HI. unfold read_generation_ready. destruct (pl_ready_path _ _ _ _ Hplan) as (p & Hp & Ep).
  eapply read_more; [|apply published_steady|intros; repeat (apply quietly_bind; [apply quietly_lift|intros ?]); apply quietly_ret|].
  - eapply (control_read _ p (bp_ready_body b) up served_up); [done|by intros w [_ ?]|exact Hp|apply built_path_safe; by eapply built_generation_ready| | |apply published_steady|done].
    + rewrite <- Ep. apply published_stored; [|done]. apply elem_of_app. right. right. left.
    + apply Hleg.
  - intros s1 _. apply runs_bind_lift; rewrite (parse_canonical_back _ _ _ _ (lg_ready _ Hleg)); [done|]. intros ? [= <-].
    apply runs_bind_lift; (rewrite raise_unless; [|by rewrite (pl_ready _ _ _ _ Hplan)]); [done|]. intros _ _. apply runs_ret. by left.
Qed.
Lemma read_manifest (s : Session L) : served_up (outside s) ->
  runs (fun r s' => or_collision (bp_manifest b) r s' /\ served_up (outside s')) (read_generation_manifest generation_id (Some (bp_manifest_sha256 b))) s.
Proof.
  intros HI. unfold read_generation_manifest. destruct (pl_manifest_path _ _ _ _ Hplan) as (p & Hp & Ep).
  eapply read_more; [|apply published_steady|intros; repeat (apply quietly_bind; [apply quietly_lift|intros ?]); apply quietly_ret|].
  - eapply (control_read _ p (bp_manifest_body b) up served_up); [done|by intros w [_ ?]|exact Hp|apply built_path_safe; by eapply built_generation_manifest| | |apply published_steady|done].
    + rewrite <- Ep. apply published_stored; [|done]. apply elem_of_app. right. left.
    + apply Hleg.
  - intros s1 _. apply runs_bind_lift; (rewrite raise_unless; [|done]); [done|]. intros _ _.
    apply runs_bind_lift; rewrite (parse_canonical_back _ _ _ _ (lg_manifest _ Hleg)); [done|]. intros ? [= <-].
    apply runs_bind_lift; (rewrite raise_unless; [|by rewrite (pl_id _ _ _ _ Hplan)]); [done|]. intros _ _. apply runs_ret. by left.
Qed.
Lemma reads_published channel path (s : Session L) :
  channel_pointer_path channel = Ok path -> as_posix path = pointer -> served_up (outside s) ->
  runs (or_collision (generation_of b)) (read_current_generation channel) s.
Proof.
  intros Hpath Hpointer HI. unfold read_current_generation. pose proof (pl_ready _ _ _ _ Hplan) as Hr.
  eapply read_step; [by eapply read_pointer|]. intros s1 H1. cbn [bp_pointer gp_generation gp_manifest_sha256 gp_ready_sha256].
  rewrite (pl_id _ _ _ _ Hplan). eapply read_step; [by apply read_ready|]. intros s2 H2. cbn iota beta.
  apply runs_bind_lift; (rewrite raise_unless; [|done]); [done|intros _ _].
  apply runs_bind_lift; (rewrite raise_unless; [|by rewrite Hr]); [done|intros _ _].
  rewrite Hr. cbn [gr_manifest_sha256]. rewrite <- Hr. eapply read_step; [by apply read_manifest|]. intros s3 H3. cbv zeta.
  apply runs_bind_lift; [rewrite Hr|intros _ _]; cbn [gr_serving_database_sha256 gr_serving_database_size_bytes].
  { rewrite bool_decide_eq_true_2, Z.eqb_refl by done. done. }
  apply runs_bind_lift; rewrite (sidecar_control_planned _ _ _ _ Hplan); [done|intros _ _]. apply runs_ret. by left.
Qed.
End Published.

(** ** What a successful reading says *)
(** The pointer [c] read names, by their digests, the READY file and the manifest that are
    in the store, and READY names the database of the manifest. *)
Record bound (c : CurrentGeneration) (w : world) : Prop := {
  bd_ready : exists p bytes, generation_ready_path (gp_generation (cg_pointer c)) = Ok p /\ holds w (as_posix p) = Some bytes
      /\ sha256_bytes bytes = gp_ready_sha256 (cg_pointer c) /\ parse_ready bytes = Some (cg_ready c, bytes);
  bd_manifest : exists p bytes, generation_manifest_path (gp_generation (cg_pointer c)) = Ok p /\ holds w (as_posix p) = Some bytes
      /\ sha256_bytes bytes = gp_manifest_sha256 (cg_pointer c) /\ parse_manifest bytes = Some (cg_manifest c, bytes);
  bd_id : gm_generation_id (cg_manifest c) = gp_generation (cg_pointer c) /\ gr_generation_id (cg_ready c) = gp_generation (cg_pointer c);
  bd_database : gr_serving_database_sha256 (cg_ready c) = ar_sha256 (gm_serving_database (cg_manifest c))
      /\ gr_serving_database_size_bytes (cg_ready c) = ar_size_bytes (gm_serving_database (cg_manifest c));
  bd_sidecar : check_sidecar_control (cg_ready c) (cg_manifest c) = Ok tt;
}.
Lemma steady_holds p c : create_once p = true -> steady (fun w => holds w p = Some c).
Proof.
  intros Hp. split; [intros r w [Hr _]%andb_true_iff; by apply created_stays|]. intros q w H. by rewrite looking_changes_nothing.
Qed.
(** A file read is there. *)
Definition reads_file (path : res posix_path) (bytes : list N) (w : world) : Prop :=
  exists p, path = Ok p /\ create_once (as_posix p) = true /\ holds w (as_posix p) = Some bytes.
Lemma steady_reads_file path bytes : steady (reads_file path bytes).
Proof.
  split; intros x w; intros; destruct_and?.
  - destruct H0 as (p & Hp & Ho & H1). exists p. split_and!; [done..|]. by apply (steady_holds _ _ Ho).
  - destruct H as (p & Hp & Ho & H1). exists p. split_and!; [done..|]. by apply (steady_holds _ _ Ho).
Qed.
Lemma read_control_file path s : (forall p, path = Ok p -> create_once (as_posix p) = true) ->
  runs (fun r s' => forall c, r = Ok c -> reads_file path c (outside s')) (@read_control O L path) s.
Proof.
  intros Ho. unfold read_control. apply runs_bind_lift; [done|]. intros p ->. eapply runs_mono; [apply get_holds, readable_create_once, Ho; done|].
  intros r s' H c Hc. exists p. split_and!; [done|by apply Ho|by apply H].
Qed.
Lemma parse_canonical_ok {A} (parse : list N -> option (A * list N)) payload x label :
  _parse_canonical parse payload label = Ok x -> parse payload = Some (x, payload).
Proof. unfold _parse_canonical. intros H. inv_res H. bsplit. destruct r as [y c]. cbn in *. by subst. Qed.
Lemma ready_read generation_id (s : Session L) :
  runs (fun r s' => forall x, r = Ok x -> reads_file (generation_ready_path generation_id) x.2 (outside s')
    /\ parse_ready x.2 = Some x /\ gr_generation_id x.1 = generation_id) (read_generation_ready generation_id) s.
Proof.
  unfold read_generation_ready. apply runs_bind. eapply runs_mono; [apply read_control_file; intros p Hp; by eapply create_once_generation; [exact Hp|]|].
  intros [bytes|] s1 H1; [|done]. apply runs_bind_lift; [done|]. intros x Hx%parse_canonical_ok. apply runs_bind_lift; [done|]. intros _ Hid%raise_if_ok. bsplit.
  apply runs_ret. intros ? [= <-]. split_and!; [by apply H1|done|done].
Qed.
Lemma manifest_read generation_id digest (s : Session L) :
  runs (fun r s' => forall x, r = Ok x -> exists bytes, reads_file (generation_manifest_path generation_id) bytes (outside s')
    /\ sha256_bytes bytes = digest /\ parse_manifest bytes = Some (x, bytes) /\ gm_generation_id x = generation_id) (read_generation_manifest generation_id (Some digest)) s.
Proof.
  unfold read_generation_manifest. apply runs_bind. eapply runs_mono; [apply read_control_file; intros p Hp; by eapply create_once_generation; [exact Hp|]|].
  intros [bytes|] s1 H1; [|done]. apply runs_bind_lift; [done|]. intros _ Hd%raise_if_ok. apply runs_bind_lift; [done|]. intros x Hx%parse_canonical_ok.
  apply runs_bind_lift; [done|]. intros _ Hid%raise_if_ok. bsplit. apply runs_ret. intros ? [= <-]. exists bytes. split_and!; [by apply H1|done|done|done].
Qed.
Lemma quietly_read_manifest generation_id digest : quietly (@read_generation_manifest O codec L generation_id digest).
Proof.
  unfold read_generation_manifest. apply quietly_bind; [apply quietly_bind; [apply quietly_lift|intros p; apply quietly_get]|intros ?].
  repeat (apply quietly_bind; [apply quietly_lift|intros ?]). apply quietly_ret.
Qed.
Lemma read_bound channel (s : Session L) :
  runs (fun r s' => forall c, r = Ok c -> bound c (outside s')) (read_current_generation channel) s.
Proof.
  unfold read_current_generation. apply runs_after; [done|]. intros ptr s1.
  apply runs_bind. eapply runs_mono; [apply ready_read|]. intros [[ready bytes]|] s2 H2; [|done]. destruct (H2 _ eq_refl) as (Hfile & Hparse & Hid). cbn [fst snd] in *.
  apply runs_bind_lift; [done|]. intros _ Hsha%raise_if_ok. apply runs_bind_lift; [done|]. intros _ Hman%raise_if_ok.
  apply runs_bind. eapply runs_mono; [apply runs_and; [apply manifest_read|exact (quietly_leaves (pointer := pointer) _ _ s2 (quietly_read_manifest _ _) (steady_reads_file _ _) Hfile)]|].
  intros [m|] s3 [H3 H4]; [|done]. destruct (H3 _ eq_refl) as (mbytes & (mp & Hmp & _ & Hmh) & Hmsha & Hmparse & Hmid). destruct H4 as (rp & Hrp & _ & Hrh).
  cbv zeta. apply runs_bind_lift; [done|]. intros _ Hdb%raise_if_ok. apply runs_bind_lift; [done|]. intros [] Hside. bsplit. apply runs_ret. intros c [= <-].
  split; cbn [cg_pointer cg_ready cg_manifest]; [by exists rp, bytes|exists mp, mbytes; by rewrite <- Hman|by split|split; [done|lia]|done].
Qed.
Lemma steady_bound (c : CurrentGeneration) : steady (bound c).
Proof.
  split; intros x w; intros; destruct_and?.
  - destruct H0 as [(rp & rb & Hrp & Hr & Hrest) (mp & mb & Hmp & Hm & Hmrest) Hid Hdb Hside].
    assert (create_once (as_posix rp) = true) as Ho1 by (eapply create_once_generation; [exact Hrp|safe_const]).
    assert (create_once (as_posix mp) = true) as Ho2 by (eapply create_once_generation; [exact Hmp|safe_const]).
    split; [exists rp, rb|exists mp, mb|done|done|done]; split_and!; try done; [by apply (proj1 (steady_holds _ _ Ho1))|apply Hrest|apply Hrest|
      by apply (proj1 (steady_holds _ _ Ho2))|apply Hmrest|apply Hmrest].
  - destruct H as [(rp & rb & Hrp & Hr & Hrest) (mp & mb & Hmp & Hm & Hmrest) Hid Hdb Hside].
    split; [exists rp, rb|exists mp, mb|done|done|done]; rewrite looking_changes_nothing; done.
Qed.
Lemma quietly_download raw d n m : quietly (@download O L raw d n m).
Proof.
  unfold download. do 3 (apply quietly_bind; [apply quietly_lift|intros ?]). apply quietly_bind; [apply quietly_stream|intros ?].
  do 2 (apply quietly_bind; [apply quietly_lift|intros ?]). apply quietly_ret.
Qed.
Lemma downloaded raw d n (s : Session L) :
  runs (fun r _ => forall c, r = Ok c -> sha256_bytes c = d /\ zlen c = n) (download raw (Some d) (Some n) None) s.
Proof.
  unfold download. apply runs_bind_lift; [done|intros p _]. do 2 (apply runs_bind_lift; [done|intros _ _]). apply runs_after; [done|]. intros a s1.
  apply runs_bind_lift; [done|]. intros _ Hn%raise_if_ok. apply runs_bind_lift; [done|]. intros _ Hd%raise_if_ok. bsplit. apply runs_ret. intros c [= <-].
  split; [done|lia].
Qed.
Lemma database_downloaded channel (s : Session L) :
  runs (fun r s' => forall bytes, r = Ok bytes -> exists c, bound c (outside s') /\
      sha256_bytes bytes = ar_sha256 (gm_serving_database (cg_manifest c)) /\ zlen bytes = ar_size_bytes (gm_serving_database (cg_manifest c)))
    (download_serving_database channel None) s.
Proof.
  unfold download_serving_database, selected_generation. apply runs_bind. eapply runs_mono; [apply read_bound|]. intros [c|] s1 H1; [|done].
  specialize (H1 c eq_refl). apply runs_bind_lift; [done|]. intros reference Hr. unfold bound_database in Hr. inv_res Hr.
  unfold download_reference. eapply runs_mono; [apply runs_and; [apply downloaded|exact (quietly_leaves (pointer := pointer) _ _ s1 (quietly_download _ _ _ _) (steady_bound c) H1)]|].
  intros res s2 [H2 H3] bytes ->. exists c. split; [done|]. by apply H2.
Qed.
End Reading.
End Laws.
