(* ===== verification/PublishRuns.v ===== *)
(** The publication as a whole: what a create-once file, a published generation and a reading
    of the channel guarantee, with a server of files on which they run. *)
From S2P Require Export BundleRead.
#[local] Open Scope Z_scope.

(** ** A server of files, with faults

    A request of a broken connection gets no response, whether it was [Lost] on its way back
    or [Down] before it was acted on. *)
Inductive fault := Fine | Lost | Down.
Record server := { files_at : gmap ustr (list N); faults : list fault; locals : gmap ustr (list N); opened : option ustr }.
Definition reply (code : Z) (content : list N) : response := {| status := code; content_length := Some (zlen content); etag := None; body := content |}.
Definition serve (r : request) (f : gmap ustr (list N)) : response * gmap ustr (list N) :=
  match r with
  | HEAD p => match f !! p with Some c => ({| status := 200; content_length := Some (zlen c); etag := None; body := [] |}, f) | None => (reply 404 [], f) end
  | GET p => match f !! p with Some c => (reply 200 c, f) | None => (reply 404 [], f) end
  | MKCOL _ => (reply 201 [], f)
  | PUT p (Some c) inm => if inm && present (f !! p) then (reply 412 [], f) else (reply 201 [], <[p := c]> f)
  | PUT _ None _ => (reply 400 [], f)
  | MOVE s d overwrite =>
      match f !! s with
      | None => (reply 404 [], f)
      | Some c => if negb overwrite && present (f !! d) then (reply 412 [], f) else (reply 201 [], <[d := c]> (delete s f))
      end
  | DELETE p => (reply 204 [], delete p f)
  end.
Definition server_send (r : request) (w : server) : option response * server :=
  let later f := {| files_at := f; faults := tail (faults w); locals := locals w; opened := opened w |} in
  let '(a, f) := serve r (files_at w) in
  match default Fine (hd_error (faults w)) with
  | Fine => (Some a, later f)
  | Lost => (None, later f)
  | Down => (None, later (files_at w))
  end.
Definition view_of (w : server) (p : option ustr) : option file_view :=
  p ← p; c ← locals w !! p;
  Some {| is_regular := true; view_identity := {| st_dev := 1; st_ino := 1; st_size := zlen c; st_mtime := 0; st_ctime_ns := 0 |}; view_content := c |}.
Definition server_observe (q : file_question) (w : server) : option file_view * server :=
  match q with
  | OpenSource p => (view_of w (Some p), {| files_at := files_at w; faults := faults w; locals := locals w; opened := Some p |})
  | StatSource p => (view_of w (Some p), w)
  | FstatSource | ReadSource => (view_of w (opened w), w)
  end.
#[export] Instance served : Outside := {| world := server; send := server_send; observe := server_observe |}.

Lemma serve_keeps r f p c : polite r = true -> create_once p = true -> f !! p = Some c -> (serve r f).2 !! p = Some c.
Proof.
  unfold create_once. intros Hr [Hpriv%negb_true_iff Hchan%negb_true_iff]%andb_true_iff Hp.
  destruct r as [q|q|q|q b inm|s d ow|q]; cbn [serve polite] in *; try done; try (by case_match).
  - destruct b as [b|]; [|done]. case_match; [done|]. cbn [snd]. rewrite lookup_insert_ne; [done|]. intros ->. congruence.
  - apply andb_true_iff in Hr as [Hs Hd]. destruct (f !! s) as [x|] eqn:Es; [|done]. destruct (negb ow && present (f !! d)) eqn:E; [done|]. cbn [snd].
    assert (d <> p) as Hdp. { intros ->. rewrite Hp in E. destruct ow; [congruence|done]. }
    rewrite lookup_insert_ne, lookup_delete_ne; [done| |done]. intros ->. congruence.
  - cbn [snd]. rewrite lookup_delete_ne; [done|]. intros ->. congruence.
Qed.
Lemma private_not_channel p : private_path p = true -> channel_path p = true -> False.
Proof.
  unfold private_path, channel_path. repeat match goal with |- context [us ?x] => let v := eval vm_compute in (us x) in change (us x) with v end.
  destruct p as [|a [|b [|c [|d p]]]]; cbn [startswith]; intros H H'; bsplit; try discriminate.
  repeat match goal with H : (_ =? _)%N = true |- _ => apply N.eqb_eq in H end. congruence.
Qed.
Definition server_pointer : ustr := us "v1/channels/candidate.json".
Lemma serve_pointer r f : polite r = true -> moves_onto server_pointer r = false -> (serve r f).2 !! server_pointer = f !! server_pointer.
Proof.
  assert (forall q, private_path q = true -> q <> server_pointer) as Hne by (intros q Hq ->; by eapply private_not_channel).
  intros Hr Hm. destruct r as [q|q|q|q b inm|s d ow|q]; cbn [serve polite moves_onto] in *; try done; try (by case_match).
  - destruct b as [b|]; [|done]. case_match; [done|]. cbn [snd]. apply lookup_insert_ne. by apply Hne.
  - apply andb_true_iff in Hr as [Hs _]. apply bool_decide_eq_false in Hm. destruct (f !! s) as [x|]; [|done]. destruct (negb ow && present (f !! d)); [done|]. cbn [snd].
    rewrite lookup_insert_ne by done. apply lookup_delete_ne. by apply Hne.
  - cbn [snd]. apply lookup_delete_ne. by apply Hne.
Qed.
Lemma serve_swap t f : private_path t = true ->
  (serve (MOVE t server_pointer true) f).2 !! server_pointer = f !! server_pointer \/ (serve (MOVE t server_pointer true) f).2 !! server_pointer = f !! t.
Proof. intros _. cbn [serve]. destruct (f !! t); [|by left]. right. cbn [negb andb snd]. by rewrite lookup_insert. Qed.
Lemma serve_get f p : (serve (GET p) f).2 = f.
Proof. cbn [serve]. by case_match. Qed.
Lemma send_files (P : gmap ustr (list N) -> Prop) r w : P (files_at w) -> P (serve r (files_at w)).2 -> P (files_at (send r w).2).
Proof. intros H1 H2. cbn [send served]. unfold server_send. destruct (serve r (files_at w)) as [a f]. by destruct (default _ _). Qed.
#[export, refine] Instance server_laws : OutsideLaws served server_pointer := { holds w p := files_at w !! p }.
Proof.
  - reflexivity.
  - intros w p a w' H Hst. left. cbn [send served] in H. unfold server_send in H. cbn [serve] in H.
    destruct (files_at w !! p) as [c|]; destruct (default _ _); try discriminate; injection H as <- <-; [done|by cbn in Hst].
  - intros r w p c Hr Hp Hc. apply (send_files (fun f => f !! p = Some c)); [done|by apply serve_keeps].
  - intros r w Hr Hm. apply (send_files (fun f => f !! server_pointer = files_at w !! server_pointer)); [done|by apply serve_pointer].
  - intros t w Ht. apply (send_files (fun f => f !! server_pointer = files_at w !! server_pointer \/ f !! server_pointer = files_at w !! t)); [by left|by apply serve_swap].
  - intros t w _. apply (send_files (fun f => f !! t = files_at w !! t)); [done|by rewrite serve_get].
  - by intros [] w p.
Defined.

(** ** A generation to publish *)
Definition sample_id : ustr := us "g7".
Definition sample_database : list N := [1; 2; 3]%N.
Definition sample_vectors : list N := [4; 5]%N.
Definition sample_members : list (ustr * json) := [(us "generation_id", JStr sample_id)].
Definition sample_body : list N := Eval vm_compute in canonical_json_bytes (JObj sample_members).
Definition sample_database_ref : ArtifactRef :=
  Eval vm_compute in artifact_ref (sha256_bytes sample_database) 3 (us "application/vnd.sqlite3") (us "v1/generations/g7/index.sqlite3").
Definition sample_vectors_ref : ArtifactRef :=
  Eval vm_compute in artifact_ref (sha256_bytes sample_vectors) 2 (us "application/octet-stream") (us "v1/generations/g7/vectors.f32").
Definition sample_generation : GenerationManifest :=
  {| gm_schema_version := us "cardrag.generation.v5"; gm_generation_id := sample_id; gm_serving_database := sample_database_ref;
     gm_documents := []; gm_vector_sidecar := Some sample_vectors_ref; gm_previous_generation_id := Some (us "g6") |}.
Definition sample_generation_ready : GenerationReady := Eval vm_compute in
  {| gr_generation_id := sample_id; gr_manifest_sha256 := sha256_bytes sample_body;
     gr_serving_database_sha256 := ar_sha256 sample_database_ref; gr_serving_database_size_bytes := 3;
     gr_vector_sidecar_sha256 := Some (ar_sha256 sample_vectors_ref); gr_vector_sidecar_size_bytes := Some 2 |}.
Definition sample_ready_body : list N := Eval vm_compute in ready_canonical_bytes sample_generation_ready.
Definition sample_generation_pointer : GenerationPointer := Eval vm_compute in
  {| gp_generation := sample_id; gp_manifest_sha256 := sha256_bytes sample_body; gp_ready_sha256 := sha256_bytes sample_ready_body |}.
Definition sample_pointer_body : list N := Eval vm_compute in pointer_canonical_bytes sample_generation_pointer.
Lemma sample_generation_valid : check_manifest_paths sample_generation = Ok tt.
Proof. by vm_compute. Qed.
(** A codec that knows the control files of the sample. *)
#[export, refine] Instance publication_codec : ControlCodec := {
  parse_manifest b := if bool_decide (b = sample_body) then Some (sample_generation, sample_body) else None;
  parse_ready b := if bool_decide (b = sample_ready_body) then Some (sample_generation_ready, sample_ready_body) else None;
  parse_pointer b := if bool_decide (b = sample_pointer_body) then Some (sample_generation_pointer, sample_pointer_body) else None;
  parse_ocr_manifest _ _ := None;
  parse_ocr_ready _ := None;
  parse_content_manifest _ := None;
  parse_content_ready _ := None;
}.
Proof.
  - intros b m c H. destruct (bool_decide (b = sample_body)); [|done]. injection H as <- <-. exact sample_generation_valid.
  - done.
  - done.
Defined.
Definition sample_tokens : bundle_tokens :=
  {| tk_database := us "t1"; tk_vectors := us "t2"; tk_manifest := us "t3"; tk_ready := us "t4"; tk_pointer := us "t5" |}.
Definition session_with (f : list fault) : Session unit :=
  {| outside := {| files_at := {[ server_pointer := [9]%N; us "v1/objects/sha256/aa/old" := [8]%N ]}; faults := f;
                   locals := {[ us "/db" := sample_database; us "/vec" := sample_vectors ]}; opened := None |};
     moments := []; kept := tt |}.
Definition candidate_client : BundleClient unit := plain_client (us "candidate") false.
Definition publishing (f : list fault) : res PublishedBundle * Session unit :=
  publish_bundle candidate_client sample_id (us "/db") sample_members (Some (us "/vec")) (ret tt) sample_tokens (session_with f).
Lemma publishing_run f : publish_bundle candidate_client sample_id (us "/db") sample_members (Some (us "/vec")) (ret tt) sample_tokens (session_with f)
  = ((publishing f).1, (publishing f).2).
Proof. exact (surjective_pairing _). Qed.
Lemma candidate_channel : channel_pointer_path (bc_channel candidate_client) = Ok [us "v1"; us "channels"; us "candidate.json"].
Proof. vm_compute. reflexivity. Qed.
Lemma candidate_pointer : as_posix [us "v1"; us "channels"; us "candidate.json"] = server_pointer.
Proof. vm_compute. reflexivity. Qed.
(** A publication that loses the answer to the replacement of the pointer. *)
Definition lost_at_the_pointer : list fault := repeat Fine 55 ++ [Lost].

Definition storing (s : Session unit) : res ArtifactRef * Session unit :=
  _publish ImmutablePublisher (us "t1") (us "v1/generations/g7/manifest.json") (sha256_bytes [1%N]) 1 (us "text/plain") (ret [1%N]) (ret tt) s.
Lemma storing_run s : _publish ImmutablePublisher (us "t1") (us "v1/generations/g7/manifest.json") (sha256_bytes [1%N]) 1 (us "text/plain") (ret [1%N]) (ret tt) s
  = ((storing s).1, (storing s).2).
Proof. exact (surjective_pairing _). Qed.
(** The answer to the MOVE of the file is lost: HEAD, six MKCOL, PUT and GET come before. *)
Definition lost_at_the_move : list fault := repeat Fine 9 ++ [Lost].
Definition server_up (w : server) : Prop := faults w = [].
Lemma server_answers : answers (pointer := server_pointer) server_up.
Proof.
  split; [split; [|by intros [] w]|].
  - intros r w _ H. unfold server_up in *. cbn [send served]. unfold server_send. rewrite H. by destruct (serve r (files_at w)).
  - intros p c w Hup Hc. exists (reply 200 c), {| files_at := files_at w; faults := tail (faults w); locals := locals w; opened := opened w |}.
    unfold server_up in Hup. cbn [send served holds server_laws] in *. unfold server_send. cbn [serve]. rewrite Hc, Hup. cbn. split_and!; [done..|by right].
Qed.
Definition sample_plan : res bundle_plan := plan_bundle candidate_client sample_id sample_members (Some (us "/vec")).
Definition planned_bundle : bundle_plan :=
  {| bp_manifest := sample_generation; bp_manifest_body := sample_body; bp_manifest_path := us "v1/generations/g7/manifest.json";
     bp_ready := sample_generation_ready; bp_ready_path := us "v1/generations/g7/READY.json"; bp_vectors := Some (sample_vectors_ref, us "/vec") |}.
Lemma sample_plan_made : plan_bundle candidate_client sample_id sample_members (Some (us "/vec")) = Ok planned_bundle.
Proof. vm_compute. reflexivity. Qed.
Lemma sample_legible : legible planned_bundle.
Proof. split; vm_compute; first [reflexivity|discriminate]. Qed.
Definition reading : res CurrentGeneration * Session unit := read_current_generation (us "candidate") (publishing []).2.
Lemma reading_run : read_current_generation (bc_channel candidate_client) (publishing []).2 = (reading.1, reading.2).
Proof. exact (surjective_pairing reading). Qed.
Definition downloading : res (list N) * Session unit := download_serving_database (us "candidate") None (publishing []).2.
Lemma downloading_run : download_serving_database (us "candidate") None (publishing []).2 = (downloading.1, downloading.2).
Proof. exact (surjective_pairing downloading). Qed.

(** ** The properties *)
(** C15: whatever the publisher, the faults and the point where it stops, the publication of an
    immutable file leaves every file that was created once and the channel pointer as they
    were, at every moment; if it returns, it returns the reference of the file, and the file
    with that digest and size is at its destination. *)
Theorem create_once_publication {O : Outside} {pointer} {laws : OutsideLaws O pointer} {L} (pub : Publisher L) {sound : SoundPublisher pub}
    token p d n media content pre (s s' : Session L) r :
  create_once p = true -> quietly (pointer := pointer) content -> quietly (pointer := pointer) pre ->
  _publish pub token p d n media content pre s = (r, s') ->
  always (fun w => kept_since (outside s) w /\ holds w pointer = holds (outside s) pointer) s s' /\
  (forall a, r = Ok a -> a = artifact_ref d n media p /\ stored a (outside s')).
Proof.
  intros Hp Hc Hpre Hrun. split.
  - refine (quietly_publish pub token p d n media content pre Hp Hc Hpre _ s _ _ _ _ Hrun); [apply steady_and; [apply steady_kept|apply steady_pointer]|].
    split; [by intros ? ?|done].
  - intros a ->. by destruct (publish_named pub token p d n media content pre s Hp _ _ Hrun a eq_refl) as [-> H].
Qed.

(** C5: a publication of a generation, wherever it stops: at every moment the files created
    once are all there, and the channel pointer is the one before, or names a generation whose
    database, vectors, manifest and READY are all in place with the digests and sizes that the
    pointer, READY and manifest give; when it returns, the pointer names the new one. *)
Theorem publication_switches_whole {O : Outside} {codec : ControlCodec} {pointer} {laws : OutsideLaws O pointer} {L} (client : BundleClient L)
    {sound : SoundClient client} generation_id database manifest vectors hook tk path (s s' : Session L) r :
  channel_pointer_path (bc_channel client) = Ok path -> as_posix path = pointer -> quietly (pointer := pointer) hook -> trusted s ->
  publish_bundle client generation_id database manifest vectors hook tk s = (r, s') ->
  always (fun w => kept_since (outside s) w /\ (holds w pointer = holds (outside s) pointer
            \/ exists b, plan_bundle client generation_id manifest vectors = Ok b /\ stored (pointer_ref (pointer := pointer) b) w /\ in_place b w)) s s' /\
  (forall a, r = Ok a -> exists b, plan_bundle client generation_id manifest vectors = Ok b /\
     stored (pointer_ref (pointer := pointer) b) (outside s') /\ in_place b (outside s')).
Proof.
  intros Hpath Hpointer Hhook Ht Hrun. refine (publish_bundle_switches client _ generation_id database manifest vectors hook tk s Hhook Ht _ _ Hrun).
  intros p Hp. rewrite Hpath in Hp. by injection Hp as <-.
Qed.



(** ** Witnesses *)
(** A lost answer to the MOVE, and the publication again. *)
Lemma create_once_publication_witness :
  (storing (session_with lost_at_the_move)).1 = Err (WebDAVError "MOVE") /\
  (storing (storing (session_with lost_at_the_move)).2).1 = Ok (artifact_ref (sha256_bytes [1%N]) 1 (us "text/plain") (us "v1/generations/g7/manifest.json")) /\
  stored (pointer := server_pointer) (artifact_ref (sha256_bytes [1%N]) 1 (us "text/plain") (us "v1/generations/g7/manifest.json"))
    (outside (storing (storing (session_with lost_at_the_move)).2).2).
Proof.
  assert ((storing (storing (session_with lost_at_the_move)).2).1 = Ok (artifact_ref (sha256_bytes [1%N]) 1 (us "text/plain") (us "v1/generations/g7/manifest.json"))) as H
    by (vm_compute; reflexivity).
  split; [vm_compute; reflexivity|]. split; [exact H|].
  refine (proj2 (proj2 (create_once_publication (pointer := server_pointer) ImmutablePublisher (us "t1") (us "v1/generations/g7/manifest.json") (sha256_bytes [1%N]) 1
    (us "text/plain") (ret [1%N]) (ret tt) _ _ _ _ (quietly_ret _) (quietly_ret _) (storing_run (storing (session_with lost_at_the_move)).2)) _ H)).
  vm_compute. reflexivity.
Defined.

Lemma publication_switches_whole_witness :
  (publishing lost_at_the_pointer).1 = Err (WebDAVError "MOVE") /\
  always (fun w => kept_since (outside (session_with lost_at_the_pointer)) w /\
      (holds w server_pointer = holds (outside (session_with lost_at_the_pointer)) server_pointer
       \/ exists b, plan_bundle candidate_client sample_id sample_members (Some (us "/vec")) = Ok b /\
            stored (pointer := server_pointer) (pointer_ref (pointer := server_pointer) b) w /\ in_place (pointer := server_pointer) b w))
    (session_with lost_at_the_pointer) (publishing lost_at_the_pointer).2.
Proof.
  split; [vm_compute; reflexivity|].
  exact (proj1 (publication_switches_whole (pointer := server_pointer) candidate_client sample_id (us "/db") sample_members (Some (us "/vec")) (ret tt)
    sample_tokens _ _ _ _ candidate_channel candidate_pointer (quietly_ret _) I (publishing_run lost_at_the_pointer))).
Defined.

Definition published_sample : PublishedBundle :=
  {| pbd_generation_id := sample_id; pbd_index_sha256 := ar_sha256 sample_database_ref; pbd_manifest_sha256 := sha256_bytes sample_body |}.
Lemma publishing_ok : (publishing []).1 = Ok published_sample.
Proof. vm_compute. reflexivity. Qed.

Lemma downloading_ok : downloading.1 = Ok sample_database.
Proof. vm_compute. reflexivity. Qed.
